(** * auto_PPT_gen: plan generation, slide rendering and the batch controller

    A shallow embedding of [services/geminiService.ts] ([generateSlidePlan],
    [createFallbackPlan], [generateFinalSlideImage]) and of the batch loop of
    [components/PreviewDownload.tsx] ([startGeneration]), with the properties
    the specification states about them.

    Conventions of the embedding:
    - a JavaScript string is the list of its UTF-16 code units;
    - [async] functions that [await] one call after the other are sequential
      programs: they are written in a state-and-exception monad over a
      [World] that answers the provider calls and records them;
    - the module is an ES module, hence strict-mode code: assigning a
      property on a primitive value or on [null] raises a [TypeError]. *)

From Stdlib Require Import String Ascii.
From Stdlib Require Import List NArith Bool Lia Arith.
Import ListNotations.
Open Scope N_scope.
Open Scope list_scope.

(* ===================================================================== *)
(** ** JavaScript strings *)
(* ===================================================================== *)

Module JsString.

(** A string value: its UTF-16 code units, in order. *)
Definition jsstring := list N.

(** Code units of a text given in UTF-8 (the encoding of this file), so
    that literals can be written as they are in the source. *)
Fixpoint utf16_bytes (bs : list N) : jsstring :=
  match bs with
  | [] => []
  | b0 :: rest =>
      if b0 <? 128 then b0 :: utf16_bytes rest
      else if b0 <? 224 then
        match rest with
        | b1 :: r => ((b0 - 192) * 64 + (b1 - 128)) :: utf16_bytes r
        | _ => []
        end
      else if b0 <? 240 then
        match rest with
        | b1 :: b2 :: r =>
            ((b0 - 224) * 4096 + (b1 - 128) * 64 + (b2 - 128)) :: utf16_bytes r
        | _ => []
        end
      else
        match rest with
        | b1 :: b2 :: b3 :: r =>
            let cp := (b0 - 240) * 262144 + (b1 - 128) * 4096
                      + (b2 - 128) * 64 + (b3 - 128) - 65536 in
            (55296 + cp / 1024) :: (56320 + cp mod 1024) :: utf16_bytes r
        | _ => []
        end
  end.

Definition utf16 (s : string) : jsstring :=
  utf16_bytes (map N_of_ascii (list_ascii_of_string s)).

Definition eqb (a b : jsstring) : bool :=
  if list_eq_dec N.eq_dec a b then true else false.

(** [s.startsWith(p)] *)
Fixpoint prefixb (p s : jsstring) : bool :=
  match p, s with
  | [], _ => true
  | _ :: _, [] => false
  | a :: p', b :: s' => (a =? b) && prefixb p' s'
  end.

(** [s.includes(needle)]: case-sensitive search for a substring. *)
Fixpoint includes (needle s : jsstring) : bool :=
  prefixb needle s ||
  match s with
  | [] => false
  | _ :: s' => includes needle s'
  end.

(** The text before the first occurrence of [sep] (all of [s] when there is
    none), and the text after that occurrence. *)
Fixpoint before (sep s : jsstring) : jsstring :=
  match s with
  | [] => []
  | c :: s' => if prefixb sep s then [] else c :: before sep s'
  end.

Fixpoint after (sep s : jsstring) : jsstring :=
  match s with
  | [] => []
  | _ :: s' => if prefixb sep s then skipn (length sep) s else after sep s'
  end.

(** [s.split(sep)] for a non-empty separator: cut at the first occurrence,
    go on in the rest.  Every round consumes at least one code unit, so
    [length s] rounds are always enough. *)
Fixpoint split_rounds (n : nat) (sep s : jsstring) : list jsstring :=
  match n with
  | O => [s]
  | S n' =>
      if includes sep s
      then before sep s :: split_rounds n' sep (after sep s)
      else [s]
  end.

Definition split (sep s : jsstring) : list jsstring :=
  split_rounds (S (length s)) sep s.

(** WhiteSpace and LineTerminator code units, the ones [trim] removes. *)
Definition is_trim_space (c : N) : bool :=
  (c =? 9) || (c =? 10) || (c =? 11) || (c =? 12) || (c =? 13) || (c =? 32)
  || (c =? 160) || (c =? 5760) || ((8192 <=? c) && (c <=? 8202))
  || (c =? 8232) || (c =? 8233) || (c =? 8239) || (c =? 8287)
  || (c =? 12288) || (c =? 65279).

Fixpoint trimStart (s : jsstring) : jsstring :=
  match s with
  | c :: s' => if is_trim_space c then trimStart s' else s
  | [] => []
  end.

Definition trimEnd (s : jsstring) : jsstring := rev (trimStart (rev s)).

Definition trim (s : jsstring) : jsstring := trimEnd (trimStart s).

(** [xs.join(sep)] *)
Fixpoint join (sep : jsstring) (xs : list jsstring) : jsstring :=
  match xs with
  | [] => []
  | [x] => x
  | x :: rest => x ++ sep ++ join sep rest
  end.

(** Decimal digits of a number, as [String(n)] prints a non-negative
    integer below 2^53. *)
Fixpoint digits_of_uint (d : Decimal.uint) : jsstring :=
  match d with
  | Decimal.Nil => []
  | Decimal.D0 r => 48 :: digits_of_uint r
  | Decimal.D1 r => 49 :: digits_of_uint r
  | Decimal.D2 r => 50 :: digits_of_uint r
  | Decimal.D3 r => 51 :: digits_of_uint r
  | Decimal.D4 r => 52 :: digits_of_uint r
  | Decimal.D5 r => 53 :: digits_of_uint r
  | Decimal.D6 r => 54 :: digits_of_uint r
  | Decimal.D7 r => 55 :: digits_of_uint r
  | Decimal.D8 r => 56 :: digits_of_uint r
  | Decimal.D9 r => 57 :: digits_of_uint r
  end.

Definition decimal (n : N) : jsstring := digits_of_uint (N.to_uint n).

(** Truthiness of a string: every string but the empty one. *)
Definition truthy_string (s : jsstring) : bool :=
  match s with [] => false | _ => true end.

End JsString.
Export JsString.

(* ===================================================================== *)
(** ** JavaScript values and JSON *)
(* ===================================================================== *)

Module Js.

(** The values the plan generator handles: what [JSON.parse] builds, plus
    [undefined] and the named properties the code adds afterwards (an
    array is an object too and can carry them).  A number keeps the text
    of its literal; the code never computes with one. *)
#[local] Unset Elimination Schemes.
Inductive JValue : Type :=
| JUndefined
| JNull
| JBool (b : bool)
| JNum (lexeme : jsstring)
| JStr (s : jsstring)
| JArr (elems : list JValue) (props : list (jsstring * JValue))
| JObj (props : list (jsstring * JValue)).
#[local] Set Elimination Schemes.

Definition Props := list (jsstring * JValue).

(** Induction over a value and the values inside it. *)
Section Induction.

Variable P : JValue -> Prop.
Hypothesis P_undefined : P JUndefined.
Hypothesis P_null : P JNull.
Hypothesis P_bool : forall b, P (JBool b).
Hypothesis P_num : forall lexeme, P (JNum lexeme).
Hypothesis P_str : forall s, P (JStr s).
Hypothesis P_arr :
  forall elems props,
    Forall P elems -> Forall (fun kv => P (snd kv)) props ->
    P (JArr elems props).
Hypothesis P_obj :
  forall props, Forall (fun kv => P (snd kv)) props -> P (JObj props).

Fixpoint JValue_ind (v : JValue) : P v :=
  match v with
  | JUndefined => P_undefined
  | JNull => P_null
  | JBool b => P_bool b
  | JNum lexeme => P_num lexeme
  | JStr s => P_str s
  | JArr elems props =>
      P_arr elems props
        ((fix go (l : list JValue) : Forall P l :=
            match l with
            | [] => Forall_nil P
            | x :: r => Forall_cons x (JValue_ind x) (go r)
            end) elems)
        ((fix go (l : list (jsstring * JValue))
            : Forall (fun kv => P (snd kv)) l :=
            match l with
            | [] => Forall_nil _
            | (k, x) :: r =>
                Forall_cons (P := fun kv => P (snd kv)) (k, x)
                            (JValue_ind x) (go r)
            end) props)
  | JObj props =>
      P_obj props
        ((fix go (l : list (jsstring * JValue))
            : Forall (fun kv => P (snd kv)) l :=
            match l with
            | [] => Forall_nil _
            | (k, x) :: r =>
                Forall_cons (P := fun kv => P (snd kv)) (k, x)
                            (JValue_ind x) (go r)
            end) props)
  end.

End Induction.

(** Own property lookup. *)
Fixpoint get_own (k : jsstring) (ps : Props) : option JValue :=
  match ps with
  | [] => None
  | (k', v) :: rest => if JsString.eqb k k' then Some v else get_own k rest
  end.

(** Define or overwrite an own property; an existing key keeps its place. *)
Fixpoint set_own (k : jsstring) (v : JValue) (ps : Props) : Props :=
  match ps with
  | [] => [(k, v)]
  | (k', v') :: rest =>
      if JsString.eqb k k' then (k, v) :: rest else (k', v') :: set_own k v rest
  end.

(** [o.k] for an object or array [o] and a name [k] that is neither an
    array index nor a property of the built-in prototypes ([slides],
    [style], [requirements], [selectedImageIds]).  A primitive has no such
    property either. *)
Definition get_prop (o : JValue) (k : jsstring) : JValue :=
  match o with
  | JObj ps | JArr _ ps =>
      match get_own k ps with Some v => v | None => JUndefined end
  | _ => JUndefined
  end.

(** [o.k = v] in strict mode: [None] is the [TypeError] raised when [o] is
    [undefined], [null] or a primitive. *)
Definition set_prop (o : JValue) (k : jsstring) (v : JValue) : option JValue :=
  match o with
  | JObj ps => Some (JObj (set_own k v ps))
  | JArr es ps => Some (JArr es (set_own k v ps))
  | _ => None
  end.

Definition is_digit (c : N) : bool := (48 <=? c) && (c <=? 57).

(** The digits of a number literal before its exponent. *)
Fixpoint mantissa (lexeme : jsstring) : jsstring :=
  match lexeme with
  | [] => []
  | c :: r => if (c =? 101) || (c =? 69) then [] else c :: mantissa r
  end.

(** ToBoolean.  A number literal is falsy when its mantissa has no digit
    but 0 (a literal so small that it rounds to 0 is not recognised). *)
Definition truthy (v : JValue) : bool :=
  match v with
  | JUndefined | JNull => false
  | JBool b => b
  | JNum lexeme =>
      existsb (fun c => (49 <=? c) && (c <=? 57)) (mantissa lexeme)
  | JStr s => truthy_string s
  | JArr _ _ | JObj _ => true
  end.

Definition of_option (o : option jsstring) : JValue :=
  match o with Some s => JStr s | None => JUndefined end.

End Js.
Export Js.

(* ===================================================================== *)
(** ** [JSON.parse] *)
(* ===================================================================== *)

(** The grammar of ECMA-404 as a pushdown automaton that reads one code
    unit at a time: a stack of the containers that are open and a mode that
    says what may come next.  [None] is the [SyntaxError]. *)
Module JsonParse.

Inductive Frame : Type :=
| FArr (done : list JValue)                          (* elements, last first *)
| FObj (done : Props) (key : option jsstring).        (* a key waits for its value *)

Inductive NumPhase : Type :=
| NMinus | NZero | NInt | NDot | NFrac | NExp | NExpSign | NExpDigits.

Inductive Mode : Type :=
| MValue                                   (* a value must come *)
| MArrStart                                (* after '[': a value or ']' *)
| MObjStart                                (* after '{': a key or '}' *)
| MKey                                     (* after ',' in an object: a key *)
| MColon                                   (* after a key: ':' *)
| MAfter                                   (* after a value in a container *)
| MDone (v : JValue)                       (* the text's value is complete *)
| MStr (acc : jsstring) (iskey : bool)     (* in a string; [acc] last first *)
| MEsc (acc : jsstring) (iskey : bool)     (* after a backslash *)
| MUni (acc : jsstring) (iskey : bool) (k : nat) (n : N)  (* \u, k digits read *)
| MNum (ph : NumPhase) (acc : jsstring)    (* in a number *)
| MLit (rest : jsstring) (v : JValue).     (* in true, false or null *)

Definition ParserState := (list Frame * Mode)%type.

Definition is_json_ws (c : N) : bool :=
  (c =? 32) || (c =? 9) || (c =? 10) || (c =? 13).

Definition hex_value (c : N) : option N :=
  if (48 <=? c) && (c <=? 57) then Some (c - 48)
  else if (97 <=? c) && (c <=? 102) then Some (c - 87)
  else if (65 <=? c) && (c <=? 70) then Some (c - 55)
  else None.

(** A complete value goes to the innermost open container. *)
Definition deliver (v : JValue) (stack : list Frame) : option ParserState :=
  match stack with
  | [] => Some ([], MDone v)
  | FArr done :: st => Some (FArr (v :: done) :: st, MAfter)
  | FObj done (Some k) :: st => Some (FObj (set_own k v done) None :: st, MAfter)
  | FObj _ None :: _ => None
  end.

(** The first code unit of a value. *)
Definition step_value (stack : list Frame) (m : Mode) (c : N) : option ParserState :=
  if is_json_ws c then Some (stack, m)
  else if c =? 34 then Some (stack, MStr [] false)
  else if c =? 123 then Some (FObj [] None :: stack, MObjStart)
  else if c =? 91 then Some (FArr [] :: stack, MArrStart)
  else if c =? 45 then Some (stack, MNum NMinus [c])
  else if c =? 48 then Some (stack, MNum NZero [c])
  else if is_digit c then Some (stack, MNum NInt [c])
  else if c =? 116 then Some (stack, MLit (utf16 "rue") (JBool true))
  else if c =? 102 then Some (stack, MLit (utf16 "alse") (JBool false))
  else if c =? 110 then Some (stack, MLit (utf16 "ull") JNull)
  else None.

(** After a complete value: a separator, the end of the container, or
    (at top level) nothing but white space. *)
Definition step_closed (st : ParserState) (c : N) : option ParserState :=
  match st with
  | (stack, MAfter) =>
      if is_json_ws c then Some (stack, MAfter)
      else match stack with
           | FArr done :: rest =>
               if c =? 44 then Some (stack, MValue)
               else if c =? 93 then deliver (JArr (rev done) []) rest
               else None
           | FObj done None :: rest =>
               if c =? 44 then Some (stack, MKey)
               else if c =? 125 then deliver (JObj done) rest
               else None
           | _ => None
           end
  | ([], MDone v) => if is_json_ws c then Some ([], MDone v) else None
  | _ => None
  end.

(** A number ends at the first code unit that cannot continue it; that
    code unit is then read as what follows a value. *)
Definition end_number (stack : list Frame) (acc : jsstring) (c : N)
  : option ParserState :=
  match deliver (JNum (rev acc)) stack with
  | Some st => step_closed st c
  | None => None
  end.

Definition step_number (stack : list Frame) (ph : NumPhase) (acc : jsstring)
  (c : N) : option ParserState :=
  let is_e := (c =? 101) || (c =? 69) in
  match ph with
  | NMinus =>
      if c =? 48 then Some (stack, MNum NZero (c :: acc))
      else if is_digit c then Some (stack, MNum NInt (c :: acc))
      else None
  | NZero =>
      if c =? 46 then Some (stack, MNum NDot (c :: acc))
      else if is_e then Some (stack, MNum NExp (c :: acc))
      else end_number stack acc c
  | NInt =>
      if is_digit c then Some (stack, MNum NInt (c :: acc))
      else if c =? 46 then Some (stack, MNum NDot (c :: acc))
      else if is_e then Some (stack, MNum NExp (c :: acc))
      else end_number stack acc c
  | NDot =>
      if is_digit c then Some (stack, MNum NFrac (c :: acc)) else None
  | NFrac =>
      if is_digit c then Some (stack, MNum NFrac (c :: acc))
      else if is_e then Some (stack, MNum NExp (c :: acc))
      else end_number stack acc c
  | NExp =>
      if (c =? 43) || (c =? 45) then Some (stack, MNum NExpSign (c :: acc))
      else if is_digit c then Some (stack, MNum NExpDigits (c :: acc))
      else None
  | NExpSign =>
      if is_digit c then Some (stack, MNum NExpDigits (c :: acc)) else None
  | NExpDigits =>
      if is_digit c then Some (stack, MNum NExpDigits (c :: acc))
      else end_number stack acc c
  end.

(** The closing quote of a string: a key waits for its colon, a string
    value is delivered. *)
Definition end_string (stack : list Frame) (acc : jsstring) (iskey : bool)
  : option ParserState :=
  if iskey then
    match stack with
    | FObj done None :: rest => Some (FObj done (Some (rev acc)) :: rest, MColon)
    | _ => None
    end
  else deliver (JStr (rev acc)) stack.

Definition step_escape (c : N) : option N :=
  if c =? 34 then Some 34 else if c =? 92 then Some 92
  else if c =? 47 then Some 47 else if c =? 98 then Some 8
  else if c =? 102 then Some 12 else if c =? 110 then Some 10
  else if c =? 114 then Some 13 else if c =? 116 then Some 9
  else None.

Definition step (st : ParserState) (c : N) : option ParserState :=
  let (stack, m) := st in
  match m with
  | MValue => step_value stack MValue c
  | MArrStart =>
      if c =? 93 then
        match stack with
        | FArr _ :: rest => deliver (JArr [] []) rest
        | _ => None
        end
      else step_value stack MArrStart c
  | MObjStart =>
      if is_json_ws c then Some (stack, MObjStart)
      else if c =? 34 then Some (stack, MStr [] true)
      else if c =? 125 then
        match stack with
        | FObj done _ :: rest => deliver (JObj done) rest
        | _ => None
        end
      else None
  | MKey =>
      if is_json_ws c then Some (stack, MKey)
      else if c =? 34 then Some (stack, MStr [] true)
      else None
  | MColon =>
      if is_json_ws c then Some (stack, MColon)
      else if c =? 58 then Some (stack, MValue)
      else None
  | MAfter | MDone _ => step_closed st c
  | MStr acc iskey =>
      if c =? 34 then end_string stack acc iskey
      else if c =? 92 then Some (stack, MEsc acc iskey)
      else if c <? 32 then None
      else Some (stack, MStr (c :: acc) iskey)
  | MEsc acc iskey =>
      if c =? 117 then Some (stack, MUni acc iskey 0 0)
      else match step_escape c with
           | Some d => Some (stack, MStr (d :: acc) iskey)
           | None => None
           end
  | MUni acc iskey k n =>
      match hex_value c with
      | Some d =>
          match k with
          | 3%nat => Some (stack, MStr ((n * 16 + d) :: acc) iskey)
          | _ => Some (stack, MUni acc iskey (S k) (n * 16 + d))
          end
      | None => None
      end
  | MNum ph acc => step_number stack ph acc c
  | MLit rest v =>
      match rest with
      | c' :: rest' =>
          if c =? c' then
            match rest' with
            | [] => deliver v stack
            | _ => Some (stack, MLit rest' v)
            end
          else None
      | [] => None
      end
  end.

Fixpoint run (st : ParserState) (s : jsstring) : option ParserState :=
  match s with
  | [] => Some st
  | c :: s' =>
      match step st c with
      | Some st' => run st' s'
      | None => None
      end
  end.

Definition num_complete (ph : NumPhase) : bool :=
  match ph with
  | NZero | NInt | NFrac | NExpDigits => true
  | _ => false
  end.

(** The end of the text. *)
Definition finish (st : ParserState) : option JValue :=
  match st with
  | ([], MDone v) => Some v
  | ([], MNum ph acc) => if num_complete ph then Some (JNum (rev acc)) else None
  | _ => None
  end.

Definition initial : ParserState := ([], MValue).

Definition JSON_parse (text : jsstring) : option JValue :=
  match run initial text with
  | Some st => finish st
  | None => None
  end.

End JsonParse.
Export JsonParse.

(* ===================================================================== *)
(** ** [JSON.stringify] *)
(* ===================================================================== *)

Module JsonStringify.

Definition hex_digit (d : N) : N := if d <? 10 then 48 + d else 87 + d.

(** [\uXXXX], four lower-case hexadecimal digits. *)
Definition unicode_escape (c : N) : jsstring :=
  [92; 117; hex_digit (c / 4096 mod 16); hex_digit (c / 256 mod 16);
   hex_digit (c / 16 mod 16); hex_digit (c mod 16)].

Definition is_high_surrogate (c : N) : bool := (55296 <=? c) && (c <=? 56319).
Definition is_low_surrogate (c : N) : bool := (56320 <=? c) && (c <=? 57343).

(** One code unit that is not half of a surrogate pair. *)
Definition quote_unit (c : N) : jsstring :=
  if c =? 34 then [92; 34]
  else if c =? 92 then [92; 92]
  else if c =? 8 then [92; 98]
  else if c =? 12 then [92; 102]
  else if c =? 10 then [92; 110]
  else if c =? 13 then [92; 114]
  else if c =? 9 then [92; 116]
  else if c <? 32 then unicode_escape c
  else if is_high_surrogate c || is_low_surrogate c then unicode_escape c
  else [c].

(** QuoteJSONString without the quotes: a well-formed surrogate pair stays
    as it is, a lone surrogate is escaped. *)
Fixpoint quote_body (s : jsstring) : jsstring :=
  match s with
  | [] => []
  | c :: rest =>
      if is_high_surrogate c then
        match rest with
        | d :: rest' =>
            if is_low_surrogate d then c :: d :: quote_body rest'
            else quote_unit c ++ quote_body rest
        | [] => quote_unit c
        end
      else quote_unit c ++ quote_body rest
  end.

Definition quote (s : jsstring) : jsstring := 34 :: quote_body s ++ [34].

(** The members of an object or array, joined by commas. *)
Fixpoint commas (xs : list (option jsstring)) : jsstring :=
  match xs with
  | [] => []
  | None :: rest => commas rest
  | Some x :: rest =>
      match commas rest with
      | [] => x
      | tail => x ++ 44 :: tail
      end
  end.

(** Serialization without indentation.  An array serializes its elements
    only, [undefined] among them as [null]; an object leaves out the
    properties whose value is [undefined]. *)
Fixpoint serialize (v : JValue) : jsstring :=
  match v with
  | JUndefined | JNull => utf16 "null"
  | JBool true => utf16 "true"
  | JBool false => utf16 "false"
  | JNum lexeme => lexeme
  | JStr s => quote s
  | JArr elems _ =>
      91 :: commas (map (fun e => Some (serialize e)) elems) ++ [93]
  | JObj props =>
      123 :: commas (map (fun kv : jsstring * JValue =>
                            let (k, x) := kv in
                            match x with
                            | JUndefined => None
                            | _ => Some (quote k ++ 58 :: serialize x)
                            end) props) ++ [125]
  end.

(** [JSON.stringify(v)]; it gives [undefined] for [undefined]. *)
Definition JSON_stringify (v : JValue) : option jsstring :=
  match v with
  | JUndefined => None
  | _ => Some (serialize v)
  end.

(** The number literals [JSON.parse] accepts, by the same phases. *)
Fixpoint number_phase (ph : NumPhase) (s : jsstring) : option NumPhase :=
  match s with
  | [] => Some ph
  | c :: r =>
      let is_e := (c =? 101) || (c =? 69) in
      match ph with
      | NMinus =>
          if c =? 48 then number_phase NZero r
          else if is_digit c then number_phase NInt r else None
      | NZero =>
          if c =? 46 then number_phase NDot r
          else if is_e then number_phase NExp r else None
      | NInt =>
          if is_digit c then number_phase NInt r
          else if c =? 46 then number_phase NDot r
          else if is_e then number_phase NExp r else None
      | NDot => if is_digit c then number_phase NFrac r else None
      | NFrac =>
          if is_digit c then number_phase NFrac r
          else if is_e then number_phase NExp r else None
      | NExp =>
          if (c =? 43) || (c =? 45) then number_phase NExpSign r
          else if is_digit c then number_phase NExpDigits r else None
      | NExpSign => if is_digit c then number_phase NExpDigits r else None
      | NExpDigits => if is_digit c then number_phase NExpDigits r else None
      end
  end.

Definition is_number_literal (s : jsstring) : bool :=
  match s with
  | [] => false
  | c :: r =>
      let start :=
        if c =? 45 then Some NMinus
        else if c =? 48 then Some NZero
        else if is_digit c then Some NInt else None in
      match start with
      | Some ph =>
          match number_phase ph r with
          | Some ph' => num_complete ph'
          | None => false
          end
      | None => false
      end
  end.

(** A value that a JSON text denotes: no [undefined], no named property on
    an array, and every number a number literal. *)
Fixpoint is_json (v : JValue) : bool :=
  match v with
  | JUndefined => false
  | JNull | JBool _ | JStr _ => true
  | JNum lexeme => is_number_literal lexeme
  | JArr elems props =>
      forallb is_json elems && match props with [] => true | _ => false end
  | JObj props => forallb (fun kv => is_json (snd kv)) props
  end.

End JsonStringify.
Export JsonStringify.

(* ===================================================================== *)
(** ** Data model ([types.ts]) *)
(* ===================================================================== *)

Inductive Language : Type := En | Zh.

Inductive Provider : Type := Google | Zenmux.

Inductive LogType : Type := LogRequest | LogResponse | LogError | LogInfo.

(** A [LogEntry] without its timestamp; of the free-form fields it keeps
    the ones that are text. *)
Record LogEntry : Type := {
  log_type : LogType;
  log_url : option jsstring;
  log_method : option jsstring;
  log_message : option jsstring
}.

Record UploadedFile : Type := {
  file_id : jsstring;
  file_dataUrl : option jsstring
}.

Record SlideData : Type := {
  id : jsstring;
  title : jsstring;
  bullets : list jsstring;
  visualNote : jsstring;
  selectedImageIds : option (list jsstring)
}.

Record PresentationPlan : Type := {
  topic : jsstring;
  style : option jsstring;
  requirements : option jsstring;
  slides : list SlideData
}.

(* ===================================================================== *)
(** ** Errors, provider calls and the world *)
(* ===================================================================== *)

Module Runtime.

(** What the code throws and catches: [Error] objects.  A promise that
    rejects with something else ([null], [undefined], a string) is not
    described. *)
Record JsError : Type := {
  err_name : jsstring;
  err_message : jsstring
}.

(** [new Error(msg)] *)
Definition Error (msg : jsstring) : JsError :=
  {| err_name := utf16 "Error"; err_message := msg |}.

(** Errors the engine raises; the text of their message depends on the
    engine and only ever reaches the log. *)
Definition TypeError : JsError :=
  {| err_name := utf16 "TypeError"; err_message := [] |}.
Definition SyntaxError : JsError :=
  {| err_name := utf16 "SyntaxError"; err_message := [] |}.
Definition RangeError : JsError :=
  {| err_name := utf16 "RangeError"; err_message := [] |}.

(** [Error.prototype.toString], which is also [String(e)] and [`${e}`]. *)
Definition toString (e : JsError) : jsstring :=
  match err_name e, err_message e with
  | [], msg => msg
  | name, [] => name
  | name, msg => name ++ utf16 ": " ++ msg
  end.

(** [error?.message || error?.toString() || ''] *)
Definition errorMsg (e : JsError) : jsstring :=
  if truthy_string (err_message e) then err_message e
  else if truthy_string (toString e) then toString e
  else [].

Inductive Completion (A : Type) : Type :=
| Return (a : A)
| Throw (e : JsError).
Arguments Return {A} a.
Arguments Throw {A} e.

(** The inputs from which the plan prompt and its system instruction are
    written; the text itself is a fixed template over them. *)
Record PlanPrompt : Type := {
  pp_contextText : jsstring;
  pp_urlInputs : list jsstring;
  pp_slideCount : N;
  pp_outputLanguage : Language;
  pp_styleInput : option jsstring;
  pp_requirementsInput : option jsstring
}.

(** Likewise for the design prompt of one slide. *)
Record SlidePrompt : Type := {
  sp_title : jsstring;
  sp_bullets : jsstring;
  sp_style : jsstring;
  sp_visualNote : jsstring;
  sp_imageCount : nat
}.

Inductive Part : Type :=
| InlineData (mimeType : jsstring) (data : option jsstring)
| Text (prompt : SlidePrompt).

(** The requests the service sends. *)
Inductive Call : Type :=
| FetchChat (apiKey : jsstring) (model : jsstring) (prompt : PlanPrompt)
| FetchImage (apiKey : jsstring) (model : jsstring) (parts : list Part)
| SdkPlan (apiKey : jsstring) (model : jsstring) (prompt : PlanPrompt)
| SdkImage (apiKey : jsstring) (model : jsstring) (parts : list Part)
    (imageSize : option jsstring).

Record InlineDataR : Type := { data : option jsstring }.
Record ResponsePart : Type := { inlineData : option InlineDataR }.

(** The fields the code reads in the body of a gateway response:
    [data.error?.message], [data.choices?.[0]?.message?.content],
    [data.imageBase64], [data.candidates?.[0]?.content?.parts]. *)
Record ResponseData : Type := {
  error_message : option jsstring;
  content : option jsstring;
  imageBase64 : option jsstring;
  candidate_parts : option (list ResponsePart)
}.

Inductive JsonOutcome : Type :=
| JsonRejects (e : JsError)               (* [resp.json()] rejects *)
| JsonData (d : ResponseData).

Inductive FetchOutcome : Type :=
| FetchRejects (e : JsError)
| FetchResolves (ok : bool) (body : JsonOutcome).

(** [response.text] and [response.candidates?.[0]?.content?.parts]. *)
Record SdkResponse : Type := {
  text : option jsstring;
  sdk_parts : option (list ResponsePart)
}.

Inductive SdkOutcome : Type :=
| SdkRejects (e : JsError)
| SdkResolves (r : SdkResponse).

(** The arguments of one call of [generateFinalSlideImage]. *)
Record RenderArgs : Type := {
  ra_slide : SlideData;
  ra_style : jsstring;
  ra_images : list jsstring;
  ra_provider : Provider;
  ra_apiKey : jsstring
}.

(** What a run does, in order. *)
Inductive Event : Type :=
| Called (c : Call)
| AddLog (entry : LogEntry)
| SetIsGenerating (b : bool)
| SetProgressIndex (n : nat)
| SetGeneratedImages (imgs : list (option jsstring))
| SetHasApiKey (b : bool)
| Alert (msg : jsstring)
| Render (args : RenderArgs).

(** The world outside: how the providers answer a call, given all that
    happened before it, the ambient API key, and the events so far (the
    oldest first).  Every call settles: a request that stays pending for
    ever is not described. *)
Record World : Type := {
  fetch_reply : list Event -> Call -> FetchOutcome;
  sdk_reply : list Event -> Call -> SdkOutcome;
  env_API_KEY : option jsstring;
  trace : list Event
}.

Definition M (A : Type) : Type := World -> Completion A * World.

Definition ret {A} (a : A) : M A := fun w => (Return a, w).

Definition throw {A} (e : JsError) : M A := fun w => (Throw e, w).

Definition bind {A B} (m : M A) (k : A -> M B) : M B :=
  fun w =>
    match m w with
    | (Return a, w') => k a w'
    | (Throw e, w') => (Throw e, w')
    end.

(** [try { body } catch (e) { handler }] *)
Definition try_catch {A} (body : M A) (handler : JsError -> M A) : M A :=
  fun w =>
    match body w with
    | (Return a, w') => (Return a, w')
    | (Throw e, w') => handler e w'
    end.

Definition lift {A} (c : Completion A) : M A := fun w => (c, w).

Definition emit (ev : Event) : M unit :=
  fun w =>
    (Return tt,
     {| fetch_reply := fetch_reply w; sdk_reply := sdk_reply w;
        env_API_KEY := env_API_KEY w; trace := trace w ++ [ev] |}).

(** [await fetch(...)] *)
Definition fetch (c : Call) : M (bool * JsonOutcome) :=
  fun w =>
    let reply := fetch_reply w (trace w) c in
    match emit (Called c) w with
    | (_, w') =>
        match reply with
        | FetchRejects e => (Throw e, w')
        | FetchResolves ok body => (Return (ok, body), w')
        end
    end.

(** [await resp.json()] *)
Definition json (body : JsonOutcome) : M ResponseData :=
  match body with
  | JsonRejects e => throw e
  | JsonData d => ret d
  end.

(** [await ai.models.generateContent(...)] *)
Definition generateContent (c : Call) : M SdkResponse :=
  fun w =>
    let reply := sdk_reply w (trace w) c in
    match emit (Called c) w with
    | (_, w') =>
        match reply with
        | SdkRejects e => (Throw e, w')
        | SdkResolves r => (Return r, w')
        end
    end.

(** [process.env.API_KEY], a constant of the build. *)
Definition ambient_key : M (option jsstring) :=
  fun w => (Return (env_API_KEY w), w).

(** How a computation completes in a world, and the world it leaves. *)
Definition outcome {A} (m : M A) (w : World) : Completion A := fst (m w).
Definition world_after {A} (m : M A) (w : World) : World := snd (m w).

(** [m] run in [w] completes with [r], leaves [w'] and does [evs] on the
    way; the providers are the same before and after. *)
Definition runs {A} (m : M A) (w : World) (r : Completion A) (w' : World)
  (evs : list Event) : Prop :=
  m w = (r, w')
  /\ trace w' = trace w ++ evs
  /\ fetch_reply w' = fetch_reply w
  /\ sdk_reply w' = sdk_reply w
  /\ env_API_KEY w' = env_API_KEY w.

(** The requests that reached a provider. *)
Definition provider_calls (evs : list Event) : list Call :=
  flat_map (fun ev => match ev with Called c => [c] | _ => [] end) evs.

(** Events that the service module produces: requests and log entries. *)
Definition service_event (ev : Event) : bool :=
  match ev with
  | Called _ | AddLog _ => true
  | _ => false
  end.

End Runtime.
Export Runtime.

Declare Scope js_scope.
Delimit Scope js_scope with js.
Notation "x <- m ;; k" := (bind m (fun x => k))
  (at level 61, m at next level, right associativity) : js_scope.
Notation "m ;; k" := (bind m (fun _ => k))
  (at level 61, right associativity) : js_scope.
Open Scope js_scope.

(* ===================================================================== *)
(** ** The plan generator ([generateSlidePlan]) *)
(* ===================================================================== *)

Module GeminiService.

(** [addLog?.(entry)]: the sink is optional. *)
Definition addLog_opt (addLog : bool) (entry : LogEntry) : M unit :=
  if addLog then emit (AddLog entry) else ret tt.

Definition log_message_entry (t : LogType) (msg : jsstring) : LogEntry :=
  {| log_type := t; log_url := None; log_method := None;
     log_message := Some msg |}.

Definition log_request_entry (url : jsstring) : LogEntry :=
  {| log_type := LogRequest; log_url := Some url;
     log_method := Some (utf16 "POST"); log_message := None |}.

Definition log_response_entry : LogEntry :=
  {| log_type := LogResponse; log_url := None; log_method := None;
     log_message := None |}.

(** [getApiKey(providedKey)]: the key given, else the ambient one, else
    the empty string.  It always gives a string, and [new GoogleGenAI]
    with a string key is taken to construct the client without a call
    and without an error, so that the SDK branches start with the key. *)
Definition getApiKey (providedKey : jsstring) : M jsstring :=
  if truthy_string providedKey then ret providedKey
  else (key <- ambient_key ;;
        match key with
        | Some k => if truthy_string k then ret k else ret []
        | None => ret []
        end).

Definition option_truthy (o : option jsstring) : bool :=
  match o with Some s => truthy_string s | None => false end.

(** [o || d] for an optional string. *)
Definition or_default (o : option jsstring) (d : jsstring) : jsstring :=
  match o with
  | Some s => if truthy_string s then s else d
  | None => d
  end.

(** [Array.from({ length: n })]: the indices below [n]; a length that is
    not an array length raises a [RangeError]. *)
Definition Array_from_length (n : N) : Completion (list N) :=
  if n <=? 4294967295
  then Return (map N.of_nat (seq 0 (N.to_nat n)))
  else Throw RangeError.

Definition lang_text (l : Language) (zh en : string) : jsstring :=
  match l with Zh => utf16 zh | En => utf16 en end.

Definition fallback_slide (outputLanguage : Language) (i : N) : JValue :=
  JObj [ (utf16 "id", JStr (utf16 "slide-" ++ decimal i));
         (utf16 "title",
          JStr (lang_text outputLanguage "幻灯片" "Slide"
                ++ utf16 " " ++ decimal (i + 1)));
         (utf16 "bullets",
          JArr [ JStr (lang_text outputLanguage "内容生成失败。"
                                 "Content generation failed.");
                 JStr (lang_text outputLanguage "请手动编辑。"
                                 "Please edit manually.") ] []);
         (utf16 "visualNote", JStr (utf16 "Placeholder"));
         (utf16 "selectedImageIds", JArr [] []) ].

Definition createFallbackPlan (slideCount : N) (outputLanguage : Language)
  (styleInput : option jsstring) : Completion JValue :=
  match Array_from_length slideCount with
  | Return indices =>
      Return
        (JObj [ (utf16 "topic",
                 JStr (lang_text outputLanguage "生成的演示文稿"
                                 "Generated Presentation"));
                (utf16 "style", of_option styleInput);
                (utf16 "slides",
                 JArr (map (fallback_slide outputLanguage) indices) []) ])
  | Throw e => Throw e
  end.

Definition fence_json : jsstring := utf16 "```json".
Definition fence : jsstring := utf16 "```".

(** [xs[i].method(...)]: reading a method of [undefined] is a [TypeError]. *)
Definition item (xs : list jsstring) (i : nat) : Completion jsstring :=
  match nth_error xs i with
  | Some x => Return x
  | None => Throw TypeError
  end.

(** "Clean Markdown code blocks" *)
Definition clean_code_block (content : jsstring) : Completion jsstring :=
  let between (sep : jsstring) :=
    match item (split sep content) 1 with
    | Return inner =>
        match item (split fence inner) 0 with
        | Return x => Return (trim x)
        | Throw e => Throw e
        end
    | Throw e => Throw e
    end in
  if includes fence_json content then between fence_json
  else if includes fence content then between fence
  else Return content.

Definition parse (content : jsstring) : Completion JValue :=
  match JSON_parse content with
  | Some v => Return v
  | None => Throw SyntaxError
  end.

Definition assign (o : JValue) (k : jsstring) (v : JValue) : Completion JValue :=
  match set_prop o k v with
  | Some o' => Return o'
  | None => Throw TypeError
  end.

Fixpoint assign_each (k : jsstring) (v : JValue) (xs : list JValue)
  : Completion (list JValue) :=
  match xs with
  | [] => Return []
  | x :: rest =>
      match assign x k v with
      | Return x' =>
          match assign_each k v rest with
          | Return rest' => Return (x' :: rest')
          | Throw e => Throw e
          end
      | Throw e => Throw e
      end
  end.

(** [parsed.slides.forEach(s => s.selectedImageIds = [])], with the array
    it leaves in [parsed.slides].  Only an array has a callable
    [forEach]. *)
Definition reset_selected_images (parsed : JValue) : Completion JValue :=
  match get_prop parsed (utf16 "slides") with
  | JArr elems props =>
      match get_own (utf16 "forEach") props with
      | Some _ => Throw TypeError
      | None =>
          match assign_each (utf16 "selectedImageIds") (JArr [] []) elems with
          | Return elems' => assign parsed (utf16 "slides") (JArr elems' props)
          | Throw e => Throw e
          end
      end
  | _ => Throw TypeError
  end.

Definition bindC {A B} (c : Completion A) (k : A -> Completion B)
  : Completion B :=
  match c with
  | Return a => k a
  | Throw e => Throw e
  end.

(** Lines 152-157: parse, inject style and requirements, validate, reset
    the image selections. *)
Definition zenmux_postprocess (content : jsstring)
  (styleInput requirementsInput : option jsstring) : Completion JValue :=
  bindC (parse content) (fun parsed =>
  bindC (assign parsed (utf16 "style") (of_option styleInput)) (fun parsed =>
  bindC (assign parsed (utf16 "requirements") (of_option requirementsInput))
    (fun parsed =>
  if negb (truthy (get_prop parsed (utf16 "slides")))
  then Throw (Error (utf16 "Invalid JSON structure from Zenmux"))
  else reset_selected_images parsed))).

(** What the gateway branch makes of the text of a response (lines
    145-157). *)
Definition parse_gateway_content (content : jsstring)
  (styleInput requirementsInput : option jsstring) : Completion JValue :=
  bindC (clean_code_block content) (fun cleaned =>
  zenmux_postprocess cleaned styleInput requirementsInput).

(** Lines 216-220, the same without the validation. *)
Definition google_postprocess (text : jsstring)
  (styleInput requirementsInput : option jsstring) : Completion JValue :=
  bindC (parse text) (fun parsed =>
  bindC (assign parsed (utf16 "style") (of_option styleInput)) (fun parsed =>
  bindC (assign parsed (utf16 "requirements") (of_option requirementsInput))
    (fun parsed =>
  reset_selected_images parsed))).

Definition chat_url : jsstring := utf16 "/api/zenmux/v1/chat/completions".

(** The body of the [try] of the gateway branch (lines 118-157). *)
Definition zenmux_plan_attempt (prompt : PlanPrompt) (apiKey : jsstring)
  (addLog : bool) : M JValue :=
  resp <- fetch (FetchChat apiKey (utf16 "google/gemini-2.5-flash") prompt) ;;
  data <- json (snd resp) ;;
  addLog_opt addLog log_response_entry ;;
  if negb (fst resp)
  then throw (Error (or_default (error_message data) (utf16 "Zenmux API Error")))
  else
    match content data with
    | Some c =>
        if truthy_string c then
          lift (parse_gateway_content c (pp_styleInput prompt)
                                      (pp_requirementsInput prompt))
        else throw (Error (utf16 "No content in Zenmux response"))
    | None => throw (Error (utf16 "No content in Zenmux response"))
    end.

(** The body of the [try] of the SDK branch (lines 170-222). *)
Definition google_plan_attempt (prompt : PlanPrompt) (key : jsstring)
  (addLog : bool) : M JValue :=
  addLog_opt addLog
    (log_message_entry LogRequest
       (utf16 "Calling Google Gemini 2.5 Flash via SDK")) ;;
  response <- generateContent (SdkPlan key (utf16 "gemini-2.5-flash") prompt) ;;
  addLog_opt addLog
    (log_message_entry LogResponse (utf16 "Google SDK Response received")) ;;
  match text response with
  | Some t =>
      if truthy_string t then
        lift (google_postprocess t (pp_styleInput prompt)
                                 (pp_requirementsInput prompt))
      else throw (Error (utf16 "Empty response from AI"))
  | None => throw (Error (utf16 "Empty response from AI"))
  end.

(** Both [catch] blocks: log the error, return the fallback plan. *)
Definition plan_fallback (prompt : PlanPrompt) (addLog : bool)
  (error : JsError) : M JValue :=
  addLog_opt addLog (log_message_entry LogError (toString error)) ;;
  lift (createFallbackPlan (pp_slideCount prompt) (pp_outputLanguage prompt)
                           (pp_styleInput prompt)).

(** How the [try] block of the selected branch completes. *)
Definition plan_attempt_outcome (prompt : PlanPrompt) (provider : Provider)
  (apiKey : jsstring) (addLog : bool) (w : World) : Completion JValue :=
  match provider with
  | Zenmux =>
      outcome (zenmux_plan_attempt prompt apiKey addLog)
              (world_after (addLog_opt addLog (log_request_entry chat_url)) w)
  | Google =>
      outcome (key <- getApiKey apiKey ;;
               google_plan_attempt prompt key addLog) w
  end.

Definition generateSlidePlan (contextText : jsstring) (slideCount : N)
  (urlInputs : list jsstring) (outputLanguage : Language)
  (styleInput requirementsInput : option jsstring)
  (provider : Provider) (apiKey : jsstring) (addLog : bool) : M JValue :=
  let prompt :=
    {| pp_contextText := contextText; pp_urlInputs := urlInputs;
       pp_slideCount := slideCount; pp_outputLanguage := outputLanguage;
       pp_styleInput := styleInput;
       pp_requirementsInput := requirementsInput |} in
  match provider with
  | Zenmux =>
      addLog_opt addLog (log_request_entry chat_url) ;;
      try_catch (zenmux_plan_attempt prompt apiKey addLog)
                (plan_fallback prompt addLog)
  | Google =>
      key <- getApiKey apiKey ;;
      try_catch (google_plan_attempt prompt key addLog)
                (plan_fallback prompt addLog)
  end.

(* --------------------------------------------------------------------- *)
(** *** The slide image generator ([generateFinalSlideImage]) *)
(* --------------------------------------------------------------------- *)

Definition data_uri_prefix : jsstring := utf16 "data:image/png;base64,".

Definition primary_model : jsstring := utf16 "gemini-3-pro-image-preview".
Definition fallback_model : jsstring := utf16 "gemini-2.5-flash-image".
Definition zenmux_image_model : jsstring :=
  utf16 "google/gemini-3-pro-image-preview".
Definition image_url : jsstring :=
  utf16 "/api/zenmux/vertex-ai/v1/models/google/gemini-3-pro-image-preview:generateContent".

(** [`${x}`] for a string that may be [undefined]. *)
Definition template (o : option jsstring) : jsstring :=
  match o with Some s => s | None => utf16 "undefined" end.

(** The request parts: every reference image, then the text prompt. *)
Definition build_parts (slide : SlideData) (style : jsstring)
  (userImageBase64s : option (list jsstring)) : list Part :=
  let images := match userImageBase64s with Some l => l | None => [] end in
  let textPrompt :=
    {| sp_title := title slide;
       sp_bullets := join (utf16 "; ") (bullets slide);
       sp_style := if truthy_string style then style
                   else utf16 "Modern, Corporate, High-Definition";
       sp_visualNote := visualNote slide;
       sp_imageCount := length images |} in
  map (fun base64 =>
         InlineData (utf16 "image/jpeg")
                    (nth_error (split (utf16 ",") base64) 1)) images
  ++ [Text textPrompt].

(** Lines 409-413 and 435-439: the first part that has [inlineData]. *)
Fixpoint first_inline_part (parts : list ResponsePart) : option jsstring :=
  match parts with
  | [] => None
  | p :: rest =>
      match inlineData p with
      | Some d => Some (template (data d))
      | None => first_inline_part rest
      end
  end.

Definition parts_or_empty (o : option (list ResponsePart)) : list ResponsePart :=
  match o with Some l => l | None => [] end.

(** Lines 362-367: the first part whose [inlineData.data] is truthy. *)
Fixpoint first_inline_data (parts : list ResponsePart) : jsstring :=
  match parts with
  | [] => []
  | p :: rest =>
      match inlineData p with
      | Some d =>
          if option_truthy (data d) then or_default (data d) []
          else first_inline_data rest
      | None => first_inline_data rest
      end
  end.

(** Lines 353-368: where the gateway may have put the image. *)
Definition zenmux_image_data (d : ResponseData) : jsstring :=
  if option_truthy (imageBase64 d) then or_default (imageBase64 d) []
  else
    match candidate_parts d with
    | Some parts =>
        let first :=
          match parts with
          | p :: _ =>
              match inlineData p with
              | Some i => data i
              | None => None
              end
          | [] => None
          end in
        if option_truthy first then or_default first []
        else first_inline_data parts
    | None => []
    end.

(** The gateway branch (lines 303-380): one request, and every failure
    is logged and thrown again. *)
Definition zenmux_image_attempt (parts : list Part) (apiKey : jsstring)
  (addLog : bool) : M jsstring :=
  resp <- fetch (FetchImage apiKey zenmux_image_model parts) ;;
  d <- json (snd resp) ;;
  addLog_opt addLog log_response_entry ;;
  if negb (fst resp)
  then throw (Error (or_default (error_message d)
                                (utf16 "Zenmux Image API Error")))
  else
    let b64 := zenmux_image_data d in
    if truthy_string b64 then ret (data_uri_prefix ++ b64)
    else throw (Error (utf16 "No image data found in Zenmux response")).

(** The fallback-eligibility test of line 422. *)
Definition fallback_eligible (msg : jsstring) : bool :=
  includes (utf16 "permission") msg || includes (utf16 "403") msg
  || includes (utf16 "not found") msg.

(** The body of the [try] of the SDK branch (lines 400-414). *)
Definition google_image_attempt (parts : list Part) (key : jsstring)
  (addLog : bool) : M jsstring :=
  addLog_opt addLog
    (log_message_entry LogRequest (utf16 "Calling Google Gemini 3 Pro")) ;;
  response <- generateContent
                (SdkImage key primary_model parts (Some (utf16 "4K"))) ;;
  addLog_opt addLog
    (log_message_entry LogResponse (utf16 "Google Gemini 3 Pro Success")) ;;
  match first_inline_part (parts_or_empty (sdk_parts response)) with
  | Some d => ret (data_uri_prefix ++ d)
  | None => throw (Error (utf16 "No image data found in response"))
  end.

(** The [catch] of the SDK branch (lines 416-449). *)
Definition google_image_recover (parts : list Part) (key : jsstring)
  (addLog : bool) (error : JsError) : M jsstring :=
  addLog_opt addLog
    (log_message_entry LogError
       (utf16 "Primary model failed: " ++ toString error)) ;;
  if fallback_eligible (errorMsg error) then
    found <- try_catch
               (fallbackResponse <-
                  generateContent (SdkImage key fallback_model parts None) ;;
                ret (first_inline_part
                       (parts_or_empty (sdk_parts fallbackResponse))))
               (fun fallbackError =>
                  addLog_opt addLog
                    (log_message_entry LogError
                       (utf16 "Fallback failed: " ++ toString fallbackError)) ;;
                  throw fallbackError) ;;
    match found with
    | Some d => ret (data_uri_prefix ++ d)
    | None => throw error
    end
  else throw error.

(** How the first attempt (the [try] block of the selected branch)
    completes. *)
Definition image_attempt_outcome (slide : SlideData) (style : jsstring)
  (userImageBase64s : option (list jsstring)) (provider : Provider)
  (apiKey : jsstring) (addLog : bool) (w : World) : Completion jsstring :=
  let parts := build_parts slide style userImageBase64s in
  match provider with
  | Zenmux =>
      outcome (zenmux_image_attempt parts apiKey addLog)
              (world_after (addLog_opt addLog (log_request_entry image_url)) w)
  | Google =>
      outcome (key <- getApiKey apiKey ;;
               google_image_attempt parts key addLog) w
  end.

Definition generateFinalSlideImage (slide : SlideData) (style : jsstring)
  (userImageBase64s : option (list jsstring)) (provider : Provider)
  (apiKey : jsstring) (addLog : bool) : M jsstring :=
  let parts := build_parts slide style userImageBase64s in
  match provider with
  | Zenmux =>
      addLog_opt addLog (log_request_entry image_url) ;;
      try_catch (zenmux_image_attempt parts apiKey addLog)
                (fun e =>
                   addLog_opt addLog (log_message_entry LogError (toString e)) ;;
                   throw e)
  | Google =>
      key <- getApiKey apiKey ;;
      try_catch (google_image_attempt parts key addLog)
                (google_image_recover parts key addLog)
  end.

End GeminiService.
Export GeminiService.

(* ===================================================================== *)
(** ** The batch controller ([PreviewDownload.startGeneration]) *)
(* ===================================================================== *)

Module PreviewDownload.

Record PreviewDownloadProps : Type := {
  plan : PresentationPlan;
  images : list UploadedFile;
  uiLanguage : Language;
  provider : Provider;
  apiKey : jsstring
}.

(** The component state the batch run reads and sets. *)
Record State : Type := {
  generatedImages : list (option jsstring);
  isGenerating : bool;
  progressIndex : nat;
  hasApiKey : bool
}.

(** [useState(new Array(plan.slides.length).fill(null))] and the other
    initial values. *)
Definition initial_state (p : PreviewDownloadProps) (hasKey : bool) : State :=
  {| generatedImages := repeat None (length (slides (plan p)));
     isGenerating := false; progressIndex := 0%nat; hasApiKey := hasKey |}.

(** [results[i]], [undefined] out of range; and its truthiness. *)
Definition slot (results : list (option jsstring)) (i : nat) : option jsstring :=
  match nth_error results i with
  | Some x => x
  | None => None
  end.

(** [results[i] = v]; writing past the end extends the array. *)
Fixpoint store (results : list (option jsstring)) (i : nat) (v : jsstring)
  : list (option jsstring) :=
  match i, results with
  | O, [] => [Some v]
  | O, _ :: rest => Some v :: rest
  | S i', [] => None :: store [] i' v
  | S i', x :: rest => x :: store rest i' v
  end.

(** Lines 81-89: the data URLs of the selected images that exist. *)
Definition find_image (imgs : list UploadedFile) (image_id : jsstring)
  : option UploadedFile :=
  find (fun img => JsString.eqb (file_id img) image_id) imgs.

Fixpoint collect_images (imgs : list UploadedFile) (ids : list jsstring)
  : list jsstring :=
  match ids with
  | [] => []
  | image_id :: rest =>
      match find_image imgs image_id with
      | Some img =>
          if option_truthy (file_dataUrl img)
          then or_default (file_dataUrl img) [] :: collect_images imgs rest
          else collect_images imgs rest
      | None => collect_images imgs rest
      end
  end.

Definition slideImagesBase64 (p : PreviewDownloadProps) (slide : SlideData) : list jsstring :=
  match selectedImageIds slide with
  | Some ids => collect_images (images p) ids
  | None => []
  end.

Definition render_args (p : PreviewDownloadProps) (slide : SlideData) : RenderArgs :=
  {| ra_slide := slide;
     ra_style := or_default (style (plan p)) [];
     ra_images := slideImagesBase64 p slide;
     ra_provider := provider p;
     ra_apiKey := apiKey p |}.

(** The abort test of lines 114-119. *)
Definition abort_marker (msg : jsstring) : bool :=
  includes (utf16 "permission") msg || includes (utf16 "403") msg
  || includes (utf16 "The caller does not have permission") msg
  || includes (utf16 "quota") msg.

Definition alert_text (l : Language) : jsstring :=
  lang_text l "API 权限不足或配额已满。" "Permission denied or quota exceeded.".

Section Controller.

(** The generator the controller calls; the component imports it from the
    service module. *)
Variable generate : SlideData -> jsstring -> option (list jsstring) ->
                    Provider -> jsstring -> bool -> M jsstring.

(** The call of line 93, recorded with its arguments. *)
Definition call_generate (a : RenderArgs) : M jsstring :=
  emit (Render a) ;;
  generate (ra_slide a) (ra_style a) (Some (ra_images a)) (ra_provider a)
           (ra_apiKey a) true.

(** How one round of the loop ends. *)
Inductive Round : Type :=
| Continue (results : list (option jsstring))
| Aborted (results : list (option jsstring)).

(** Lines 77-130: one slide that is not skipped.  The handler reads
    [error.message] (line 108) of what it caught, an [Error] object
    here; of [null] or [undefined] the read itself would throw, and the
    run would fail with [isGenerating] left true. *)
Definition attempt (p : PreviewDownloadProps) (i : nat) (slide : SlideData)
  (results : list (option jsstring)) : M Round :=
  emit (SetProgressIndex (i + 1)) ;;
  try_catch
    (imageUrl <- call_generate (render_args p slide) ;;
     let results' := store results i imageUrl in
     emit (SetGeneratedImages results') ;;
     ret (Continue results'))
    (fun error =>
       emit (AddLog (log_message_entry LogError
                       (utf16 "Error generating slide "
                        ++ decimal (N.of_nat (i + 1)) ++ utf16 ": "
                        ++ err_message error))) ;;
       if abort_marker (errorMsg error) then
         emit (SetIsGenerating false) ;;
         emit (SetHasApiKey false) ;;
         emit (Alert (alert_text (uiLanguage p))) ;;
         ret (Aborted results)
       else ret (Continue results)).

(** The [for] loop of lines 73-131 from index [i] on, over the slides
    that remain.  [permissionErrorOccurred] is the flag of line 71. *)
Fixpoint loop (p : PreviewDownloadProps) (remaining : list SlideData) (i : nat)
  (permissionErrorOccurred : bool) (results : list (option jsstring))
  : M Round :=
  match remaining with
  | [] => ret (Continue results)
  | slide :: rest =>
      if permissionErrorOccurred then ret (Continue results)
      else if option_truthy (slot results i)
      then loop p rest (S i) permissionErrorOccurred results
      else
        r <- attempt p i slide results ;;
        match r with
        | Continue results' => loop p rest (S i) false results'
        | Aborted results' => ret (Aborted results')
        end
  end.

(** [startGeneration]: the batch run over the state of the last render. *)
Definition startGeneration (p : PreviewDownloadProps) (st : State) : M unit :=
  if negb (hasApiKey st) then ret tt
  else
    emit (SetIsGenerating true) ;;
    emit (SetProgressIndex 0) ;;
    r <- loop p (slides (plan p)) 0 false (generatedImages st) ;;
    match r with
    | Continue _ => emit (SetIsGenerating false)
    | Aborted _ => ret tt
    end.

End Controller.

(** The state setters, applied to the component state. *)
Definition apply_event (st : State) (ev : Event) : State :=
  match ev with
  | SetIsGenerating b =>
      {| generatedImages := generatedImages st; isGenerating := b;
         progressIndex := progressIndex st; hasApiKey := hasApiKey st |}
  | SetProgressIndex n =>
      {| generatedImages := generatedImages st; isGenerating := isGenerating st;
         progressIndex := n; hasApiKey := hasApiKey st |}
  | SetGeneratedImages imgs =>
      {| generatedImages := imgs; isGenerating := isGenerating st;
         progressIndex := progressIndex st; hasApiKey := hasApiKey st |}
  | SetHasApiKey b =>
      {| generatedImages := generatedImages st; isGenerating := isGenerating st;
         progressIndex := progressIndex st; hasApiKey := b |}
  | _ => st
  end.

Definition apply_events (st : State) (evs : list Event) : State :=
  fold_left apply_event evs st.

(** The slides the run attempted, by index: the progress marks it set
    (line 77 precedes every call of the generator and nothing else). *)
Definition attempted (evs : list Event) : list nat :=
  flat_map (fun ev => match ev with
                      | SetProgressIndex (S i) => [i]
                      | _ => []
                      end) evs.

(** The calls of the generator, with their arguments. *)
Definition rendered (evs : list Event) : list RenderArgs :=
  flat_map (fun ev => match ev with Render a => [a] | _ => [] end) evs.

Definition alerts (evs : list Event) : list jsstring :=
  flat_map (fun ev => match ev with Alert m => [m] | _ => [] end) evs.

End PreviewDownload.
Export PreviewDownload.

(* ===================================================================== *)
(** ** Vocabulary of the statements *)
(* ===================================================================== *)

Module Vocabulary.

(** A plan that one of the two post-processing paths produced from the
    caller's [styleInput] and [requirementsInput]. *)
Definition postprocessed (styleInput requirementsInput : option jsstring)
  (plan : JValue) : Prop :=
  exists parsed0 parsed1 parsed2,
    assign parsed0 (utf16 "style") (of_option styleInput) = Return parsed1
    /\ assign parsed1 (utf16 "requirements") (of_option requirementsInput)
       = Return parsed2
    /\ reset_selected_images parsed2 = Return plan.

(** The world in which the first round of a batch run starts. *)
Definition started (w : World) : World :=
  world_after (emit (SetIsGenerating true) ;; emit (SetProgressIndex 0)) w.

(** How the rendering of slide [i] completes when its round starts in
    [w]: the call of line 93, after the progress mark of line 77. *)
Definition render_outcome
  (generate : SlideData -> jsstring -> option (list jsstring) ->
              Provider -> jsstring -> bool -> M jsstring)
  (p : PreviewDownloadProps) (i : nat) (slide : SlideData) (w : World)
  : Completion jsstring :=
  outcome (call_generate generate (render_args p slide))
          (world_after (emit (SetProgressIndex (i + 1))) w).

(** The world after the round of slide [i]. *)
Definition after_round
  (generate : SlideData -> jsstring -> option (list jsstring) ->
              Provider -> jsstring -> bool -> M jsstring)
  (p : PreviewDownloadProps) (i : nat) (slide : SlideData)
  (results : list (option jsstring)) (w : World) : World :=
  world_after (attempt generate p i slide results) w.

(** A rendering that does not abort the batch: an image, or an error
    without an abort marker. *)
Definition recoverable (r : Completion jsstring) : Prop :=
  match r with
  | Return _ => True
  | Throw e => abort_marker (errorMsg e) = false
  end.

(** The results array after a rendering of slide [i]. *)
Definition results_after (r : Completion jsstring)
  (results : list (option jsstring)) (i : nat) : list (option jsstring) :=
  match r with
  | Return imageUrl => store results i imageUrl
  | Throw _ => results
  end.

(** How the round of slide [i] ends, given how its rendering completed. *)
Definition round_of (r : Completion jsstring)
  (results : list (option jsstring)) (i : nat) : Round :=
  match r with
  | Return imageUrl => Continue (store results i imageUrl)
  | Throw e =>
      if abort_marker (errorMsg e) then Aborted results else Continue results
  end.

Definition round_results (r : Round) : list (option jsstring) :=
  match r with Continue results | Aborted results => results end.

(** The arguments with which the generator is called for the slides of
    the given indices. *)
Definition args_at (p : PreviewDownloadProps) (indices : list nat) : list RenderArgs :=
  flat_map (fun k => match nth_error (slides (plan p)) k with
                     | Some slide => [render_args p slide]
                     | None => []
                     end) indices.

(** A text inside a Markdown code block tagged "json". *)
Definition fenced (text : jsstring) : jsstring :=
  fence_json ++ [10] ++ text ++ [10] ++ fence.

(** The value a computation returned, if it returned. *)
Definition returned {A} (c : Completion A) : option A :=
  match c with Return a => Some a | Throw _ => None end.

(** ASCII letters in lower case, to compare texts without regard to
    letter case. *)
Definition ascii_lower (s : jsstring) : jsstring :=
  map (fun c => if (65 <=? c) && (c <=? 90) then c + 32 else c) s.

Definition includes_any_case (needle s : jsstring) : bool :=
  includes (ascii_lower needle) (ascii_lower s).

End Vocabulary.
Export Vocabulary.

(* ===================================================================== *)
(** ** Where the quotes of a JSON text are *)
(* ===================================================================== *)

(** A scan of a text that only follows the string literals: outside of
    one, inside of one, or just after a backslash inside of one. *)
Module Lexical.

Inductive Lex : Type := LOut | LIn | LEsc.

Definition lex_step (q : Lex) (c : N) : Lex :=
  match q with
  | LOut => if c =? 34 then LIn else LOut
  | LIn => if c =? 34 then LOut else if c =? 92 then LEsc else LIn
  | LEsc => LIn
  end.

Definition lex (q : Lex) (s : jsstring) : Lex := fold_left lex_step s q.

(** The code units [JSON.stringify] writes outside of string literals:
    brackets, braces, commas and colons, the characters of numbers, and
    the letters of [true], [false] and [null]. *)
Definition outside_ok (c : N) : bool :=
  (c =? 123) || (c =? 125) || (c =? 91) || (c =? 93) || (c =? 44)
  || (c =? 58) || is_digit c || (c =? 45) || (c =? 43) || (c =? 46)
  || (c =? 101) || (c =? 69) || (c =? 116) || (c =? 114) || (c =? 117)
  || (c =? 102) || (c =? 97) || (c =? 108) || (c =? 115) || (c =? 110).

(** The code units that may follow a backslash. *)
Definition escape_ok (c : N) : bool :=
  (c =? 34) || (c =? 92) || (c =? 47) || (c =? 98) || (c =? 102)
  || (c =? 110) || (c =? 114) || (c =? 116) || (c =? 117).

Definition scan_step (q : Lex) (c : N) : option Lex :=
  match q with
  | LOut =>
      if c =? 34 then Some LIn
      else if outside_ok c then Some LOut else None
  | LIn => Some (lex_step LIn c)
  | LEsc => if escape_ok c then Some LIn else None
  end.

(** The scan of a text as [JSON.stringify] writes them; [None] when a
    code unit is not one it writes at that place. *)
Fixpoint scan (q : Lex) (s : jsstring) : option Lex :=
  match s with
  | [] => Some q
  | c :: s' =>
      match scan_step q c with
      | Some q' => scan q' s'
      | None => None
      end
  end.

(** Where the parser is, in these terms. *)
Definition mode_lex (m : Mode) : Lex :=
  match m with
  | MStr _ _ | MUni _ _ _ _ => LIn
  | MEsc _ _ => LEsc
  | _ => LOut
  end.

(** A literal under way has neither quote nor backslash left to read. *)
Definition mode_ok (m : Mode) : bool :=
  match m with
  | MLit rest _ => forallb (fun c => negb (c =? 34) && negb (c =? 92)) rest
  | _ => true
  end.

(** Texts without the letter i, and property lists whose keys are such. *)
Definition ifree (s : jsstring) : bool := forallb (fun c => negb (c =? 105)) s.

Definition keys_ifree (ps : Props) : bool := forallb (fun kv => ifree (fst kv)) ps.

Definition frame_keys (f : Frame) : bool :=
  match f with
  | FArr _ => true
  | FObj done key =>
      keys_ifree done && match key with Some k => ifree k | None => true end
  end.

Definition value_keys (v : JValue) : bool :=
  match v with
  | JObj ps | JArr _ ps => keys_ifree ps
  | _ => true
  end.

Definition mode_keys (m : Mode) : bool :=
  match m with
  | MStr acc _ => ifree acc
  | MDone v | MLit _ v => value_keys v
  | _ => true
  end.

Definition state_keys (st : ParserState) : bool :=
  forallb frame_keys (fst st) && mode_keys (snd st).

(** The parser reads, from its start, a text that the scan reads from
    inside a string: the parser is outside of a string where the scan is
    inside of one, and the other way round. *)
Definition flipped (m : Mode) (q : Lex) : Prop :=
  (mode_lex m = LOut /\ q = LIn)
  \/ ((exists acc iskey, m = MStr acc iskey) /\ q = LOut).

End Lexical.
Export Lexical.

(* ===================================================================== *)
(** ** Concrete worlds and inputs *)
(* ===================================================================== *)

Module Scenarios.

Definition no_data : ResponseData :=
  {| error_message := None; content := None; imageBase64 := None;
     candidate_parts := None |}.

(** A world whose providers give the same answer to every call. *)
Definition constant_world (f : FetchOutcome) (s : SdkOutcome) : World :=
  {| fetch_reply := fun _ _ => f; sdk_reply := fun _ _ => s;
     env_API_KEY := None; trace := [] |}.

(** The gateway answers HTTP 500. *)
Definition http_500 : FetchOutcome :=
  FetchResolves false
    (JsonData {| error_message := Some (utf16 "Internal Server Error");
                 content := None; imageBase64 := None;
                 candidate_parts := None |}).

Definition sdk_timeout : SdkOutcome := SdkRejects (Error (utf16 "timeout")).

Definition world_http_500 : World := constant_world http_500 sdk_timeout.

(** The gateway answers with a chat completion that holds [text]. *)
Definition chat_reply (text : jsstring) : FetchOutcome :=
  FetchResolves true
    (JsonData {| error_message := None; content := Some text;
                 imageBase64 := None; candidate_parts := None |}).

(** A plan as a model may send it: two slides, the first with a selection
    of its own. *)
Definition model_slide (n : string) (selected : list JValue) : JValue :=
  JObj [ (utf16 "id", JStr (utf16 n));
         (utf16 "title", JStr (utf16 "Revenue"));
         (utf16 "bullets", JArr [JStr (utf16 "Up 12% year over year.")] []);
         (utf16 "visualNote", JStr (utf16 "A bar chart"));
         (utf16 "selectedImageIds", JArr selected []) ].

Definition model_plan : JValue :=
  JObj [ (utf16 "topic", JStr (utf16 "Acme Q3"));
         (utf16 "slides",
          JArr [ model_slide "slide-1" [JStr (utf16 "img-7")];
                 model_slide "slide-2" [] ] []) ].

Definition world_model_plan : World :=
  constant_world (chat_reply (serialize model_plan))
                 (SdkResolves {| text := Some (serialize model_plan);
                                 sdk_parts := None |}).

Definition slide_A : SlideData :=
  {| id := utf16 "slide-1"; title := utf16 "Revenue";
     bullets := [utf16 "Up 12% year over year."];
     visualNote := utf16 "A bar chart"; selectedImageIds := Some [] |}.

(** Every provider call is refused with the given message. *)
Definition refusing_world (msg : string) : World :=
  constant_world (FetchRejects (Error (utf16 msg)))
                 (SdkRejects (Error (utf16 msg))).

Definition slide_B : SlideData :=
  {| id := utf16 "slide-2"; title := utf16 "Costs";
     bullets := [utf16 "Down 3%."];
     visualNote := utf16 "A line chart"; selectedImageIds := None |}.

Definition slide_C : SlideData :=
  {| id := utf16 "slide-3"; title := utf16 "Outlook";
     bullets := [utf16 "Stable."];
     visualNote := utf16 "A road"; selectedImageIds := Some [] |}.

Definition props_ABC : PreviewDownloadProps :=
  {| plan := {| topic := utf16 "Acme Q3"; style := None;
                requirements := None;
                slides := [slide_A; slide_B; slide_C] |};
     images := []; uiLanguage := En; provider := Zenmux;
     apiKey := utf16 "sk-test" |}.

(** The title in the text prompt of an image request. *)
Definition call_title (c : Call) : jsstring :=
  match c with
  | FetchImage _ _ parts | SdkImage _ _ parts _ =>
      flat_map (fun part => match part with
                            | Text prompt => sp_title prompt
                            | InlineData _ _ => []
                            end) parts
  | _ => []
  end.

Definition image_reply : FetchOutcome :=
  FetchResolves true
    (JsonData {| error_message := None; content := None;
                 imageBase64 := Some (utf16 "iVBORw0KGgo=");
                 candidate_parts := None |}).

(** The gateway renders every slide but the one titled "Costs", which it
    refuses with the given message. *)
Definition world_B_fails (msg : string) : World :=
  {| fetch_reply := fun _ c =>
       if JsString.eqb (call_title c) (utf16 "Costs")
       then FetchRejects (Error (utf16 msg))
       else image_reply;
     sdk_reply := fun _ _ => sdk_timeout;
     env_API_KEY := None; trace := [] |}.

(** The gateway renders every slide. *)
Definition world_renders_all : World :=
  constant_world image_reply sdk_timeout.

(** A component state in which the first slide is already rendered. *)
Definition state_A_rendered : State :=
  {| generatedImages := [Some (data_uri_prefix ++ utf16 "AAAA"); None; None];
     isGenerating := false; progressIndex := 3%nat; hasApiKey := true |}.

(** A plan whose topic holds a code fence of its own. *)
Definition plan_with_fence : JValue :=
  JObj [ (utf16 "topic", JStr (utf16 "Use ```json blocks``` in prompts"));
         (utf16 "slides", JArr [model_slide "slide-1" []] []) ].

End Scenarios.
Export Scenarios.
(* ===================================================================== *)
(** * The rest of the application

    The functions around the plan generator, the slide image generator
    and the batch run: the key check, the archive and the screens of
    [components/PreviewDownload.tsx], the handlers of
    [components/SlideEditor.tsx] and [components/FileUpload.tsx], the
    file reading of [services/fileService.ts] and the handlers of
    [App.tsx] that call them.  A handler that only computes the value it
    passes to a state setter is a function to that value; a handler that
    awaits a provider runs in the monad of the service. *)
(* ===================================================================== *)

From Stdlib Require Import Sorted DecimalN ZArith.

(* ===================================================================== *)
(** ** Requests and replies of the service, by name *)
(* ===================================================================== *)

Module ServiceVocabulary.

(** The key the SDK client is built with: the caller's when it is not
    empty, else the ambient one, else the empty string. *)
Definition sdk_key (apiKey : jsstring) (w : World) : jsstring :=
  if truthy_string apiKey then apiKey else or_default (env_API_KEY w) [].

(** The one request of a plan generation. *)
Definition plan_call (prompt : PlanPrompt) (provider : Provider)
  (apiKey : jsstring) (w : World) : Call :=
  match provider with
  | Zenmux => FetchChat apiKey (utf16 "google/gemini-2.5-flash") prompt
  | Google => SdkPlan (sdk_key apiKey w) (utf16 "gemini-2.5-flash") prompt
  end.

(** The request to the secondary model on the SDK path: the parts of the
    first request, and no image size. *)
Definition secondary_call (parts : list Part) (apiKey : jsstring) (w : World)
  : Call :=
  SdkImage (sdk_key apiKey w) fallback_model parts None.

(** The world in which the secondary request is sent, after the primary
    attempt failed with [e]: the attempt and the log entry of line 418
    have happened. *)
Definition world_of_secondary (parts : list Part) (apiKey : jsstring)
  (addLog : bool) (e : JsError) (w : World) : World :=
  world_after
    (addLog_opt addLog
       (log_message_entry LogError
          (utf16 "Primary model failed: " ++ toString e)))
    (world_after (google_image_attempt parts (sdk_key apiKey w) addLog) w).

(** How the SDK answers the secondary request. *)
Definition secondary_reply (parts : list Part) (apiKey : jsstring)
  (addLog : bool) (e : JsError) (w : World) : SdkOutcome :=
  let w2 := world_of_secondary parts apiKey addLog e w in
  sdk_reply w2 (trace w2) (secondary_call parts apiKey w).

(** The reply of the gateway to the request of a rendering: the request
    is sent after its log entry. *)
Definition gateway_image_reply (parts : list Part) (apiKey : jsstring)
  (addLog : bool) (w : World) : FetchOutcome :=
  let w0 := world_after (addLog_opt addLog (log_request_entry image_url)) w in
  fetch_reply w0 (trace w0) (FetchImage apiKey zenmux_image_model parts).

(** How the SDK answers the primary request of a rendering. *)
Definition primary_reply (parts : list Part) (apiKey : jsstring)
  (addLog : bool) (w : World) : SdkOutcome :=
  let w0 := world_after
              (addLog_opt addLog
                 (log_message_entry LogRequest
                    (utf16 "Calling Google Gemini 3 Pro"))) w in
  sdk_reply w0 (trace w0)
    (SdkImage (sdk_key apiKey w) primary_model parts (Some (utf16 "4K"))).

(** The error of the primary attempt, when the reply to the primary
    request gives no image: the rejection, or the error of line 414. *)
Definition primary_failure (reply : SdkOutcome) : option JsError :=
  match reply with
  | SdkRejects e => Some e
  | SdkResolves r =>
      match first_inline_part (parts_or_empty (sdk_parts r)) with
      | Some _ => None
      | None => Some (Error (utf16 "No image data found in response"))
      end
  end.

(** *** The answer to a plan request *)

(** The reply of the gateway to the request of a plan generation: the
    request is sent after its log entry. *)
Definition gateway_plan_reply (prompt : PlanPrompt) (apiKey : jsstring)
  (addLog : bool) (w : World) : FetchOutcome :=
  let w0 := world_after (addLog_opt addLog (log_request_entry chat_url)) w in
  fetch_reply w0 (trace w0)
    (FetchChat apiKey (utf16 "google/gemini-2.5-flash") prompt).

(** The reply of the SDK to the request of a plan generation. *)
Definition sdk_plan_reply (prompt : PlanPrompt) (apiKey : jsstring)
  (addLog : bool) (w : World) : SdkOutcome :=
  let w0 := world_after
              (addLog_opt addLog
                 (log_message_entry LogRequest
                    (utf16 "Calling Google Gemini 2.5 Flash via SDK"))) w in
  sdk_reply w0 (trace w0)
    (SdkPlan (sdk_key apiKey w) (utf16 "gemini-2.5-flash") prompt).

(** Why a reply gives no plan: the request was rejected, the body of the
    response could not be read, the HTTP status was not a success, the
    response held no text, the text was not JSON, or the JSON was not a
    plan. *)
Inductive PlanFailure : Type :=
| TransportFailure
| UnreadableBody
| HttpFailure
| EmptyAnswer
| ParsingFailure
| ValidationFailure.

(** An object or an array, as opposed to [undefined], [null] and the
    primitive values. *)
Definition is_object (v : JValue) : bool :=
  match v with
  | JObj _ | JArr _ _ => true
  | _ => false
  end.

(** What a parsed answer must be to be taken as a plan: an object whose
    [slides] are an array of objects. *)
Definition valid_plan (v : JValue) : bool :=
  is_object v
  && match get_prop v (utf16 "slides") with
     | JArr elems props =>
         forallb is_object elems
         && match get_own (utf16 "forEach") props with
            | None => true
            | Some _ => false
            end
     | _ => false
     end.

(** The plan a text holds, or why it holds none. *)
Definition read_answer (text : jsstring) : PlanFailure + JValue :=
  match JSON_parse text with
  | None => inl ParsingFailure
  | Some v => if valid_plan v then inr v else inl ValidationFailure
  end.

(** The text of a chat completion without the Markdown code fence that
    may surround it. *)
Definition unfenced (content : jsstring) : option jsstring :=
  returned (clean_code_block content).

Definition gateway_answer (reply : FetchOutcome) : PlanFailure + JValue :=
  match reply with
  | FetchRejects _ => inl TransportFailure
  | FetchResolves _ (JsonRejects _) => inl UnreadableBody
  | FetchResolves false (JsonData _) => inl HttpFailure
  | FetchResolves true (JsonData d) =>
      match content d with
      | Some c =>
          if truthy_string c then
            match unfenced c with
            | Some text => read_answer text
            | None => inl ParsingFailure
            end
          else inl EmptyAnswer
      | None => inl EmptyAnswer
      end
  end.

Definition sdk_answer (reply : SdkOutcome) : PlanFailure + JValue :=
  match reply with
  | SdkRejects _ => inl TransportFailure
  | SdkResolves r =>
      match text r with
      | Some t => if truthy_string t then read_answer t else inl EmptyAnswer
      | None => inl EmptyAnswer
      end
  end.

(** The plan the provider answered with, or the failure. *)
Definition plan_answer (prompt : PlanPrompt) (provider : Provider)
  (apiKey : jsstring) (addLog : bool) (w : World) : PlanFailure + JValue :=
  match provider with
  | Zenmux => gateway_answer (gateway_plan_reply prompt apiKey addLog w)
  | Google => sdk_answer (sdk_plan_reply prompt apiKey addLog w)
  end.

(** The plan is the answer with the caller's style and requirements
    written into it and the image selection of its slides reset. *)
Definition taken_from (answer : JValue)
  (styleInput requirementsInput : option jsstring) (plan : JValue) : Prop :=
  exists parsed1 parsed2,
    assign answer (utf16 "style") (of_option styleInput) = Return parsed1
    /\ assign parsed1 (utf16 "requirements") (of_option requirementsInput)
       = Return parsed2
    /\ reset_selected_images parsed2 = Return plan.

(** Either provider answers with the given text. *)
Definition world_answers (answer : jsstring) : World :=
  constant_world (chat_reply answer)
                 (SdkResolves {| text := Some answer; sdk_parts := None |}).

(** The key and the parts a request carries. *)
Definition call_key (c : Call) : jsstring :=
  match c with
  | FetchChat k _ _ | FetchImage k _ _ | SdkPlan k _ _ | SdkImage k _ _ _ => k
  end.

Definition call_parts (c : Call) : list Part :=
  match c with
  | FetchImage _ _ parts | SdkImage _ _ parts _ => parts
  | _ => []
  end.

(** A data URL: a header, a comma, a payload. *)
Definition data_url (header payload : jsstring) : jsstring :=
  header ++ utf16 "," ++ payload.

Definition comma_free (s : jsstring) : Prop := ~ In 44 s.

(** The text prompt of a rendering. *)
Definition text_prompt (slide : SlideData) (style : jsstring)
  (imageCount : nat) : SlidePrompt :=
  {| sp_title := title slide;
     sp_bullets := join (utf16 "; ") (bullets slide);
     sp_style := if truthy_string style then style
                 else utf16 "Modern, Corporate, High-Definition";
     sp_visualNote := visualNote slide;
     sp_imageCount := imageCount |}.

(** The SDK refuses the primary model with a 403 and answers the
    secondary one as given. *)
Definition world_primary_403 (second : SdkOutcome) : World :=
  {| fetch_reply := fun _ _ => FetchRejects (Error (utf16 "unused"));
     sdk_reply := fun _ c =>
       match c with
       | SdkImage _ model _ _ =>
           if JsString.eqb model primary_model
           then SdkRejects (Error (utf16 "403 Forbidden"))
           else second
       | _ => SdkRejects (Error (utf16 "unused"))
       end;
     env_API_KEY := Some (utf16 "AIza-ambient"); trace := [] |}.

Definition inline_image (b64 : string) : SdkOutcome :=
  SdkResolves
    {| text := None;
       sdk_parts := Some [ {| inlineData := None |};
                           {| inlineData :=
                                Some {| data := Some (utf16 b64) |} |} ] |}.

(** The request the gateway path sends for one call of the generator. *)
Definition gateway_request (a : RenderArgs) : Call :=
  FetchImage (ra_apiKey a) zenmux_image_model
             (build_parts (ra_slide a) (ra_style a) (Some (ra_images a))).

(** A gateway that answers every request with the same image. *)
Definition gateway_answers (w : World) (d : ResponseData) : Prop :=
  forall history c, fetch_reply w history c = FetchResolves true (JsonData d).

End ServiceVocabulary.
Export ServiceVocabulary.

(* ===================================================================== *)
(** ** The rest of [PreviewDownload]: the key, the archive, the screen *)
(* ===================================================================== *)

Module PreviewDownloadRest.

(** [window.aistudio], when the page runs inside AI Studio.  A method may
    be missing; when it is there, the completion says how the promise it
    returns settles. *)
Record AIStudio : Type := {
  hasSelectedApiKey : option (Completion bool)
}.

(** The effect of lines 29-46, run when the component mounts and when the
    key or the provider changes. *)
Definition checkKey (apiKey : jsstring) (provider : Provider)
  (aistudio : option AIStudio) : M unit :=
  if truthy_string apiKey then emit (SetHasApiKey true)
  else
    match provider with
    | Google =>
        match aistudio with
        | Some studio =>
            match hasSelectedApiKey studio with
            | Some settled =>
                hasKey <- lift settled ;; emit (SetHasApiKey hasKey)
            | None => emit (SetHasApiKey true)
            end
        | None => emit (SetHasApiKey true)
        end
    | Zenmux => ret tt
    end.

(** [img.replace(/^data:image\/png;base64,/, "")] *)
Definition strip_data_uri (img : jsstring) : jsstring :=
  if prefixb data_uri_prefix img then skipn (length data_uri_prefix) img
  else img.

(** [`slide_${idx + 1}.png`] *)
Definition zip_entry_name (idx : nat) : jsstring :=
  utf16 "slide_" ++ decimal (N.of_nat (idx + 1)) ++ utf16 ".png".

(** The calls of [zip.file] of lines 140-146, from index [idx] on: the
    name and the data of each. *)
Fixpoint zip_entries (imgs : list (option jsstring)) (idx : nat)
  : list (jsstring * jsstring) :=
  match imgs with
  | [] => []
  | img :: rest =>
      if option_truthy img
      then (zip_entry_name idx, strip_data_uri (or_default img []))
           :: zip_entries rest (S idx)
      else zip_entries rest (S idx)
  end.

(** [s.replace(/\s+/g, '_')]: every run of white space becomes one
    underscore.  [in_run] says that the code unit before was white
    space. *)
Fixpoint replace_spaces (in_run : bool) (s : jsstring) : jsstring :=
  match s with
  | [] => []
  | c :: rest =>
      if is_trim_space c
      then if in_run then replace_spaces true rest
           else 95 :: replace_spaces true rest
      else c :: replace_spaces false rest
  end.

Record Archive : Type := {
  archive_name : jsstring;
  archive_files : list (jsstring * jsstring)
}.

(** [downloadZip] (lines 136-155): the archive it offers, if any.
    [generateAsync] is the method of the JSZip library that builds the
    archive from the files added: the completion says how its promise
    settles (it rejects, for one, when the data of a file are not valid
    base64), and a rejection is the rejection of [downloadZip], which
    has no handler. *)
Definition downloadZip
  (generateAsync : list (jsstring * jsstring) -> Completion unit)
  (p : PreviewDownloadProps) (st : State) : Completion (option Archive) :=
  match zip_entries (generatedImages st) 0 with
  | [] => Return None
  | files =>
      match generateAsync files with
      | Return _ =>
          Return
            (Some {| archive_name := replace_spaces false (topic (plan p))
                                     ++ utf16 "_presentation.zip";
                     archive_files := files |})
      | Throw e => Throw e
      end
  end.

(** What a card of the grid shows (lines 223-254). *)
Inductive Card : Type :=
| CardImage (url : jsstring)
| CardRendering
| CardWaiting
| CardFailed.

(** The three screens of the component (lines 180-273).  A slot without
    an image holds [null]: the array is created with [null] in every slot
    and, with a slot for every slide, a run never extends it. *)
Inductive Screen : Type :=
| KeyRequired
| ReadyToGenerate
| Grid (cards : list Card).

Definition is_null (img : option jsstring) : bool :=
  match img with None => true | Some _ => false end.

Definition card (st : State) (i : nat) : Card :=
  if option_truthy (slot (generatedImages st) i)
  then CardImage (or_default (slot (generatedImages st) i) [])
  else if isGenerating st && (progressIndex st =? i + 1)%nat
  then CardRendering
  else if isGenerating st && (progressIndex st <? i + 1)%nat
  then CardWaiting
  else CardFailed.

Definition screen (p : PreviewDownloadProps) (st : State) : Screen :=
  if negb (hasApiKey st) then KeyRequired
  else if negb (isGenerating st) && forallb is_null (generatedImages st)
  then ReadyToGenerate
  else Grid (map (card st) (seq 0 (length (slides (plan p))))).

(** What a card shows once no run is under way: the image of its slot, or
    "Generation Failed". *)
Definition settled_card (imgs : list (option jsstring)) (i : nat) : Card :=
  if option_truthy (slot imgs i) then CardImage (or_default (slot imgs i) [])
  else CardFailed.

End PreviewDownloadRest.
Export PreviewDownloadRest.

(* ===================================================================== *)
(** ** Files of the browser *)
(* ===================================================================== *)

Module Browser.

(** A [File]: its name, its MIME type, and how reading it goes.  Each
    completion says how the promise of the read settles: [FileReader]
    ([onload] or [onerror]), [file.arrayBuffer()], the PDF library (the
    document, then the text items of each page) and the DOCX library (the
    raw text). *)
Record File : Type := {
  f_name : jsstring;
  f_type : jsstring;
  f_dataURL : Completion jsstring;
  f_text : Completion jsstring;
  f_arrayBuffer : Completion unit;
  f_pdf : Completion (list (Completion (list jsstring)));
  f_docx : Completion jsstring
}.

(** A file of which only the name and the type matter. *)
Definition plain_file (name type : string) : File :=
  {| f_name := utf16 name; f_type := utf16 type;
     f_dataURL := Return []; f_text := Return [];
     f_arrayBuffer := Return tt; f_pdf := Return [];
     f_docx := Return [] |}.

End Browser.
Export Browser.

(* ===================================================================== *)
(** ** The slide editor ([components/SlideEditor.tsx]) *)
(* ===================================================================== *)

Module SlideEditor.

(** [{ ...slide, selectedImageIds: ids }] and [{ ...slide, bullets: bs }]. *)
Definition with_selectedImageIds (slide : SlideData) (ids : list jsstring)
  : SlideData :=
  {| id := id slide; title := title slide; bullets := bullets slide;
     visualNote := visualNote slide; selectedImageIds := Some ids |}.

Definition with_bullets (slide : SlideData) (bs : list jsstring) : SlideData :=
  {| id := id slide; title := title slide; bullets := bs;
     visualNote := visualNote slide;
     selectedImageIds := selectedImageIds slide |}.

(** [newSlides[index] = updatedSlide] on a copy of the slides: the slide
    at [index] is replaced, and at the index just past the end it is
    appended.  Further out the assignment would leave holes in the array,
    which a list of slides cannot hold: [None]. *)
Fixpoint assign_at (slides : list SlideData) (index : nat) (s : SlideData)
  : option (list SlideData) :=
  match index, slides with
  | O, [] => Some [s]
  | O, _ :: rest => Some (s :: rest)
  | S _, [] => None
  | S i, x :: rest =>
      match assign_at rest i s with
      | Some rest' => Some (x :: rest')
      | None => None
      end
  end.

(** [handleUpdateSlide] (lines 27-31): the plan it passes to
    [onUpdatePlan]. *)
Definition handleUpdateSlide (plan : PresentationPlan) (index : nat)
  (updatedSlide : SlideData) : option PresentationPlan :=
  match assign_at (slides plan) index updatedSlide with
  | Some newSlides =>
      Some {| topic := topic plan; style := style plan;
              requirements := requirements plan; slides := newSlides |}
  | None => None
  end.

(** [slide.selectedImageIds || []] *)
Definition currentIds (slide : SlideData) : list jsstring :=
  match selectedImageIds slide with Some ids => ids | None => [] end.

(** What a handler does with the plan: nothing, or a call of
    [onUpdatePlan] with a new plan. *)
Inductive Update : Type :=
| NoUpdate
| UpdatePlan (plan : PresentationPlan).

Definition update_slide (plan : PresentationPlan) (index : nat)
  (updatedSlide : SlideData) : Update :=
  match handleUpdateSlide plan index updatedSlide with
  | Some plan' => UpdatePlan plan'
  | None => NoUpdate
  end.

(** What is dropped: the image id the drag carries ([getData] gives the
    empty string when there is none) and the files. *)
Record DataTransfer : Type := {
  dt_imageId : jsstring;
  dt_files : option (list File)
}.

(** [handleDrop] (lines 51-87), without the [isUploading] flag.
    [onAddImages] says how the promise of the parent's callback settles
    for the files that are images. *)
Definition handleDrop (plan : PresentationPlan) (slideIndex : nat)
  (dt : DataTransfer)
  (onAddImages : list File -> Completion (list UploadedFile))
  : Completion Update :=
  if truthy_string (dt_imageId dt) then
    match nth_error (slides plan) slideIndex with
    | None => Throw TypeError
    | Some slide =>
        if existsb (JsString.eqb (dt_imageId dt)) (currentIds slide)
        then Return NoUpdate
        else Return (update_slide plan slideIndex
                       (with_selectedImageIds slide
                          (currentIds slide ++ [dt_imageId dt])))
    end
  else
    match dt_files dt with
    | None => Return NoUpdate
    | Some [] => Return NoUpdate
    | Some dropped =>
        match filter (fun f => prefixb (utf16 "image/") (f_type f)) dropped with
        | [] => Return NoUpdate
        | files =>
            match onAddImages files with
            | Throw e => Throw e
            | Return newImages =>
                match nth_error (slides plan) slideIndex with
                | None => Throw TypeError
                | Some slide =>
                    Return (update_slide plan slideIndex
                              (with_selectedImageIds slide
                                 (currentIds slide ++ map file_id newImages)))
                end
            end
        end
    end.

(** [removeImageFromSlide] (lines 89-96). *)
Definition removeImageFromSlide (plan : PresentationPlan) (slideIndex : nat)
  (imageIdToRemove : jsstring) : Completion Update :=
  match nth_error (slides plan) slideIndex with
  | None => Throw TypeError
  | Some slide =>
      Return (update_slide plan slideIndex
                (with_selectedImageIds slide
                   (filter (fun i => negb (JsString.eqb i imageIdToRemove))
                           (currentIds slide))))
  end.

(** The plan the parent holds afterwards: [onUpdatePlan] is its
    [setPlan]. *)
Definition plan_after (plan : PresentationPlan) (c : Completion Update)
  : PresentationPlan :=
  match c with
  | Return (UpdatePlan plan') => plan'
  | _ => plan
  end.

(** The images selected for the slide at an index. *)
Definition selection (plan : PresentationPlan) (index : nat) : list jsstring :=
  match nth_error (slides plan) index with
  | Some slide => currentIds slide
  | None => []
  end.

(** The text area of the bullets (lines 200-205): what it shows, and the
    bullets an edit makes of its text. *)
Definition newline : jsstring := [10].

Definition bullets_text (slide : SlideData) : jsstring :=
  join newline (bullets slide).

Definition edit_bullets (plan : PresentationPlan) (index : nat)
  (slide : SlideData) (value : jsstring) : Update :=
  update_slide plan index (with_bullets slide (split newline value)).

(** An internal drag of the image with the given id. *)
Definition internal_drag (imageId : jsstring) : DataTransfer :=
  {| dt_imageId := imageId; dt_files := None |}.

(** The properties of the preview when the parent passes it another
    plan. *)
Definition with_plan (p : PreviewDownloadProps) (plan' : PresentationPlan)
  : PreviewDownloadProps :=
  {| plan := plan'; images := images p; uiLanguage := uiLanguage p;
     provider := provider p; apiKey := apiKey p |}.

End SlideEditor.
Export SlideEditor.

(* ===================================================================== *)
(** ** The upload form ([components/FileUpload.tsx]) *)
(* ===================================================================== *)

Module FileUpload.

Definition accepted_types : list jsstring :=
  [ utf16 "application/pdf";
    utf16 "application/vnd.openxmlformats-officedocument.wordprocessingml.document";
    utf16 "text/plain"; utf16 "text/markdown"; utf16 "text/html";
    utf16 "image/jpeg"; utf16 "image/png"; utf16 "image/webp" ].

(** [s.endsWith(suffix)] *)
Definition endsWith (suffix s : jsstring) : bool :=
  prefixb (rev suffix) (rev s).

(** The filter of lines 56-58. *)
Definition accepted (f : File) : bool :=
  existsb (JsString.eqb (f_type f)) accepted_types
  || endsWith (utf16 ".md") (f_name f).

(** What a handler of the form does: nothing, an alert with the text
    [t.maxFiles], or a call of [onFilesChange]. *)
Inductive FilesOutcome : Type :=
| FilesUntouched
| AlertMaxFiles
| FilesChange (files : list File).

(** [handleFileDrop] (lines 53-65). *)
Definition handleFileDrop (files : list File)
  (dropped : option (list File)) : FilesOutcome :=
  match dropped with
  | None => FilesUntouched
  | Some all =>
      let newFiles := filter accepted all in
      if (5 <? length files + length newFiles)%nat then AlertMaxFiles
      else FilesChange (files ++ newFiles)
  end.

(** The files the parent holds afterwards: [onFilesChange] is its
    [setFiles]. *)
Definition files_after (files : list File) (o : FilesOutcome)
  : list File :=
  match o with
  | FilesChange files' => files'
  | _ => files
  end.

(** [copy.splice(idx, 1)] for an index that is a natural number: the
    element at [idx] goes, if there is one. *)
Fixpoint splice_one {A} (l : list A) (idx : nat) : list A :=
  match l, idx with
  | [], _ => []
  | _ :: rest, O => rest
  | x :: rest, S i => x :: splice_one rest i
  end.

Definition removeUrl (urls : list jsstring) (idx : nat) : list jsstring :=
  splice_one urls idx.

(** The URLs of the parent and the text of the URL field. *)
Record UrlState : Type := {
  urls : list jsstring;
  urlInput : jsstring
}.

(** [addUrl] (lines 67-72). *)
Definition addUrl (st : UrlState) : UrlState :=
  if truthy_string (urlInput st)
     && negb (existsb (JsString.eqb (urlInput st)) (urls st))
  then {| urls := urls st ++ [urlInput st]; urlInput := [] |}
  else st.

(** What the user can do with the URLs: type in the field, add (the
    button, or the Enter key), remove the entry at an index. *)
Inductive UrlAction : Type :=
| TypeUrl (value : jsstring)
| AddUrl
| RemoveUrl (idx : nat).

Definition url_step (st : UrlState) (a : UrlAction) : UrlState :=
  match a with
  | TypeUrl value => {| urls := urls st; urlInput := value |}
  | AddUrl => addUrl st
  | RemoveUrl idx =>
      {| urls := removeUrl (urls st) idx; urlInput := urlInput st |}
  end.

(** The form as it starts: no URL, an empty field. *)
Definition no_urls : UrlState := {| urls := []; urlInput := [] |}.

(** The value of a digit in a radix, if it is one. *)
Definition digit_value (radix c : N) : option N :=
  let v := if (48 <=? c) && (c <=? 57) then Some (c - 48)
           else if (97 <=? c) && (c <=? 122) then Some (c - 87)
           else if (65 <=? c) && (c <=? 90) then Some (c - 55)
           else None in
  match v with
  | Some d => if d <? radix then Some d else None
  | None => None
  end.

(** The number that the longest prefix of digits denotes; [acc] is the
    number read so far, if a digit was read. *)
Fixpoint parse_digits (radix : N) (s : jsstring) (acc : option N) : option N :=
  match s with
  | [] => acc
  | c :: rest =>
      match digit_value radix c with
      | Some d =>
          parse_digits radix rest
            (Some (match acc with Some a => a * radix + d | None => d end))
      | None => acc
      end
  end.

(** [parseInt(s)] without a radix: white space, a sign, "0x" or "0X" for
    base 16, digits; [None] is [NaN].  The result is the integer read;
    the number [parseInt] returns is that integer rounded to a double,
    which is the same up to 2^53 and compares with 0, 1 and 99 in the
    same way beyond. *)
Definition parseInt (s : jsstring) : option Z :=
  let s1 := trimStart s in
  let signed := match s1 with
                | 45 :: r => (true, r)
                | 43 :: r => (false, r)
                | _ => (false, s1)
                end in
  let based := match snd signed with
               | 48 :: 120 :: r => (16, r)
               | 48 :: 88 :: r => (16, r)
               | r => (10, r)
               end in
  match parse_digits (fst based) (snd based) None with
  | Some n => Some (if fst signed then (- Z.of_N n)%Z else Z.of_N n)
  | None => None
  end.

(** Lines 272: [Math.max(1, Math.min(99, parseInt(value) || 5))]. *)
Definition slide_count_of (value : jsstring) : Z :=
  let parsed := match parseInt value with
                | Some 0%Z => 5%Z
                | Some n => n
                | None => 5%Z
                end in
  Z.max 1 (Z.min 99 parsed).

(** The number a decimal numeral denotes after the digits read so far
    gave [acc]. *)
Fixpoint uint_value (d : Decimal.uint) (acc : N) : N :=
  match d with
  | Decimal.Nil => acc
  | Decimal.D0 r => uint_value r (acc * 10)
  | Decimal.D1 r => uint_value r (acc * 10 + 1)
  | Decimal.D2 r => uint_value r (acc * 10 + 2)
  | Decimal.D3 r => uint_value r (acc * 10 + 3)
  | Decimal.D4 r => uint_value r (acc * 10 + 4)
  | Decimal.D5 r => uint_value r (acc * 10 + 5)
  | Decimal.D6 r => uint_value r (acc * 10 + 6)
  | Decimal.D7 r => uint_value r (acc * 10 + 7)
  | Decimal.D8 r => uint_value r (acc * 10 + 8)
  | Decimal.D9 r => uint_value r (acc * 10 + 9)
  end.

(** The button that starts the processing is disabled (line 300). *)
Definition start_disabled (files : list File) (urls : list jsstring)
  (apiKey : jsstring) : bool :=
  ((length files =? 0)%nat && (length urls =? 0)%nat)
  || negb (truthy_string apiKey).

End FileUpload.
Export FileUpload.

(* ===================================================================== *)
(** ** Reading the uploaded files ([services/fileService.ts]) *)
(* ===================================================================== *)

Module FileService.

(** [extractPdfText], the loop of lines 34-39 from page [i] on. *)
Fixpoint pdf_pages_text (pages : list (Completion (list jsstring))) (i : N)
  (fullText : jsstring) : Completion jsstring :=
  match pages with
  | [] => Return fullText
  | Return items :: rest =>
      pdf_pages_text rest (i + 1)
        (fullText ++ utf16 "[Page " ++ decimal i ++ utf16 "] "
         ++ join (utf16 " ") items ++ [10])
  | Throw e :: _ => Throw e
  end.

(** The line of page [i] in the text of a PDF: [`[Page ${i}] ${pageText}\n`]. *)
Definition page_line (i : N) (items : list jsstring) : jsstring :=
  utf16 "[Page " ++ decimal i ++ utf16 "] " ++ join (utf16 " ") items ++ [10].

(** The lines of the pages, numbered from [i] on. *)
Fixpoint page_lines (i : N) (pages : list (list jsstring)) : jsstring :=
  match pages with
  | [] => []
  | items :: rest => page_line i items ++ page_lines (i + 1) rest
  end.

Definition pdf_error_text : jsstring := utf16 "Error parsing PDF content.".
Definition docx_error_text : jsstring := utf16 "Error parsing DOCX content.".

(** [extractPdfText] (lines 28-45): every failure gives the error
    text. *)
Definition extractPdfText (pdf : Completion (list (Completion (list jsstring))))
  : jsstring :=
  match pdf with
  | Return pages =>
      match pdf_pages_text pages 1 [] with
      | Return fullText => fullText
      | Throw _ => pdf_error_text
      end
  | Throw _ => pdf_error_text
  end.

(** [extractDocxText] (lines 47-55). *)
Definition extractDocxText (docx : Completion jsstring) : jsstring :=
  match docx with
  | Return value => value
  | Throw _ => docx_error_text
  end.

(** [`\n--- DOCUMENT: ${file.name} ---\n${text}`] *)
Definition document_section (name text : jsstring) : jsstring :=
  [10] ++ utf16 "--- DOCUMENT: " ++ name ++ utf16 " ---" ++ [10] ++ text.

Definition image_extensions : list jsstring :=
  [utf16 "jpg"; utf16 "jpeg"; utf16 "png"; utf16 "webp"].

Definition text_extensions : list jsstring :=
  [utf16 "txt"; utf16 "md"; utf16 "html"].

Section Processing.

(** [String.prototype.toLowerCase], and the ids that
    [Math.random().toString(36).substring(7)] gives, by the position of
    the file in the call. *)
Variable toLowerCase : jsstring -> jsstring.
Variable random_id : nat -> jsstring.

(** [file.name.split('.').pop()?.toLowerCase()]: the text after the last
    dot, the whole name when it has no dot. *)
Definition extension (name : jsstring) : jsstring :=
  toLowerCase (last (split (utf16 ".") name) []).

(** The loop of [processFiles] (lines 61-88) from the file at position
    [k] on. *)
Fixpoint process (files : list File) (k : nat) (combinedText : jsstring)
  (imageFiles : list UploadedFile)
  : Completion (jsstring * list UploadedFile) :=
  match files with
  | [] => Return (combinedText, imageFiles)
  | file :: rest =>
      let ext := extension (f_name file) in
      if existsb (JsString.eqb ext) image_extensions then
        match f_dataURL file with
        | Return dataUrl =>
            process rest (S k) combinedText
              (imageFiles ++ [ {| file_id := random_id k;
                                  file_dataUrl := Some dataUrl |} ])
        | Throw e => Throw e
        end
      else if JsString.eqb ext (utf16 "pdf") then
        match f_dataURL file with
        | Return _ =>
            process rest (S k)
              (combinedText
               ++ document_section (f_name file) (extractPdfText (f_pdf file)))
              imageFiles
        | Throw e => Throw e
        end
      else if JsString.eqb ext (utf16 "docx") then
        match f_arrayBuffer file with
        | Return _ =>
            process rest (S k)
              (combinedText
               ++ document_section (f_name file)
                    (extractDocxText (f_docx file)))
              imageFiles
        | Throw e => Throw e
        end
      else if existsb (JsString.eqb ext) text_extensions then
        match f_text file with
        | Return text =>
            process rest (S k)
              (combinedText ++ document_section (f_name file) text)
              imageFiles
        | Throw e => Throw e
        end
      else process rest (S k) combinedText imageFiles
  end.

(** [processFiles]: the context and the images. *)
Definition processFiles (files : list File)
  : Completion (jsstring * list UploadedFile) :=
  process files 0 [] [].

(** What one file that is read without an error adds to the context and
    to the images. *)
Inductive Kind : Type := KImage | KPdf | KDocx | KText | KOther.

Definition kind (file : File) : Kind :=
  let ext := extension (f_name file) in
  if existsb (JsString.eqb ext) image_extensions then KImage
  else if JsString.eqb ext (utf16 "pdf") then KPdf
  else if JsString.eqb ext (utf16 "docx") then KDocx
  else if existsb (JsString.eqb ext) text_extensions then KText
  else KOther.

(** The read that [processFiles] awaits for a file, as far as it can
    fail. *)
Definition read_error (file : File) : option JsError :=
  match kind file with
  | KImage | KPdf =>
      match f_dataURL file with Throw e => Some e | Return _ => None end
  | KDocx =>
      match f_arrayBuffer file with Throw e => Some e | Return _ => None end
  | KText =>
      match f_text file with Throw e => Some e | Return _ => None end
  | KOther => None
  end.

Definition section_of (file : File) : jsstring :=
  match kind file with
  | KPdf => document_section (f_name file) (extractPdfText (f_pdf file))
  | KDocx => document_section (f_name file) (extractDocxText (f_docx file))
  | KText =>
      match f_text file with
      | Return text => document_section (f_name file) text
      | Throw _ => []
      end
  | KImage | KOther => []
  end.

Definition image_of (k : nat) (file : File) : list UploadedFile :=
  match kind file, f_dataURL file with
  | KImage, Return dataUrl =>
      [ {| file_id := random_id k; file_dataUrl := Some dataUrl |} ]
  | _, _ => []
  end.

(** The images of the files from position [k] on. *)
Fixpoint images_from (k : nat) (files : list File) : list UploadedFile :=
  match files with
  | [] => []
  | file :: rest => image_of k file ++ images_from (S k) rest
  end.

End Processing.

End FileService.
Export FileService.

(* ===================================================================== *)
(** ** The application ([App.tsx]) *)
(* ===================================================================== *)

Module App.

Inductive AppStep : Type :=
| UPLOAD | PROCESSING | EDITOR | GENERATING_VISUALS | PREVIEW.

(** The state of [App] (lines 143-165), the log apart: its entries are
    the [AddLog] events. *)
Record AppState : Type := {
  app_step : AppStep;
  app_files : list File;
  app_urls : list jsstring;
  app_slideCount : N;
  app_styleInput : jsstring;
  app_requirementsInput : jsstring;
  app_uiLanguage : Language;
  app_outputLanguage : Language;
  app_provider : Provider;
  app_apiKey : jsstring;
  app_extractedContext : jsstring;
  app_availableImages : list UploadedFile;
  app_plan : option JValue
}.

(** The state [App] starts with. *)
Definition initial_app : AppState :=
  {| app_step := UPLOAD; app_files := []; app_urls := [];
     app_slideCount := 5; app_styleInput := []; app_requirementsInput := [];
     app_uiLanguage := Zh; app_outputLanguage := Zh; app_provider := Zenmux;
     app_apiKey := []; app_extractedContext := [];
     app_availableImages := []; app_plan := None |}.


Definition set_processed (st : AppState) (context : jsstring)
  (images : list UploadedFile) : AppState :=
  {| app_step := app_step st; app_files := app_files st;
     app_urls := app_urls st; app_slideCount := app_slideCount st;
     app_styleInput := app_styleInput st;
     app_requirementsInput := app_requirementsInput st;
     app_uiLanguage := app_uiLanguage st;
     app_outputLanguage := app_outputLanguage st;
     app_provider := app_provider st; app_apiKey := app_apiKey st;
     app_extractedContext := context; app_availableImages := images;
     app_plan := app_plan st |}.


Section Handlers.

Variable toLowerCase : jsstring -> jsstring.
Variable random_id : nat -> jsstring.

(** [translations[uiLanguage].errorProcessing] *)
Variable errorProcessing : Language -> jsstring.



(** [handleAddImages] (lines 217-227): the images it returns and the
    state it leaves. *)
Definition handleAddImages (st : AppState) (newFiles : list File)
  : list UploadedFile * AppState :=
  match processFiles toLowerCase random_id newFiles with
  | Return (_, images) =>
      (images,
       set_processed st (app_extractedContext st)
                     (app_availableImages st ++ images))
  | Throw _ => ([], st)
  end.

End Handlers.

End App.
Export App.


(* ===================================================================== *)
(** * Properties *)
(* ===================================================================== *)

(** ** Strings and property lists *)

Module JsFacts.

Lemma eqb_eq (a b : jsstring) : JsString.eqb a b = true <-> a = b.
Proof.
  unfold JsString.eqb. destruct (list_eq_dec N.eq_dec a b); split; congruence.
Qed.

Lemma eqb_refl (a : jsstring) : JsString.eqb a a = true.
Proof. now apply eqb_eq. Qed.

Lemma eqb_neq (a b : jsstring) : JsString.eqb a b = false <-> a <> b.
Proof.
  unfold JsString.eqb. destruct (list_eq_dec N.eq_dec a b); split; congruence.
Qed.

Lemma eqb_sym (a b : jsstring) : JsString.eqb a b = JsString.eqb b a.
Proof.
  destruct (JsString.eqb a b) eqn:E.
  - apply eqb_eq in E. subst. now rewrite eqb_refl.
  - apply eqb_neq in E. symmetry. apply eqb_neq. congruence.
Qed.

Lemma get_own_set_own_eq k v ps : get_own k (set_own k v ps) = Some v.
Proof.
  induction ps as [|[k' v'] ps IH]; simpl.
  - now rewrite eqb_refl.
  - destruct (JsString.eqb k k') eqn:E; simpl.
    + now rewrite eqb_refl.
    + now rewrite E.
Qed.

Lemma get_own_set_own_ne k k' v ps :
  JsString.eqb k' k = false -> get_own k' (set_own k v ps) = get_own k' ps.
Proof.
  intros Hne. induction ps as [|[k0 v0] ps IH]; simpl.
  - now rewrite Hne.
  - destruct (JsString.eqb k k0) eqn:E; simpl.
    + apply eqb_eq in E. subst k0. now rewrite Hne.
    + now rewrite IH.
Qed.

Lemma get_prop_assign_eq o k v o' :
  assign o k v = Return o' -> get_prop o' k = v.
Proof.
  unfold assign, set_prop. destruct o; try discriminate;
    intros H; inversion H; subst; simpl; now rewrite get_own_set_own_eq.
Qed.

Lemma get_prop_assign_ne o k k' v o' :
  JsString.eqb k' k = false ->
  assign o k v = Return o' -> get_prop o' k' = get_prop o k'.
Proof.
  intros Hne. unfold assign, set_prop. destruct o; try discriminate;
    intros H; inversion H; subst; simpl; now rewrite get_own_set_own_ne.
Qed.

End JsFacts.
Import JsFacts.

(** ** The monad and the trace *)

Module RuntimeFacts.

Lemma bind_return {A B} (m : M A) (k : A -> M B) w a w' :
  m w = (Return a, w') -> bind m k w = k a w'.
Proof. intros H. unfold bind. now rewrite H. Qed.

Lemma bind_throw {A B} (m : M A) (k : A -> M B) w e w' :
  m w = (Throw e, w') -> bind m k w = (Throw e, w').
Proof. intros H. unfold bind. now rewrite H. Qed.

Lemma try_return {A} (m : M A) (h : JsError -> M A) w a w' :
  m w = (Return a, w') -> try_catch m h w = (Return a, w').
Proof. intros H. unfold try_catch. now rewrite H. Qed.

Lemma try_throw {A} (m : M A) (h : JsError -> M A) w e w' :
  m w = (Throw e, w') -> try_catch m h w = h e w'.
Proof. intros H. unfold try_catch. now rewrite H. Qed.

Lemma addLog_opt_returns addLog entry w :
  exists w', addLog_opt addLog entry w = (Return tt, w').
Proof. destruct addLog; simpl; eexists; reflexivity. Qed.

Lemma getApiKey_returns providedKey w :
  exists key, getApiKey providedKey w = (Return key, w).
Proof.
  unfold getApiKey. destruct (truthy_string providedKey).
  - eexists; reflexivity.
  - unfold bind, ambient_key. destruct (env_API_KEY w) as [k|].
    + destruct (truthy_string k); eexists; reflexivity.
    + eexists; reflexivity.
Qed.

(** Every computation below runs; the lemmas say with what events. *)

Lemma runs_fun {A} (m : M A) w r w' evs r2 w2 evs2 :
  runs m w r w' evs -> runs m w r2 w2 evs2 ->
  r2 = r /\ w2 = w' /\ evs2 = evs.
Proof.
  intros (H1 & T1 & _) (H2 & T2 & _). rewrite H1 in H2. inversion H2; subst.
  repeat split. rewrite T1 in T2. now apply app_inv_head in T2.
Qed.

Lemma runs_ret {A} (a : A) w : runs (ret a) w (Return a) w [].
Proof. unfold runs, ret. now rewrite app_nil_r. Qed.

Lemma runs_throw {A} e w : runs (@throw A e) w (Throw e) w [].
Proof. unfold runs, throw. now rewrite app_nil_r. Qed.

Lemma runs_lift {A} (c : Completion A) w : runs (lift c) w c w [].
Proof. unfold runs, lift. now rewrite app_nil_r. Qed.

Lemma runs_emit ev w :
  exists w', runs (emit ev) w (Return tt) w' [ev].
Proof. eexists. unfold runs, emit. simpl. repeat split. Qed.

Lemma runs_bind_return {A B} (m : M A) (k : A -> M B) w a w1 evs1 r w2 evs2 :
  runs m w (Return a) w1 evs1 -> runs (k a) w1 r w2 evs2 ->
  runs (bind m k) w r w2 (evs1 ++ evs2).
Proof.
  intros (H1 & T1 & F1 & S1 & K1) (H2 & T2 & F2 & S2 & K2).
  unfold runs. rewrite (bind_return _ _ _ _ _ H1), H2.
  rewrite T2, T1, F2, S2, K2, app_assoc. auto.
Qed.

Lemma runs_bind_throw {A B} (m : M A) (k : A -> M B) w e w1 evs1 :
  runs m w (Throw e) w1 evs1 -> runs (bind m k) w (Throw e) w1 evs1.
Proof.
  intros (H1 & T1 & F1 & S1 & K1).
  unfold runs. rewrite (bind_throw _ _ _ _ _ H1). auto.
Qed.

Lemma runs_try_return {A} (m : M A) h w a w1 evs1 :
  runs m w (Return a) w1 evs1 -> runs (try_catch m h) w (Return a) w1 evs1.
Proof.
  intros (H1 & T1 & F1 & S1 & K1).
  unfold runs. rewrite (try_return _ _ _ _ _ H1). auto.
Qed.

Lemma runs_try_throw {A} (m : M A) h w e w1 evs1 r w2 evs2 :
  runs m w (Throw e) w1 evs1 -> runs (h e) w1 r w2 evs2 ->
  runs (try_catch m h) w r w2 (evs1 ++ evs2).
Proof.
  intros (H1 & T1 & F1 & S1 & K1) (H2 & T2 & F2 & S2 & K2).
  unfold runs. rewrite (try_throw _ _ _ _ _ H1), H2.
  rewrite T2, T1, F2, S2, K2, app_assoc. auto.
Qed.

Lemma runs_addLog_opt addLog entry w :
  exists w', runs (addLog_opt addLog entry) w (Return tt) w'
                  (if addLog then [AddLog entry] else []).
Proof.
  destruct addLog; simpl.
  - apply runs_emit.
  - exists w. apply runs_ret.
Qed.

Lemma runs_getApiKey providedKey w :
  exists key, runs (getApiKey providedKey) w (Return key) w [].
Proof.
  destruct (getApiKey_returns providedKey w) as [key H].
  exists key. unfold runs. rewrite H, app_nil_r. auto.
Qed.

Lemma runs_fetch c w :
  exists w',
    runs (fetch c) w
         (match fetch_reply w (trace w) c with
          | FetchRejects e => Throw e
          | FetchResolves ok body => Return (ok, body)
          end) w' [Called c].
Proof.
  unfold runs, fetch, emit.
  destruct (fetch_reply w (trace w) c); eexists; simpl; repeat split.
Qed.

Lemma runs_json body w :
  runs (json body) w
       (match body with JsonRejects e => Throw e | JsonData d => Return d end)
       w [].
Proof. destruct body; [apply runs_throw | apply runs_ret]. Qed.

Lemma runs_generateContent c w :
  exists w',
    runs (generateContent c) w
         (match sdk_reply w (trace w) c with
          | SdkRejects e => Throw e
          | SdkResolves r => Return r
          end) w' [Called c].
Proof.
  unfold runs, generateContent, emit.
  destruct (sdk_reply w (trace w) c); eexists; simpl; repeat split.
Qed.

Lemma runs_outcome {A} (m : M A) w r w' evs :
  runs m w r w' evs -> outcome m w = r /\ world_after m w = w'.
Proof. intros (H & _). unfold outcome, world_after. now rewrite H. Qed.


End RuntimeFacts.
Import RuntimeFacts.

(* ===================================================================== *)
(** ** The plan generator *)
(* ===================================================================== *)

Module PlanFacts.

(** *** The fallback plan *)

Lemma Array_from_length_ok n :
  n <= 4294967295 ->
  Array_from_length n = Return (map N.of_nat (seq 0 (N.to_nat n))).
Proof.
  intros H. unfold Array_from_length.
  destruct (N.leb_spec n 4294967295); [reflexivity | lia].
Qed.

Lemma nth_error_indices n i :
  i < n ->
  nth_error (map N.of_nat (seq 0 (N.to_nat n))) (N.to_nat i) = Some i.
Proof.
  intros H. rewrite nth_error_map.
  rewrite nth_error_seq.
  destruct (Nat.ltb_spec (N.to_nat i) (N.to_nat n)); [|lia].
  simpl. now rewrite N2Nat.id.
Qed.

Lemma createFallbackPlan_returns slideCount outputLanguage styleInput :
  slideCount <= 4294967295 ->
  createFallbackPlan slideCount outputLanguage styleInput =
  Return
    (JObj [ (utf16 "topic",
             JStr (lang_text outputLanguage "生成的演示文稿"
                             "Generated Presentation"));
            (utf16 "style", of_option styleInput);
            (utf16 "slides",
             JArr (map (fallback_slide outputLanguage)
                       (map N.of_nat (seq 0 (N.to_nat slideCount)))) []) ]).
Proof.
  intros H. unfold createFallbackPlan. now rewrite Array_from_length_ok.
Qed.

(** What the fallback plan holds, field by field. *)
Lemma fallback_plan_shape slideCount outputLanguage styleInput plan :
  createFallbackPlan slideCount outputLanguage styleInput = Return plan ->
  get_prop plan (utf16 "style") = of_option styleInput
  /\ get_own (utf16 "requirements")
       match plan with JObj ps => ps | _ => [] end = None
  /\ get_prop plan (utf16 "requirements") = JUndefined
  /\ exists slides,
       get_prop plan (utf16 "slides") = JArr slides []
       /\ length slides = N.to_nat slideCount
       /\ forall i, i < slideCount ->
            nth_error slides (N.to_nat i) = Some (fallback_slide outputLanguage i).
Proof.
  unfold createFallbackPlan, Array_from_length.
  destruct (N.leb_spec slideCount 4294967295) as [Hle|Hgt]; [|discriminate].
  intros H. inversion H; subst plan; clear H.
  repeat split; try reflexivity.
  eexists. split; [reflexivity|]. split.
  - now rewrite !length_map, length_seq.
  - intros i Hi. rewrite nth_error_map, nth_error_indices by assumption.
    reflexivity.
Qed.

Lemma fallback_slide_fields outputLanguage i :
  let s := fallback_slide outputLanguage i in
  get_prop s (utf16 "id") = JStr (utf16 "slide-" ++ decimal i)
  /\ get_prop s (utf16 "title") =
       JStr (match outputLanguage with
             | Zh => utf16 "幻灯片"
             | En => utf16 "Slide"
             end ++ utf16 " " ++ decimal (i + 1))
  /\ get_prop s (utf16 "bullets") =
       match outputLanguage with
       | Zh => JArr [JStr (utf16 "内容生成失败。"); JStr (utf16 "请手动编辑。")] []
       | En => JArr [JStr (utf16 "Content generation failed.");
                     JStr (utf16 "Please edit manually.")] []
       end
  /\ get_prop s (utf16 "visualNote") = JStr (utf16 "Placeholder")
  /\ get_prop s (utf16 "selectedImageIds") = JArr [] [].
Proof. destruct outputLanguage; repeat split; reflexivity. Qed.

(** *** The post-processing of a parsed response *)

Lemma assign_each_spec k v xs ys :
  assign_each k v xs = Return ys ->
  length ys = length xs /\ Forall (fun y => get_prop y k = v) ys.
Proof.
  revert ys. induction xs as [|x xs IH]; simpl; intros ys H.
  - inversion H. split; [reflexivity | constructor].
  - destruct (assign x k v) as [x'|] eqn:Ex; [|discriminate].
    destruct (assign_each k v xs) as [rest|] eqn:Er; [|discriminate].
    inversion H; subst ys. destruct (IH rest eq_refl) as [Hl Hf].
    split; [simpl; now rewrite Hl|].
    constructor; [|assumption]. eapply get_prop_assign_eq; eassumption.
Qed.

Lemma reset_selected_images_slides parsed plan :
  reset_selected_images parsed = Return plan ->
  exists slides props,
    get_prop plan (utf16 "slides") = JArr slides props
    /\ Forall (fun s => get_prop s (utf16 "selectedImageIds") = JArr [] [])
              slides.
Proof.
  unfold reset_selected_images.
  destruct (get_prop parsed (utf16 "slides")) as [| | | | |elems props|];
    try discriminate.
  destruct (get_own (utf16 "forEach") props); [discriminate|].
  destruct (assign_each (utf16 "selectedImageIds") (JArr [] []) elems)
    as [elems'|] eqn:He; [|discriminate].
  intros H. exists elems', props. split.
  - eapply get_prop_assign_eq; eassumption.
  - eapply assign_each_spec; eassumption.
Qed.

Lemma reset_selected_images_other parsed plan k :
  JsString.eqb k (utf16 "slides") = false ->
  reset_selected_images parsed = Return plan ->
  get_prop plan k = get_prop parsed k.
Proof.
  intros Hk. unfold reset_selected_images.
  destruct (get_prop parsed (utf16 "slides")) as [| | | | |elems props|];
    try discriminate.
  destruct (get_own (utf16 "forEach") props); [discriminate|].
  destruct (assign_each (utf16 "selectedImageIds") (JArr [] []) elems)
    as [elems'|]; [|discriminate].
  intros H. eapply get_prop_assign_ne; eassumption.
Qed.

Lemma zenmux_postprocess_postprocessed c styleInput requirementsInput plan :
  zenmux_postprocess c styleInput requirementsInput = Return plan ->
  postprocessed styleInput requirementsInput plan.
Proof.
  unfold zenmux_postprocess, bindC.
  destruct (parse c) as [p0|]; [|discriminate].
  destruct (assign p0 _ _) as [p1|] eqn:E1; [|discriminate].
  destruct (assign p1 _ _) as [p2|] eqn:E2; [|discriminate].
  destruct (negb _); [discriminate|].
  intros H. exists p0, p1, p2. auto.
Qed.

Lemma google_postprocess_postprocessed t styleInput requirementsInput plan :
  google_postprocess t styleInput requirementsInput = Return plan ->
  postprocessed styleInput requirementsInput plan.
Proof.
  unfold google_postprocess, bindC.
  destruct (parse t) as [p0|]; [|discriminate].
  destruct (assign p0 _ _) as [p1|] eqn:E1; [|discriminate].
  destruct (assign p1 _ _) as [p2|] eqn:E2; [|discriminate].
  intros H. exists p0, p1, p2. auto.
Qed.

Lemma postprocessed_fields styleInput requirementsInput plan :
  postprocessed styleInput requirementsInput plan ->
  get_prop plan (utf16 "style") = of_option styleInput
  /\ get_prop plan (utf16 "requirements") = of_option requirementsInput
  /\ exists slides props,
       get_prop plan (utf16 "slides") = JArr slides props
       /\ Forall (fun s => get_prop s (utf16 "selectedImageIds") = JArr [] [])
                 slides.
Proof.
  intros (p0 & p1 & p2 & H1 & H2 & H3). repeat split.
  - rewrite (reset_selected_images_other _ _ (utf16 "style") eq_refl H3).
    rewrite (get_prop_assign_ne p1 (utf16 "requirements") (utf16 "style") _ _
               eq_refl H2).
    eapply get_prop_assign_eq; eassumption.
  - rewrite (reset_selected_images_other _ _ (utf16 "requirements")
               eq_refl H3).
    eapply get_prop_assign_eq; eassumption.
  - eapply reset_selected_images_slides; eassumption.
Qed.

(** *** The two branches *)

Lemma zenmux_attempt_success prompt apiKey addLog w plan w' :
  zenmux_plan_attempt prompt apiKey addLog w = (Return plan, w') ->
  postprocessed (pp_styleInput prompt) (pp_requirementsInput prompt) plan.
Proof.
  unfold zenmux_plan_attempt, bind, fetch, json, emit, throw, ret, lift.
  destruct (fetch_reply w (trace w) _) as [e|ok body]; [discriminate|].
  destruct body as [e|d]; [discriminate|]. simpl.
  destruct (addLog_opt_returns addLog log_response_entry
              {| fetch_reply := fetch_reply w; sdk_reply := sdk_reply w;
                 env_API_KEY := env_API_KEY w;
                 trace := trace w ++
                   [Called (FetchChat apiKey (utf16 "google/gemini-2.5-flash")
                              prompt)] |}) as [w1 Hw1].
  rewrite Hw1. destruct ok; simpl; [|discriminate].
  destruct (content d) as [c|]; [|discriminate].
  destruct (truthy_string c); [|discriminate].
  unfold parse_gateway_content, bindC.
  destruct (clean_code_block c) as [c'|]; [|discriminate].
  intros H. inversion H. eapply zenmux_postprocess_postprocessed; eassumption.
Qed.

Lemma google_attempt_success prompt key addLog w plan w' :
  google_plan_attempt prompt key addLog w = (Return plan, w') ->
  postprocessed (pp_styleInput prompt) (pp_requirementsInput prompt) plan.
Proof.
  unfold google_plan_attempt, bind.
  destruct (addLog_opt_returns addLog
              (log_message_entry LogRequest
                 (utf16 "Calling Google Gemini 2.5 Flash via SDK")) w)
    as [w1 Hw1].
  rewrite Hw1. unfold generateContent, emit.
  destruct (sdk_reply w1 (trace w1) _) as [e|r]; [discriminate|].
  match goal with
  | |- context [addLog_opt addLog ?entry ?w0] =>
      destruct (addLog_opt_returns addLog entry w0) as [w2 Hw2]; rewrite Hw2
  end.
  destruct (text r) as [t|]; [|discriminate].
  destruct (truthy_string t); [|discriminate].
  unfold lift. intros H. inversion H.
  eapply google_postprocess_postprocessed; eassumption.
Qed.

(** The plan generator returns what its [try] block returned, and the
    fallback plan when the block threw. *)
Lemma generateSlidePlan_cases contextText slideCount urlInputs outputLanguage
  styleInput requirementsInput provider apiKey addLog w :
  let prompt :=
    {| pp_contextText := contextText; pp_urlInputs := urlInputs;
       pp_slideCount := slideCount; pp_outputLanguage := outputLanguage;
       pp_styleInput := styleInput;
       pp_requirementsInput := requirementsInput |} in
  exists w',
    match plan_attempt_outcome prompt provider apiKey addLog w with
    | Return plan =>
        generateSlidePlan contextText slideCount urlInputs outputLanguage
          styleInput requirementsInput provider apiKey addLog w
        = (Return plan, w')
        /\ postprocessed styleInput requirementsInput plan
    | Throw _ =>
        generateSlidePlan contextText slideCount urlInputs outputLanguage
          styleInput requirementsInput provider apiKey addLog w
        = (createFallbackPlan slideCount outputLanguage styleInput, w')
    end.
Proof.
  intros prompt. unfold generateSlidePlan, plan_attempt_outcome, outcome.
  fold prompt. destruct provider.
  - (* the SDK *)
    destruct (getApiKey_returns apiKey w) as [key Hkey].
    rewrite !(bind_return _ _ _ _ _ Hkey).
    destruct (google_plan_attempt prompt key addLog w) as [[plan|e] w1] eqn:Ha;
      simpl.
    + exists w1. rewrite (try_return _ _ _ _ _ Ha). split; [reflexivity|].
      apply (google_attempt_success _ _ _ _ _ _ Ha).
    + rewrite (try_throw _ _ _ _ _ Ha). unfold plan_fallback.
      destruct (addLog_opt_returns addLog
                  (log_message_entry LogError (toString e)) w1) as [w2 Hw2].
      rewrite (bind_return _ _ _ _ _ Hw2). exists w2. reflexivity.
  - (* the gateway *)
    unfold world_after.
    destruct (addLog_opt_returns addLog (log_request_entry chat_url) w)
      as [w0 Hw0].
    rewrite (bind_return _ _ _ _ _ Hw0). rewrite Hw0. simpl snd.
    destruct (zenmux_plan_attempt prompt apiKey addLog w0) as [[plan|e] w1]
      eqn:Ha; simpl.
    + exists w1. rewrite (try_return _ _ _ _ _ Ha). split; [reflexivity|].
      apply (zenmux_attempt_success _ _ _ _ _ _ Ha).
    + rewrite (try_throw _ _ _ _ _ Ha). unfold plan_fallback.
      destruct (addLog_opt_returns addLog
                  (log_message_entry LogError (toString e)) w1) as [w2 Hw2].
      rewrite (bind_return _ _ _ _ _ Hw2). exists w2. reflexivity.
Qed.

End PlanFacts.
Import PlanFacts.

(** The scenario of the specification: the gateway answers HTTP 500 and
    the English fallback plan comes back. *)
Example gateway_http_500_gives_fallback :
  outcome (generateSlidePlan (utf16 "Acme Corp Q3 results") 3 [] En None None
             Zenmux (utf16 "sk-test") true) world_http_500
  = createFallbackPlan 3 En None.
Proof. reflexivity. Qed.

(** The failures of the gateway branch, one by one: each makes the [try]
    block throw. *)
Lemma zenmux_transport_failure prompt apiKey addLog w e :
  fetch_reply w (trace w)
    (FetchChat apiKey (utf16 "google/gemini-2.5-flash") prompt)
  = FetchRejects e ->
  outcome (zenmux_plan_attempt prompt apiKey addLog) w = Throw e.
Proof.
  intros H. unfold outcome, zenmux_plan_attempt, bind, fetch.
  rewrite H. reflexivity.
Qed.

Lemma zenmux_http_failure prompt apiKey addLog w body :
  fetch_reply w (trace w)
    (FetchChat apiKey (utf16 "google/gemini-2.5-flash") prompt)
  = FetchResolves false body ->
  exists e, outcome (zenmux_plan_attempt prompt apiKey addLog) w = Throw e.
Proof.
  intros H. unfold outcome, zenmux_plan_attempt, bind, fetch.
  rewrite H. simpl. destruct body as [e|d]; simpl.
  - eexists; reflexivity.
  - match goal with
    | |- context [addLog_opt addLog ?entry ?w0] =>
        destruct (addLog_opt_returns addLog entry w0) as [w2 Hw2]; rewrite Hw2
    end.
    eexists; reflexivity.
Qed.

Lemma zenmux_parse_failure c c' styleInput requirementsInput :
  clean_code_block c = Return c' -> JSON_parse c' = None ->
  parse_gateway_content c styleInput requirementsInput = Throw SyntaxError.
Proof.
  intros Hc Hp. unfold parse_gateway_content. rewrite Hc. simpl.
  unfold zenmux_postprocess, parse.
  now rewrite Hp.
Qed.

Lemma zenmux_schema_failure c parsed styleInput requirementsInput :
  JSON_parse c = Some parsed ->
  truthy (get_prop parsed (utf16 "slides")) = false ->
  exists e, zenmux_postprocess c styleInput requirementsInput = Throw e.
Proof.
  intros Hp Hs. unfold zenmux_postprocess, parse. rewrite Hp. simpl.
  destruct (assign parsed _ _) as [p1|] eqn:E1; simpl; [|eexists; reflexivity].
  destruct (assign p1 _ _) as [p2|] eqn:E2; simpl; [|eexists; reflexivity].
  rewrite (get_prop_assign_ne p1 (utf16 "requirements") (utf16 "slides") _ _
             eq_refl E2).
  rewrite (get_prop_assign_ne parsed (utf16 "style") (utf16 "slides") _ _
             eq_refl E1).
  rewrite Hs. simpl. eexists; reflexivity.
Qed.

(** C5 — Every plan the plan generator returns, from the response of
    either provider or as the fallback, has an array of slides each of
    which has [selectedImageIds] equal to the empty array, whatever the
    model sent in that field. *)
Theorem plan_slides_select_no_image :
  forall contextText slideCount urlInputs outputLanguage styleInput
         requirementsInput provider apiKey addLog w,
    slideCount <= 4294967295 ->
    exists plan w' slides props,
      generateSlidePlan contextText slideCount urlInputs outputLanguage
        styleInput requirementsInput provider apiKey addLog w
      = (Return plan, w')
      /\ get_prop plan (utf16 "slides") = JArr slides props
      /\ Forall (fun s => get_prop s (utf16 "selectedImageIds") = JArr [] [])
                slides.
Proof.
  intros contextText slideCount urlInputs outputLanguage styleInput
         requirementsInput provider apiKey addLog w Hcount.
  destruct (generateSlidePlan_cases contextText slideCount urlInputs
              outputLanguage styleInput requirementsInput provider apiKey
              addLog w) as [w' Hcases].
  cbv zeta in Hcases.
  destruct (plan_attempt_outcome _ provider apiKey addLog w) as [plan|e0].
  - destruct Hcases as [Hrun Hpost].
    destruct (postprocessed_fields _ _ _ Hpost)
      as (_ & _ & slides & props & Hslides & Hall).
    exists plan, w', slides, props. auto.
  - pose proof (createFallbackPlan_returns slideCount outputLanguage
                  styleInput Hcount) as Hfb.
    rewrite Hfb in Hcases.
    destruct (fallback_plan_shape _ _ _ _ Hfb)
      as (_ & _ & _ & slides & Hslides & Hlen & Hnth).
    eexists. exists w', slides, []. split; [exact Hcases|].
    split; [exact Hslides|].
    simpl in Hslides. inversion Hslides; subst slides.
    apply Forall_forall. intros s Hin. apply in_map_iff in Hin.
    destruct Hin as (i & <- & _). reflexivity.
Qed.

Lemma plan_slides_select_no_image_witness :
  3 <= 4294967295
  /\ exists plan w' slides props,
       generateSlidePlan (utf16 "Acme Corp Q3 results") 3 [] En None None
         Zenmux (utf16 "sk-test") true world_http_500
       = (Return plan, w')
       /\ get_prop plan (utf16 "slides") = JArr slides props
       /\ Forall (fun s => get_prop s (utf16 "selectedImageIds") = JArr [] [])
                 slides.
Proof.
  split; [lia|].
  apply (plan_slides_select_no_image
           (utf16 "Acme Corp Q3 results") 3 [] En None None Zenmux
           (utf16 "sk-test") true world_http_500).
  lia.
Defined.

(** C9 — The fallback plan drops the caller's requirements and keeps the
    style.  When the [try] block throws, the returned plan has no
    [requirements] property (reading it gives [undefined]) whatever
    [requirementsInput] was, and its style is [styleInput]; when the
    block returns, the plan carries [requirements] equal to
    [requirementsInput]. *)
Theorem fallback_plan_drops_requirements :
  forall contextText slideCount urlInputs outputLanguage styleInput
         requirementsInput provider apiKey addLog w,
    slideCount <= 4294967295 ->
    exists plan w',
      generateSlidePlan contextText slideCount urlInputs outputLanguage
        styleInput requirementsInput provider apiKey addLog w
      = (Return plan, w')
      /\ match plan_attempt_outcome
                 {| pp_contextText := contextText; pp_urlInputs := urlInputs;
                    pp_slideCount := slideCount;
                    pp_outputLanguage := outputLanguage;
                    pp_styleInput := styleInput;
                    pp_requirementsInput := requirementsInput |}
                 provider apiKey addLog w with
         | Throw _ =>
             get_prop plan (utf16 "requirements") = JUndefined
             /\ get_own (utf16 "requirements")
                  match plan with JObj ps => ps | _ => [] end = None
             /\ get_prop plan (utf16 "style") = of_option styleInput
         | Return _ =>
             get_prop plan (utf16 "requirements") = of_option requirementsInput
             /\ get_prop plan (utf16 "style") = of_option styleInput
         end.
Proof.
  intros contextText slideCount urlInputs outputLanguage styleInput
         requirementsInput provider apiKey addLog w Hcount.
  destruct (generateSlidePlan_cases contextText slideCount urlInputs
              outputLanguage styleInput requirementsInput provider apiKey
              addLog w) as [w' Hcases].
  cbv zeta in Hcases.
  destruct (plan_attempt_outcome _ provider apiKey addLog w) as [plan|e0].
  - destruct Hcases as [Hrun Hpost].
    destruct (postprocessed_fields _ _ _ Hpost) as (Hstyle & Hreq & _).
    exists plan, w'. auto.
  - pose proof (createFallbackPlan_returns slideCount outputLanguage
                  styleInput Hcount) as Hfb.
    rewrite Hfb in Hcases.
    destruct (fallback_plan_shape _ _ _ _ Hfb) as (Hstyle & Habsent & Hreq & _).
    eexists. exists w'. split; [exact Hcases|]. auto.
Qed.

Lemma fallback_plan_drops_requirements_witness :
  3 <= 4294967295
  /\ exists plan w',
       generateSlidePlan (utf16 "Acme Corp Q3 results") 3 [] En
         (Some (utf16 "Minimal")) (Some (utf16 "Focus on revenue"))
         Zenmux (utf16 "sk-test") true world_http_500
       = (Return plan, w')
       /\ match plan_attempt_outcome
                  {| pp_contextText := utf16 "Acme Corp Q3 results";
                     pp_urlInputs := []; pp_slideCount := 3;
                     pp_outputLanguage := En;
                     pp_styleInput := Some (utf16 "Minimal");
                     pp_requirementsInput := Some (utf16 "Focus on revenue") |}
                  Zenmux (utf16 "sk-test") true world_http_500 with
          | Throw _ =>
              get_prop plan (utf16 "requirements") = JUndefined
              /\ get_own (utf16 "requirements")
                   match plan with JObj ps => ps | _ => [] end = None
              /\ get_prop plan (utf16 "style") = of_option (Some (utf16 "Minimal"))
          | Return _ =>
              get_prop plan (utf16 "requirements")
              = of_option (Some (utf16 "Focus on revenue"))
              /\ get_prop plan (utf16 "style") = of_option (Some (utf16 "Minimal"))
          end.
Proof.
  split; [lia|].
  apply (fallback_plan_drops_requirements
           (utf16 "Acme Corp Q3 results") 3 [] En (Some (utf16 "Minimal"))
           (Some (utf16 "Focus on revenue")) Zenmux (utf16 "sk-test") true
           world_http_500).
  lia.
Defined.

(** The two paths on concrete answers: the model's plan comes back with
    the caller's requirements and with every selection emptied; the
    fallback plan has no requirements. *)
Example success_path_keeps_requirements :
  exists plan,
    outcome (generateSlidePlan (utf16 "Acme Corp Q3 results") 2 [] En None
               (Some (utf16 "Focus on revenue")) Zenmux (utf16 "sk-test") true)
            world_model_plan = Return plan
    /\ get_prop plan (utf16 "topic") = JStr (utf16 "Acme Q3")
    /\ get_prop plan (utf16 "requirements") = JStr (utf16 "Focus on revenue")
    /\ get_prop plan (utf16 "slides")
       = JArr [model_slide "slide-1" []; model_slide "slide-2" []] [].
Proof. eexists. split; [vm_compute; reflexivity|]. repeat split. Qed.

Example fallback_path_drops_requirements :
  exists plan,
    outcome (generateSlidePlan (utf16 "Acme Corp Q3 results") 2 [] En None
               (Some (utf16 "Focus on revenue")) Zenmux (utf16 "sk-test") true)
            world_http_500 = Return plan
    /\ get_prop plan (utf16 "requirements") = JUndefined.
Proof. eexists. split; [vm_compute; reflexivity|]. reflexivity. Qed.

(* ===================================================================== *)
(** ** The slide image generator *)
(* ===================================================================== *)

Module ImageFacts.

Ltac close_runs :=
  simpl; rewrite <- ?app_assoc; simpl; repeat split; try reflexivity.

Lemma includes_nonempty needle s :
  needle <> [] -> includes needle s = true -> truthy_string s = true.
Proof.
  intros Hn H. destruct s; [|reflexivity].
  simpl in H. destruct needle; [congruence | discriminate].
Qed.

Lemma errorMsg_message e :
  truthy_string (err_message e) = true -> errorMsg e = err_message e.
Proof. intros H. unfold errorMsg. now rewrite H. Qed.

(** The gateway branch: one request, and the outcome of the [try] block
    is the outcome of the call. *)
Lemma zenmux_image_spec slide style imgs apiKey addLog w :
  exists w' evs,
    runs (generateFinalSlideImage slide style imgs Zenmux apiKey addLog) w
         (image_attempt_outcome slide style imgs Zenmux apiKey addLog w)
         w' evs
    /\ provider_calls evs
       = [FetchImage apiKey zenmux_image_model (build_parts slide style imgs)]
    /\ forallb service_event evs = true.
Proof.
  unfold runs, generateFinalSlideImage, image_attempt_outcome, outcome,
    world_after.
  set (parts := build_parts slide style imgs).
  unfold zenmux_image_attempt, bind, try_catch, fetch, json, throw, ret, emit.
  destruct addLog; simpl.
  - destruct (fetch_reply w _ _) as [e|ok [e|d]]; simpl.
    + do 2 eexists. split; [close_runs|]. split; reflexivity.
    + do 2 eexists. split; [close_runs|]. split; reflexivity.
    + destruct ok; simpl.
      * destruct (truthy_string (zenmux_image_data d)); simpl;
          do 2 eexists; (split; [close_runs|]); split; reflexivity.
      * do 2 eexists. split; [close_runs|]. split; reflexivity.
  - destruct (fetch_reply w _ _) as [e|ok [e|d]]; simpl.
    + do 2 eexists. split; [close_runs|]. split; reflexivity.
    + do 2 eexists. split; [close_runs|]. split; reflexivity.
    + destruct ok; simpl.
      * destruct (truthy_string (zenmux_image_data d)); simpl;
          do 2 eexists; (split; [close_runs|]); split; reflexivity.
      * do 2 eexists. split; [close_runs|]. split; reflexivity.
Qed.

(** The SDK branch, after the key is known. *)
Lemma google_image_core parts key addLog w :
  exists r w' evs,
    runs (try_catch (google_image_attempt parts key addLog)
                    (google_image_recover parts key addLog)) w r w' evs
    /\ forallb service_event evs = true
    /\ match outcome (google_image_attempt parts key addLog) w with
       | Return url =>
           r = Return url
           /\ provider_calls evs
              = [SdkImage key primary_model parts (Some (utf16 "4K"))]
       | Throw e =>
           if fallback_eligible (errorMsg e) then
             provider_calls evs
             = [SdkImage key primary_model parts (Some (utf16 "4K"));
                SdkImage key fallback_model parts None]
           else
             r = Throw e
             /\ provider_calls evs
                = [SdkImage key primary_model parts (Some (utf16 "4K"))]
       end.
Proof.
  unfold runs, outcome, google_image_attempt, google_image_recover.
  unfold bind, try_catch, generateContent, throw, ret, emit.
  destruct addLog; simpl;
    repeat (match goal with
            | |- context [sdk_reply ?w0 ?t ?c] =>
                destruct (sdk_reply w0 t c) as [?|?]
            | |- context [fallback_eligible ?m] =>
                destruct (fallback_eligible m)
            | |- context [first_inline_part ?m] =>
                destruct (first_inline_part m)
            end; simpl);
    do 3 eexists; (split; [close_runs|]); repeat split; reflexivity.
Qed.

Lemma google_image_spec slide style imgs apiKey addLog w :
  exists key r w' evs,
    runs (generateFinalSlideImage slide style imgs Google apiKey addLog) w
         r w' evs
    /\ forallb service_event evs = true
    /\ match image_attempt_outcome slide style imgs Google apiKey addLog w with
       | Return url =>
           r = Return url
           /\ provider_calls evs
              = [SdkImage key primary_model (build_parts slide style imgs)
                          (Some (utf16 "4K"))]
       | Throw e =>
           if fallback_eligible (errorMsg e) then
             provider_calls evs
             = [SdkImage key primary_model (build_parts slide style imgs)
                         (Some (utf16 "4K"));
                SdkImage key fallback_model (build_parts slide style imgs) None]
           else
             r = Throw e
             /\ provider_calls evs
                = [SdkImage key primary_model (build_parts slide style imgs)
                            (Some (utf16 "4K"))]
       end.
Proof.
  unfold generateFinalSlideImage, image_attempt_outcome.
  set (parts := build_parts slide style imgs).
  destruct (runs_getApiKey apiKey w) as [key Hkey].
  destruct (google_image_core parts key addLog w) as (r & w' & evs & Hr & Hs & Hc).
  exists key, r, w', evs. split.
  - apply (runs_bind_return _ _ _ _ _ _ _ _ _ Hkey Hr).
  - split; [exact Hs|].
    unfold outcome in *. destruct Hkey as (Hk & _).
    rewrite (bind_return _ _ _ _ _ Hk). exact Hc.
Qed.

(** Whatever the provider, the generator runs, and all it does is send
    requests and write log entries. *)
Lemma generateFinalSlideImage_runs slide style imgs provider apiKey addLog w :
  exists r w' evs,
    runs (generateFinalSlideImage slide style imgs provider apiKey addLog) w
         r w' evs
    /\ forallb service_event evs = true.
Proof.
  destruct provider.
  - destruct (google_image_spec slide style imgs apiKey addLog w)
      as (key & r & w' & evs & Hr & Hs & _). eauto.
  - destruct (zenmux_image_spec slide style imgs apiKey addLog w)
      as (w' & evs & Hr & _ & Hs). eauto.
Qed.

End ImageFacts.
Import ImageFacts.

(** C10 — On the gateway provider [generateFinalSlideImage] sends exactly
    one image request per call and completes as that one attempt does:
    every failure, whatever its message, comes out as it is, with no
    second model tried.  The chain from the primary to the secondary model
    is on the SDK path only, where a refused primary request is followed
    by a request to the secondary model. *)
Theorem zenmux_render_sends_one_request :
  (forall slide style imgs apiKey addLog w,
     exists w' evs,
       runs (generateFinalSlideImage slide style imgs Zenmux apiKey addLog) w
            (image_attempt_outcome slide style imgs Zenmux apiKey addLog w)
            w' evs
       /\ provider_calls evs
          = [FetchImage apiKey zenmux_image_model
                        (build_parts slide style imgs)])
  /\ (exists w' evs,
        runs (generateFinalSlideImage slide_A [] None Google
                (utf16 "key") true)
             (refusing_world "403 Forbidden")
             (Throw (Error (utf16 "403 Forbidden"))) w' evs
        /\ provider_calls evs
           = [SdkImage (utf16 "key") primary_model
                       (build_parts slide_A [] None) (Some (utf16 "4K"));
              SdkImage (utf16 "key") fallback_model
                       (build_parts slide_A [] None) None]).
Proof.
  split.
  - intros slide style imgs apiKey addLog w.
    destruct (zenmux_image_spec slide style imgs apiKey addLog w)
      as (w' & evs & Hr & Hc & _).
    exists w', evs. auto.
  - exists (world_after
              (generateFinalSlideImage slide_A [] None Google (utf16 "key") true)
              (refusing_world "403 Forbidden")).
    exists (trace (world_after
                     (generateFinalSlideImage slide_A [] None Google
                        (utf16 "key") true)
                     (refusing_world "403 Forbidden"))).
    split; [|vm_compute; reflexivity].
    unfold runs. split; [vm_compute; reflexivity|]. now repeat split.
Qed.

(** C3, as the specification states it, fails on the gateway provider: the
    only model is refused with a message that contains "403", and the one
    request of the run is the request to that model; no secondary model is
    called. *)
Lemma gateway_403_has_no_secondary_call :
  image_attempt_outcome slide_A [] None Zenmux (utf16 "key") true
    (refusing_world "403 Forbidden")
  = Throw (Error (utf16 "403 Forbidden"))
  /\ includes (utf16 "403") (err_message (Error (utf16 "403 Forbidden"))) = true
  /\ outcome (generateFinalSlideImage slide_A [] None Zenmux (utf16 "key") true)
             (refusing_world "403 Forbidden")
     = Throw (Error (utf16 "403 Forbidden"))
  /\ provider_calls
       (trace (world_after
                 (generateFinalSlideImage slide_A [] None Zenmux
                    (utf16 "key") true)
                 (refusing_world "403 Forbidden")))
     = [FetchImage (utf16 "key") zenmux_image_model
                   (build_parts slide_A [] None)].
Proof. repeat split; vm_compute; reflexivity. Qed.

(** C3 (amended) — On the SDK provider, when the primary model fails with
    an error whose message contains "403", the generator sends exactly one
    request to the secondary model after the one to the primary model.  On
    either provider, when the text the code inspects (the message of the
    error, or its [toString()] when the message is empty) contains none of
    the markers, the only request is the one to the primary model and the
    same error comes out. *)
Theorem fallback_after_403_on_sdk_path :
  forall slide style imgs provider apiKey addLog w e,
    image_attempt_outcome slide style imgs provider apiKey addLog w = Throw e ->
    (provider = Google ->
     includes (utf16 "403") (err_message e) = true ->
     exists key r w' evs,
       runs (generateFinalSlideImage slide style imgs Google apiKey addLog) w
            r w' evs
       /\ provider_calls evs
          = [SdkImage key primary_model (build_parts slide style imgs)
                      (Some (utf16 "4K"));
             SdkImage key fallback_model (build_parts slide style imgs) None])
    /\ (fallback_eligible (errorMsg e) = false ->
        exists key w' evs,
          runs (generateFinalSlideImage slide style imgs provider apiKey addLog)
               w (Throw e) w' evs
          /\ provider_calls evs
             = [match provider with
                | Google =>
                    SdkImage key primary_model (build_parts slide style imgs)
                             (Some (utf16 "4K"))
                | Zenmux =>
                    FetchImage apiKey zenmux_image_model
                               (build_parts slide style imgs)
                end]).
Proof.
  intros slide style imgs provider apiKey addLog w e Hfail. split.
  - intros -> H403.
    destruct (google_image_spec slide style imgs apiKey addLog w)
      as (key & r & w' & evs & Hr & _ & Hc).
    rewrite Hfail in Hc.
    assert (Hmsg : errorMsg e = err_message e).
    { apply errorMsg_message.
      apply (includes_nonempty (utf16 "403")); [discriminate | exact H403]. }
    assert (Hel : fallback_eligible (errorMsg e) = true).
    { unfold fallback_eligible. rewrite Hmsg, H403.
      now rewrite orb_true_r. }
    rewrite Hel in Hc. exists key, r, w', evs. auto.
  - intros Hno. destruct provider.
    + destruct (google_image_spec slide style imgs apiKey addLog w)
        as (key & r & w' & evs & Hr & _ & Hc).
      rewrite Hfail, Hno in Hc. destruct Hc as [-> Hc].
      exists key, w', evs. auto.
    + destruct (zenmux_image_spec slide style imgs apiKey addLog w)
        as (w' & evs & Hr & Hc & _).
      rewrite Hfail in Hr. exists [], w', evs. auto.
Qed.

Lemma fallback_after_403_on_sdk_path_witness :
  image_attempt_outcome slide_A [] None Google (utf16 "key") true
    (refusing_world "403 Forbidden")
  = Throw (Error (utf16 "403 Forbidden"))
  /\ (Google = Google ->
      includes (utf16 "403") (err_message (Error (utf16 "403 Forbidden")))
      = true ->
      exists key r w' evs,
        runs (generateFinalSlideImage slide_A [] None Google (utf16 "key") true)
             (refusing_world "403 Forbidden") r w' evs
        /\ provider_calls evs
           = [SdkImage key primary_model (build_parts slide_A [] None)
                       (Some (utf16 "4K"));
              SdkImage key fallback_model (build_parts slide_A [] None) None])
  /\ (fallback_eligible (errorMsg (Error (utf16 "403 Forbidden"))) = false ->
      exists key w' evs,
        runs (generateFinalSlideImage slide_A [] None Google (utf16 "key") true)
             (refusing_world "403 Forbidden")
             (Throw (Error (utf16 "403 Forbidden"))) w' evs
        /\ provider_calls evs
           = [SdkImage key primary_model (build_parts slide_A [] None)
                       (Some (utf16 "4K"))]).
Proof.
  split; [reflexivity|].
  apply (fallback_after_403_on_sdk_path slide_A [] None Google (utf16 "key")
           true (refusing_world "403 Forbidden")
           (Error (utf16 "403 Forbidden"))).
  reflexivity.
Defined.

(** A primary failure without a marker, on the SDK path: one request, and
    the error of the primary model comes out. *)
Example timeout_is_not_retried :
  outcome (generateFinalSlideImage slide_A [] None Google (utf16 "key") true)
          (refusing_world "timeout")
  = Throw (Error (utf16 "timeout"))
  /\ provider_calls
       (trace (world_after
                 (generateFinalSlideImage slide_A [] None Google
                    (utf16 "key") true)
                 (refusing_world "timeout")))
     = [SdkImage (utf16 "key") primary_model (build_parts slide_A [] None)
                 (Some (utf16 "4K"))].
Proof. split; vm_compute; reflexivity. Qed.

(** C7, as the specification states it, fails: "Permission denied" holds
    the marker "permission" in another letter case, and the SDK path sends
    the request to the primary model only. *)
Lemma permission_denied_is_not_retried :
  includes_any_case (utf16 "permission") (utf16 "Permission denied") = true
  /\ image_attempt_outcome slide_A [] None Google (utf16 "key") true
       (refusing_world "Permission denied")
     = Throw (Error (utf16 "Permission denied"))
  /\ outcome (generateFinalSlideImage slide_A [] None Google (utf16 "key") true)
             (refusing_world "Permission denied")
     = Throw (Error (utf16 "Permission denied"))
  /\ provider_calls
       (trace (world_after
                 (generateFinalSlideImage slide_A [] None Google
                    (utf16 "key") true)
                 (refusing_world "Permission denied")))
     = [SdkImage (utf16 "key") primary_model (build_parts slide_A [] None)
                 (Some (utf16 "4K"))].
Proof. repeat split; vm_compute; reflexivity. Qed.

(** C7 (amended) — On the SDK path the test is a case-sensitive substring
    match of the inspected error text against "permission", "403" and
    "not found": after a primary failure the secondary model is requested
    exactly when the text contains one of them as written. *)
Theorem sdk_fallback_test_is_case_sensitive :
  forall slide style imgs apiKey addLog w e,
    image_attempt_outcome slide style imgs Google apiKey addLog w = Throw e ->
    exists key r w' evs,
      runs (generateFinalSlideImage slide style imgs Google apiKey addLog) w
           r w' evs
      /\ provider_calls evs
         = SdkImage key primary_model (build_parts slide style imgs)
                    (Some (utf16 "4K"))
           :: (if includes (utf16 "permission") (errorMsg e)
                  || includes (utf16 "403") (errorMsg e)
                  || includes (utf16 "not found") (errorMsg e)
               then [SdkImage key fallback_model
                              (build_parts slide style imgs) None]
               else []).
Proof.
  intros slide style imgs apiKey addLog w e Hfail.
  destruct (google_image_spec slide style imgs apiKey addLog w)
    as (key & r & w' & evs & Hr & _ & Hc).
  rewrite Hfail in Hc. exists key, r, w', evs. split; [exact Hr|].
  unfold fallback_eligible in Hc.
  destruct (includes (utf16 "permission") (errorMsg e)
            || includes (utf16 "403") (errorMsg e)
            || includes (utf16 "not found") (errorMsg e)).
  - exact Hc.
  - apply Hc.
Qed.

Lemma sdk_fallback_test_is_case_sensitive_witness :
  image_attempt_outcome slide_A [] None Google (utf16 "key") true
    (refusing_world "Requested entity was not found.")
  = Throw (Error (utf16 "Requested entity was not found."))
  /\ exists key r w' evs,
       runs (generateFinalSlideImage slide_A [] None Google (utf16 "key") true)
            (refusing_world "Requested entity was not found.") r w' evs
       /\ provider_calls evs
          = SdkImage key primary_model (build_parts slide_A [] None)
                     (Some (utf16 "4K"))
            :: (if includes (utf16 "permission")
                     (errorMsg (Error (utf16 "Requested entity was not found.")))
                   || includes (utf16 "403")
                        (errorMsg (Error (utf16 "Requested entity was not found.")))
                   || includes (utf16 "not found")
                        (errorMsg (Error (utf16 "Requested entity was not found.")))
                then [SdkImage key fallback_model
                               (build_parts slide_A [] None) None]
                else []).
Proof.
  split; [reflexivity|].
  apply (sdk_fallback_test_is_case_sensitive slide_A [] None (utf16 "key")
           true (refusing_world "Requested entity was not found.")
           (Error (utf16 "Requested entity was not found."))).
  reflexivity.
Defined.

(* ===================================================================== *)
(** ** The batch controller *)
(* ===================================================================== *)

Module ControllerFacts.

(** *** The results array *)

Lemma slot_store_eq results i v : slot (store results i v) i = Some v.
Proof.
  unfold slot. revert results.
  induction i as [|i IH]; intros [|x rest]; simpl; auto.
Qed.

Lemma slot_nil i : slot [] i = None.
Proof. unfold slot. now destruct i. Qed.

Lemma slot_cons x rest k : slot (x :: rest) (S k) = slot rest k.
Proof. reflexivity. Qed.

Lemma slot_store_ne results i k v :
  k <> i -> slot (store results i v) k = slot results k.
Proof.
  revert results k.
  induction i as [|i IH]; intros [|x rest] [|k] Hne; simpl;
    try congruence; try reflexivity.
  - now rewrite slot_cons, !slot_nil.
  - rewrite slot_cons, IH by congruence. now rewrite !slot_nil.
  - rewrite !slot_cons. apply IH. congruence.
Qed.

(** *** Events *)

Lemma attempted_app a b : attempted (a ++ b) = attempted a ++ attempted b.
Proof. apply flat_map_app. Qed.

Lemma rendered_app a b : rendered (a ++ b) = rendered a ++ rendered b.
Proof. apply flat_map_app. Qed.

Lemma alerts_app a b : alerts (a ++ b) = alerts a ++ alerts b.
Proof. apply flat_map_app. Qed.

Lemma apply_events_app st a b :
  apply_events st (a ++ b) = apply_events (apply_events st a) b.
Proof. apply fold_left_app. Qed.

(** What the service module does is invisible to the component. *)
Lemma service_events_silent evs :
  forallb service_event evs = true ->
  attempted evs = [] /\ rendered evs = [] /\ alerts evs = []
  /\ forall st, apply_events st evs = st.
Proof.
  induction evs as [|ev evs IH]; simpl; intros H.
  - auto.
  - apply andb_true_iff in H. destruct H as [Hev Hrest].
    destruct (IH Hrest) as (Ha & Hr & Hal & Hst).
    destruct ev; try discriminate; simpl; rewrite ?Ha, ?Hr, ?Hal;
      repeat split; intros st; apply Hst.
Qed.

(** The state after the events of a round, where [Hst] says that the
    events of the generator leave the state as it is. *)
Ltac state_after_round Hst :=
  rewrite ?apply_events_app, ?Hst; reflexivity.

Section Rounds.

Variable generate : SlideData -> jsstring -> option (list jsstring) ->
                    Provider -> jsstring -> bool -> M jsstring.

(** The generator runs, and only sends requests and writes log entries. *)
Hypothesis generate_runs :
  forall slide style imgs provider apiKey addLog w,
    exists r w' evs,
      runs (generate slide style imgs provider apiKey addLog) w r w' evs
      /\ forallb service_event evs = true.

Lemma call_generate_runs a w :
  exists r w' evs,
    runs (call_generate generate a) w r w' (Render a :: evs)
    /\ forallb service_event evs = true.
Proof.
  unfold call_generate.
  destruct (runs_emit (Render a) w) as [w1 H1].
  destruct (generate_runs (ra_slide a) (ra_style a) (Some (ra_images a))
              (ra_provider a) (ra_apiKey a) true w1) as (r & w2 & evs & H2 & Hs).
  exists r, w2, evs. split; [|exact Hs].
  apply (runs_bind_return _ _ _ _ _ _ _ _ _ H1 H2).
Qed.

(** One round: the progress mark, the call, and what follows from how the
    call completes. *)
Lemma attempt_spec p i slide results w :
  exists w' evs,
    runs (attempt generate p i slide results) w
         (Return (round_of (render_outcome generate p i slide w) results i))
         w' evs
    /\ attempted evs = [i]
    /\ rendered evs = [render_args p slide]
    /\ alerts evs
       = match round_of (render_outcome generate p i slide w) results i with
         | Aborted _ => [alert_text (uiLanguage p)]
         | Continue _ => []
         end
    /\ forall st,
         generatedImages (apply_events st evs)
         = match render_outcome generate p i slide w with
           | Return imageUrl => store results i imageUrl
           | Throw _ => generatedImages st
           end
         /\ match round_of (render_outcome generate p i slide w) results i with
            | Aborted _ =>
                isGenerating (apply_events st evs) = false
                /\ hasApiKey (apply_events st evs) = false
            | Continue _ =>
                isGenerating (apply_events st evs) = isGenerating st
                /\ hasApiKey (apply_events st evs) = hasApiKey st
            end.
Proof.
  unfold attempt, render_outcome.
  destruct (runs_emit (SetProgressIndex (i + 1)) w) as [w1 H1].
  destruct (runs_outcome _ _ _ _ _ H1) as [_ Hw1]. rewrite Hw1.
  destruct (call_generate_runs (render_args p slide) w1)
    as (r & w2 & evg & Hg & Hs).
  destruct (runs_outcome _ _ _ _ _ Hg) as [Hr _]. rewrite Hr.
  destruct (service_events_silent evg Hs) as (Ha & Hre & Hal & Hst).
  replace (i + 1)%nat with (S i) in * by lia.
  destruct r as [imageUrl|e]; simpl.
  - (* an image *)
    destruct (runs_emit (SetGeneratedImages (store results i imageUrl)) w2)
      as [w3 H3].
    exists w3. eexists. split.
    + eapply runs_bind_return; [exact H1|].
      eapply runs_try_return.
      eapply runs_bind_return; [exact Hg|].
      eapply runs_bind_return; [exact H3|]. apply runs_ret.
    + simpl. rewrite !attempted_app, !rendered_app, !alerts_app, Ha, Hre, Hal.
      repeat split; try reflexivity.
      all: state_after_round Hst.
  - (* an error *)
    set (entry := AddLog (log_message_entry LogError
                            (utf16 "Error generating slide "
                             ++ decimal (N.of_nat (S i)) ++ utf16 ": "
                             ++ err_message e))).
    destruct (runs_emit entry w2) as [w3 H3].
    destruct (abort_marker (errorMsg e)) eqn:Hab.
    + destruct (runs_emit (SetIsGenerating false) w3) as [w4 H4].
      destruct (runs_emit (SetHasApiKey false) w4) as [w5 H5].
      destruct (runs_emit (Alert (alert_text (uiLanguage p))) w5) as [w6 H6].
      exists w6. eexists. split.
      * eapply runs_bind_return; [exact H1|].
        eapply runs_try_throw; [eapply runs_bind_throw; exact Hg|].
        eapply runs_bind_return; [exact H3|]. rewrite Hab.
        eapply runs_bind_return; [exact H4|].
        eapply runs_bind_return; [exact H5|].
        eapply runs_bind_return; [exact H6|]. apply runs_ret.
      * simpl. rewrite !attempted_app, !rendered_app, !alerts_app, Ha, Hre, Hal.
        repeat split; try reflexivity.
        all: state_after_round Hst.
    + exists w3. eexists. split.
      * eapply runs_bind_return; [exact H1|].
        eapply runs_try_throw; [eapply runs_bind_throw; exact Hg|].
        eapply runs_bind_return; [exact H3|]. rewrite Hab.
        apply runs_ret.
      * simpl. rewrite !attempted_app, !rendered_app, !alerts_app, Ha, Hre, Hal.
        repeat split; try reflexivity.
        all: state_after_round Hst.
Qed.

Lemma loop_skip p slide rest i results :
  option_truthy (slot results i) = true ->
  loop generate p (slide :: rest) i false results
  = loop generate p rest (S i) false results.
Proof. intros H. simpl. now rewrite H. Qed.

Lemma loop_attempt p slide rest i results :
  option_truthy (slot results i) = false ->
  loop generate p (slide :: rest) i false results
  = (r <- attempt generate p i slide results ;;
     match r with
     | Continue results' => loop generate p rest (S i) false results'
     | Aborted results' => ret (Aborted results')
     end).
Proof. intros H. simpl. now rewrite H. Qed.

Lemma skipn_cons_nth {A} (l : list A) i x rest :
  x :: rest = skipn i l -> nth_error l i = Some x /\ rest = skipn (S i) l.
Proof.
  revert l. induction i as [|i IH]; intros [|y l] H; simpl in *;
    try discriminate.
  - inversion H. auto.
  - apply IH in H. exact H.
Qed.

(** The loop from index [i] on: it attempts only slides whose slot is
    empty, calls the generator for exactly the slides it attempts, leaves
    the filled slots as they are, and the component state ends with the
    results of the run. *)
Lemma loop_spec p remaining :
  forall i results w,
    remaining = skipn i (slides (plan p)) ->
    exists r w' evs,
      runs (loop generate p remaining i false results) w (Return r) w' evs
      /\ (forall k, In k (attempted evs) ->
                    (i <= k)%nat /\ option_truthy (slot results k) = false)
      /\ (forall k, option_truthy (slot results k) = true ->
                    slot (round_results r) k = slot results k)
      /\ rendered evs = args_at p (attempted evs)
      /\ (forall st, generatedImages st = results ->
                     generatedImages (apply_events st evs) = round_results r)
      /\ (forall st, match r with
                     | Continue _ =>
                         isGenerating (apply_events st evs) = isGenerating st
                         /\ hasApiKey (apply_events st evs) = hasApiKey st
                     | Aborted _ =>
                         isGenerating (apply_events st evs) = false
                         /\ hasApiKey (apply_events st evs) = false
                     end).
Proof.
  induction remaining as [|slide rest IH]; intros i results w Hrem.
  - exists (Continue results), w, []. split; [apply runs_ret|].
    simpl. repeat split; auto; contradiction.
  - destruct (skipn_cons_nth _ _ _ _ Hrem) as [Hnth Hrest].
    destruct (option_truthy (slot results i)) eqn:Hslot.
    + (* the slot holds an image: skipped *)
      rewrite (loop_skip _ _ _ _ _ Hslot).
      destruct (IH (S i) results w Hrest)
        as (r & w' & evs & Hr & Hatt & Hkeep & Hren & Hst & Hfl).
      exists r, w', evs. split; [exact Hr|]. repeat split; auto.
      * destruct (Hatt k H) as [Hle _]. lia.
      * apply (Hatt k H).
    + (* the slot is empty: attempted *)
      rewrite (loop_attempt _ _ _ _ _ Hslot).
      destruct (attempt_spec p i slide results w)
        as (w1 & evs1 & Hr1 & Hatt1 & Hren1 & Hal1 & Hst1).
      unfold round_of in *.
      destruct (render_outcome generate p i slide w) as [imageUrl|e].
      * (* an image *)
        destruct (IH (S i) (store results i imageUrl) w1 Hrest)
          as (r & w' & evs & Hr & Hatt & Hkeep & Hren & Hst & Hfl).
        exists r, w', (evs1 ++ evs). split.
        { eapply runs_bind_return; [exact Hr1 | exact Hr]. }
        rewrite attempted_app, rendered_app, Hatt1, Hren1, Hren.
        split; [|split; [|split; [|split]]].
        -- intros k [<-|Hin]; [split; [lia | exact Hslot]|].
           destruct (Hatt k Hin) as [Hle Hempty]. split; [lia|].
           rewrite slot_store_ne in Hempty by lia. exact Hempty.
        -- intros k Hk. assert (k <> i) by (intros ->; congruence).
           rewrite Hkeep by (rewrite slot_store_ne; assumption).
           now apply slot_store_ne.
        -- unfold args_at. simpl. now rewrite Hnth.
        -- intros st Hres. rewrite apply_events_app. apply Hst.
           apply (Hst1 st).
        -- intros st. rewrite apply_events_app.
           specialize (Hfl (apply_events st evs1)).
           destruct (Hst1 st) as [_ [Hg Hk]]. rewrite Hg, Hk in Hfl.
           exact Hfl.
      * destruct (abort_marker (errorMsg e)) eqn:Hab.
        -- (* an abort *)
           exists (Aborted results), w1, evs1. split.
           { replace evs1 with (evs1 ++ []) by apply app_nil_r.
             eapply runs_bind_return; [exact Hr1 | apply runs_ret]. }
           rewrite Hatt1, Hren1.
           split; [|split; [|split; [|split]]].
           ++ intros k [<-|[]]. split; [lia | exact Hslot].
           ++ reflexivity.
           ++ unfold args_at. simpl. now rewrite Hnth.
           ++ intros st Hres. destruct (Hst1 st) as [Hg _].
              simpl. now rewrite Hg.
           ++ intros st. apply (Hst1 st).
        -- (* a failure that does not abort *)
           destruct (IH (S i) results w1 Hrest)
             as (r & w' & evs & Hr & Hatt & Hkeep & Hren & Hst & Hfl).
           exists r, w', (evs1 ++ evs). split.
           { eapply runs_bind_return; [exact Hr1 | exact Hr]. }
           rewrite attempted_app, rendered_app, Hatt1, Hren1, Hren.
           split; [|split; [|split; [|split]]].
           ++ intros k [<-|Hin]; [split; [lia | exact Hslot]|].
              destruct (Hatt k Hin) as [Hle Hempty]. split; [lia | exact Hempty].
           ++ exact Hkeep.
           ++ unfold args_at. simpl. now rewrite Hnth.
           ++ intros st Hres. rewrite apply_events_app. apply Hst.
              destruct (Hst1 st) as [Hg _]. now rewrite Hg.
           ++ intros st. rewrite apply_events_app.
              specialize (Hfl (apply_events st evs1)).
              destruct (Hst1 st) as [_ [Hg Hk]]. rewrite Hg, Hk in Hfl.
              exact Hfl.
Qed.

(** The whole run. *)
Lemma startGeneration_spec p st w :
  exists w' evs,
    runs (startGeneration generate p st) w (Return tt) w' evs
    /\ (forall k, In k (attempted evs) ->
                  option_truthy (slot (generatedImages st) k) = false)
    /\ rendered evs = args_at p (attempted evs)
    /\ (forall k, option_truthy (slot (generatedImages st) k) = true ->
                  slot (generatedImages (apply_events st evs)) k
                  = slot (generatedImages st) k).
Proof.
  unfold startGeneration. destruct (hasApiKey st).
  - simpl.
    destruct (runs_emit (SetIsGenerating true) w) as [wa Ha].
    destruct (runs_emit (SetProgressIndex 0) wa) as [wb Hb].
    destruct (loop_spec p (slides (plan p)) 0 (generatedImages st) wb eq_refl)
      as (r & w1 & evs & Hr & Hatt & Hkeep & Hren & Hst & _).
    assert (Hstate : forall k,
               option_truthy (slot (generatedImages st) k) = true ->
               slot (generatedImages
                       (apply_events st
                          ([SetIsGenerating true] ++ [SetProgressIndex 0] ++ evs)))
                    k
               = slot (generatedImages st) k).
    { intros k Hk. rewrite !apply_events_app.
      rewrite (Hst (apply_events (apply_events st [SetIsGenerating true])
                                 [SetProgressIndex 0]) eq_refl).
      now apply Hkeep. }
    destruct r as [results'|results'].
    + destruct (runs_emit (SetIsGenerating false) w1) as [w2 H2].
      exists w2, ([SetIsGenerating true] ++ [SetProgressIndex 0]
                  ++ evs ++ [SetIsGenerating false]).
      split.
      { eapply runs_bind_return; [exact Ha|].
        eapply runs_bind_return; [exact Hb|].
        eapply runs_bind_return; [exact Hr | exact H2]. }
      rewrite !attempted_app, !rendered_app. simpl.
      rewrite !app_nil_r. split; [|split].
      * intros k Hin. apply (Hatt k Hin).
      * exact Hren.
      * intros k Hk. rewrite <- (Hstate k Hk).
        rewrite !apply_events_app. reflexivity.
    + exists w1, ([SetIsGenerating true] ++ [SetProgressIndex 0] ++ evs).
      split.
      { eapply runs_bind_return; [exact Ha|].
        eapply runs_bind_return; [exact Hb|].
        replace evs with (evs ++ []) by apply app_nil_r.
        eapply runs_bind_return; [exact Hr | apply runs_ret]. }
      rewrite !attempted_app, !rendered_app. simpl.
      split; [|split].
      * intros k Hin. apply (Hatt k Hin).
      * exact Hren.
      * exact Hstate.
  - simpl. exists w, []. split; [apply runs_ret|].
    simpl. repeat split; auto. contradiction.
Qed.

(** A round whose rendering is recoverable goes on to the next slide. *)
Lemma round_continues p i slide results w :
  recoverable (render_outcome generate p i slide w) ->
  exists evs,
    runs (attempt generate p i slide results) w
         (Return (Continue
                    (results_after (render_outcome generate p i slide w)
                                   results i)))
         (after_round generate p i slide results w) evs
    /\ attempted evs = [i]
    /\ rendered evs = [render_args p slide]
    /\ alerts evs = []
    /\ forall st,
         generatedImages (apply_events st evs)
         = match render_outcome generate p i slide w with
           | Return imageUrl => store results i imageUrl
           | Throw _ => generatedImages st
           end
         /\ isGenerating (apply_events st evs) = isGenerating st
         /\ hasApiKey (apply_events st evs) = hasApiKey st.
Proof.
  intros Hrec.
  destruct (attempt_spec p i slide results w)
    as (w1 & evs & Hr & Hatt & Hren & Hal & Hst).
  destruct (runs_outcome _ _ _ _ _ Hr) as [_ Hw]. unfold after_round.
  rewrite Hw. exists evs.
  assert (Hround : round_of (render_outcome generate p i slide w) results i
                   = Continue (results_after
                                 (render_outcome generate p i slide w)
                                 results i)).
  { unfold round_of, results_after, recoverable in *.
    destruct (render_outcome generate p i slide w); [reflexivity|].
    now rewrite Hrec. }
  rewrite Hround in *.
  split; [exact Hr|]. split; [exact Hatt|]. split; [exact Hren|].
  split; [exact Hal|]. intros st. destruct (Hst st) as [Hg [Hi Hk]]. auto.
Qed.

(** A round whose rendering fails with an abort marker ends the run. *)
Lemma round_aborts p i slide results w e :
  render_outcome generate p i slide w = Throw e ->
  abort_marker (errorMsg e) = true ->
  exists w' evs,
    runs (attempt generate p i slide results) w (Return (Aborted results))
         w' evs
    /\ attempted evs = [i]
    /\ rendered evs = [render_args p slide]
    /\ alerts evs = [alert_text (uiLanguage p)]
    /\ forall st,
         generatedImages (apply_events st evs) = generatedImages st
         /\ isGenerating (apply_events st evs) = false
         /\ hasApiKey (apply_events st evs) = false.
Proof.
  intros Hout Hab.
  destruct (attempt_spec p i slide results w)
    as (w1 & evs & Hr & Hatt & Hren & Hal & Hst).
  rewrite Hout in *. unfold round_of in *. rewrite Hab in *.
  exists w1, evs.
  split; [exact Hr|]. split; [exact Hatt|]. split; [exact Hren|].
  split; [exact Hal|]. intros st. destruct (Hst st) as [Hg [Hi Hk]]. auto.
Qed.

Lemma started_runs w :
  runs (emit (SetIsGenerating true) ;; emit (SetProgressIndex 0)) w
       (Return tt) (started w) [SetIsGenerating true; SetProgressIndex 0].
Proof.
  destruct (runs_emit (SetIsGenerating true) w) as [wa Ha].
  destruct (runs_emit (SetProgressIndex 0) wa) as [wb Hb].
  pose proof (runs_bind_return _ (fun _ => emit (SetProgressIndex 0))
                _ _ _ _ _ _ _ Ha Hb) as H.
  destruct (runs_outcome _ _ _ _ _ H) as [_ Hw]. unfold started.
  rewrite Hw. exact H.
Qed.

Lemma startGeneration_unfold p st :
  hasApiKey st = true ->
  startGeneration generate p st
  = ((emit (SetIsGenerating true) ;; emit (SetProgressIndex 0)) ;;
     r <- loop generate p (slides (plan p)) 0 false (generatedImages st) ;;
     match r with
     | Continue _ => emit (SetIsGenerating false)
     | Aborted _ => ret tt
     end).
Proof.
  intros H. unfold startGeneration. rewrite H. simpl.
  unfold bind. reflexivity.
Qed.

Lemma slot_results_after r results i k :
  k <> i -> slot (results_after r results i) k = slot results k.
Proof.
  intros H. destruct r; simpl; [now apply slot_store_ne | reflexivity].
Qed.

(** Three slides, the second of which fails with an abort marker. *)
Lemma abort_at_second_slide p st w A B C e :
  slides (plan p) = [A; B; C] ->
  hasApiKey st = true ->
  option_truthy (slot (generatedImages st) 0) = false ->
  option_truthy (slot (generatedImages st) 1) = false ->
  recoverable (render_outcome generate p 0 A (started w)) ->
  render_outcome generate p 1 B
    (after_round generate p 0 A (generatedImages st) (started w)) = Throw e ->
  abort_marker (errorMsg e) = true ->
  exists w' evs,
    runs (startGeneration generate p st) w (Return tt) w' evs
    /\ attempted evs = [0; 1]%nat
    /\ rendered evs = [render_args p A; render_args p B]
    /\ alerts evs = [alert_text (uiLanguage p)]
    /\ hasApiKey (apply_events st evs) = false
    /\ isGenerating (apply_events st evs) = false.
Proof.
  intros Hslides Hkey H0 H1 HrecA HB Hab.
  rewrite (startGeneration_unfold p st Hkey), Hslides.
  pose proof (started_runs w) as Hs.
  destruct (round_continues p 0 A (generatedImages st) (started w) HrecA)
    as (evsA & HrA & HattA & HrenA & HalA & HstA).
  set (results1 := results_after
                     (render_outcome generate p 0 A (started w))
                     (generatedImages st) 0) in *.
  set (w1 := after_round generate p 0 A (generatedImages st) (started w)) in *.
  destruct (round_aborts p 1 B results1 w1 e HB Hab)
    as (w2 & evsB & HrB & HattB & HrenB & HalB & HstB).
  exists w2, ([SetIsGenerating true; SetProgressIndex 0]
              ++ (evsA ++ evsB ++ []) ++ []).
  assert (Hl : runs (loop generate p [A; B; C] 0 false (generatedImages st))
                    (started w) (Return (Aborted results1)) w2
                    (evsA ++ evsB ++ [])).
  { rewrite (loop_attempt _ _ _ _ _ H0).
    eapply runs_bind_return; [exact HrA|]. cbv beta iota.
    rewrite loop_attempt
      by (unfold results1; rewrite slot_results_after by lia; exact H1).
    eapply runs_bind_return; [exact HrB|]. apply runs_ret. }
  split.
  - eapply runs_bind_return; [exact Hs|].
    eapply runs_bind_return; [exact Hl | apply runs_ret].
  - rewrite !app_nil_r.
    rewrite !attempted_app, !rendered_app, !alerts_app, !apply_events_app.
    rewrite HattA, HattB, HrenA, HrenB, HalA, HalB.
    repeat split; apply (HstB _).
Qed.

(** Three slides, the second of which fails without an abort marker. *)
Lemma failure_at_second_slide p st w A B C e :
  slides (plan p) = [A; B; C] ->
  hasApiKey st = true ->
  option_truthy (slot (generatedImages st) 0) = false ->
  option_truthy (slot (generatedImages st) 1) = false ->
  option_truthy (slot (generatedImages st) 2) = false ->
  recoverable (render_outcome generate p 0 A (started w)) ->
  render_outcome generate p 1 B
    (after_round generate p 0 A (generatedImages st) (started w)) = Throw e ->
  abort_marker (errorMsg e) = false ->
  exists w' evs,
    runs (startGeneration generate p st) w (Return tt) w' evs
    /\ attempted evs = [0; 1; 2]%nat
    /\ rendered evs = [render_args p A; render_args p B; render_args p C]
    /\ slot (generatedImages (apply_events st evs)) 1
       = slot (generatedImages st) 1
    /\ (forall imageUrl,
          render_outcome generate p 0 A (started w) = Return imageUrl ->
          slot (generatedImages (apply_events st evs)) 0 = Some imageUrl)
    /\ (forall imageUrl,
          render_outcome generate p 2 C
            (after_round generate p 1 B
               (results_after (render_outcome generate p 0 A (started w))
                              (generatedImages st) 0)
               (after_round generate p 0 A (generatedImages st) (started w)))
          = Return imageUrl ->
          slot (generatedImages (apply_events st evs)) 2 = Some imageUrl).
Proof.
  intros Hslides Hkey H0 H1 H2 HrecA HB Hab.
  rewrite (startGeneration_unfold p st Hkey), Hslides.
  pose proof (started_runs w) as Hs.
  destruct (round_continues p 0 A (generatedImages st) (started w) HrecA)
    as (evsA & HrA & HattA & HrenA & HalA & HstA).
  set (rA := render_outcome generate p 0 A (started w)) in *.
  set (results1 := results_after rA (generatedImages st) 0) in *.
  set (w1 := after_round generate p 0 A (generatedImages st) (started w)) in *.
  assert (HrecB : recoverable (render_outcome generate p 1 B w1)).
  { rewrite HB. exact Hab. }
  destruct (round_continues p 1 B results1 w1 HrecB)
    as (evsB & HrB & HattB & HrenB & HalB & HstB).
  rewrite HB in HrB, HstB. simpl results_after in HrB.
  set (w2 := after_round generate p 1 B results1 w1) in *.
  destruct (attempt_spec p 2 C results1 w2)
    as (w3 & evsC & HrC & HattC & HrenC & HalC & HstC).
  set (rC := render_outcome generate p 2 C w2) in *.
  assert (Hs1 : forall k, k <> 0%nat ->
                  slot results1 k = slot (generatedImages st) k).
  { intros k Hk. unfold results1. now apply slot_results_after. }
  (* the state after the three rounds *)
  set (st0 := apply_events st [SetIsGenerating true; SetProgressIndex 0]).
  assert (Hg0 : generatedImages st0 = generatedImages st) by reflexivity.
  assert (HgA : generatedImages (apply_events st0 evsA) = results1).
  { destruct (HstA st0) as [Hg _]. rewrite Hg. unfold results1.
    destruct rA; [reflexivity | exact Hg0]. }
  assert (HgB : generatedImages (apply_events (apply_events st0 evsA) evsB)
                = results1).
  { destruct (HstB (apply_events st0 evsA)) as [Hg _]. now rewrite Hg. }
  assert (HgC : generatedImages
                  (apply_events (apply_events (apply_events st0 evsA) evsB)
                                evsC)
                = results_after rC results1 2).
  { destruct (HstC (apply_events (apply_events st0 evsA) evsB)) as [Hg _].
    rewrite Hg. destruct rC; [reflexivity | exact HgB]. }
  assert (Hfinal : forall tail,
             tail = [] \/ tail = [SetIsGenerating false] ->
             generatedImages
               (apply_events st
                  ([SetIsGenerating true; SetProgressIndex 0]
                   ++ (evsA ++ evsB ++ evsC) ++ tail))
             = results_after rC results1 2).
  { intros tail Ht. rewrite !apply_events_app. fold st0.
    destruct Ht as [-> | ->]; simpl; exact HgC. }
  assert (Hloop : exists tail wl,
             (tail = [] \/ tail = [SetIsGenerating false])
             /\ runs ((emit (SetIsGenerating true) ;;
                       emit (SetProgressIndex 0)) ;;
                      r <- loop generate p [A; B; C] 0 false
                             (generatedImages st) ;;
                      match r with
                      | Continue _ => emit (SetIsGenerating false)
                      | Aborted _ => ret tt
                      end) w (Return tt) wl
                     ([SetIsGenerating true; SetProgressIndex 0]
                      ++ (evsA ++ evsB ++ evsC) ++ tail)).
  { assert (Hl : runs (loop generate p [A; B; C] 0 false (generatedImages st))
                      (started w) (Return (round_of rC results1 2)) w3
                      (evsA ++ evsB ++ evsC ++ [])).
    { rewrite (loop_attempt _ _ _ _ _ H0).
      eapply runs_bind_return; [exact HrA|]. cbv beta iota.
      rewrite loop_attempt by (rewrite Hs1 by lia; exact H1).
      eapply runs_bind_return; [exact HrB|]. cbv beta iota.
      rewrite loop_attempt by (rewrite Hs1 by lia; exact H2).
      eapply runs_bind_return; [exact HrC|].
      destruct (round_of rC results1 2); apply runs_ret. }
    rewrite app_nil_r in Hl.
    destruct (round_of rC results1 2) as [r3|r3].
    - destruct (runs_emit (SetIsGenerating false) w3) as [w4 H4].
      exists [SetIsGenerating false], w4. split; [now right|].
      eapply runs_bind_return; [exact Hs|].
      eapply runs_bind_return; [exact Hl | exact H4].
    - exists [], w3. split; [now left|].
      eapply runs_bind_return; [exact Hs|].
      eapply runs_bind_return; [exact Hl | apply runs_ret]. }
  destruct Hloop as (tail & wl & Ht & Hrun).
  exists wl. eexists. split; [exact Hrun|].
  rewrite (Hfinal tail Ht).
  rewrite !attempted_app, !rendered_app, HattA, HattB, HattC,
    HrenA, HrenB, HrenC.
  assert (Htail : attempted tail = [] /\ rendered tail = []).
  { destruct Ht as [-> | ->]; split; reflexivity. }
  destruct Htail as [-> ->].
  split; [reflexivity|]. split; [reflexivity|].
  split; [|split].
  - rewrite slot_results_after by lia. apply Hs1. lia.
  - intros imageUrl HA. rewrite slot_results_after by lia.
    unfold results1. rewrite HA. unfold results_after. apply slot_store_eq.
  - intros imageUrl HC. rewrite HC. unfold results_after.
    apply slot_store_eq.
Qed.

End Rounds.

End ControllerFacts.
Import ControllerFacts.

(** C2 — With slides [A; B; C], none of A and B rendered yet, and the run
    started with a key: if the rendering of B fails with an error whose
    text contains "quota", "permission", "403" or "The caller does not
    have permission" (A having been attempted without aborting the run),
    the controller attempts A, attempts B, and stops: C is never
    attempted, the generator is called for A and B only, the user is
    alerted once and the key is marked as missing. *)
Theorem quota_error_aborts_batch :
  forall p st w A B C e,
    slides (plan p) = [A; B; C] ->
    hasApiKey st = true ->
    option_truthy (slot (generatedImages st) 0) = false ->
    option_truthy (slot (generatedImages st) 1) = false ->
    recoverable (render_outcome generateFinalSlideImage p 0 A (started w)) ->
    render_outcome generateFinalSlideImage p 1 B
      (after_round generateFinalSlideImage p 0 A (generatedImages st)
                   (started w))
    = Throw e ->
    (includes (utf16 "quota") (errorMsg e) = true
     \/ includes (utf16 "permission") (errorMsg e) = true
     \/ includes (utf16 "403") (errorMsg e) = true
     \/ includes (utf16 "The caller does not have permission") (errorMsg e)
        = true) ->
    exists w' evs,
      runs (startGeneration generateFinalSlideImage p st) w (Return tt) w' evs
      /\ attempted evs = [0; 1]%nat
      /\ rendered evs = [render_args p A; render_args p B]
      /\ alerts evs = [alert_text (uiLanguage p)]
      /\ hasApiKey (apply_events st evs) = false
      /\ isGenerating (apply_events st evs) = false.
Proof.
  intros p st w A B C e Hslides Hkey H0 H1 HrecA HB Hmark.
  apply (abort_at_second_slide generateFinalSlideImage
           generateFinalSlideImage_runs p st w A B C e); auto.
  unfold abort_marker.
  destruct Hmark as [H|[H|[H|H]]]; rewrite H;
    rewrite ?orb_true_r; reflexivity.
Qed.

Lemma quota_error_aborts_batch_witness :
  slides (plan props_ABC) = [slide_A; slide_B; slide_C]
  /\ hasApiKey (initial_state props_ABC true) = true
  /\ option_truthy (slot (generatedImages (initial_state props_ABC true)) 0)
     = false
  /\ option_truthy (slot (generatedImages (initial_state props_ABC true)) 1)
     = false
  /\ recoverable (render_outcome generateFinalSlideImage props_ABC 0 slide_A
                    (started (world_B_fails "Resource quota exceeded")))
  /\ render_outcome generateFinalSlideImage props_ABC 1 slide_B
       (after_round generateFinalSlideImage props_ABC 0 slide_A
          (generatedImages (initial_state props_ABC true))
          (started (world_B_fails "Resource quota exceeded")))
     = Throw (Error (utf16 "Resource quota exceeded"))
  /\ exists w' evs,
       runs (startGeneration generateFinalSlideImage props_ABC
               (initial_state props_ABC true))
            (world_B_fails "Resource quota exceeded") (Return tt) w' evs
       /\ attempted evs = [0; 1]%nat
       /\ rendered evs = [render_args props_ABC slide_A;
                          render_args props_ABC slide_B]
       /\ alerts evs = [alert_text (uiLanguage props_ABC)]
       /\ hasApiKey (apply_events (initial_state props_ABC true) evs) = false
       /\ isGenerating (apply_events (initial_state props_ABC true) evs)
          = false.
Proof.
  split; [reflexivity|]. split; [reflexivity|]. split; [reflexivity|].
  split; [reflexivity|]. split; [vm_compute; exact I|].
  split; [vm_compute; reflexivity|].
  apply (quota_error_aborts_batch props_ABC (initial_state props_ABC true)
           (world_B_fails "Resource quota exceeded") slide_A slide_B slide_C
           (Error (utf16 "Resource quota exceeded"))).
  - reflexivity.
  - reflexivity.
  - reflexivity.
  - reflexivity.
  - vm_compute. exact I.
  - vm_compute. reflexivity.
  - left. vm_compute. reflexivity.
Defined.

(** The same run, computed: two requests, for A and for B. *)
Example quota_run_calls :
  map call_title
      (provider_calls
         (trace (world_after
                   (startGeneration generateFinalSlideImage props_ABC
                      (initial_state props_ABC true))
                   (world_B_fails "Resource quota exceeded"))))
  = [utf16 "Revenue"; utf16 "Costs"].
Proof. vm_compute. reflexivity. Qed.

(** C4 — With slides [A; B; C], none rendered yet, and the run started
    with a key: if the rendering of B fails with an error that has none of
    the abort markers (A having been attempted without aborting the run),
    the controller attempts A, B and C in this order; the slot of B stays
    as it was (absent), the slot of A holds the image of A if that
    rendering succeeded, and the slot of C the image of C if that one
    did. *)
Theorem unrelated_error_skips_one_slide :
  forall p st w A B C e,
    slides (plan p) = [A; B; C] ->
    hasApiKey st = true ->
    option_truthy (slot (generatedImages st) 0) = false ->
    option_truthy (slot (generatedImages st) 1) = false ->
    option_truthy (slot (generatedImages st) 2) = false ->
    recoverable (render_outcome generateFinalSlideImage p 0 A (started w)) ->
    render_outcome generateFinalSlideImage p 1 B
      (after_round generateFinalSlideImage p 0 A (generatedImages st)
                   (started w))
    = Throw e ->
    abort_marker (errorMsg e) = false ->
    exists w' evs,
      runs (startGeneration generateFinalSlideImage p st) w (Return tt) w' evs
      /\ attempted evs = [0; 1; 2]%nat
      /\ rendered evs = [render_args p A; render_args p B; render_args p C]
      /\ slot (generatedImages (apply_events st evs)) 1
         = slot (generatedImages st) 1
      /\ (forall imageUrl,
            render_outcome generateFinalSlideImage p 0 A (started w)
            = Return imageUrl ->
            slot (generatedImages (apply_events st evs)) 0 = Some imageUrl)
      /\ (forall imageUrl,
            render_outcome generateFinalSlideImage p 2 C
              (after_round generateFinalSlideImage p 1 B
                 (results_after
                    (render_outcome generateFinalSlideImage p 0 A (started w))
                    (generatedImages st) 0)
                 (after_round generateFinalSlideImage p 0 A
                    (generatedImages st) (started w)))
            = Return imageUrl ->
            slot (generatedImages (apply_events st evs)) 2 = Some imageUrl).
Proof.
  intros p st w A B C e Hslides Hkey H0 H1 H2 HrecA HB Hab.
  apply (failure_at_second_slide generateFinalSlideImage
           generateFinalSlideImage_runs p st w A B C e); assumption.
Qed.

Lemma unrelated_error_skips_one_slide_witness :
  slides (plan props_ABC) = [slide_A; slide_B; slide_C]
  /\ hasApiKey (initial_state props_ABC true) = true
  /\ option_truthy (slot (generatedImages (initial_state props_ABC true)) 0)
     = false
  /\ option_truthy (slot (generatedImages (initial_state props_ABC true)) 1)
     = false
  /\ option_truthy (slot (generatedImages (initial_state props_ABC true)) 2)
     = false
  /\ recoverable (render_outcome generateFinalSlideImage props_ABC 0 slide_A
                    (started (world_B_fails "network error")))
  /\ render_outcome generateFinalSlideImage props_ABC 1 slide_B
       (after_round generateFinalSlideImage props_ABC 0 slide_A
          (generatedImages (initial_state props_ABC true))
          (started (world_B_fails "network error")))
     = Throw (Error (utf16 "network error"))
  /\ abort_marker (errorMsg (Error (utf16 "network error"))) = false
  /\ exists w' evs,
       runs (startGeneration generateFinalSlideImage props_ABC
               (initial_state props_ABC true))
            (world_B_fails "network error") (Return tt) w' evs
       /\ attempted evs = [0; 1; 2]%nat
       /\ rendered evs = [render_args props_ABC slide_A;
                          render_args props_ABC slide_B;
                          render_args props_ABC slide_C]
       /\ slot (generatedImages
                  (apply_events (initial_state props_ABC true) evs)) 1
          = slot (generatedImages (initial_state props_ABC true)) 1
       /\ (forall imageUrl,
             render_outcome generateFinalSlideImage props_ABC 0 slide_A
               (started (world_B_fails "network error"))
             = Return imageUrl ->
             slot (generatedImages
                     (apply_events (initial_state props_ABC true) evs)) 0
             = Some imageUrl)
       /\ (forall imageUrl,
             render_outcome generateFinalSlideImage props_ABC 2 slide_C
               (after_round generateFinalSlideImage props_ABC 1 slide_B
                  (results_after
                     (render_outcome generateFinalSlideImage props_ABC 0
                        slide_A (started (world_B_fails "network error")))
                     (generatedImages (initial_state props_ABC true)) 0)
                  (after_round generateFinalSlideImage props_ABC 0 slide_A
                     (generatedImages (initial_state props_ABC true))
                     (started (world_B_fails "network error"))))
             = Return imageUrl ->
             slot (generatedImages
                     (apply_events (initial_state props_ABC true) evs)) 2
             = Some imageUrl).
Proof.
  split; [reflexivity|]. split; [reflexivity|]. split; [reflexivity|].
  split; [reflexivity|]. split; [reflexivity|].
  split; [vm_compute; exact I|]. split; [vm_compute; reflexivity|].
  split; [vm_compute; reflexivity|].
  apply (unrelated_error_skips_one_slide props_ABC
           (initial_state props_ABC true) (world_B_fails "network error")
           slide_A slide_B slide_C (Error (utf16 "network error"))).
  - reflexivity.
  - reflexivity.
  - reflexivity.
  - reflexivity.
  - reflexivity.
  - vm_compute. exact I.
  - vm_compute. reflexivity.
  - vm_compute. reflexivity.
Defined.

(** The same run, computed: A and C end with an image, B without. *)
Example network_error_run_images :
  generatedImages
    (apply_events (initial_state props_ABC true)
       (trace (world_after
                 (startGeneration generateFinalSlideImage props_ABC
                    (initial_state props_ABC true))
                 (world_B_fails "network error"))))
  = [Some (data_uri_prefix ++ utf16 "iVBORw0KGgo="); None;
     Some (data_uri_prefix ++ utf16 "iVBORw0KGgo=")].
Proof. vm_compute. reflexivity. Qed.

(** C8 — A batch run leaves the rendered slides alone.  For every slide
    index whose slot holds an image when a run starts, the run does not
    attempt that slide, calls the generator only for the slides it
    attempts, and ends with the same image in the slot.  This holds for
    every start state, in particular for a second run that follows a
    first. *)
Theorem rendered_slides_are_skipped :
  forall p st w k,
    option_truthy (slot (generatedImages st) k) = true ->
    exists w' evs,
      runs (startGeneration generateFinalSlideImage p st) w (Return tt) w' evs
      /\ ~ In k (attempted evs)
      /\ rendered evs = args_at p (attempted evs)
      /\ slot (generatedImages (apply_events st evs)) k
         = slot (generatedImages st) k.
Proof.
  intros p st w k Hk.
  destruct (startGeneration_spec generateFinalSlideImage
              generateFinalSlideImage_runs p st w)
    as (w' & evs & Hr & Hatt & Hren & Hkeep).
  exists w', evs. split; [exact Hr|]. split; [|split].
  - intros Hin. specialize (Hatt k Hin). congruence.
  - exact Hren.
  - now apply Hkeep.
Qed.

Lemma rendered_slides_are_skipped_witness :
  option_truthy (slot (generatedImages state_A_rendered) 0) = true
  /\ exists w' evs,
       runs (startGeneration generateFinalSlideImage props_ABC
               state_A_rendered)
            world_renders_all (Return tt) w' evs
       /\ ~ In 0%nat (attempted evs)
       /\ rendered evs = args_at props_ABC (attempted evs)
       /\ slot (generatedImages (apply_events state_A_rendered evs)) 0
          = slot (generatedImages state_A_rendered) 0.
Proof.
  split; [reflexivity|].
  apply (rendered_slides_are_skipped props_ABC state_A_rendered
           world_renders_all 0%nat).
  reflexivity.
Defined.

(** Two runs in a row: the second attempts nothing that the first
    rendered and leaves every image of the first in place. *)
Corollary second_run_keeps_first_run_images :
  forall p st w w1 evs1,
    runs (startGeneration generateFinalSlideImage p st) w (Return tt) w1 evs1 ->
    exists w2 evs2,
      runs (startGeneration generateFinalSlideImage p (apply_events st evs1))
           w1 (Return tt) w2 evs2
      /\ forall k,
           option_truthy (slot (generatedImages (apply_events st evs1)) k)
           = true ->
           ~ In k (attempted evs2)
           /\ slot (generatedImages
                      (apply_events (apply_events st evs1) evs2)) k
              = slot (generatedImages (apply_events st evs1)) k.
Proof.
  intros p st w w1 evs1 _.
  destruct (startGeneration_spec generateFinalSlideImage
              generateFinalSlideImage_runs p (apply_events st evs1) w1)
    as (w2 & evs2 & Hr & Hatt & _ & Hkeep).
  exists w2, evs2. split; [exact Hr|]. intros k Hk. split.
  - intros Hin. specialize (Hatt k Hin). congruence.
  - now apply Hkeep.
Qed.

Example second_run_attempts_nothing :
  attempted
    (trace (world_after
              (startGeneration generateFinalSlideImage props_ABC
                 (apply_events (initial_state props_ABC true)
                    (trace (world_after
                              (startGeneration generateFinalSlideImage
                                 props_ABC (initial_state props_ABC true))
                              world_renders_all))))
              world_renders_all))
  = [].
Proof. vm_compute. reflexivity. Qed.

(* ===================================================================== *)
(** ** Code fences around a JSON text *)
(* ===================================================================== *)

Module ScanFacts.

Ltac case_eqb :=
  repeat match goal with
         | |- context [N.eqb ?a ?b] => destruct (N.eqb_spec a b); try subst
         | |- context [N.leb ?a ?b] => destruct (N.leb_spec a b)
         | |- context [N.ltb ?a ?b] => destruct (N.ltb_spec a b)
         end.

Lemma scan_app q a b :
  scan q (a ++ b) = match scan q a with Some q' => scan q' b | None => None end.
Proof.
  revert q. induction a as [|c a IH]; intros q; simpl; [reflexivity|].
  destruct (scan_step q c); [apply IH | reflexivity].
Qed.

Lemma lex_app q a b : lex q (a ++ b) = lex (lex q a) b.
Proof. apply fold_left_app. Qed.

Lemma scan_step_lex q c q' : scan_step q c = Some q' -> lex_step q c = q'.
Proof.
  destruct q; simpl.
  - destruct (c =? 34); [congruence|]. destruct (outside_ok c); congruence.
  - congruence.
  - destruct (escape_ok c); congruence.
Qed.

Lemma scan_lex q s q' : scan q s = Some q' -> lex q s = q'.
Proof.
  revert q. induction s as [|c s IH]; intros q; simpl.
  - congruence.
  - destruct (scan_step q c) as [q1|] eqn:E; [|discriminate].
    apply scan_step_lex in E. unfold lex in *. simpl. rewrite E. apply IH.
Qed.

(** Inside a string, a code unit that is neither the quote nor the
    backslash changes nothing. *)
Lemma scan_in_plain c rest :
  c <> 34 -> c <> 92 -> scan LIn (c :: rest) = scan LIn rest.
Proof.
  intros H1 H2. simpl.
  destruct (N.eqb_spec c 34); [contradiction|].
  destruct (N.eqb_spec c 92); [contradiction|]. reflexivity.
Qed.

Lemma hex_digit_plain d : d < 16 -> hex_digit d <> 34 /\ hex_digit d <> 92.
Proof. intros H. unfold hex_digit. destruct (N.ltb_spec d 10); lia. Qed.

Lemma scan_unicode_escape c rest :
  scan LIn (unicode_escape c ++ rest) = scan LIn rest.
Proof.
  unfold unicode_escape.
  change (scan LIn ([92; 117; hex_digit (c / 4096 mod 16);
                     hex_digit (c / 256 mod 16); hex_digit (c / 16 mod 16);
                     hex_digit (c mod 16)] ++ rest))
    with (scan LIn (hex_digit (c / 4096 mod 16)
                    :: hex_digit (c / 256 mod 16)
                    :: hex_digit (c / 16 mod 16)
                    :: hex_digit (c mod 16) :: rest)).
  repeat (rewrite scan_in_plain;
          [| apply hex_digit_plain; apply N.mod_lt; discriminate
           | apply hex_digit_plain; apply N.mod_lt; discriminate]).
  reflexivity.
Qed.

Lemma scan_quote_unit c rest :
  scan LIn (quote_unit c ++ rest) = scan LIn rest.
Proof.
  unfold quote_unit.
  destruct (N.eqb_spec c 34); [reflexivity|].
  destruct (N.eqb_spec c 92); [reflexivity|].
  destruct (c =? 8); [reflexivity|].
  destruct (c =? 12); [reflexivity|].
  destruct (c =? 10); [reflexivity|].
  destruct (c =? 13); [reflexivity|].
  destruct (c =? 9); [reflexivity|].
  destruct (c <? 32); [apply scan_unicode_escape|].
  destruct (is_high_surrogate c || is_low_surrogate c);
    [apply scan_unicode_escape|].
  now apply scan_in_plain.
Qed.

Lemma surrogate_plain c :
  is_high_surrogate c = true \/ is_low_surrogate c = true ->
  c <> 34 /\ c <> 92.
Proof.
  unfold is_high_surrogate, is_low_surrogate.
  intros [H|H]; apply andb_true_iff in H; destruct H as [H _];
    apply N.leb_le in H; lia.
Qed.

Lemma scan_quote_body_bounded n :
  forall s rest, (length s <= n)%nat ->
    scan LIn (quote_body s ++ rest) = scan LIn rest.
Proof.
  induction n as [|n IH]; intros s rest Hlen.
  - destruct s; [reflexivity | simpl in Hlen; lia].
  - destruct s as [|c s]; [reflexivity|]. simpl in Hlen. simpl quote_body.
    destruct (is_high_surrogate c) eqn:Hh.
    + destruct s as [|d s'].
      * apply scan_quote_unit.
      * destruct (is_low_surrogate d) eqn:Hl.
        -- simpl app.
           rewrite scan_in_plain by (apply surrogate_plain; auto).
           rewrite scan_in_plain by (apply surrogate_plain; auto).
           apply IH. simpl in Hlen. lia.
        -- rewrite <- app_assoc, scan_quote_unit. apply IH. lia.
    + rewrite <- app_assoc, scan_quote_unit. apply IH. lia.
Qed.

Lemma scan_quote s rest : scan LOut (quote s ++ rest) = scan LOut rest.
Proof.
  unfold quote. simpl. rewrite <- app_assoc.
  rewrite (scan_quote_body_bounded (length s)) by lia. reflexivity.
Qed.

(** Outside of a string, a run of code units that belong there. *)
Lemma scan_outside s rest :
  forallb outside_ok s = true -> scan LOut (s ++ rest) = scan LOut rest.
Proof.
  induction s as [|c s IH]; simpl; intros H; [reflexivity|].
  apply andb_true_iff in H. destruct H as [Hc Hs]. rewrite Hc.
  destruct (N.eqb_spec c 34); [subst; discriminate|]. now apply IH.
Qed.

Lemma digit_outside c : is_digit c = true -> outside_ok c = true.
Proof. intros H. unfold outside_ok. rewrite H. now rewrite !orb_true_r. Qed.

Lemma number_phase_outside s :
  forall ph ph', number_phase ph s = Some ph' -> forallb outside_ok s = true.
Proof.
  induction s as [|c s IH]; intros ph ph' H; [reflexivity|].
  simpl in H. simpl. apply andb_true_iff.
  assert (Hcases : outside_ok c = true /\ exists ph1, number_phase ph1 s = Some ph').
  { destruct ph;
      repeat match type of H with
             | (if ?b then _ else _) = _ =>
                 let E := fresh "E" in destruct b eqn:E
             end; try discriminate;
      (split; [|eexists; exact H]);
      try (apply digit_outside; assumption);
      repeat match goal with
             | E : (_ || _) = true |- _ => apply orb_true_iff in E; destruct E
             | E : (c =? _) = true |- _ => apply N.eqb_eq in E; subst c
             end; reflexivity. }
  destruct Hcases as [Hc [ph1 Hrest]]. split; [exact Hc|].
  eapply IH; exact Hrest.
Qed.

Lemma number_literal_outside s :
  is_number_literal s = true -> forallb outside_ok s = true.
Proof.
  unfold is_number_literal. destruct s as [|c r]; [discriminate|].
  intros H. simpl. apply andb_true_iff.
  destruct (N.eqb_spec c 45).
  - subst. destruct (number_phase NMinus r) eqn:E; [|discriminate].
    split; [reflexivity | eapply number_phase_outside; exact E].
  - destruct (N.eqb_spec c 48).
    + subst. destruct (number_phase NZero r) eqn:E; [|discriminate].
      split; [reflexivity | eapply number_phase_outside; exact E].
    + destruct (is_digit c) eqn:Hd; [|discriminate].
      destruct (number_phase NInt r) eqn:E; [|discriminate].
      split; [now apply digit_outside | eapply number_phase_outside; exact E].
Qed.

(** Members that scan from outside to outside, joined by commas. *)
Lemma scan_commas xs rest :
  Forall (fun o => match o with
                   | Some x => forall r, scan LOut (x ++ r) = scan LOut r
                   | None => True
                   end) xs ->
  scan LOut (commas xs ++ rest) = scan LOut rest.
Proof.
  induction xs as [|[x|] xs IH]; intros H; inversion H; subst; simpl.
  - reflexivity.
  - specialize (IH H3). destruct (commas xs) as [|c tail] eqn:E.
    + apply H2.
    + rewrite <- app_assoc, H2. simpl app.
      change (scan LOut (44 :: (c :: tail) ++ rest))
        with (scan LOut ((c :: tail) ++ rest)).
      exact IH.
  - now apply IH.
Qed.

Lemma scan_member k x :
  (forall r, scan LOut (serialize x ++ r) = scan LOut r) ->
  forall r, scan LOut ((quote k ++ 58 :: serialize x) ++ r) = scan LOut r.
Proof.
  intros H r. rewrite <- app_assoc, scan_quote.
  change (scan LOut ((58 :: serialize x) ++ r))
    with (scan LOut (serialize x ++ r)).
  apply H.
Qed.

(** The text of a JSON value scans from outside to outside. *)
Lemma scan_serialize v :
  is_json v = true -> forall rest, scan LOut (serialize v ++ rest) = scan LOut rest.
Proof.
  induction v as [| |b|lexeme|s|elems props IHe IHp|props IHp]
    using JValue_ind; intros Hj rest.
  - discriminate.
  - reflexivity.
  - destruct b; reflexivity.
  - cbn [serialize]. apply scan_outside. now apply number_literal_outside.
  - cbn [serialize]. apply scan_quote.
  - simpl in Hj. apply andb_true_iff in Hj. destruct Hj as [Hj _].
    cbn [serialize]. rewrite <- app_comm_cons, <- app_assoc.
    change (scan LOut (91 :: commas (map (fun e => Some (serialize e)) elems)
                          ++ [93] ++ rest))
      with (scan LOut (commas (map (fun e => Some (serialize e)) elems)
                       ++ [93] ++ rest)).
    rewrite scan_commas; [reflexivity|].
    apply Forall_map. rewrite Forall_forall in *.
    intros x Hx. apply IHe; [exact Hx|].
    rewrite forallb_forall in Hj. now apply Hj.
  - simpl in Hj. cbn [serialize]. rewrite <- app_comm_cons, <- app_assoc.
    match goal with
    | |- scan LOut (123 :: ?body ++ ?tail) = _ =>
        change (scan LOut (123 :: body ++ tail)) with (scan LOut (body ++ tail))
    end.
    rewrite scan_commas; [reflexivity|].
    apply Forall_map. rewrite Forall_forall in *.
    intros [k x] Hx. rewrite forallb_forall in Hj.
    specialize (Hj _ Hx). specialize (IHp _ Hx). simpl in Hj, IHp.
    destruct x; try exact I; apply scan_member; now apply IHp.
Qed.

Lemma scan_serialize_out v :
  is_json v = true -> scan LOut (serialize v) = Some LOut.
Proof.
  intros H. rewrite <- (app_nil_r (serialize v)).
  now rewrite scan_serialize.
Qed.

End ScanFacts.
Import ScanFacts.

(** *** The parser follows the scan *)

Module ParseFacts.

(** Boolean tests of a code unit, as facts of arithmetic. *)
Ltac bool_facts :=
  repeat match goal with
         | H : (_ || _) = true |- _ => apply orb_true_iff in H; destruct H
         | H : (_ || _) = false |- _ => apply orb_false_iff in H; destruct H
         | H : (_ && _) = true |- _ => apply andb_true_iff in H; destruct H
         | H : negb _ = true |- _ => apply negb_true_iff in H
         | H : (_ =? _) = true |- _ => apply N.eqb_eq in H
         | H : (_ =? _) = false |- _ => apply N.eqb_neq in H
         | H : (_ <=? _) = true |- _ => apply N.leb_le in H
         | H : (_ <=? _) = false |- _ => apply N.leb_gt in H
         | H : (_ <? _) = true |- _ => apply N.ltb_lt in H
         | H : (_ <? _) = false |- _ => apply N.ltb_ge in H
         end.

Ltac split_ifs H :=
  repeat match type of H with
         | context [if ?b then _ else _] =>
             let E := fresh "E" in destruct b eqn:E
         end.

Lemma quote_test c : c <> 34 -> (c =? 34) = false.
Proof. intros H. now apply N.eqb_neq. Qed.

Lemma deliver_out v stack stack' m' :
  deliver v stack = Some (stack', m') ->
  mode_lex m' = LOut /\ mode_ok m' = true.
Proof.
  unfold deliver. destruct stack as [|[done|done [k|]] rest]; intros H;
    inversion H; subst; auto.
Qed.

Lemma step_closed_out st c stack' m' :
  step_closed st c = Some (stack', m') ->
  c <> 34 /\ mode_lex m' = LOut /\ mode_ok m' = true.
Proof.
  unfold step_closed, is_json_ws.
  destruct st as [[|[done|done [k|]] rest] m]; destruct m;
    try discriminate; intros H; split_ifs H; try discriminate;
    try (apply deliver_out in H);
    try (inversion H; subst; clear H);
    bool_facts; subst; repeat split;
    try reflexivity; try discriminate; tauto.
Qed.

Lemma step_value_lex stack m c stack' m' :
  mode_lex m = LOut -> mode_ok m = true ->
  step_value stack m c = Some (stack', m') ->
  mode_lex m' = lex_step LOut c /\ mode_ok m' = true.
Proof.
  intros Hm Hok. unfold step_value, is_json_ws, is_digit. intros H.
  split_ifs H; inversion H; subst; clear H; bool_facts; subst;
    unfold lex_step; try (split; [reflexivity | assumption]);
    try (split; reflexivity);
    rewrite quote_test by lia; auto.
Qed.

Lemma step_number_out stack ph acc c stack' m' :
  step_number stack ph acc c = Some (stack', m') ->
  c <> 34 /\ mode_lex m' = LOut /\ mode_ok m' = true.
Proof.
  unfold step_number, end_number, is_digit. intros H.
  destruct ph; split_ifs H;
    try discriminate;
    try (inversion H; subst; bool_facts; subst;
         repeat split; try discriminate; lia);
    (destruct (deliver (JNum (rev acc)) stack) as [st|]; [|discriminate];
     exact (step_closed_out _ _ _ _ H)).
Qed.

Lemma hex_value_plain c d : hex_value c = Some d -> c <> 34 /\ c <> 92.
Proof.
  unfold hex_value. intros H. split_ifs H; try discriminate;
    bool_facts; lia.
Qed.

(** One step of the parser is one step of the scan. *)
Lemma step_lex stack m c stack' m' :
  mode_ok m = true ->
  step (stack, m) c = Some (stack', m') ->
  mode_lex m' = lex_step (mode_lex m) c /\ mode_ok m' = true.
Proof.
  intros Hok H. destruct m; cbn [step] in H.
  - (* MValue *) now apply (step_value_lex stack MValue c stack' m').
  - (* MArrStart *)
    destruct (c =? 93) eqn:E.
    + destruct stack as [|[done|done key] rest]; try discriminate.
      apply deliver_out in H. bool_facts. subst. exact H.
    + now apply (step_value_lex stack MArrStart c stack' m').
  - (* MObjStart *)
    unfold is_json_ws in H. split_ifs H; try discriminate.
    + inversion H; subst. bool_facts; subst; split; reflexivity.
    + inversion H; subst. bool_facts; subst; split; reflexivity.
    + destruct stack as [|[done|done key] rest]; try discriminate.
      apply deliver_out in H. bool_facts. subst. exact H.
  - (* MKey *)
    unfold is_json_ws in H. split_ifs H; try discriminate;
      inversion H; subst; bool_facts; subst; split; reflexivity.
  - (* MColon *)
    unfold is_json_ws in H. split_ifs H; try discriminate;
      inversion H; subst; bool_facts; subst; split; reflexivity.
  - (* MAfter *)
    destruct (step_closed_out _ _ _ _ H) as (Hc & Hl & Hk).
    simpl. rewrite quote_test by assumption. auto.
  - (* MDone *)
    destruct (step_closed_out _ _ _ _ H) as (Hc & Hl & Hk).
    simpl. rewrite quote_test by assumption. auto.
  - (* MStr *)
    simpl. destruct (c =? 34) eqn:E1.
    + unfold end_string in H. destruct iskey.
      * destruct stack as [|[done|done [k|]] rest]; try discriminate.
        inversion H; subst. auto.
      * now apply deliver_out in H.
    + destruct (c =? 92) eqn:E2; [inversion H; subst; auto|].
      destruct (c <? 32); [discriminate|]. inversion H; subst. auto.
  - (* MEsc *)
    simpl. destruct (c =? 117); [inversion H; subst; auto|].
    destruct (step_escape c); [|discriminate]. inversion H; subst. auto.
  - (* MUni *)
    simpl. destruct (hex_value c) as [d|] eqn:Eh; [|discriminate].
    destruct (hex_value_plain _ _ Eh) as [H34 H92].
    rewrite !quote_test by assumption.
    assert (E92 : (c =? 92) = false) by now apply N.eqb_neq.
    rewrite E92.
    destruct k as [|[|[|[|k]]]]; inversion H; subst; auto.
  - (* MNum *)
    destruct (step_number_out _ _ _ _ _ _ H) as (Hc & Hl & Hk).
    simpl. rewrite quote_test by assumption. auto.
  - (* MLit *)
    destruct rest as [|c' rest']; [discriminate|].
    simpl in Hok. apply andb_true_iff in Hok. destruct Hok as [Hc' Hrest].
    destruct (c =? c') eqn:E; [|discriminate]. bool_facts. subst c'.
    simpl. rewrite quote_test by assumption.
    destruct rest' as [|c2 rest2].
    + now apply deliver_out in H.
    + inversion H; subst. auto.
Qed.

Lemma run_lex s :
  forall stack m stack' m',
    mode_ok m = true ->
    run (stack, m) s = Some (stack', m') ->
    mode_lex m' = lex (mode_lex m) s /\ mode_ok m' = true.
Proof.
  induction s as [|c s IH]; intros stack m stack' m' Hok H; cbn [run] in H.
  - inversion H; subst. auto.
  - destruct (step (stack, m) c) as [[stack1 m1]|] eqn:E; [|discriminate].
    destruct (step_lex _ _ _ _ _ Hok E) as [Hl Hok1].
    destruct (IH _ _ _ _ Hok1 H) as [Hl' Hok'].
    split; [|exact Hok']. unfold lex in *. simpl. now rewrite <- Hl.
Qed.

Lemma finish_out stack m v : finish (stack, m) = Some v -> mode_lex m = LOut.
Proof.
  unfold finish. destruct stack; [|discriminate].
  destruct m; try discriminate; reflexivity.
Qed.

(** A text that the parser accepts ends outside of a string. *)
Lemma JSON_parse_lex text v : JSON_parse text = Some v -> lex LOut text = LOut.
Proof.
  unfold JSON_parse, initial.
  destruct (run ([], MValue) text) as [[stack m]|] eqn:E; [|discriminate].
  intros H. apply finish_out in H.
  destruct (run_lex text [] MValue stack m eq_refl E) as [Hl _].
  simpl in Hl. congruence.
Qed.

End ParseFacts.
Import ParseFacts.

(** *** A text that starts inside a string *)

Module FlipFacts.

Lemma ifree_rev s : ifree (rev s) = ifree s.
Proof.
  unfold ifree. induction s as [|c s IH]; [reflexivity|].
  simpl. rewrite forallb_app, IH. simpl. rewrite andb_true_r.
  apply andb_comm.
Qed.

Lemma keys_ifree_set_own k v ps :
  ifree k = true -> keys_ifree ps = true -> keys_ifree (set_own k v ps) = true.
Proof.
  intros Hk. induction ps as [|[k' v'] ps IH]; simpl; intros H.
  - now rewrite Hk.
  - apply andb_true_iff in H. destruct H as [H1 H2].
    destruct (JsString.eqb k k'); simpl.
    + now rewrite Hk.
    + now rewrite H1, IH.
Qed.

Lemma get_own_ifree k ps :
  keys_ifree ps = true -> ifree k = false -> get_own k ps = None.
Proof.
  intros Hps Hk. induction ps as [|[k' v'] ps IH]; simpl; [reflexivity|].
  simpl in Hps. apply andb_true_iff in Hps. destruct Hps as [H1 H2].
  destruct (JsString.eqb k k') eqn:E.
  - apply eqb_eq in E. subst. congruence.
  - now apply IH.
Qed.

Lemma deliver_keys v stack stack' m' :
  forallb frame_keys stack = true -> value_keys v = true ->
  deliver v stack = Some (stack', m') ->
  state_keys (stack', m') = true.
Proof.
  unfold deliver, state_keys.
  destruct stack as [|[done|done [k|]] rest]; intros Hs Hv H;
    inversion H; subst; simpl in *.
  - now rewrite Hv.
  - now rewrite Hs.
  - apply andb_true_iff in Hs. destruct Hs as [Hf Hrest].
    apply andb_true_iff in Hf. destruct Hf as [Hd Hk].
    rewrite (keys_ifree_set_own _ _ _ Hk Hd), Hrest. reflexivity.
Qed.

Lemma step_closed_keys st c stack' m' :
  state_keys st = true ->
  step_closed st c = Some (stack', m') -> state_keys (stack', m') = true.
Proof.
  unfold step_closed, is_json_ws.
  destruct st as [[|[done|done [k|]] rest] m]; destruct m;
    try discriminate; intros Hk H; split_ifs H; try discriminate;
    try (inversion H; subst; exact Hk);
    unfold state_keys in Hk; simpl in Hk;
    (eapply deliver_keys; [| |exact H]); simpl;
    repeat match goal with
           | Hx : _ && _ = true |- _ =>
               apply andb_true_iff in Hx; destruct Hx
           end; auto.
Qed.

Lemma step_value_keys stack m c stack' m' :
  mode_lex m = LOut -> state_keys (stack, m) = true ->
  step_value stack m c = Some (stack', m') -> state_keys (stack', m') = true.
Proof.
  intros Hm Hk. unfold step_value. intros H.
  assert (Hs : forallb frame_keys stack = true).
  { unfold state_keys in Hk. simpl in Hk.
    apply andb_true_iff in Hk. tauto. }
  split_ifs H; inversion H; subst; clear H; try exact Hk;
    unfold state_keys; simpl; rewrite Hs; reflexivity.
Qed.

Lemma step_number_keys stack ph acc c stack' m' :
  state_keys (stack, MNum ph acc) = true ->
  step_number stack ph acc c = Some (stack', m') ->
  state_keys (stack', m') = true.
Proof.
  intros Hk. unfold step_number, end_number. intros H.
  assert (Hs : forallb frame_keys stack = true).
  { unfold state_keys in Hk. simpl in Hk.
    apply andb_true_iff in Hk. tauto. }
  destruct ph; split_ifs H; try discriminate;
    try (inversion H; subst; exact Hk);
    (destruct (deliver (JNum (rev acc)) stack) as [[stack1 m1]|] eqn:Ed;
       [|discriminate];
     eapply step_closed_keys; [|exact H];
     eapply deliver_keys; [exact Hs | | exact Ed]; reflexivity).
Qed.

(** Outside of a string the parser stores no text of its own. *)
Lemma step_keys_out stack m c stack' m' :
  mode_lex m = LOut -> state_keys (stack, m) = true ->
  step (stack, m) c = Some (stack', m') -> state_keys (stack', m') = true.
Proof.
  intros Hm Hk H.
  assert (Hs : forallb frame_keys stack = true).
  { unfold state_keys in Hk. simpl in Hk.
    apply andb_true_iff in Hk. tauto. }
  destruct m; try discriminate; cbn [step] in H.
  - now apply (step_value_keys stack MValue c stack' m').
  - destruct (c =? 93).
    + destruct stack as [|[done|done key] rest]; try discriminate.
      simpl in Hs. eapply deliver_keys; [exact Hs | | exact H]. reflexivity.
    + now apply (step_value_keys stack MArrStart c stack' m').
  - unfold is_json_ws in H. split_ifs H; try discriminate.
    + inversion H; subst. exact Hk.
    + inversion H; subst. unfold state_keys. simpl. now rewrite Hs.
    + destruct stack as [|[done|done key] rest]; try discriminate.
      simpl in Hs. apply andb_true_iff in Hs. destruct Hs as [Hf Hrest].
      apply andb_true_iff in Hf. destruct Hf as [Hd _].
      eapply deliver_keys; [| |exact H]; assumption.
  - unfold is_json_ws in H. split_ifs H; try discriminate;
      inversion H; subst; [exact Hk|].
    unfold state_keys. simpl. now rewrite Hs.
  - unfold is_json_ws in H. split_ifs H; try discriminate;
      inversion H; subst; [exact Hk|].
    unfold state_keys. simpl. now rewrite Hs.
  - eapply step_closed_keys; [exact Hk | exact H].
  - eapply step_closed_keys; [exact Hk | exact H].
  - eapply step_number_keys; [exact Hk | exact H].
  - destruct rest as [|c' rest']; [discriminate|].
    destruct (c =? c'); [|discriminate].
    destruct rest' as [|c2 rest2].
    + eapply deliver_keys; [exact Hs | | exact H].
      unfold state_keys in Hk. simpl in Hk. rewrite Hs in Hk. exact Hk.
    + inversion H; subst. unfold state_keys in *. simpl in *.
      rewrite Hs in *. exact Hk.
Qed.

(** Outside of a string the parser takes no backslash. *)
Lemma step_out_no_backslash stack m :
  mode_lex m = LOut -> mode_ok m = true -> step (stack, m) 92 = None.
Proof.
  intros Hm Hok. destruct m; try discriminate; cbn [step].
  - reflexivity.
  - destruct stack as [|[done|done key] rest]; reflexivity.
  - reflexivity.
  - reflexivity.
  - reflexivity.
  - destruct stack as [|[done|done [k|]] rest]; reflexivity.
  - destruct stack as [|[done|done [k|]] rest]; reflexivity.
  - unfold step_number, end_number.
    destruct ph; try reflexivity;
      (destruct (deliver (JNum (rev acc)) stack)
         as [[[|[done|done [k|]] rest] m1]|] eqn:Ed; [| | | |reflexivity];
       unfold deliver in Ed;
       destruct stack as [|[done'|done' [k'|]] rest'];
       inversion Ed; subst; reflexivity).
  - destruct rest as [|c' rest']; [reflexivity|].
    simpl in Hok. bool_facts.
    destruct (N.eqb_spec 92 c'); [congruence | reflexivity].
Qed.

(** Outside of a string a quote opens one, and the parser starts it
    with no text. *)
Lemma step_opens_string stack m stack' m' :
  mode_lex m = LOut -> mode_ok m = true ->
  step (stack, m) 34 = Some (stack', m') ->
  stack' = stack /\ exists iskey, m' = MStr [] iskey.
Proof.
  intros Hm Hok H. destruct m; try discriminate; cbn [step] in H.
  - inversion H; subst. eauto.
  - simpl in H. inversion H; subst. eauto.
  - simpl in H. inversion H; subst. eauto.
  - simpl in H. inversion H; subst. eauto.
  - destruct (step_closed_out _ _ _ _ H) as [Hc _]. congruence.
  - destruct (step_closed_out _ _ _ _ H) as [Hc _]. congruence.
  - destruct (step_number_out _ _ _ _ _ _ H) as [Hc _]. congruence.
  - destruct rest as [|c' rest']; [discriminate|].
    simpl in Hok. bool_facts.
    destruct (N.eqb_spec 34 c'); [congruence | discriminate].
Qed.

Lemma outside_ok_plain c :
  outside_ok c = true -> c <> 34 /\ c <> 92 /\ c <> 105 /\ 32 <= c.
Proof.
  unfold outside_ok, is_digit. intros H. bool_facts; subst; repeat split;
    try discriminate; lia.
Qed.

(** One step of a flipped run. *)
Lemma step_flipped stack m c stack' m' q q' :
  flipped m q -> mode_ok m = true -> state_keys (stack, m) = true ->
  scan_step q c = Some q' ->
  step (stack, m) c = Some (stack', m') ->
  flipped m' q' /\ mode_ok m' = true /\ state_keys (stack', m') = true.
Proof.
  intros [[Hm ->]|[(acc & iskey & ->) ->]] Hok Hk Hscan Hstep.
  - (* the parser outside, the scan inside *)
    destruct (step_lex _ _ _ _ _ Hok Hstep) as [Hl Hok'].
    simpl in Hscan. inversion Hscan; subst q'; clear Hscan.
    rewrite Hm in Hl.
    destruct (N.eqb_spec c 34) as [->|H34].
    + destruct (step_opens_string _ _ _ _ Hm Hok Hstep)
        as [-> [iskey ->]].
      split; [right; eauto|]. split; [reflexivity|].
      unfold state_keys in *. simpl in *.
      apply andb_true_iff in Hk. destruct Hk as [Hs _]. now rewrite Hs.
    + destruct (N.eqb_spec c 92) as [->|H92].
      * rewrite (step_out_no_backslash stack m Hm Hok) in Hstep.
        discriminate.
      * split; [left; split; [|reflexivity]|].
        { rewrite Hl. simpl. now rewrite quote_test. }
        split; [exact Hok'|]. now apply (step_keys_out stack m c).
  - (* the parser inside, the scan outside *)
    simpl in Hscan. cbn [step] in Hstep.
    unfold state_keys in Hk. simpl in Hk.
    apply andb_true_iff in Hk. destruct Hk as [Hs Hacc].
    destruct (N.eqb_spec c 34) as [->|H34].
    + inversion Hscan; subst q'; clear Hscan.
      unfold end_string in Hstep. destruct iskey.
      * destruct stack as [|[done|done [k|]] rest]; try discriminate.
        inversion Hstep; subst. split; [left; auto|]. split; [reflexivity|].
        unfold state_keys. simpl in *.
        apply andb_true_iff in Hs. destruct Hs as [Hf Hrest].
        rewrite andb_true_r in Hf.
        now rewrite Hf, ifree_rev, Hacc, Hrest.
      * destruct (deliver_out _ _ _ _ Hstep) as [Hl Hok'].
        split; [left; auto|]. split; [exact Hok'|].
        eapply deliver_keys; [exact Hs | | exact Hstep]. reflexivity.
    + destruct (outside_ok c) eqn:Hout; [|discriminate].
      inversion Hscan; subst q'; clear Hscan.
      destruct (outside_ok_plain c Hout) as (_ & H92 & H105 & H32).
      assert (E92 : (c =? 92) = false) by now apply N.eqb_neq.
      assert (E32 : (c <? 32) = false) by now apply N.ltb_ge.
      rewrite E92, E32 in Hstep. inversion Hstep; subst.
      split; [right; eauto|]. split; [reflexivity|].
      unfold state_keys. simpl. rewrite Hs, Hacc.
      assert (E105 : (c =? 105) = false) by now apply N.eqb_neq.
      now rewrite E105.
Qed.

Lemma run_flipped s :
  forall stack m q q' stack' m',
    flipped m q -> mode_ok m = true -> state_keys (stack, m) = true ->
    scan q s = Some q' ->
    run (stack, m) s = Some (stack', m') ->
    state_keys (stack', m') = true.
Proof.
  induction s as [|c s IH]; intros stack m q q' stack' m' Hf Hok Hk Hscan Hrun;
    cbn [run scan] in *.
  - inversion Hrun; subst. exact Hk.
  - destruct (scan_step q c) as [q1|] eqn:Es; [|discriminate].
    destruct (step (stack, m) c) as [[stack1 m1]|] eqn:Ep; [|discriminate].
    destruct (step_flipped _ _ _ _ _ _ _ Hf Hok Hk Es Ep) as (Hf1 & Hok1 & Hk1).
    exact (IH _ _ _ _ _ _ Hf1 Hok1 Hk1 Hscan Hrun).
Qed.

(** What the parser makes of a text cut out of the inside of a string of
    a JSON text has no property named "slides". *)
Lemma parse_inside_keys text q v :
  scan LIn text = Some q -> JSON_parse text = Some v -> value_keys v = true.
Proof.
  intros Hscan. unfold JSON_parse, initial.
  destruct (run ([], MValue) text) as [[stack m]|] eqn:E; [|discriminate].
  assert (Hk : state_keys (stack, m) = true).
  { eapply (run_flipped text [] MValue LIn q); try eassumption;
      try reflexivity. left. auto. }
  unfold finish. destruct stack; [|discriminate].
  unfold state_keys in Hk. simpl in Hk.
  destruct m; try discriminate.
  - intros H. inversion H; subst. exact Hk.
  - destruct (num_complete ph); [|discriminate].
    intros H. inversion H. reflexivity.
Qed.

Lemma no_slides_without_i v :
  value_keys v = true -> get_prop v (utf16 "slides") = JUndefined.
Proof.
  destruct v; simpl; intros H; try reflexivity;
    now rewrite (get_own_ifree (utf16 "slides") _ H eq_refl).
Qed.

End FlipFacts.
Import FlipFacts.

(** *** Cutting a text at a separator *)

Module CutFacts.

Lemma prefixb_spec p s : prefixb p s = true <-> exists r, s = p ++ r.
Proof.
  revert s. induction p as [|a p IH]; intros s; simpl.
  - split; [intros _; now exists s | reflexivity].
  - destruct s as [|b s]; simpl.
    + split; [discriminate | intros [r H]; discriminate].
    + rewrite andb_true_iff, N.eqb_eq, IH. split.
      * intros [-> [r ->]]. now exists r.
      * intros [r H]. inversion H; subst. split; [reflexivity | now exists r].
Qed.

Lemma prefixb_app p a b : prefixb p a = true -> prefixb p (a ++ b) = true.
Proof.
  intros H. apply prefixb_spec in H. destruct H as [r ->].
  apply prefixb_spec. exists (r ++ b). now rewrite app_assoc.
Qed.

Lemma before_cut sep y :
  before sep y = y \/ exists r, y = before sep y ++ sep ++ r.
Proof.
  induction y as [|c y IH]; [now left|]. simpl.
  destruct (prefixb sep (c :: y)) eqn:E.
  - right. apply prefixb_spec in E. destruct E as [r Hr].
    exists r. exact Hr.
  - destruct IH as [IH|[r IH]].
    + left. now rewrite IH.
    + right. exists r. simpl. now rewrite <- IH.
Qed.

Lemma before_prefix sep y : exists rest, y = before sep y ++ rest.
Proof.
  destruct (before_cut sep y) as [H|[r H]].
  - exists []. now rewrite app_nil_r.
  - now exists (sep ++ r).
Qed.

Lemma includes_before sep y : sep <> [] -> includes sep (before sep y) = false.
Proof.
  intros Hsep. induction y as [|c y IH]; simpl.
  - destruct sep; [congruence | reflexivity].
  - destruct (prefixb sep (c :: y)) eqn:E.
    + simpl. destruct sep; [congruence | reflexivity].
    + cbn [includes]. rewrite IH, orb_false_r.
      destruct (prefixb sep (c :: before sep y)) eqn:E2; [|reflexivity].
      destruct (before_prefix sep y) as [rest Hrest].
      apply (prefixb_app _ _ rest) in E2. simpl app in E2.
      rewrite <- Hrest in E2. congruence.
Qed.

Lemma includes_middle sep a b : includes sep (a ++ sep ++ b) = true.
Proof.
  induction a as [|c a IH]; simpl.
  - assert (H : prefixb sep (sep ++ b) = true)
      by (apply prefixb_spec; now exists b).
    destruct (sep ++ b); simpl in *; now rewrite H.
  - now rewrite IH, orb_true_r.
Qed.

Lemma includes_split sep s :
  includes sep s = true -> s = before sep s ++ sep ++ after sep s.
Proof.
  induction s as [|c s IH]; simpl.
  - destruct sep; [reflexivity | discriminate].
  - destruct (prefixb sep (c :: s)) eqn:E; simpl.
    + intros _. apply prefixb_spec in E. destruct E as [r Hr].
      rewrite Hr at 2. rewrite skipn_app, skipn_all, Nat.sub_diag. simpl.
      exact Hr.
    + intros H. now rewrite <- IH.
Qed.

Lemma before_none sep s : includes sep s = false -> before sep s = s.
Proof.
  induction s as [|c s IH]; simpl; [reflexivity|].
  intros H. apply orb_false_iff in H. destruct H as [H1 H2].
  now rewrite H1, IH.
Qed.

Lemma includes_longer sep ext s :
  includes sep s = false -> includes (sep ++ ext) s = false.
Proof.
  intros H. destruct (includes (sep ++ ext) s) eqn:E; [|reflexivity].
  apply includes_split in E. rewrite E in H.
  rewrite <- app_assoc in H. now rewrite includes_middle in H.
Qed.

Lemma split_rounds_head n sep t :
  (n = 0%nat -> t = []) ->
  nth_error (split_rounds n sep t) 0 = Some (before sep t).
Proof.
  destruct n as [|n]; simpl.
  - intros H. now rewrite (H eq_refl).
  - intros _. destruct (includes sep t) eqn:E; simpl; [reflexivity|].
    now rewrite before_none.
Qed.

(** [s.split(sep)[0]] and [s.split(sep)[1]] *)
Lemma split_item_0 sep s : item (split sep s) 0 = Return (before sep s).
Proof.
  unfold item, split. rewrite split_rounds_head; [reflexivity | discriminate].
Qed.

Lemma split_item_1 sep s :
  includes sep s = true ->
  item (split sep s) 1 = Return (before sep (after sep s)).
Proof.
  intros H. unfold item, split. cbn [split_rounds]. rewrite H.
  change (nth_error (before sep s
                     :: split_rounds (length s) sep (after sep s)) 1)
    with (nth_error (split_rounds (length s) sep (after sep s)) 0).
  rewrite split_rounds_head; [reflexivity|].
  intros Hlen. apply length_zero_iff_nil in Hlen. now subst.
Qed.

(** What [clean_code_block] returns. *)
Lemma clean_code_block_fenced_json c :
  includes fence_json c = true ->
  clean_code_block c
  = Return (trim (before fence (before fence_json (after fence_json c)))).
Proof.
  intros H. unfold clean_code_block. rewrite H.
  now rewrite split_item_1, split_item_0.
Qed.

Lemma clean_code_block_fenced c :
  includes fence_json c = false -> includes fence c = true ->
  clean_code_block c
  = Return (trim (before fence (before fence (after fence c)))).
Proof.
  intros H1 H2. unfold clean_code_block. rewrite H1, H2.
  now rewrite split_item_1, split_item_0.
Qed.

Lemma clean_code_block_plain c :
  includes fence c = false -> clean_code_block c = Return c.
Proof.
  intros H. unfold clean_code_block.
  rewrite (includes_longer fence (utf16 "json") c H : includes fence_json c = false).
  now rewrite H.
Qed.

(** [trim] takes white space off both ends. *)
Lemma trimStart_decomp s :
  exists ws, s = ws ++ trimStart s /\ forallb is_trim_space ws = true.
Proof.
  induction s as [|c s IH]; simpl.
  - now exists [].
  - destruct (is_trim_space c) eqn:E.
    + destruct IH as [ws [H1 H2]]. exists (c :: ws). simpl.
      rewrite E, H2. split; [now rewrite <- H1 | reflexivity].
    + now exists [].
Qed.

Lemma trimEnd_decomp s :
  exists ws, s = trimEnd s ++ ws /\ forallb is_trim_space ws = true.
Proof.
  unfold trimEnd. destruct (trimStart_decomp (rev s)) as [ws [H1 H2]].
  exists (rev ws). split.
  - rewrite <- rev_app_distr, <- H1. now rewrite rev_involutive.
  - rewrite forallb_forall in *. intros x Hx. apply H2.
    now apply in_rev.
Qed.

Lemma trimStart_id c s : is_trim_space c = false -> trimStart (c :: s) = c :: s.
Proof. intros H. simpl. now rewrite H. Qed.

Lemma trimEnd_id s c :
  is_trim_space c = false -> trimEnd (s ++ [c]) = s ++ [c].
Proof.
  intros H. unfold trimEnd. rewrite rev_app_distr. simpl.
  rewrite H. simpl. now rewrite rev_involutive.
Qed.

Lemma trimEnd_space s c :
  is_trim_space c = true -> trimEnd (s ++ [c]) = trimEnd s.
Proof.
  intros H. unfold trimEnd. rewrite rev_app_distr. simpl. now rewrite H.
Qed.

End CutFacts.
Import CutFacts.

(** *** The two texts of a response *)

Module FenceFacts.

Lemma outside_not_space c : outside_ok c = true -> is_trim_space c = false.
Proof.
  unfold outside_ok, is_digit, is_trim_space. intros H.
  bool_facts; subst; try reflexivity.
  repeat match goal with
         | |- context [N.eqb ?a ?b] => destruct (N.eqb_spec a b); [lia|]
         end.
  destruct (N.leb_spec 8192 c); [lia | reflexivity].
Qed.

Lemma space_plain c : is_trim_space c = true -> c <> 34 /\ c <> 92.
Proof.
  intros H. split; intros E; rewrite E in H; discriminate H.
Qed.

Lemma scan_out_first c s q :
  scan LOut (c :: s) = Some q -> is_trim_space c = false.
Proof.
  simpl. destruct (N.eqb_spec c 34) as [->|H]; [reflexivity|].
  destruct (outside_ok c) eqn:E; [|discriminate].
  intros _. now apply outside_not_space.
Qed.

Lemma scan_in_spaces ws rest :
  forallb is_trim_space ws = true -> scan LIn (ws ++ rest) = scan LIn rest.
Proof.
  induction ws as [|c ws IH]; simpl app; intros H; [reflexivity|].
  simpl in H. apply andb_true_iff in H. destruct H as [Hc Hws].
  destruct (space_plain c Hc). rewrite scan_in_plain by assumption.
  now apply IH.
Qed.

Lemma scan_backtick q r q' : scan q (96 :: r) = Some q' -> q = LIn.
Proof. destruct q; simpl; [discriminate | reflexivity | discriminate]. Qed.

Lemma scan_prefix q a b q' :
  scan q (a ++ b) = Some q' -> exists q1, scan q a = Some q1 /\ scan q1 b = Some q'.
Proof.
  rewrite scan_app. destruct (scan q a) as [q1|]; [|discriminate]. eauto.
Qed.

(** The last code unit of a text that scans to the outside. *)
Lemma scan_out_last s c :
  scan LOut (s ++ [c]) = Some LOut -> is_trim_space c = false.
Proof.
  intros H. apply scan_prefix in H. destruct H as (q & _ & H).
  destruct q; simpl in H.
  - destruct (c =? 34) eqn:E34; [discriminate|].
    destruct (outside_ok c) eqn:E; [|discriminate].
    now apply outside_not_space.
  - destruct (c =? 34) eqn:E34.
    + apply N.eqb_eq in E34. now subst c.
    + destruct (c =? 92); discriminate.
  - destruct (escape_ok c); discriminate.
Qed.

Lemma trim_padded s :
  scan LOut s = Some LOut -> trim ([10] ++ s ++ [10]) = s.
Proof.
  intros H. destruct s as [|c s0]; [reflexivity|].
  unfold trim. change ([10] ++ (c :: s0) ++ [10]) with (10 :: (c :: s0) ++ [10]).
  change (trimStart (10 :: (c :: s0) ++ [10]))
    with (trimStart (c :: (s0 ++ [10]))).
  rewrite trimStart_id by (eapply scan_out_first; exact H).
  change (c :: s0 ++ [10]) with ((c :: s0) ++ [10]).
  rewrite trimEnd_space by reflexivity.
  destruct (exists_last (l := c :: s0)) as (s' & d & Hd); [discriminate|].
  rewrite Hd in *. apply trimEnd_id. eapply scan_out_last. exact H.
Qed.

(** In the fenced text a "```" inside the JSON text ends the block early:
    what is cut out ends inside a string, and the parser refuses it. *)
Lemma early_cut_is_refused s q r :
  scan LOut s = Some LOut -> s = q ++ 96 :: r ->
  JSON_parse (trim (10 :: q)) = None.
Proof.
  intros Hs ->. apply scan_prefix in Hs. destruct Hs as (x & Hq & Hr).
  apply scan_backtick in Hr. subst x.
  assert (Htrim : trim (10 :: q) = trimEnd q).
  { unfold trim. change (trimStart (10 :: q)) with (trimStart q).
    destruct q as [|c q0]; [reflexivity|].
    rewrite trimStart_id; [reflexivity|]. eapply scan_out_first. exact Hq. }
  rewrite Htrim.
  destruct (trimEnd_decomp q) as (ws & Hdec & Hws).
  rewrite Hdec in Hq. apply scan_prefix in Hq. destruct Hq as (x & Hx & Hw).
  destruct (JSON_parse (trimEnd q)) as [v|] eqn:Hp; [|reflexivity].
  apply JSON_parse_lex in Hp. apply scan_lex in Hx. rewrite Hp in Hx. subst x.
  destruct ws as [|c ws]; [discriminate|].
  simpl in Hws. apply andb_true_iff in Hws. destruct Hws as [Hc _].
  apply scan_out_first in Hw. congruence.
Qed.

(** In the raw text a "```" starts a block inside a string: what is cut
    out starts there, and whatever the parser makes of it has no
    slides. *)
Lemma inner_cut_has_no_slides s q sep r g rest v :
  scan LOut s = Some LOut ->
  s = q ++ (96 :: sep) ++ r ->
  forallb (fun c => negb (c =? 34) && negb (c =? 92)) sep = true ->
  r = g ++ rest ->
  JSON_parse (trim g) = Some v ->
  value_keys v = true.
Proof.
  intros Hs -> Hsep -> Hp.
  apply scan_prefix in Hs. destruct Hs as (x & Hq & Hr).
  simpl app in Hr. pose proof (scan_backtick _ _ _ Hr) as ->.
  change (scan LIn (96 :: sep ++ g ++ rest))
    with (scan LIn (sep ++ g ++ rest)) in Hr.
  assert (Hg : scan LIn (g ++ rest) = Some LOut).
  { clear Hp Hq. revert Hr. induction sep as [|c sep IH]; simpl app; intros Hr;
      [exact Hr|].
    simpl in Hsep. bool_facts.
    rewrite scan_in_plain in Hr by assumption. apply IH; assumption. }
  apply scan_prefix in Hg. destruct Hg as (y & Hy & _).
  destruct (trimStart_decomp g) as (ws & Hdec & Hws).
  rewrite Hdec, scan_in_spaces in Hy by exact Hws.
  destruct (trimEnd_decomp (trimStart g)) as (ws' & Hdec' & _).
  fold (trim g) in Hdec'. rewrite Hdec' in Hy.
  apply scan_prefix in Hy. destruct Hy as (z & Hz & _).
  eapply parse_inside_keys; eassumption.
Qed.

(** A text of which every parse lacks slides is refused by the
    validation. *)
Lemma postprocess_without_slides c styleInput requirementsInput :
  (forall v, JSON_parse c = Some v -> value_keys v = true) ->
  returned (zenmux_postprocess c styleInput requirementsInput) = None.
Proof.
  intros H. unfold zenmux_postprocess, parse.
  destruct (JSON_parse c) as [v|]; [|reflexivity].
  specialize (H v eq_refl). apply no_slides_without_i in H. simpl.
  destruct (assign v _ _) as [v1|] eqn:E1; [|reflexivity]. simpl.
  destruct (assign v1 _ _) as [v2|] eqn:E2; [|reflexivity]. simpl.
  rewrite (get_prop_assign_ne v1 (utf16 "requirements") (utf16 "slides") _ _
             eq_refl E2).
  rewrite (get_prop_assign_ne v (utf16 "style") (utf16 "slides") _ _
             eq_refl E1).
  rewrite H. reflexivity.
Qed.

Lemma postprocess_unparsed c styleInput requirementsInput :
  JSON_parse c = None ->
  returned (zenmux_postprocess c styleInput requirementsInput) = None.
Proof.
  intros H. apply postprocess_without_slides. intros v Hv. congruence.
Qed.

Lemma after_prefix sep y : sep <> [] -> after sep (sep ++ y) = y.
Proof.
  intros Hsep. destruct sep as [|a sep]; [congruence|].
  change (after (a :: sep) ((a :: sep) ++ y))
    with (if prefixb (a :: sep) ((a :: sep) ++ y)
          then skipn (length (a :: sep)) ((a :: sep) ++ y)
          else after (a :: sep) (sep ++ y)).
  assert (H : prefixb (a :: sep) ((a :: sep) ++ y) = true)
    by (apply prefixb_spec; now exists y).
  rewrite H, skipn_app, skipn_all, Nat.sub_diag. reflexivity.
Qed.

Lemma includes_inside sep a s b :
  includes sep (a ++ s ++ b) = false -> includes sep s = false.
Proof.
  intros H. destruct (includes sep s) eqn:E; [|reflexivity].
  apply includes_split in E. rewrite E in H.
  replace (a ++ (before sep s ++ sep ++ after sep s) ++ b)
    with ((a ++ before sep s) ++ sep ++ (after sep s ++ b)) in H
    by (now rewrite <- !app_assoc).
  now rewrite includes_middle in H.
Qed.

(** Where the block of a fenced text ends: at the closing fence, or at a
    "```" of the JSON text itself. *)
Lemma fenced_block s x0 r :
  [10] ++ s ++ [10] ++ fence = x0 ++ fence ++ r ->
  x0 = [10] ++ s ++ [10]
  \/ exists q l, s = q ++ fence ++ l /\ x0 = 10 :: q.
Proof.
  intros H.
  change ([10] ++ s ++ [10] ++ fence) with ((10 :: s) ++ (10 :: fence)) in H.
  apply app_eq_app in H. destruct H as [l [[H1 H2]|[H1 H2]]].
  - right. unfold fence in H2. simpl in H2.
    destruct l as [|a [|b [|c l']]]; simpl in H2; try discriminate.
    inversion H2; subst a b c.
    destruct x0 as [|d q]; simpl in H1; [discriminate|].
    inversion H1; subst d. exists q, l'. split; [reflexivity | reflexivity].
  - left. unfold fence in H2. simpl in H2.
    destruct l as [|a l2]; simpl in H2; [discriminate|].
    inversion H2 as [[Ha Hl]].
    assert (Hlen : length (utf16 "```") = length (l2 ++ utf16 "```" ++ r))
      by (f_equal; exact Hl).
    rewrite !length_app in Hlen. simpl in Hlen.
    destruct l2; [|simpl in Hlen; lia].
    rewrite H1. subst a. reflexivity.
Qed.

Lemma serialize_nonempty v : is_json v = true -> serialize v <> [].
Proof.
  destruct v as [| |[|]|lexeme|s|elems props|props]; simpl; try discriminate.
  unfold is_number_literal. destruct lexeme; discriminate.
Qed.

(** The parser of the gateway branch gives the same plan, or none, for a
    scanned text and for the same text in a "```json" block. *)
Lemma fenced_text_same_plan s styleInput requirementsInput :
  scan LOut s = Some LOut ->
  returned (parse_gateway_content (fenced s) styleInput requirementsInput)
  = returned (parse_gateway_content s styleInput requirementsInput).
Proof.
  intros Hs. unfold parse_gateway_content, fenced.
  (* the fenced text *)
  assert (Hfj : fence_json <> []) by discriminate.
  assert (Hf : fence <> []) by discriminate.
  set (y := [10] ++ s ++ [10] ++ fence).
  rewrite clean_code_block_fenced_json
    by (apply (includes_middle fence_json [] y)).
  rewrite (after_prefix fence_json y Hfj).
  set (h1 := before fence_json y). set (x0 := before fence h1).
  assert (Hno : includes fence x0 = false) by now apply includes_before.
  assert (Hcut : exists r, y = x0 ++ fence ++ r).
  { destruct (before_cut fence h1) as [E0|[r0 E0]];
      destruct (before_cut fence_json y) as [E1|[r1 E1]];
      fold h1 in E1; fold x0 in E0.
    - exfalso. rewrite E0, E1 in Hno. unfold y in Hno.
      replace ([10] ++ s ++ [10] ++ fence)
        with (([10] ++ s ++ [10]) ++ fence ++ []) in Hno
        by (now rewrite app_nil_r, <- !app_assoc).
      now rewrite includes_middle in Hno.
    - exists (utf16 "json" ++ r1). rewrite E1 at 1. rewrite E0.
      change fence_json with (fence ++ utf16 "json").
      now rewrite <- !app_assoc.
    - exists r0. now rewrite <- E1, E0 at 1.
    - exists (r0 ++ fence_json ++ r1). rewrite E1 at 1. rewrite E0 at 1.
      now rewrite <- !app_assoc. }
  destruct Hcut as [r Hcut]. unfold y in Hcut.
  destruct (fenced_block s x0 r Hcut) as [Hx0|(q & l & Hsplit & Hx0)].
  - (* the block ends at the closing fence *)
    rewrite Hx0 in Hno. apply includes_inside in Hno.
    rewrite Hx0, (trim_padded s Hs), (clean_code_block_plain s Hno).
    reflexivity.
  - (* the block ends inside the JSON text *)
    rewrite Hx0. cbn [bindC].
    rewrite (postprocess_unparsed (trim (10 :: q)))
      by (apply (early_cut_is_refused s q (utf16 "``" ++ l) Hs);
          rewrite Hsplit; reflexivity).
    assert (Hinc : includes fence s = true)
      by (rewrite Hsplit; apply includes_middle).
    symmetry. destruct (includes fence_json s) eqn:Hj.
    + rewrite (clean_code_block_fenced_json s Hj). cbn [bindC].
      apply postprocess_without_slides. intros v.
      destruct (before_prefix fence_json (after fence_json s)) as [rest1 Hr1].
      destruct (before_prefix fence (before fence_json (after fence_json s)))
        as [rest0 Hr0].
      apply (inner_cut_has_no_slides s (before fence_json s)
               (utf16 "``json") (after fence_json s)
               (before fence (before fence_json (after fence_json s)))
               (rest0 ++ rest1) v Hs).
      * apply (includes_split fence_json s Hj).
      * reflexivity.
      * rewrite app_assoc, <- Hr0. exact Hr1.
    + rewrite (clean_code_block_fenced s Hj Hinc). cbn [bindC].
      apply postprocess_without_slides. intros v.
      destruct (before_prefix fence (after fence s)) as [rest1 Hr1].
      destruct (before_prefix fence (before fence (after fence s)))
        as [rest0 Hr0].
      apply (inner_cut_has_no_slides s (before fence s)
               (utf16 "``") (after fence s)
               (before fence (before fence (after fence s)))
               (rest0 ++ rest1) v Hs).
      * apply (includes_split fence s Hinc).
      * reflexivity.
      * rewrite app_assoc, <- Hr0. exact Hr1.
Qed.

End FenceFacts.
Import FenceFacts.

(** The plan generator in a world whose gateway answers every request
    with the same text. *)
Lemma chat_world_outcome text contextText slideCount urlInputs outputLanguage
  styleInput requirementsInput apiKey addLog w :
  (forall evs c, fetch_reply w evs c = chat_reply text) ->
  outcome (generateSlidePlan contextText slideCount urlInputs outputLanguage
             styleInput requirementsInput Zenmux apiKey addLog) w
  = match (if truthy_string text
           then returned (parse_gateway_content text styleInput
                            requirementsInput)
           else None) with
    | Some plan => Return plan
    | None => createFallbackPlan slideCount outputLanguage styleInput
    end.
Proof.
  intros Hreply. unfold generateSlidePlan, outcome.
  destruct (addLog_opt_returns addLog (log_request_entry chat_url) w)
    as [w0 Hw0].
  rewrite (bind_return _ _ _ _ _ Hw0).
  assert (Hw0r : forall evs c, fetch_reply w0 evs c = chat_reply text).
  { destruct addLog; simpl in Hw0; inversion Hw0; subst; simpl; auto. }
  set (prompt := {| pp_contextText := contextText; pp_urlInputs := urlInputs;
                    pp_slideCount := slideCount;
                    pp_outputLanguage := outputLanguage;
                    pp_styleInput := styleInput;
                    pp_requirementsInput := requirementsInput |}).
  assert (Hatt : exists w1,
             zenmux_plan_attempt prompt apiKey addLog w0
             = (if truthy_string text
                then parse_gateway_content text styleInput requirementsInput
                else Throw (Error (utf16 "No content in Zenmux response")),
                w1)).
  { unfold zenmux_plan_attempt, bind, fetch, emit. rewrite Hw0r.
    unfold chat_reply. cbn [snd fst json ret negb content].
    match goal with
    | |- context [addLog_opt addLog ?entry ?w0] =>
        destruct (addLog_opt_returns addLog entry w0) as [w2 Hw2]; rewrite Hw2
    end.
    exists w2. destruct (truthy_string text); reflexivity. }
  destruct Hatt as [w1 Hatt].
  destruct (truthy_string text).
  - destruct (parse_gateway_content text styleInput requirementsInput)
      as [plan|e] eqn:Ep.
    + rewrite (try_return _ _ _ _ _ Hatt). reflexivity.
    + rewrite (try_throw _ _ _ _ _ Hatt). unfold plan_fallback.
      destruct (addLog_opt_returns addLog
                  (log_message_entry LogError (toString e)) w1) as [w2 Hw2].
      rewrite (bind_return _ _ _ _ _ Hw2). reflexivity.
  - rewrite (try_throw _ _ _ _ _ Hatt). unfold plan_fallback.
    destruct (addLog_opt_returns addLog
                (log_message_entry LogError
                   (toString (Error (utf16 "No content in Zenmux response"))))
                w1) as [w2 Hw2].
    rewrite (bind_return _ _ _ _ _ Hw2). reflexivity.
Qed.

(** C6 — For every JSON value J, the parser of the gateway branch makes
    the same plan of the text of J inside a "```json" block as of the
    text of J alone (or no plan of either), and the plan generator returns
    the same plan when the gateway answers with the one or with the
    other. *)
Theorem fenced_json_gives_the_same_plan :
  forall J styleInput requirementsInput,
    is_json J = true ->
    returned (parse_gateway_content (fenced (serialize J)) styleInput
                requirementsInput)
    = returned (parse_gateway_content (serialize J) styleInput
                  requirementsInput)
    /\ forall contextText slideCount urlInputs outputLanguage apiKey addLog
              w1 w2,
         (forall evs c,
            fetch_reply w1 evs c = chat_reply (fenced (serialize J))) ->
         (forall evs c, fetch_reply w2 evs c = chat_reply (serialize J)) ->
         outcome (generateSlidePlan contextText slideCount urlInputs
                    outputLanguage styleInput requirementsInput Zenmux apiKey
                    addLog) w1
         = outcome (generateSlidePlan contextText slideCount urlInputs
                      outputLanguage styleInput requirementsInput Zenmux
                      apiKey addLog) w2.
Proof.
  intros J styleInput requirementsInput HJ.
  pose proof (fenced_text_same_plan (serialize J) styleInput
                requirementsInput (scan_serialize_out J HJ)) as Hsame.
  split; [exact Hsame|].
  intros contextText slideCount urlInputs outputLanguage apiKey addLog
         w1 w2 H1 H2.
  rewrite (chat_world_outcome _ _ _ _ _ _ _ _ _ _ H1).
  rewrite (chat_world_outcome _ _ _ _ _ _ _ _ _ _ H2).
  rewrite Hsame.
  assert (Ht : truthy_string (serialize J) = true).
  { pose proof (serialize_nonempty J HJ). now destruct (serialize J). }
  rewrite Ht. reflexivity.
Qed.

Lemma fenced_json_gives_the_same_plan_witness :
  is_json model_plan = true
  /\ returned (parse_gateway_content (fenced (serialize model_plan)) None
                 (Some (utf16 "Focus on revenue")))
     = returned (parse_gateway_content (serialize model_plan) None
                   (Some (utf16 "Focus on revenue")))
  /\ forall contextText slideCount urlInputs outputLanguage apiKey addLog
            w1 w2,
       (forall evs c,
          fetch_reply w1 evs c = chat_reply (fenced (serialize model_plan))) ->
       (forall evs c,
          fetch_reply w2 evs c = chat_reply (serialize model_plan)) ->
       outcome (generateSlidePlan contextText slideCount urlInputs
                  outputLanguage None (Some (utf16 "Focus on revenue"))
                  Zenmux apiKey addLog) w1
       = outcome (generateSlidePlan contextText slideCount urlInputs
                    outputLanguage None (Some (utf16 "Focus on revenue"))
                    Zenmux apiKey addLog) w2.
Proof.
  split; [reflexivity|].
  apply (fenced_json_gives_the_same_plan model_plan None
           (Some (utf16 "Focus on revenue"))).
  reflexivity.
Defined.

(** The two texts of the model's plan, computed: the same plan, the one
    of the model with the selections emptied. *)
Example fenced_model_plan :
  parse_gateway_content (fenced (serialize model_plan)) None None
  = parse_gateway_content (serialize model_plan) None None
  /\ exists plan,
       parse_gateway_content (serialize model_plan) None None = Return plan
       /\ get_prop plan (utf16 "slides")
          = JArr [model_slide "slide-1" []; model_slide "slide-2" []] [].
Proof.
  split; [vm_compute; reflexivity|].
  eexists. split; [vm_compute; reflexivity | reflexivity].
Qed.

(** A JSON text that holds a code fence of its own gives no plan, fenced
    or not: the block ends, or starts, inside the text. *)
Example fence_inside_the_text :
  returned (parse_gateway_content (fenced (serialize plan_with_fence))
              None None) = None
  /\ returned (parse_gateway_content (serialize plan_with_fence) None None)
     = None
  /\ exists plan, JSON_parse (serialize plan_with_fence) = Some plan.
Proof.
  split; [vm_compute; reflexivity|]. split; [vm_compute; reflexivity|].
  eexists. vm_compute. reflexivity.
Qed.

(** The same in two worlds that differ only in the text of the answer. *)
Example fenced_answer_same_outcome :
  outcome (generateSlidePlan (utf16 "Acme Corp Q3 results") 2 [] En None
             (Some (utf16 "Focus on revenue")) Zenmux (utf16 "sk-test") true)
          (constant_world (chat_reply (fenced (serialize model_plan)))
                          sdk_timeout)
  = outcome (generateSlidePlan (utf16 "Acme Corp Q3 results") 2 [] En None
               (Some (utf16 "Focus on revenue")) Zenmux (utf16 "sk-test") true)
            world_model_plan.
Proof. vm_compute. reflexivity. Qed.
(* ===================================================================== *)
(** ** More about the service: requests, keys and results *)
(* ===================================================================== *)

Module ServiceFacts.

Import RuntimeFacts ImageFacts PlanFacts.

Lemma sdk_key_runs apiKey w :
  runs (getApiKey apiKey) w (Return (sdk_key apiKey w)) w [].
Proof.
  unfold runs, getApiKey, sdk_key, or_default, bind, ambient_key, ret.
  rewrite app_nil_r.
  destruct (truthy_string apiKey); [repeat split|].
  destruct (env_API_KEY w) as [k|]; [|repeat split].
  destruct (truthy_string k); repeat split.
Qed.

Lemma assign_each_others k v xs ys :
  assign_each k v xs = Return ys ->
  Forall2 (fun x y => forall k', JsString.eqb k' k = false ->
                                 get_prop y k' = get_prop x k') xs ys.
Proof.
  revert ys. induction xs as [|x xs IH]; simpl; intros ys H.
  - inversion H. constructor.
  - destruct (assign x k v) as [x'|] eqn:Ex; [|discriminate].
    destruct (assign_each k v xs) as [rest|] eqn:Er; [|discriminate].
    inversion H; subst ys. constructor; [|now apply IH].
    intros k' Hk'. eapply JsFacts.get_prop_assign_ne; eassumption.
Qed.

Lemma reset_selected_images_keeps parsed plan :
  reset_selected_images parsed = Return plan ->
  exists slides0 slides1 props,
    get_prop parsed (utf16 "slides") = JArr slides0 props
    /\ get_prop plan (utf16 "slides") = JArr slides1 props
    /\ Forall2 (fun s0 s1 =>
                  forall k, JsString.eqb k (utf16 "selectedImageIds") = false ->
                            get_prop s1 k = get_prop s0 k) slides0 slides1.
Proof.
  unfold reset_selected_images.
  destruct (get_prop parsed (utf16 "slides")) as [| | | | |elems props|];
    try discriminate.
  destruct (get_own (utf16 "forEach") props); [discriminate|].
  destruct (assign_each (utf16 "selectedImageIds") (JArr [] []) elems)
    as [elems'|] eqn:He; [|discriminate].
  intros H. exists elems, elems', props. split; [reflexivity|]. split.
  - eapply JsFacts.get_prop_assign_eq; eassumption.
  - eapply assign_each_others; eassumption.
Qed.

(** The three assignments of the post-processing, one after the other. *)
Lemma postprocessed_keeps parsed parsed1 parsed2 plan s r :
  assign parsed (utf16 "style") s = Return parsed1 ->
  assign parsed1 (utf16 "requirements") r = Return parsed2 ->
  reset_selected_images parsed2 = Return plan ->
  (forall k,
      JsString.eqb k (utf16 "style") = false ->
      JsString.eqb k (utf16 "requirements") = false ->
      JsString.eqb k (utf16 "slides") = false ->
      get_prop plan k = get_prop parsed k)
  /\ exists slides0 slides1 props,
       get_prop parsed (utf16 "slides") = JArr slides0 props
       /\ get_prop plan (utf16 "slides") = JArr slides1 props
       /\ Forall2 (fun s0 s1 =>
                     forall k,
                       JsString.eqb k (utf16 "selectedImageIds") = false ->
                       get_prop s1 k = get_prop s0 k) slides0 slides1.
Proof.
  intros H1 H2 H3. split.
  - intros k Ks Kr Kl.
    rewrite (reset_selected_images_other _ _ k Kl H3).
    rewrite (JsFacts.get_prop_assign_ne _ _ k _ _ Kr H2).
    apply (JsFacts.get_prop_assign_ne _ _ k _ _ Ks H1).
  - destruct (reset_selected_images_keeps _ _ H3)
      as (slides0 & slides1 & props & Hs0 & Hs1 & Hall).
    exists slides0, slides1, props. split; [|auto].
    rewrite <- Hs0.
    rewrite (JsFacts.get_prop_assign_ne parsed1 (utf16 "requirements")
               (utf16 "slides") _ _ eq_refl H2).
    rewrite (JsFacts.get_prop_assign_ne parsed (utf16 "style")
               (utf16 "slides") _ _ eq_refl H1).
    reflexivity.
Qed.

(** Cutting at a single code unit. *)
Lemma before_unit c h p : ~ In c h -> before [c] (h ++ c :: p) = h.
Proof.
  induction h as [|a h IH]; intros Hn; simpl.
  - now rewrite N.eqb_refl.
  - destruct (c =? a) eqn:E.
    + apply N.eqb_eq in E. subst a. exfalso. apply Hn. now left.
    + simpl. f_equal. apply IH. intros Hin. apply Hn. now right.
Qed.

Lemma after_unit c h p : ~ In c h -> after [c] (h ++ c :: p) = p.
Proof.
  induction h as [|a h IH]; intros Hn; simpl.
  - now rewrite N.eqb_refl.
  - destruct (c =? a) eqn:E.
    + apply N.eqb_eq in E. subst a. exfalso. apply Hn. now left.
    + simpl. apply IH. intros Hin. apply Hn. now right.
Qed.

Lemma includes_unit c s : includes [c] s = true <-> In c s.
Proof.
  induction s as [|a s IH]; simpl.
  - split; [discriminate | contradiction].
  - rewrite orb_true_iff, IH, andb_true_r, N.eqb_eq. intuition.
Qed.

Lemma includes_unit_free c s : ~ In c s -> includes [c] s = false.
Proof.
  intros Hn. destruct (includes [c] s) eqn:E; [|reflexivity].
  apply includes_unit in E. contradiction.
Qed.

Lemma before_unit_free c s : ~ In c s -> before [c] s = s.
Proof.
  intros Hn. apply CutFacts.before_none. now apply includes_unit_free.
Qed.

(** [url.split(',')[1]] of a data URL is its payload. *)
Lemma data_url_payload header payload :
  comma_free header -> comma_free payload ->
  nth_error (split (utf16 ",") (data_url header payload)) 1 = Some payload.
Proof.
  intros Hh Hp. unfold data_url.
  change (utf16 ",") with [44]. change ([44] ++ payload) with (44 :: payload).
  assert (Hin : includes [44] (header ++ 44 :: payload) = true).
  { apply includes_unit. apply in_or_app. right. now left. }
  pose proof (CutFacts.split_item_1 [44] _ Hin) as H.
  unfold item in H.
  destruct (nth_error (split [44] (header ++ 44 :: payload)) 1) as [x|];
    [|discriminate].
  inversion H. rewrite after_unit by exact Hh.
  now rewrite before_unit_free.
Qed.

Lemma no_comma_no_payload s :
  comma_free s -> nth_error (split (utf16 ",") s) 1 = None.
Proof.
  intros Hs. change (utf16 ",") with [44]. unfold split. cbn [split_rounds].
  now rewrite includes_unit_free.
Qed.

(** The plan generator runs, and sends one request. *)
Lemma generateSlidePlan_runs contextText slideCount urlInputs outputLanguage
  styleInput requirementsInput provider apiKey addLog w :
  exists r w' evs,
    runs (generateSlidePlan contextText slideCount urlInputs outputLanguage
            styleInput requirementsInput provider apiKey addLog) w r w' evs
    /\ provider_calls evs
       = [plan_call {| pp_contextText := contextText;
                       pp_urlInputs := urlInputs;
                       pp_slideCount := slideCount;
                       pp_outputLanguage := outputLanguage;
                       pp_styleInput := styleInput;
                       pp_requirementsInput := requirementsInput |}
                    provider apiKey w]
    /\ forallb service_event evs = true.
Proof.
  unfold generateSlidePlan, plan_call.
  set (prompt := {| pp_contextText := contextText |}).
  destruct provider.
  - (* the SDK *)
    pose proof (sdk_key_runs apiKey w) as Hkey.
    set (key := sdk_key apiKey w) in *.
    assert (exists r w' evs,
               runs (try_catch (google_plan_attempt prompt key addLog)
                               (plan_fallback prompt addLog)) w r w' evs
               /\ provider_calls evs
                  = [SdkPlan key (utf16 "gemini-2.5-flash") prompt]
               /\ forallb service_event evs = true)
      as (r & w' & evs & Hr & Hc).
    { unfold runs, google_plan_attempt, plan_fallback.
      unfold bind, try_catch, generateContent, throw, ret, emit, lift.
      generalize (createFallbackPlan (pp_slideCount prompt)
                    (pp_outputLanguage prompt) (pp_styleInput prompt)).
      intros fb.
      destruct addLog; simpl;
        repeat (match goal with
                | |- context [sdk_reply ?w0 ?t ?c] =>
                    destruct (sdk_reply w0 t c) as [?|?]
                | |- context [text ?r] => destruct (text r) as [?|]
                | |- context [truthy_string ?t] => destruct (truthy_string t)
                | |- context [google_postprocess ?a ?b ?c] =>
                    destruct (google_postprocess a b c)
                end; simpl);
        do 3 eexists; (split; [ImageFacts.close_runs|]); split; reflexivity. }
    exists r, w', evs. split; [|exact Hc].
    apply (RuntimeFacts.runs_bind_return _ _ _ _ _ _ _ _ _ Hkey Hr).
  - (* the gateway *)
    unfold runs, zenmux_plan_attempt, plan_fallback.
    unfold bind, try_catch, fetch, json, throw, ret, emit, lift.
    generalize (createFallbackPlan (pp_slideCount prompt)
                  (pp_outputLanguage prompt) (pp_styleInput prompt)).
    intros fb.
    destruct addLog; simpl;
      repeat (match goal with
              | |- context [fetch_reply ?w0 ?t ?c] =>
                  destruct (fetch_reply w0 t c) as [?|[|] [?|?]]
              | |- context [content ?r] => destruct (content r) as [?|]
              | |- context [truthy_string ?t] => destruct (truthy_string t)
              | |- context [parse_gateway_content ?a ?b ?c] =>
                  destruct (parse_gateway_content a b c)
              end; simpl);
      do 3 eexists; (split; [ImageFacts.close_runs|]); split; reflexivity.
Qed.


(** The rendering on the gateway, from the reply. *)
Lemma gateway_render_outcome slide style imgs apiKey addLog w :
  outcome (generateFinalSlideImage slide style imgs Zenmux apiKey addLog) w
  = match gateway_image_reply (build_parts slide style imgs) apiKey addLog w
    with
    | FetchRejects e => Throw e
    | FetchResolves _ (JsonRejects e) => Throw e
    | FetchResolves false (JsonData d) =>
        Throw (Error (or_default (error_message d)
                                 (utf16 "Zenmux Image API Error")))
    | FetchResolves true (JsonData d) =>
        if truthy_string (zenmux_image_data d)
        then Return (data_uri_prefix ++ zenmux_image_data d)
        else Throw (Error (utf16 "No image data found in Zenmux response"))
    end.
Proof.
  unfold generateFinalSlideImage, gateway_image_reply, outcome, world_after.
  set (parts := build_parts slide style imgs).
  destruct (addLog_opt_returns addLog (log_request_entry image_url) w)
    as [w0 Hw0].
  rewrite (bind_return _ _ _ _ _ Hw0). rewrite Hw0. cbn [snd].
  unfold zenmux_image_attempt.
  unfold bind, try_catch, fetch, json, throw, ret, emit.
  destruct (fetch_reply w0 (trace w0) _) as [e|ok [e|d]]; cbn [fst snd].
  - destruct addLog; reflexivity.
  - destruct addLog, ok; reflexivity.
  - destruct addLog, ok; cbn [fst snd negb addLog_opt emit ret];
      try reflexivity;
      destruct (truthy_string (zenmux_image_data d)); reflexivity.
Qed.

(** The primary attempt on the SDK, from the reply. *)
Lemma primary_attempt_outcome slide style imgs apiKey addLog w :
  image_attempt_outcome slide style imgs Google apiKey addLog w
  = match primary_reply (build_parts slide style imgs) apiKey addLog w with
    | SdkRejects e => Throw e
    | SdkResolves r =>
        match first_inline_part (parts_or_empty (sdk_parts r)) with
        | Some payload => Return (data_uri_prefix ++ payload)
        | None => Throw (Error (utf16 "No image data found in response"))
        end
    end.
Proof.
  unfold image_attempt_outcome, primary_reply, outcome, world_after.
  set (parts := build_parts slide style imgs).
  rewrite (bind_return _ _ _ _ _ (proj1 (sdk_key_runs apiKey w))).
  unfold google_image_attempt.
  destruct (addLog_opt_returns addLog
              (log_message_entry LogRequest
                 (utf16 "Calling Google Gemini 3 Pro")) w) as [w0 Hw0].
  rewrite (bind_return _ _ _ _ _ Hw0). rewrite Hw0. cbn [snd].
  unfold bind, generateContent, throw, ret, emit.
  destruct (sdk_reply w0 (trace w0) _) as [e|r]; cbn [fst snd];
    [reflexivity|].
  destruct addLog; cbn [addLog_opt emit ret fst snd];
    destruct (first_inline_part _); reflexivity.
Qed.

(** A primary attempt that gives an image ends the rendering. *)
Lemma primary_image_is_returned slide style imgs apiKey addLog w url :
  image_attempt_outcome slide style imgs Google apiKey addLog w = Return url ->
  outcome (generateFinalSlideImage slide style imgs Google apiKey addLog) w
  = Return url.
Proof.
  unfold image_attempt_outcome, generateFinalSlideImage, outcome.
  set (parts := build_parts slide style imgs).
  rewrite !(bind_return _ _ _ _ _ (proj1 (sdk_key_runs apiKey w))).
  unfold try_catch.
  destruct (google_image_attempt parts _ addLog w) as [[u|e0] w1];
    cbn [fst snd]; [auto|discriminate].
Qed.

(** A primary failure that the secondary model is not tried for comes
    out as it is. *)
Lemma primary_failure_is_thrown slide style imgs apiKey addLog w e :
  image_attempt_outcome slide style imgs Google apiKey addLog w = Throw e ->
  fallback_eligible (errorMsg e) = false ->
  outcome (generateFinalSlideImage slide style imgs Google apiKey addLog) w
  = Throw e.
Proof.
  unfold image_attempt_outcome, generateFinalSlideImage, outcome.
  set (parts := build_parts slide style imgs).
  rewrite !(bind_return _ _ _ _ _ (proj1 (sdk_key_runs apiKey w))).
  unfold try_catch.
  destruct (google_image_attempt parts _ addLog w) as [[u|e0] w1];
    cbn [fst snd]; [discriminate|].
  intros H; inversion H; subst e0; clear H. intros Hel.
  unfold google_image_recover. rewrite Hel.
  unfold bind, throw. 
  match goal with
  | |- context [addLog_opt addLog ?entry ?w0] =>
      destruct (addLog_opt_returns addLog entry w0) as [w2 Hw2]; rewrite Hw2
  end.
  reflexivity.
Qed.

(** After a primary failure that the secondary model is tried for, the
    reply to the secondary request decides. *)
Lemma secondary_decides slide style imgs apiKey addLog w e :
  image_attempt_outcome slide style imgs Google apiKey addLog w = Throw e ->
  fallback_eligible (errorMsg e) = true ->
  outcome (generateFinalSlideImage slide style imgs Google apiKey addLog) w
  = match secondary_reply (build_parts slide style imgs) apiKey addLog e w
    with
    | SdkRejects fallbackError => Throw fallbackError
    | SdkResolves r =>
        match first_inline_part (parts_or_empty (sdk_parts r)) with
        | Some payload => Return (data_uri_prefix ++ payload)
        | None => Throw e
        end
    end.
Proof.
  unfold image_attempt_outcome, generateFinalSlideImage, secondary_reply,
    world_of_secondary, secondary_call.
  set (parts := build_parts slide style imgs).
  unfold outcome, world_after.
  rewrite !(bind_return _ _ _ _ _ (proj1 (sdk_key_runs apiKey w))).
  set (key := sdk_key apiKey w).
  unfold try_catch.
  destruct (google_image_attempt parts key addLog w) as [[url|e0] w1] eqn:Ha;
    cbn [fst snd]; [discriminate|].
  intros H; inversion H; subst e0; clear H. intros Hel.
  unfold google_image_recover. rewrite Hel.
  set (entry := log_message_entry LogError
                  (utf16 "Primary model failed: " ++ toString e)).
  destruct (addLog_opt_returns addLog entry w1) as [w2 Hw2].
  unfold bind at 1. rewrite Hw2. cbn [snd].
  unfold bind, try_catch, generateContent, throw, ret, emit.
  destruct (sdk_reply w2 (trace w2) _) as [e2|r]; cbn [fst snd].
  - destruct addLog; reflexivity.
  - destruct (first_inline_part _); reflexivity.
Qed.

(** The primary attempt throws the error of the reply. *)
Lemma primary_failure_outcome slide style imgs apiKey addLog w e :
  primary_failure
    (primary_reply (build_parts slide style imgs) apiKey addLog w) = Some e
  <-> image_attempt_outcome slide style imgs Google apiKey addLog w = Throw e.
Proof.
  rewrite primary_attempt_outcome. unfold primary_failure.
  destruct (primary_reply _ apiKey addLog w) as [e1|r].
  - split; intros H; inversion H; reflexivity.
  - destruct (first_inline_part _); split; intros H; inversion H;
      reflexivity.
Qed.

End ServiceFacts.

(** X1 — A plan generation sends exactly one request, whatever comes
    back: to the gateway with the caller's key, or to the SDK with the
    caller's key when it is not empty and the ambient key otherwise.  No
    failure is retried. *)
Theorem plan_generation_sends_one_request :
  forall contextText slideCount urlInputs outputLanguage styleInput
         requirementsInput provider apiKey addLog w,
    exists r w' evs,
      runs (generateSlidePlan contextText slideCount urlInputs outputLanguage
              styleInput requirementsInput provider apiKey addLog) w r w' evs
      /\ provider_calls evs
         = [plan_call {| pp_contextText := contextText;
                         pp_urlInputs := urlInputs;
                         pp_slideCount := slideCount;
                         pp_outputLanguage := outputLanguage;
                         pp_styleInput := styleInput;
                         pp_requirementsInput := requirementsInput |}
                      provider apiKey w].
Proof.
  intros contextText slideCount urlInputs outputLanguage styleInput
         requirementsInput provider apiKey addLog w.
  destruct (ServiceFacts.generateSlidePlan_runs contextText slideCount
              urlInputs outputLanguage styleInput requirementsInput provider
              apiKey addLog w) as (r & w' & evs & Hr & Hc & _).
  exists r, w', evs. split; assumption.
Qed.

(** X2 — What the post-processing of a model's answer changes.  When the
    answer parses and the post-processing of either provider path goes
    through, the plan has the caller's style and requirements (whatever
    the model sent for them), every other field of the model's object is
    as the model sent it, and the slides are the model's slides, in
    order, each with every field but [selectedImageIds] unchanged. *)
Theorem postprocessing_keeps_the_model_content :
  forall text styleInput requirementsInput parsed plan,
    JSON_parse text = Some parsed ->
    (google_postprocess text styleInput requirementsInput = Return plan
     \/ zenmux_postprocess text styleInput requirementsInput = Return plan) ->
    get_prop plan (utf16 "style") = of_option styleInput
    /\ get_prop plan (utf16 "requirements") = of_option requirementsInput
    /\ (forall k,
          JsString.eqb k (utf16 "style") = false ->
          JsString.eqb k (utf16 "requirements") = false ->
          JsString.eqb k (utf16 "slides") = false ->
          get_prop plan k = get_prop parsed k)
    /\ exists slides0 slides1 props,
         get_prop parsed (utf16 "slides") = JArr slides0 props
         /\ get_prop plan (utf16 "slides") = JArr slides1 props
         /\ Forall2 (fun s0 s1 =>
                       forall k,
                         JsString.eqb k (utf16 "selectedImageIds") = false ->
                         get_prop s1 k = get_prop s0 k) slides0 slides1.
Proof.
  intros text styleInput requirementsInput parsed plan Hparse Hpost.
  assert (exists parsed1 parsed2,
             assign parsed (utf16 "style") (of_option styleInput)
             = Return parsed1
             /\ assign parsed1 (utf16 "requirements")
                       (of_option requirementsInput) = Return parsed2
             /\ reset_selected_images parsed2 = Return plan)
    as (parsed1 & parsed2 & H1 & H2 & H3).
  { destruct Hpost as [H|H]; revert H;
      unfold google_postprocess, zenmux_postprocess, bindC, parse;
      rewrite Hparse;
      destruct (assign parsed _ _) as [p1|] eqn:E1; try discriminate;
      destruct (assign p1 _ _) as [p2|] eqn:E2; try discriminate.
    - intros H. exists p1, p2. auto.
    - destruct (negb _); [discriminate|]. intros H. exists p1, p2. auto. }
  assert (Hpp : postprocessed styleInput requirementsInput plan)
    by (exists parsed, parsed1, parsed2; auto).
  destruct (PlanFacts.postprocessed_fields _ _ _ Hpp) as (Hs & Hr & _).
  split; [exact Hs|]. split; [exact Hr|].
  eapply ServiceFacts.postprocessed_keeps; eassumption.
Qed.

Lemma postprocessing_keeps_the_model_content_witness :
  exists plan,
    google_postprocess (serialize model_plan) None
      (Some (utf16 "Focus on revenue")) = Return plan
    /\ get_prop plan (utf16 "requirements") = JStr (utf16 "Focus on revenue")
    /\ get_prop plan (utf16 "topic") = get_prop model_plan (utf16 "topic").
Proof.
  eexists. split; [vm_compute; reflexivity|].
  destruct (postprocessing_keeps_the_model_content
              (serialize model_plan) None (Some (utf16 "Focus on revenue"))
              model_plan _ eq_refl (or_introl eq_refl))
    as (_ & Hr & Hk & _).
  split; [exact Hr|]. apply Hk; reflexivity.
Defined.

(** X3 — A rendering returns an image exactly when the reply of the
    provider holds one, and what it returns is then the PNG data URL of
    that image: the text "data:image/png;base64," followed by the data
    the provider sent.  On the gateway the data are those of a response
    with a success status, and they are not empty.  On the SDK they are
    the inline data of the reply to the primary request, or, after a
    primary failure for which the secondary model is tried, the inline
    data of the reply to the secondary request. *)
Theorem rendered_image_is_a_png_data_url :
  forall slide style imgs provider apiKey addLog w url,
    outcome (generateFinalSlideImage slide style imgs provider apiKey addLog) w
    = Return url
    <-> exists payload,
          url = data_uri_prefix ++ payload
          /\ match provider with
             | Zenmux =>
                 payload <> []
                 /\ exists d,
                      gateway_image_reply (build_parts slide style imgs)
                        apiKey addLog w
                      = FetchResolves true (JsonData d)
                      /\ zenmux_image_data d = payload
             | Google =>
                 (exists r,
                     primary_reply (build_parts slide style imgs) apiKey
                       addLog w = SdkResolves r
                     /\ first_inline_part (parts_or_empty (sdk_parts r))
                        = Some payload)
                 \/ (exists e r,
                        primary_failure
                          (primary_reply (build_parts slide style imgs)
                             apiKey addLog w) = Some e
                        /\ fallback_eligible (errorMsg e) = true
                        /\ secondary_reply (build_parts slide style imgs)
                             apiKey addLog e w = SdkResolves r
                        /\ first_inline_part (parts_or_empty (sdk_parts r))
                           = Some payload)
             end.
Proof.
  intros slide style imgs provider apiKey addLog w url.
  destruct provider.
  - (* the SDK *)
    pose proof (ServiceFacts.primary_attempt_outcome slide style imgs apiKey
                  addLog w) as Hprimary.
    pose proof (ServiceFacts.primary_failure_outcome slide style imgs apiKey
                  addLog w) as Hfailure.
    setoid_rewrite Hfailure.
    destruct (image_attempt_outcome slide style imgs Google apiKey addLog w)
      as [url0|e] eqn:Ha.
    + (* the primary request gave an image *)
      rewrite (ServiceFacts.primary_image_is_returned _ _ _ _ _ _ _ Ha).
      destruct (primary_reply _ apiKey addLog w) as [e1|r]; [discriminate|].
      destruct (first_inline_part (parts_or_empty (sdk_parts r)))
        as [payload|] eqn:Hpart; [|discriminate].
      inversion Hprimary; subst url0. split.
      * intros H; inversion H; subst url. exists payload.
        split; [reflexivity|]. left. exists r. auto.
      * intros (payload' & -> & [(r' & Hr' & Hpart')|(e & r' & He & _)]);
          [|discriminate].
        inversion Hr'; subst r'. rewrite Hpart in Hpart'.
        inversion Hpart'. reflexivity.
    + (* the primary request failed *)
      assert (forall payload,
                 ~ exists r,
                     primary_reply (build_parts slide style imgs) apiKey
                       addLog w = SdkResolves r
                     /\ first_inline_part (parts_or_empty (sdk_parts r))
                        = Some payload) as Hnot.
      { intros payload (r & Hr & Hpart). rewrite Hr, Hpart in Hprimary.
        discriminate. }
      destruct (fallback_eligible (errorMsg e)) eqn:Hel.
      * rewrite (ServiceFacts.secondary_decides _ _ _ _ _ _ _ Ha Hel).
        destruct (secondary_reply _ apiKey addLog e w) as [e2|r] eqn:Hs.
        -- split; [discriminate|].
           intros (payload & _ & [H|(e' & r' & He' & _ & Hs' & _)]);
             [now apply Hnot in H|].
           inversion He'; subst e'. rewrite Hs in Hs'. discriminate.
        -- destruct (first_inline_part (parts_or_empty (sdk_parts r)))
             as [payload|] eqn:Hpart.
           ++ split.
              ** intros H; inversion H; subst url. exists payload.
                 split; [reflexivity|]. right. exists e, r. auto.
              ** intros (payload' & -> & [H|(e' & r' & He' & _ & Hs' & Hp')]);
                   [now apply Hnot in H|].
                 inversion He'; subst e'. rewrite Hs in Hs'.
                 inversion Hs'; subst r'. rewrite Hpart in Hp'.
                 inversion Hp'. reflexivity.
           ++ split; [discriminate|].
              intros (payload & _ & [H|(e' & r' & He' & _ & Hs' & Hp')]);
                [now apply Hnot in H|].
              inversion He'; subst e'. rewrite Hs in Hs'.
              inversion Hs'; subst r'. rewrite Hpart in Hp'. discriminate.
      * rewrite (ServiceFacts.primary_failure_is_thrown _ _ _ _ _ _ _ Ha Hel).
        split; [discriminate|].
        intros (payload & _ & [H|(e' & r' & He' & Hel' & _)]);
          [now apply Hnot in H|].
        inversion He'; subst e'. rewrite Hel in Hel'. discriminate.
  - (* the gateway *)
    rewrite ServiceFacts.gateway_render_outcome.
    destruct (gateway_image_reply _ apiKey addLog w) as [e|ok [e|d]].
    + split; [discriminate|]. intros (p & _ & _ & d & Hd & _). discriminate.
    + split; [destruct ok; discriminate|].
      intros (p & _ & _ & d & Hd & _). discriminate.
    + destruct ok.
      * destruct (zenmux_image_data d) as [|c b64] eqn:Hdata; cbn [truthy_string].
        -- split; [discriminate|].
           intros (p & _ & Hp & d' & Hd' & Hdata').
           inversion Hd'; subst d'. rewrite Hdata in Hdata'. now subst p.
        -- split.
           ++ intros H; inversion H; subst url. exists (c :: b64).
              split; [reflexivity|]. split; [discriminate|]. exists d. auto.
           ++ intros (p & -> & _ & d' & Hd' & Hdata').
              inversion Hd'; subst d'. rewrite Hdata in Hdata'. now subst p.
      * split; [discriminate|]. intros (p & _ & _ & d' & Hd' & _).
        discriminate.
Qed.

Lemma rendered_image_is_a_png_data_url_witness :
  outcome (generateFinalSlideImage slide_A [] None Zenmux (utf16 "sk-test")
             true) world_renders_all
  = Return (data_uri_prefix ++ utf16 "iVBORw0KGgo=").
Proof.
  apply (proj2 (rendered_image_is_a_png_data_url slide_A [] None Zenmux
                  (utf16 "sk-test") true world_renders_all
                  (data_uri_prefix ++ utf16 "iVBORw0KGgo="))).
  exists (utf16 "iVBORw0KGgo="). split; [reflexivity|].
  split; [discriminate|]. eexists. split; reflexivity.
Defined.

(** X4 — How a rendering on the SDK path ends after a primary failure
    that is eligible for the fallback.  If the secondary request is
    rejected, the error of the secondary request comes out, not the first
    one; if it is answered with an image, that image comes out; if it is
    answered without an image, the error of the primary attempt comes
    out. *)
Theorem sdk_fallback_decides_the_result :
  forall slide style imgs apiKey addLog w e,
    image_attempt_outcome slide style imgs Google apiKey addLog w = Throw e ->
    fallback_eligible (errorMsg e) = true ->
    outcome (generateFinalSlideImage slide style imgs Google apiKey addLog) w
    = match secondary_reply (build_parts slide style imgs) apiKey addLog e w
      with
      | SdkRejects fallbackError => Throw fallbackError
      | SdkResolves r =>
          match first_inline_part (parts_or_empty (sdk_parts r)) with
          | Some payload => Return (data_uri_prefix ++ payload)
          | None => Throw e
          end
      end.
Proof.
  intros slide style imgs apiKey addLog w e.
  apply ServiceFacts.secondary_decides.
Qed.

Lemma sdk_fallback_decides_the_result_witness :
  outcome (generateFinalSlideImage slide_A [] None Google [] true)
          (world_primary_403 (inline_image "iVBORw0KGgo="))
  = Return (data_uri_prefix ++ utf16 "iVBORw0KGgo=").
Proof.
  rewrite (sdk_fallback_decides_the_result slide_A [] None [] true
             (world_primary_403 (inline_image "iVBORw0KGgo="))
             (Error (utf16 "403 Forbidden")));
    vm_compute; reflexivity.
Defined.

(** X5 — Where the gateway path takes the image from: the field
    [imageBase64] when it is a non-empty string, and otherwise the data of
    the first part of the first candidate that has non-empty inline data
    (the separate look at the very first part changes nothing). *)
Theorem gateway_image_lookup_order :
  forall d,
    zenmux_image_data d
    = if option_truthy (imageBase64 d) then or_default (imageBase64 d) []
      else first_inline_data (parts_or_empty (candidate_parts d)).
Proof.
  intros d. unfold zenmux_image_data.
  destruct (option_truthy (imageBase64 d)); [reflexivity|].
  destruct (candidate_parts d) as [[|p parts]|]; try reflexivity.
  simpl. destruct (inlineData p) as [i|]; [|reflexivity].
  destruct (option_truthy (data i)); reflexivity.
Qed.

(** X6 — The parts of an image request: one part per reference image, in
    order, then the text prompt, which counts the images.  A reference
    image given as a data URL is sent as its payload, the header and the
    comma cut off, and always declared as "image/jpeg"; a text without a
    comma is sent with no data at all. *)
Theorem reference_images_are_sent_without_header :
  forall slide style,
    (forall urls : list (jsstring * jsstring),
        Forall (fun hp => comma_free (fst hp) /\ comma_free (snd hp)) urls ->
        build_parts slide style
          (Some (map (fun hp => data_url (fst hp) (snd hp)) urls))
        = map (fun hp => InlineData (utf16 "image/jpeg") (Some (snd hp))) urls
          ++ [Text (text_prompt slide style (length urls))])
    /\ (forall s,
           comma_free s ->
           build_parts slide style (Some [s])
           = [InlineData (utf16 "image/jpeg") None;
              Text (text_prompt slide style 1)]).
Proof.
  intros slide style. split.
  - intros urls Hall. unfold build_parts, text_prompt.
    rewrite length_map, map_map. f_equal.
    apply map_ext_in. intros [h p] Hin.
    rewrite Forall_forall in Hall. destruct (Hall _ Hin) as [Hh Hp].
    simpl in *. f_equal. now apply ServiceFacts.data_url_payload.
  - intros s Hs. unfold build_parts, text_prompt. cbn [map app length].
    now rewrite (ServiceFacts.no_comma_no_payload s Hs).
Qed.

Lemma reference_images_are_sent_without_header_witness :
  build_parts slide_A []
    (Some [data_url (utf16 "data:image/png;base64") (utf16 "iVBORw0KGgo=")])
  = [InlineData (utf16 "image/jpeg") (Some (utf16 "iVBORw0KGgo="));
     Text (text_prompt slide_A [] 1)].
Proof.
  apply (proj1 (reference_images_are_sent_without_header slide_A [])
           [(utf16 "data:image/png;base64", utf16 "iVBORw0KGgo=")]).
  repeat constructor; unfold comma_free; simpl; intuition discriminate.
Defined.

(** X7 — Every request of a rendering carries the same key and the same
    parts.  On the gateway the key is the caller's, as it is; on the SDK
    path it is the caller's when that is not empty and the ambient key
    otherwise.  The request to the secondary model repeats the parts of
    the first. *)
Theorem render_requests_carry_one_key :
  forall slide style imgs provider apiKey addLog w,
    exists r w' evs,
      runs (generateFinalSlideImage slide style imgs provider apiKey addLog) w
           r w' evs
      /\ Forall (fun c =>
                   call_key c = match provider with
                                | Zenmux => apiKey
                                | Google => sdk_key apiKey w
                                end
                   /\ call_parts c = build_parts slide style imgs)
                (provider_calls evs).
Proof.
  intros slide style imgs provider apiKey addLog w. destruct provider.
  - unfold generateFinalSlideImage.
    set (parts := build_parts slide style imgs).
    pose proof (ServiceFacts.sdk_key_runs apiKey w) as Hkey.
    destruct (ImageFacts.google_image_core parts (sdk_key apiKey w) addLog w)
      as (r & w' & evs & Hr & _ & Hc).
    exists r, w', evs. split.
    + apply (RuntimeFacts.runs_bind_return _ _ _ _ _ _ _ _ _ Hkey Hr).
    + destruct (outcome _ w) as [url|e].
      * destruct Hc as [_ ->]. repeat constructor.
      * destruct (fallback_eligible (errorMsg e));
          [|destruct Hc as [_ Hc]]; rewrite Hc; repeat constructor.
  - destruct (ImageFacts.zenmux_image_spec slide style imgs apiKey addLog w)
      as (w' & evs & Hr & Hc & _).
    do 3 eexists. split; [exact Hr|]. rewrite Hc. repeat constructor.
Qed.

(* ===================================================================== *)
(** ** The plan generator, from the provider's reply *)
(* ===================================================================== *)

Module AnswerFacts.
Import JsFacts RuntimeFacts PlanFacts ServiceFacts.

Lemma assign_object o k v :
  is_object o = true ->
  exists o', assign o k v = Return o' /\ is_object o' = true.
Proof.
  destruct o; try discriminate; intros _; eexists; split; reflexivity.
Qed.

Lemma assign_primitive o k v :
  is_object o = false -> assign o k v = Throw TypeError.
Proof. destruct o; try discriminate; reflexivity. Qed.

Lemma assign_each_objects k v xs :
  forallb is_object xs = true -> exists ys, assign_each k v xs = Return ys.
Proof.
  induction xs as [|x xs IH]; simpl; intros H.
  - eexists; reflexivity.
  - apply andb_true_iff in H. destruct H as [Hx Hxs].
    destruct (assign_object x k v Hx) as (x' & -> & _).
    destruct (IH Hxs) as [ys ->]. eexists; reflexivity.
Qed.

Lemma assign_each_primitive k v xs :
  forallb is_object xs = false -> assign_each k v xs = Throw TypeError.
Proof.
  induction xs as [|x xs IH]; simpl; intros H; [discriminate|].
  destruct (is_object x) eqn:Hx.
  - destruct (assign_object x k v Hx) as (x' & -> & _).
    simpl in H. now rewrite (IH H).
  - now rewrite (assign_primitive x k v Hx).
Qed.

(** Writing the style and the requirements leaves the slides alone. *)
Lemma slides_after_assign v s r p1 p2 :
  assign v (utf16 "style") s = Return p1 ->
  assign p1 (utf16 "requirements") r = Return p2 ->
  get_prop p2 (utf16 "slides") = get_prop v (utf16 "slides")
  /\ is_object p2 = true.
Proof.
  intros H1 H2. split.
  - rewrite (get_prop_assign_ne p1 (utf16 "requirements") (utf16 "slides") _ _
               eq_refl H2).
    apply (get_prop_assign_ne v (utf16 "style") (utf16 "slides") _ _
             eq_refl H1).
  - revert H2. unfold assign, set_prop.
    destruct p1; try discriminate; intros H; inversion H; reflexivity.
Qed.

(** A valid plan goes through the post-processing of either path. *)
Lemma valid_plan_taken v s r :
  valid_plan v = true ->
  exists p1 p2 plan,
    assign v (utf16 "style") s = Return p1
    /\ assign p1 (utf16 "requirements") r = Return p2
    /\ truthy (get_prop p2 (utf16 "slides")) = true
    /\ reset_selected_images p2 = Return plan.
Proof.
  unfold valid_plan. intros H. apply andb_true_iff in H.
  destruct H as [Hobj Hslides].
  destruct (assign_object v (utf16 "style") s Hobj) as (p1 & H1 & Hobj1).
  destruct (assign_object p1 (utf16 "requirements") r Hobj1)
    as (p2 & H2 & Hobj2).
  destruct (slides_after_assign _ _ _ _ _ H1 H2) as [Hsame _].
  exists p1, p2. unfold reset_selected_images. rewrite Hsame.
  destruct (get_prop v (utf16 "slides")) as [| | | | |elems props|];
    try discriminate.
  apply andb_true_iff in Hslides. destruct Hslides as [Helems Heach].
  destruct (get_own (utf16 "forEach") props); [discriminate|].
  destruct (assign_each_objects (utf16 "selectedImageIds") (JArr [] []) elems
              Helems) as [elems' ->].
  destruct (assign_object p2 (utf16 "slides") (JArr elems' props) Hobj2)
    as (plan & H3 & _).
  exists plan. auto.
Qed.

(** Anything else stops the post-processing of either path. *)
Lemma invalid_plan_refused v s r :
  valid_plan v = false ->
  match assign v (utf16 "style") s with
  | Return p1 =>
      match assign p1 (utf16 "requirements") r with
      | Return p2 => exists e, reset_selected_images p2 = Throw e
      | Throw _ => True
      end
  | Throw _ => True
  end.
Proof.
  unfold valid_plan. intros H.
  destruct (assign v (utf16 "style") s) as [p1|] eqn:H1; [|exact I].
  destruct (assign p1 (utf16 "requirements") r) as [p2|] eqn:H2; [|exact I].
  destruct (slides_after_assign _ _ _ _ _ H1 H2) as [Hsame _].
  assert (is_object v = true) as Hobj.
  { revert H1. unfold assign, set_prop. destruct v; try discriminate;
      reflexivity. }
  rewrite Hobj in H. simpl in H.
  unfold reset_selected_images. rewrite Hsame.
  destruct (get_prop v (utf16 "slides")) as [| | | | |elems props|];
    try (eexists; reflexivity).
  destruct (get_own (utf16 "forEach") props); [eexists; reflexivity|].
  rewrite andb_true_r in H.
  rewrite (assign_each_primitive _ _ _ H). eexists; reflexivity.
Qed.

(** What the post-processing of the SDK path makes of a text. *)
Lemma google_postprocess_reads text s r :
  match read_answer text with
  | inl _ => exists e, google_postprocess text s r = Throw e
  | inr v =>
      exists plan, google_postprocess text s r = Return plan
                   /\ taken_from v s r plan
  end.
Proof.
  unfold read_answer, google_postprocess, parse.
  destruct (JSON_parse text) as [v|]; [|eexists; reflexivity].
  destruct (valid_plan v) eqn:Hv.
  - destruct (valid_plan_taken v (of_option s) (of_option r) Hv)
      as (p1 & p2 & plan & H1 & H2 & _ & H3).
    exists plan. simpl. rewrite H1. simpl. rewrite H2. simpl.
    split; [exact H3|]. exists p1, p2. auto.
  - pose proof (invalid_plan_refused v (of_option s) (of_option r) Hv) as H.
    simpl. destruct (assign v _ _) as [p1|]; simpl; [|eexists; reflexivity].
    destruct (assign p1 _ _) as [p2|]; simpl; [|eexists; reflexivity].
    exact H.
Qed.

(** The same for the gateway path and its validation. *)
Lemma zenmux_postprocess_reads text s r :
  match read_answer text with
  | inl _ => exists e, zenmux_postprocess text s r = Throw e
  | inr v =>
      exists plan, zenmux_postprocess text s r = Return plan
                   /\ taken_from v s r plan
  end.
Proof.
  unfold read_answer, zenmux_postprocess, parse.
  destruct (JSON_parse text) as [v|]; [|eexists; reflexivity].
  destruct (valid_plan v) eqn:Hv.
  - destruct (valid_plan_taken v (of_option s) (of_option r) Hv)
      as (p1 & p2 & plan & H1 & H2 & Ht & H3).
    exists plan. simpl. rewrite H1. simpl. rewrite H2. simpl. rewrite Ht.
    split; [exact H3|]. exists p1, p2. auto.
  - pose proof (invalid_plan_refused v (of_option s) (of_option r) Hv) as H.
    simpl. destruct (assign v _ _) as [p1|]; simpl; [|eexists; reflexivity].
    destruct (assign p1 _ _) as [p2|]; simpl; [|eexists; reflexivity].
    destruct (negb _); [eexists; reflexivity|exact H].
Qed.

(** The [try] block of the gateway path, from the reply. *)
Lemma gateway_attempt prompt apiKey addLog w :
  match gateway_answer
          (fetch_reply w (trace w)
             (FetchChat apiKey (utf16 "google/gemini-2.5-flash") prompt)) with
  | inl _ =>
      exists e, outcome (zenmux_plan_attempt prompt apiKey addLog) w = Throw e
  | inr v =>
      exists plan,
        outcome (zenmux_plan_attempt prompt apiKey addLog) w = Return plan
        /\ taken_from v (pp_styleInput prompt) (pp_requirementsInput prompt)
             plan
  end.
Proof.
  unfold outcome, zenmux_plan_attempt, bind, fetch, gateway_answer.
  destruct (fetch_reply w (trace w) _) as [e|ok [e|d]]; simpl.
  - eexists; reflexivity.
  - destruct ok; eexists; reflexivity.
  - match goal with
    | |- context [addLog_opt addLog ?entry ?w0] =>
        destruct (addLog_opt_returns addLog entry w0) as [w2 Hw2]; rewrite Hw2
    end.
    destruct ok; simpl; [|eexists; reflexivity].
    destruct (content d) as [c|]; [|eexists; reflexivity].
    destruct (truthy_string c); [|eexists; reflexivity].
    unfold lift, parse_gateway_content, unfenced. simpl.
    destruct (clean_code_block c) as [cleaned|]; simpl;
      [|eexists; reflexivity].
    exact (zenmux_postprocess_reads cleaned (pp_styleInput prompt)
             (pp_requirementsInput prompt)).
Qed.

(** The [try] block of the SDK path, from the reply. *)
Lemma sdk_attempt_outcome prompt apiKey addLog w :
  outcome (key <- getApiKey apiKey ;;
           google_plan_attempt prompt key addLog) w
  = match sdk_plan_reply prompt apiKey addLog w with
    | SdkRejects e => Throw e
    | SdkResolves response =>
        match text response with
        | Some t =>
            if truthy_string t
            then google_postprocess t (pp_styleInput prompt)
                   (pp_requirementsInput prompt)
            else Throw (Error (utf16 "Empty response from AI"))
        | None => Throw (Error (utf16 "Empty response from AI"))
        end
    end.
Proof.
  destruct (sdk_key_runs apiKey w) as (Hkey & _).
  unfold outcome. rewrite (bind_return _ _ _ _ _ Hkey).
  unfold sdk_plan_reply, world_after, google_plan_attempt.
  destruct (addLog_opt_returns addLog
              (log_message_entry LogRequest
                 (utf16 "Calling Google Gemini 2.5 Flash via SDK")) w)
    as [w0 Hw0].
  rewrite (bind_return _ _ _ _ _ Hw0). rewrite Hw0. cbn [snd].
  unfold bind, generateContent.
  destruct (sdk_reply w0 (trace w0) _) as [e|response]; simpl;
    [reflexivity|].
  match goal with
  | |- context [addLog_opt addLog ?entry ?w1] =>
      destruct (addLog_opt_returns addLog entry w1) as [w2 Hw2]; rewrite Hw2
  end.
  destruct (text response) as [t|]; [|reflexivity].
  destruct (truthy_string t); reflexivity.
Qed.

Lemma sdk_attempt prompt apiKey addLog w :
  match sdk_answer (sdk_plan_reply prompt apiKey addLog w) with
  | inl _ =>
      exists e,
        outcome (key <- getApiKey apiKey ;;
                 google_plan_attempt prompt key addLog) w = Throw e
  | inr v =>
      exists plan,
        outcome (key <- getApiKey apiKey ;;
                 google_plan_attempt prompt key addLog) w = Return plan
        /\ taken_from v (pp_styleInput prompt) (pp_requirementsInput prompt)
             plan
  end.
Proof.
  rewrite sdk_attempt_outcome. unfold sdk_answer.
  destruct (sdk_plan_reply prompt apiKey addLog w) as [e|response];
    [eexists; reflexivity|].
  destruct (text response) as [t|]; [|eexists; reflexivity].
  destruct (truthy_string t); [|eexists; reflexivity].
  exact (google_postprocess_reads t (pp_styleInput prompt)
           (pp_requirementsInput prompt)).
Qed.

(** The [try] block of the selected path, from the reply. *)
Lemma plan_attempt_from_answer prompt provider apiKey addLog w :
  match plan_answer prompt provider apiKey addLog w with
  | inl _ =>
      exists e, plan_attempt_outcome prompt provider apiKey addLog w = Throw e
  | inr v =>
      exists plan,
        plan_attempt_outcome prompt provider apiKey addLog w = Return plan
        /\ taken_from v (pp_styleInput prompt) (pp_requirementsInput prompt)
             plan
  end.
Proof.
  unfold plan_answer, plan_attempt_outcome. destruct provider.
  - apply sdk_attempt.
  - unfold gateway_plan_reply. apply gateway_attempt.
Qed.

(** The fields of a plan taken from an answer. *)
Lemma taken_from_fields v s r plan :
  taken_from v s r plan ->
  get_prop plan (utf16 "style") = of_option s
  /\ get_prop plan (utf16 "requirements") = of_option r
  /\ (forall k,
        JsString.eqb k (utf16 "style") = false ->
        JsString.eqb k (utf16 "requirements") = false ->
        JsString.eqb k (utf16 "slides") = false ->
        get_prop plan k = get_prop v k)
  /\ exists slides0 slides1 props,
       get_prop v (utf16 "slides") = JArr slides0 props
       /\ get_prop plan (utf16 "slides") = JArr slides1 props
       /\ Forall2 (fun s0 s1 =>
                     get_prop s1 (utf16 "selectedImageIds") = JArr [] []
                     /\ forall k,
                          JsString.eqb k (utf16 "selectedImageIds") = false ->
                          get_prop s1 k = get_prop s0 k) slides0 slides1.
Proof.
  intros (p1 & p2 & H1 & H2 & H3).
  destruct (postprocessed_fields s r plan)
    as (Hstyle & Hreq & slides & props & Hslides & Hall);
    [exists v, p1, p2; auto|].
  destruct (postprocessed_keeps _ _ _ _ _ _ H1 H2 H3)
    as (Hother & slides0 & slides1 & props' & Hs0 & Hs1 & Hkeep).
  split; [exact Hstyle|]. split; [exact Hreq|]. split; [exact Hother|].
  exists slides0, slides1, props'. split; [exact Hs0|]. split; [exact Hs1|].
  rewrite Hs1 in Hslides. inversion Hslides; subst slides props.
  clear - Hkeep Hall. induction Hkeep as [|s0 s1 l0 l1 Hk _ IH].
  - constructor.
  - inversion Hall; subst. constructor; [split; assumption|now apply IH].
Qed.

End AnswerFacts.

(** C1 — The plan generator never fails outward.  For every input whose
    slide count is an array length (the interface gives 1..99), on either
    provider and whatever the provider replies, [generateSlidePlan]
    returns a plan.  When the provider's reply gives no plan (the request
    is rejected, the body cannot be read, the HTTP status is not a
    success, the response holds no text, the text is not JSON, or the JSON
    is not an object with an array of slide objects), the plan returned is
    the deterministic fallback plan: exactly [slideCount] slides, slide
    [i] with id "slide-i", the localized title "Slide N" or "幻灯片 N" with
    N = i + 1, exactly two localized placeholder bullets, the visual note
    "Placeholder", no selected image, and the caller's style.  When the
    reply does give a plan, that plan is returned, with the caller's style
    and requirements and with the image selection of every slide reset. *)
Theorem plan_generator_never_fails_outward :
  forall contextText slideCount urlInputs outputLanguage styleInput
         requirementsInput provider apiKey addLog w,
    slideCount <= 4294967295 ->
    exists plan w',
      generateSlidePlan contextText slideCount urlInputs outputLanguage
        styleInput requirementsInput provider apiKey addLog w
      = (Return plan, w')
      /\ match plan_answer
                 {| pp_contextText := contextText; pp_urlInputs := urlInputs;
                    pp_slideCount := slideCount;
                    pp_outputLanguage := outputLanguage;
                    pp_styleInput := styleInput;
                    pp_requirementsInput := requirementsInput |}
                 provider apiKey addLog w with
         | inl _ =>
             createFallbackPlan slideCount outputLanguage styleInput
             = Return plan
             /\ get_prop plan (utf16 "style") = of_option styleInput
             /\ exists slides,
                  get_prop plan (utf16 "slides") = JArr slides []
                  /\ length slides = N.to_nat slideCount
                  /\ forall i, i < slideCount ->
                       exists s,
                         nth_error slides (N.to_nat i) = Some s
                         /\ get_prop s (utf16 "id")
                            = JStr (utf16 "slide-" ++ decimal i)
                         /\ get_prop s (utf16 "title")
                            = JStr (match outputLanguage with
                                    | Zh => utf16 "幻灯片"
                                    | En => utf16 "Slide"
                                    end ++ utf16 " " ++ decimal (i + 1))
                         /\ get_prop s (utf16 "bullets")
                            = match outputLanguage with
                              | Zh => JArr [JStr (utf16 "内容生成失败。");
                                            JStr (utf16 "请手动编辑。")] []
                              | En => JArr [JStr (utf16 "Content generation failed.");
                                            JStr (utf16 "Please edit manually.")] []
                              end
                         /\ get_prop s (utf16 "visualNote")
                            = JStr (utf16 "Placeholder")
                         /\ get_prop s (utf16 "selectedImageIds") = JArr [] []
         | inr answer =>
             get_prop plan (utf16 "style") = of_option styleInput
             /\ get_prop plan (utf16 "requirements")
                = of_option requirementsInput
             /\ (forall k,
                   JsString.eqb k (utf16 "style") = false ->
                   JsString.eqb k (utf16 "requirements") = false ->
                   JsString.eqb k (utf16 "slides") = false ->
                   get_prop plan k = get_prop answer k)
             /\ exists slides0 slides1 props,
                  get_prop answer (utf16 "slides") = JArr slides0 props
                  /\ get_prop plan (utf16 "slides") = JArr slides1 props
                  /\ Forall2
                       (fun s0 s1 =>
                          get_prop s1 (utf16 "selectedImageIds") = JArr [] []
                          /\ forall k,
                               JsString.eqb k (utf16 "selectedImageIds")
                               = false ->
                               get_prop s1 k = get_prop s0 k)
                       slides0 slides1
         end.
Proof.
  intros contextText slideCount urlInputs outputLanguage styleInput
         requirementsInput provider apiKey addLog w Hcount.
  destruct (PlanFacts.generateSlidePlan_cases contextText slideCount urlInputs
              outputLanguage styleInput requirementsInput provider apiKey
              addLog w) as [w' Hcases].
  cbv zeta in Hcases.
  pose proof (AnswerFacts.plan_attempt_from_answer
                {| pp_contextText := contextText; pp_urlInputs := urlInputs;
                   pp_slideCount := slideCount;
                   pp_outputLanguage := outputLanguage;
                   pp_styleInput := styleInput;
                   pp_requirementsInput := requirementsInput |}
                provider apiKey addLog w) as Hanswer.
  destruct (plan_answer _ provider apiKey addLog w) as [failure|answer].
  - destruct Hanswer as [e He]. rewrite He in Hcases.
    pose proof (PlanFacts.createFallbackPlan_returns slideCount outputLanguage
                  styleInput Hcount) as Hfb.
    rewrite Hfb in Hcases. eexists. exists w'. split; [exact Hcases|].
    split; [exact Hfb|].
    destruct (PlanFacts.fallback_plan_shape _ _ _ _ Hfb)
      as (Hstyle & _ & _ & slides & Hslides & Hlen & Hnth).
    split; [exact Hstyle|]. exists slides. split; [exact Hslides|].
    split; [exact Hlen|]. intros i Hi. exists (fallback_slide outputLanguage i).
    split; [now apply Hnth|]. apply PlanFacts.fallback_slide_fields.
  - destruct Hanswer as (plan & Hplan & Htaken). rewrite Hplan in Hcases.
    destruct Hcases as [Hrun _]. exists plan, w'. split; [exact Hrun|].
    exact (AnswerFacts.taken_from_fields _ _ _ _ Htaken).
Qed.

Lemma plan_generator_never_fails_outward_witness :
  3 <= 4294967295
  /\ plan_answer
       {| pp_contextText := utf16 "Acme Corp Q3 results";
          pp_urlInputs := []; pp_slideCount := 3;
          pp_outputLanguage := En; pp_styleInput := None;
          pp_requirementsInput := None |}
       Zenmux (utf16 "sk-test") true world_http_500 = inl HttpFailure
  /\ exists plan w',
       generateSlidePlan (utf16 "Acme Corp Q3 results") 3 [] En None None
         Zenmux (utf16 "sk-test") true world_http_500
       = (Return plan, w')
       /\ createFallbackPlan 3 En None = Return plan
       /\ get_prop plan (utf16 "style") = of_option None
       /\ exists slides,
            get_prop plan (utf16 "slides") = JArr slides []
            /\ length slides = N.to_nat 3
            /\ forall i, i < 3 ->
                 exists s,
                   nth_error slides (N.to_nat i) = Some s
                   /\ get_prop s (utf16 "id")
                      = JStr (utf16 "slide-" ++ decimal i)
                   /\ get_prop s (utf16 "title")
                      = JStr (utf16 "Slide" ++ utf16 " " ++ decimal (i + 1))
                   /\ get_prop s (utf16 "bullets")
                      = JArr [JStr (utf16 "Content generation failed.");
                              JStr (utf16 "Please edit manually.")] []
                   /\ get_prop s (utf16 "visualNote")
                      = JStr (utf16 "Placeholder")
                   /\ get_prop s (utf16 "selectedImageIds") = JArr [] [].
Proof.
  split; [lia|].
  assert (plan_answer
            {| pp_contextText := utf16 "Acme Corp Q3 results";
               pp_urlInputs := []; pp_slideCount := 3;
               pp_outputLanguage := En; pp_styleInput := None;
               pp_requirementsInput := None |}
            Zenmux (utf16 "sk-test") true world_http_500 = inl HttpFailure)
    as Hfailure by reflexivity.
  split; [exact Hfailure|].
  destruct (plan_generator_never_fails_outward
              (utf16 "Acme Corp Q3 results") 3 [] En None None Zenmux
              (utf16 "sk-test") true world_http_500)
    as (plan & w' & Hrun & Hplan); [lia|].
  rewrite Hfailure in Hplan. exists plan, w'. split; [exact Hrun|exact Hplan].
Defined.

(** The failures, one by one, on either path: each gives the English
    fallback plan of three slides. *)
Example sdk_rejection_gives_fallback :
  plan_answer
    {| pp_contextText := utf16 "Acme Corp Q3 results";
       pp_urlInputs := []; pp_slideCount := 3;
       pp_outputLanguage := En; pp_styleInput := None;
       pp_requirementsInput := None |}
    Google (utf16 "sk-test") true (refusing_world "network down")
  = inl TransportFailure
  /\ outcome (generateSlidePlan (utf16 "Acme Corp Q3 results") 3 [] En None
                None Google (utf16 "sk-test") true)
       (refusing_world "network down")
     = createFallbackPlan 3 En None.
Proof. split; reflexivity. Qed.

Example gateway_rejection_gives_fallback :
  plan_answer
    {| pp_contextText := utf16 "Acme Corp Q3 results";
       pp_urlInputs := []; pp_slideCount := 3;
       pp_outputLanguage := En; pp_styleInput := None;
       pp_requirementsInput := None |}
    Zenmux (utf16 "sk-test") true (refusing_world "network down")
  = inl TransportFailure
  /\ outcome (generateSlidePlan (utf16 "Acme Corp Q3 results") 3 [] En None
                None Zenmux (utf16 "sk-test") true)
       (refusing_world "network down")
     = createFallbackPlan 3 En None.
Proof. split; reflexivity. Qed.

Example unparsable_answer_gives_fallback :
  forall provider,
    plan_answer
      {| pp_contextText := utf16 "Acme Corp Q3 results";
         pp_urlInputs := []; pp_slideCount := 3;
         pp_outputLanguage := En; pp_styleInput := None;
         pp_requirementsInput := None |}
      provider (utf16 "sk-test") true (world_answers (utf16 "Here is your plan"))
    = inl ParsingFailure
    /\ outcome (generateSlidePlan (utf16 "Acme Corp Q3 results") 3 [] En None
                  None provider (utf16 "sk-test") true)
         (world_answers (utf16 "Here is your plan"))
       = createFallbackPlan 3 En None.
Proof. intros [|]; split; vm_compute; reflexivity. Qed.

Example answer_without_slides_gives_fallback :
  forall provider,
    plan_answer
      {| pp_contextText := utf16 "Acme Corp Q3 results";
         pp_urlInputs := []; pp_slideCount := 3;
         pp_outputLanguage := En; pp_styleInput := None;
         pp_requirementsInput := None |}
      provider (utf16 "sk-test") true (world_answers
                                       (serialize
                                          (JObj [(utf16 "topic",
                                                  JStr (utf16 "Acme"))])))
    = inl ValidationFailure
    /\ outcome (generateSlidePlan (utf16 "Acme Corp Q3 results") 3 [] En None
                  None provider (utf16 "sk-test") true)
         (world_answers
                                       (serialize
                                          (JObj [(utf16 "topic",
                                                  JStr (utf16 "Acme"))])))
       = createFallbackPlan 3 En None.
Proof. intros [|]; split; vm_compute; reflexivity. Qed.

Example empty_answer_gives_fallback :
  forall provider,
    plan_answer
      {| pp_contextText := utf16 "Acme Corp Q3 results";
         pp_urlInputs := []; pp_slideCount := 3;
         pp_outputLanguage := En; pp_styleInput := None;
         pp_requirementsInput := None |}
      provider (utf16 "sk-test") true (world_answers [])
    = inl EmptyAnswer
    /\ outcome (generateSlidePlan (utf16 "Acme Corp Q3 results") 3 [] En None
                  None provider (utf16 "sk-test") true)
         (world_answers [])
       = createFallbackPlan 3 En None.
Proof. intros [|]; split; vm_compute; reflexivity. Qed.

(** An answer that is a plan is not replaced: the plan of the model comes
    back, with the selection of its first slide reset. *)
Example model_plan_is_taken :
  forall provider,
    plan_answer
      {| pp_contextText := utf16 "Acme Corp Q3 results";
         pp_urlInputs := []; pp_slideCount := 2;
         pp_outputLanguage := En; pp_styleInput := Some (utf16 "flat");
         pp_requirementsInput := None |}
      provider (utf16 "sk-test") true world_model_plan
    = inr model_plan
    /\ outcome (generateSlidePlan (utf16 "Acme Corp Q3 results") 2 [] En
                  (Some (utf16 "flat")) None provider (utf16 "sk-test") true)
         world_model_plan
       = Return
           (JObj [ (utf16 "topic", JStr (utf16 "Acme Q3"));
                   (utf16 "slides",
                    JArr [ model_slide "slide-1" [];
                           model_slide "slide-2" [] ] []);
                   (utf16 "style", JStr (utf16 "flat"));
                   (utf16 "requirements", JUndefined) ]).
Proof. intros [|]; split; vm_compute; reflexivity. Qed.
(* ===================================================================== *)
(** ** More about the batch run: order, bounds and the state it leaves *)
(* ===================================================================== *)

Module BatchFacts.

Import RuntimeFacts ControllerFacts.

Lemma length_store results i v :
  (i < length results)%nat -> length (store results i v) = length results.
Proof.
  revert i. induction results as [|x rest IH]; intros [|i] H; simpl in *;
    try lia. now rewrite IH by lia.
Qed.

Section Order.

Variable generate : SlideData -> jsstring -> option (list jsstring) ->
                    Provider -> jsstring -> bool -> M jsstring.

Hypothesis generate_runs :
  forall slide style imgs provider apiKey addLog w,
    exists r w' evs,
      runs (generate slide style imgs provider apiKey addLog) w r w' evs
      /\ forallb service_event evs = true.

(** The loop goes through the slides in order and stays inside the plan;
    it alerts when it aborts and only then; it does not resize an array
    that has a slot for every slide. *)
Lemma loop_order p remaining :
  forall i results w,
    remaining = skipn i (slides (plan p)) ->
    exists r w' evs,
      runs (loop generate p remaining i false results) w (Return r) w' evs
      /\ StronglySorted lt (attempted evs)
      /\ (forall k, In k (attempted evs) ->
                    (i <= k < length (slides (plan p)))%nat)
      /\ alerts evs = match r with
                      | Aborted _ => [alert_text (uiLanguage p)]
                      | Continue _ => []
                      end
      /\ ((length (slides (plan p)) <= length results)%nat ->
          length (round_results r) = length results).
Proof.
  induction remaining as [|slide rest IH]; intros i results w Hrem.
  - exists (Continue results), w, []. split; [apply runs_ret|].
    simpl. repeat split; try constructor; contradiction.
  - destruct (skipn_cons_nth _ _ _ _ Hrem) as [Hnth Hrest].
    assert (Hi : (i < length (slides (plan p)))%nat)
      by (apply nth_error_Some; congruence).
    destruct (option_truthy (slot results i)) eqn:Hslot.
    + rewrite (loop_skip _ _ _ _ _ _ Hslot).
      destruct (IH (S i) results w Hrest)
        as (r & w' & evs & Hr & Hso & Hb & Hal & Hlen).
      exists r, w', evs. split; [exact Hr|]. repeat split; auto;
        destruct (Hb k H); lia.
    + rewrite (loop_attempt _ _ _ _ _ _ Hslot).
      destruct (attempt_spec generate generate_runs p i slide results w)
        as (w1 & evs1 & Hr1 & Hatt1 & _ & Hal1 & _).
      unfold round_of in *.
      destruct (render_outcome generate p i slide w) as [imageUrl|e].
      * destruct (IH (S i) (store results i imageUrl) w1 Hrest)
          as (r & w' & evs & Hr & Hso & Hb & Hal & Hlen).
        exists r, w', (evs1 ++ evs). split.
        { eapply runs_bind_return; [exact Hr1 | exact Hr]. }
        rewrite attempted_app, alerts_app, Hatt1, Hal1.
        split; [|split; [|split]].
        -- simpl. constructor; [exact Hso|].
           apply Forall_forall. intros k Hk. destruct (Hb k Hk). lia.
        -- intros k [<-|Hk]; [lia|]. destruct (Hb k Hk). lia.
        -- exact Hal.
        -- intros Hle. rewrite Hlen; rewrite length_store; lia.
      * destruct (abort_marker (errorMsg e)) eqn:Hab.
        -- exists (Aborted results), w1, evs1. split.
           { replace evs1 with (evs1 ++ []) by apply app_nil_r.
             eapply runs_bind_return; [exact Hr1 | apply runs_ret]. }
           rewrite Hatt1, Hal1. split; [|split; [|split]].
           ++ repeat constructor.
           ++ intros k [<-|[]]. lia.
           ++ reflexivity.
           ++ reflexivity.
        -- destruct (IH (S i) results w1 Hrest)
             as (r & w' & evs & Hr & Hso & Hb & Hal & Hlen).
           exists r, w', (evs1 ++ evs). split.
           { eapply runs_bind_return; [exact Hr1 | exact Hr]. }
           rewrite attempted_app, alerts_app, Hatt1, Hal1.
           split; [|split; [|split]].
           ++ simpl. constructor; [exact Hso|].
              apply Forall_forall. intros k Hk. destruct (Hb k Hk). lia.
           ++ intros k [<-|Hk]; [lia|]. destruct (Hb k Hk). lia.
           ++ exact Hal.
           ++ exact Hlen.
Qed.

(** A run that has a key: the two marks, the loop, and the last mark
    unless the loop aborted. *)
Lemma startGeneration_events p st w :
  hasApiKey st = true ->
  exists r w1 evs w',
    runs (loop generate p (slides (plan p)) 0 false (generatedImages st))
         (started w) (Return r) w1 evs
    /\ runs (startGeneration generate p st) w (Return tt) w'
            ([SetIsGenerating true; SetProgressIndex 0] ++ evs
             ++ match r with
                | Continue _ => [SetIsGenerating false]
                | Aborted _ => []
                end).
Proof.
  intros Hkey. rewrite (startGeneration_unfold generate p st Hkey).
  destruct (loop_order p (slides (plan p)) 0 (generatedImages st) (started w)
              eq_refl) as (r & w1 & evs & Hr & _).
  destruct r as [results|results].
  - destruct (runs_emit (SetIsGenerating false) w1) as [w2 H2].
    exists (Continue results), w1, evs, w2. split; [exact Hr|].
    eapply runs_bind_return; [apply started_runs|].
    eapply runs_bind_return; [exact Hr | exact H2].
  - exists (Aborted results), w1, evs, w1. split; [exact Hr|].
    eapply runs_bind_return; [apply started_runs|].
    eapply runs_bind_return; [exact Hr | apply runs_ret].
Qed.

Lemma startGeneration_without_key p st w :
  hasApiKey st = false ->
  runs (startGeneration generate p st) w (Return tt) w [].
Proof.
  intros H. unfold startGeneration. rewrite H. apply runs_ret.
Qed.

Lemma run_is_ordered p st w :
  exists w' evs,
    runs (startGeneration generate p st) w (Return tt) w' evs
    /\ StronglySorted lt (attempted evs)
    /\ forall k, In k (attempted evs) -> (k < length (slides (plan p)))%nat.
Proof.
  destruct (hasApiKey st) eqn:Hkey.
  - destruct (startGeneration_events p st w Hkey)
      as (r & w1 & evs & w' & Hl & Hr).
    destruct (loop_order p (slides (plan p)) 0 (generatedImages st)
                (started w) eq_refl) as (r2 & w2 & evs2 & Hl2 & Hso & Hb & _).
    destruct (runs_fun _ _ _ _ _ _ _ _ Hl Hl2) as (E & -> & ->).
    inversion E; subst r2; clear E.
    do 2 eexists. split; [exact Hr|].
    rewrite !attempted_app.
    replace (attempted (match r with
                        | Continue _ => [SetIsGenerating false]
                        | Aborted _ => []
                        end)) with (@nil nat) by (now destruct r).
    simpl. rewrite app_nil_r. split; [exact Hso|].
    intros k Hk. now destruct (Hb k Hk).
  - exists w, []. split; [now apply startGeneration_without_key|].
    simpl. split; [constructor | contradiction].
Qed.

Lemma run_ends_idle p st w :
  hasApiKey st = true ->
  exists w' evs,
    runs (startGeneration generate p st) w (Return tt) w' evs
    /\ isGenerating (apply_events st evs) = false
    /\ ((alerts evs = [] /\ hasApiKey (apply_events st evs) = true)
        \/ (alerts evs = [alert_text (uiLanguage p)]
            /\ hasApiKey (apply_events st evs) = false)).
Proof.
  intros Hkey.
  destruct (startGeneration_events p st w Hkey)
    as (r & w1 & evs & w' & Hl & Hr).
  destruct (loop_order p (slides (plan p)) 0 (generatedImages st)
              (started w) eq_refl) as (r2 & w2 & evs2 & Hl2 & _ & _ & Hal & _).
  destruct (runs_fun _ _ _ _ _ _ _ _ Hl Hl2) as (E & -> & ->).
    inversion E; subst r2; clear E.
  destruct (loop_spec generate generate_runs p (slides (plan p)) 0
              (generatedImages st) (started w) eq_refl)
    as (r3 & w3 & evs3 & Hl3 & _ & _ & _ & _ & Hfl).
  destruct (runs_fun _ _ _ _ _ _ _ _ Hl Hl3) as (E & -> & ->).
    inversion E; subst r3; clear E.
  do 2 eexists. split; [exact Hr|].
  rewrite !alerts_app, !apply_events_app, Hal.
  specialize (Hfl (apply_events st [SetIsGenerating true; SetProgressIndex 0])).
  destruct r as [results|results]; simpl in *.
  - split; [reflexivity|]. left. split; [reflexivity|].
    destruct Hfl as [_ ->]. exact Hkey.
  - rewrite ?app_nil_r. destruct Hfl as [-> ->]. split; [reflexivity|].
    right. split; reflexivity.
Qed.

Lemma run_keeps_length p st w :
  length (generatedImages st) = length (slides (plan p)) ->
  exists w' evs,
    runs (startGeneration generate p st) w (Return tt) w' evs
    /\ length (generatedImages (apply_events st evs))
       = length (slides (plan p)).
Proof.
  intros Hlen. destruct (hasApiKey st) eqn:Hkey.
  - destruct (startGeneration_events p st w Hkey)
      as (r & w1 & evs & w' & Hl & Hr).
    destruct (loop_order p (slides (plan p)) 0 (generatedImages st)
                (started w) eq_refl) as (r2 & w2 & evs2 & Hl2 & _ & _ & _ & Hk).
    destruct (runs_fun _ _ _ _ _ _ _ _ Hl Hl2) as (E & -> & ->).
    inversion E; subst r2; clear E.
    destruct (loop_spec generate generate_runs p (slides (plan p)) 0
                (generatedImages st) (started w) eq_refl)
      as (r3 & w3 & evs3 & Hl3 & _ & _ & _ & Hst & _).
    destruct (runs_fun _ _ _ _ _ _ _ _ Hl Hl3) as (E & -> & ->).
    inversion E; subst r3; clear E.
    do 2 eexists. split; [exact Hr|].
    rewrite !apply_events_app.
    replace (generatedImages
               (apply_events
                  (apply_events
                     (apply_events st [SetIsGenerating true; SetProgressIndex 0])
                     evs)
                  match r with
                  | Continue _ => [SetIsGenerating false]
                  | Aborted _ => []
                  end))
      with (generatedImages
              (apply_events
                 (apply_events st [SetIsGenerating true; SetProgressIndex 0])
                 evs)) by (now destruct r).
    rewrite (Hst (apply_events st [SetIsGenerating true; SetProgressIndex 0])
               eq_refl).
    rewrite Hk; lia.
  - exists w, []. split; [now apply startGeneration_without_key|].
    exact Hlen.
Qed.

(** The events of one round: the progress mark, the call, what the
    generator does, and what the component does with the result. *)
Lemma attempt_events p i slide results w :
  exists w0 r wg evg w' tail,
    runs (emit (SetProgressIndex (i + 1)) ;; emit (Render (render_args p slide)))
         w (Return tt) w0 [SetProgressIndex (S i); Render (render_args p slide)]
    /\ runs (generate slide (ra_style (render_args p slide))
                      (Some (ra_images (render_args p slide)))
                      (provider p) (apiKey p) true) w0 r wg evg
    /\ runs (attempt generate p i slide results) w
            (Return (round_of r results i)) w'
            ([SetProgressIndex (S i); Render (render_args p slide)]
             ++ evg ++ tail)
    /\ provider_calls tail = []
    /\ rendered tail = []
    /\ attempted tail = []
    /\ alerts tail = match round_of r results i with
                     | Aborted _ => [alert_text (uiLanguage p)]
                     | Continue _ => []
                     end.
Proof.
  unfold attempt, call_generate.
  set (a := render_args p slide).
  replace (i + 1)%nat with (S i) by lia.
  destruct (runs_emit (SetProgressIndex (S i)) w) as [w1 H1].
  destruct (runs_emit (Render a) w1) as [w0 H0].
  destruct (generate_runs slide (ra_style a) (Some (ra_images a)) (provider p)
              (apiKey p) true w0) as (r & wg & evg & Hg & Hs).
  assert (Hcall : runs (emit (Render a) ;;
                        generate (ra_slide a) (ra_style a) (Some (ra_images a))
                                 (ra_provider a) (ra_apiKey a) true)
                       w1 r wg ([Render a] ++ evg))
    by (eapply runs_bind_return; [exact H0 | exact Hg]).
  exists w0, r, wg, evg.
  destruct r as [imageUrl|e]; cbn [round_of].
  - destruct (runs_emit (SetGeneratedImages (store results i imageUrl)) wg)
      as [w3 H3].
    exists w3, [SetGeneratedImages (store results i imageUrl)].
    split; [apply (runs_bind_return _ _ _ _ _ _ _ _ _ H1 H0)|].
    split; [exact Hg|]. split; [|repeat split; reflexivity].
    replace ([SetProgressIndex (S i); Render a] ++ evg
             ++ [SetGeneratedImages (store results i imageUrl)])
      with ([SetProgressIndex (S i)]
            ++ (([Render a] ++ evg)
                ++ [SetGeneratedImages (store results i imageUrl)] ++ []))
      by (simpl; rewrite <- ?app_assoc; reflexivity).
    eapply runs_bind_return; [exact H1|].
    eapply runs_try_return.
    eapply runs_bind_return; [exact Hcall|].
    eapply runs_bind_return; [exact H3|]. apply runs_ret.
  - set (entry := AddLog (log_message_entry LogError
                            (utf16 "Error generating slide "
                             ++ decimal (N.of_nat (S i)) ++ utf16 ": "
                             ++ err_message e))).
    destruct (runs_emit entry wg) as [w3 H3].
    destruct (abort_marker (errorMsg e)) eqn:Hab.
    + destruct (runs_emit (SetIsGenerating false) w3) as [w4 H4].
      destruct (runs_emit (SetHasApiKey false) w4) as [w5 H5].
      destruct (runs_emit (Alert (alert_text (uiLanguage p))) w5) as [w6 H6].
      exists w6, [entry; SetIsGenerating false; SetHasApiKey false;
                  Alert (alert_text (uiLanguage p))].
      split; [apply (runs_bind_return _ _ _ _ _ _ _ _ _ H1 H0)|].
      split; [exact Hg|]. split; [|repeat split; reflexivity].
      replace ([SetProgressIndex (S i); Render a] ++ evg
               ++ [entry; SetIsGenerating false; SetHasApiKey false;
                   Alert (alert_text (uiLanguage p))])
        with ([SetProgressIndex (S i)]
              ++ (([Render a] ++ evg)
                  ++ [entry] ++ [SetIsGenerating false] ++ [SetHasApiKey false]
                  ++ [Alert (alert_text (uiLanguage p))] ++ []))
        by (simpl; rewrite <- ?app_assoc; reflexivity).
      eapply runs_bind_return; [exact H1|].
      eapply runs_try_throw; [eapply runs_bind_throw; exact Hcall|].
      eapply runs_bind_return; [exact H3|]. rewrite Hab.
      eapply runs_bind_return; [exact H4|].
      eapply runs_bind_return; [exact H5|].
      eapply runs_bind_return; [exact H6|]. apply runs_ret.
    + exists w3, [entry].
      split; [apply (runs_bind_return _ _ _ _ _ _ _ _ _ H1 H0)|].
      split; [exact Hg|]. split; [|repeat split; reflexivity].
      replace ([SetProgressIndex (S i); Render a] ++ evg ++ [entry])
        with ([SetProgressIndex (S i)]
              ++ (([Render a] ++ evg) ++ [entry] ++ []))
        by (simpl; rewrite <- ?app_assoc; reflexivity).
      eapply runs_bind_return; [exact H1|].
      eapply runs_try_throw; [eapply runs_bind_throw; exact Hcall|].
      eapply runs_bind_return; [exact H3|]. rewrite Hab.
      apply runs_ret.
Qed.

End Order.

Lemma provider_calls_app a b :
  provider_calls (a ++ b) = provider_calls a ++ provider_calls b.
Proof. apply flat_map_app. Qed.

(** *** The gateway path *)

Section Gateway.

Variable p : PreviewDownloadProps.
Hypothesis on_gateway : provider p = Zenmux.

Lemma gateway_round i slide results w :
  exists r w' evs,
    runs (attempt generateFinalSlideImage p i slide results) w
         (Return (round_of r results i)) w' evs
    /\ provider_calls evs = [gateway_request (render_args p slide)]
    /\ rendered evs = [render_args p slide]
    /\ attempted evs = [i]
    /\ alerts evs = match round_of r results i with
                    | Aborted _ => [alert_text (uiLanguage p)]
                    | Continue _ => []
                    end.
Proof.
  destruct (attempt_events generateFinalSlideImage
              ImageFacts.generateFinalSlideImage_runs p i slide results w)
    as (w0 & r & wg & evg & w' & tail & _ & Hg & Hr & Hc & Hre & Hat & Hal).
  rewrite on_gateway in Hg.
  destruct (ImageFacts.zenmux_image_spec slide (ra_style (render_args p slide))
              (Some (ra_images (render_args p slide))) (apiKey p) true w0)
    as (wz & evz & Hz & Hcz & Hsz).
  destruct (runs_fun _ _ _ _ _ _ _ _ Hg Hz) as (_ & _ & ->).
  destruct (service_events_silent evg Hsz) as (Ha & Hrg & Halg & _).
  exists r, w'. eexists. split; [exact Hr|].
  rewrite !provider_calls_app, !rendered_app, !attempted_app, !alerts_app.
  rewrite Hc, Hre, Hat, Hal, Ha, Hrg, Halg, Hcz. simpl.
  repeat split; reflexivity.
Qed.

(** Every request of a run on the gateway is the request of one call of
    the generator, in the order of the calls. *)
Lemma gateway_loop remaining :
  forall i results w,
    exists r w' evs,
      runs (loop generateFinalSlideImage p remaining i false results) w
           (Return r) w' evs
      /\ provider_calls evs = map gateway_request (rendered evs).
Proof.
  induction remaining as [|slide rest IH]; intros i results w.
  - exists (Continue results), w, []. split; [apply runs_ret | reflexivity].
  - destruct (option_truthy (slot results i)) eqn:Hslot.
    + rewrite (loop_skip _ _ _ _ _ _ Hslot). apply IH.
    + rewrite (loop_attempt _ _ _ _ _ _ Hslot).
      destruct (gateway_round i slide results w)
        as (r1 & w1 & evs1 & Hr1 & Hc1 & Hre1 & _).
      destruct (round_of r1 results i) as [results'|results'].
      * destruct (IH (S i) results' w1) as (r & w' & evs & Hr & Hc).
        exists r, w', (evs1 ++ evs). split.
        { eapply runs_bind_return; [exact Hr1 | exact Hr]. }
        rewrite provider_calls_app, rendered_app, map_app, Hc1, Hre1, Hc.
        reflexivity.
      * exists (Aborted results'), w1, evs1. split.
        { replace evs1 with (evs1 ++ []) by apply app_nil_r.
          eapply runs_bind_return; [exact Hr1 | apply runs_ret]. }
        now rewrite Hc1, Hre1.
Qed.

Lemma gateway_run st w :
  exists w' evs,
    runs (startGeneration generateFinalSlideImage p st) w (Return tt) w' evs
    /\ provider_calls evs = map gateway_request (rendered evs).
Proof.
  destruct (hasApiKey st) eqn:Hkey.
  - destruct (startGeneration_events generateFinalSlideImage
                ImageFacts.generateFinalSlideImage_runs p st w Hkey)
      as (r & w1 & evs & w' & Hl & Hr).
    destruct (gateway_loop (slides (plan p)) 0%nat (generatedImages st)
                (started w)) as (r2 & w2 & evs2 & Hl2 & Hc).
    destruct (runs_fun _ _ _ _ _ _ _ _ Hl Hl2) as (E & -> & ->).
    inversion E; subst r2; clear E.
    do 2 eexists. split; [exact Hr|].
    rewrite !provider_calls_app, !rendered_app, map_app, map_app, Hc.
    destruct r; reflexivity.
  - exists w, []. split; [|reflexivity].
    now apply startGeneration_without_key.
Qed.

(** *** A gateway that renders every slide *)

Variable d : ResponseData.
Hypothesis has_image : truthy_string (zenmux_image_data d) = true.

Lemma gateway_answers_later {A} (m : M A) w r w' evs :
  runs m w r w' evs -> gateway_answers w d -> gateway_answers w' d.
Proof.
  intros (_ & _ & Hf & _) H history c. rewrite Hf. apply H.
Qed.

Lemma gateway_renders slide style imgs apiKey w :
  gateway_answers w d ->
  exists w' evs,
    runs (generateFinalSlideImage slide style imgs Zenmux apiKey true) w
         (Return (data_uri_prefix ++ zenmux_image_data d)) w' evs.
Proof.
  intros Hw.
  destruct (ImageFacts.zenmux_image_spec slide style imgs apiKey true w)
    as (w' & evs & Hr & _).
  exists w', evs.
  replace (Return (data_uri_prefix ++ zenmux_image_data d))
    with (image_attempt_outcome slide style imgs Zenmux apiKey true w);
    [exact Hr|].
  unfold image_attempt_outcome, outcome, world_after, zenmux_image_attempt.
  unfold bind, fetch, json, addLog_opt, emit, ret, throw.
  cbn [fst snd fetch_reply trace]. rewrite Hw. cbn [fst snd negb].
  now rewrite has_image.
Qed.

Lemma slot_after_filled (filled rest : list (option jsstring)) :
  slot (filled ++ rest) (length filled) = slot rest 0.
Proof.
  unfold slot. rewrite nth_error_app2 by lia. now rewrite Nat.sub_diag.
Qed.

Lemma store_after_filled (filled rest : list (option jsstring)) x v :
  store (filled ++ x :: rest) (length filled) v = filled ++ Some v :: rest.
Proof.
  induction filled as [|y filled IH]; simpl; [reflexivity | now rewrite IH].
Qed.

Lemma gateway_fills remaining :
  forall filled w,
    gateway_answers w d ->
    exists w' evs,
      runs (loop generateFinalSlideImage p remaining (length filled) false
              (filled ++ repeat None (length remaining))) w
           (Return (Continue
                      (filled
                       ++ repeat (Some (data_uri_prefix ++ zenmux_image_data d))
                                 (length remaining)))) w' evs
      /\ attempted evs = seq (length filled) (length remaining)
      /\ alerts evs = [].
Proof.
  induction remaining as [|slide rest IH]; intros filled w Hw.
  - exists w, []. split; [apply runs_ret | split; reflexivity].
  - cbn [length repeat].
    assert (Hslot : option_truthy
                      (slot (filled ++ None :: repeat None (length rest))
                            (length filled)) = false)
      by (now rewrite slot_after_filled).
    rewrite (loop_attempt _ _ _ _ _ _ Hslot).
    destruct (attempt_events generateFinalSlideImage
                ImageFacts.generateFinalSlideImage_runs p (length filled) slide
                (filled ++ None :: repeat None (length rest)) w)
      as (w0 & r & wg & evg & w1 & tail & H0 & Hg & Hr & _ & _ & Hat & Hal).
    rewrite on_gateway in Hg.
    pose proof (gateway_answers_later _ _ _ _ _ H0 Hw) as Hw0.
    destruct (gateway_renders slide (ra_style (render_args p slide))
                (Some (ra_images (render_args p slide))) (apiKey p) w0 Hw0)
      as (wz & evz & Hz).
    destruct (runs_fun _ _ _ _ _ _ _ _ Hg Hz) as (E & -> & ->).
    subst r. cbn [round_of] in Hr, Hal.
    rewrite store_after_filled in Hr.
    destruct (ImageFacts.generateFinalSlideImage_runs slide
                (ra_style (render_args p slide))
                (Some (ra_images (render_args p slide))) Zenmux (apiKey p)
                true w0) as (r' & w'' & evs'' & Hz' & Hs).
    destruct (runs_fun _ _ _ _ _ _ _ _ Hg Hz') as (_ & _ & ->).
    destruct (service_events_silent evg Hs) as (Ha & _ & Halg & _).
    pose proof (gateway_answers_later _ _ _ _ _ Hr Hw) as Hw1.
    destruct (IH (filled ++ [Some (data_uri_prefix ++ zenmux_image_data d)])
                w1 Hw1) as (w' & evs & Hl & Hatt & Halerts).
    rewrite length_app in Hl, Hatt. cbn [length] in Hl, Hatt.
    rewrite Nat.add_1_r in Hl, Hatt.
    rewrite <- !app_assoc in Hl. cbn [app] in Hl.
    exists w'. eexists. split.
    { eapply runs_bind_return; [exact Hr | exact Hl]. }
    rewrite !attempted_app, !alerts_app, Hat, Hal, Ha, Halg, Hatt, Halerts.
    split; reflexivity.
Qed.

End Gateway.

End BatchFacts.

(** X8 — A batch run goes through the slides in the order of the plan:
    the indices it attempts are strictly increasing, so no slide is
    attempted twice in a run, and every one of them is the index of a
    slide of the plan. *)
Theorem slides_are_attempted_in_plan_order :
  forall p st w,
    exists w' evs,
      runs (startGeneration generateFinalSlideImage p st) w (Return tt) w' evs
      /\ StronglySorted lt (attempted evs)
      /\ forall k, In k (attempted evs) -> (k < length (slides (plan p)))%nat.
Proof.
  intros p st w.
  apply (BatchFacts.run_is_ordered generateFinalSlideImage
           ImageFacts.generateFinalSlideImage_runs).
Qed.

(** X9 — Provided every request of the run settles, with a response or
    with an Error object, a batch run that starts with a key comes to an
    end and leaves the component idle ([isGenerating] false), whatever
    the responses and the errors are.  (A request that never settles
    keeps the run waiting; and the handler of the component reads the
    message of whatever is thrown, so a rejection with [null] or
    [undefined] fails the run before it resets [isGenerating].)  Either
    the run went through without an alert and the key is still marked as
    present, or it alerted once and marked the key as missing. *)
Theorem batch_run_ends_idle :
  forall p st w,
    hasApiKey st = true ->
    exists w' evs,
      runs (startGeneration generateFinalSlideImage p st) w (Return tt) w' evs
      /\ isGenerating (apply_events st evs) = false
      /\ ((alerts evs = [] /\ hasApiKey (apply_events st evs) = true)
          \/ (alerts evs = [alert_text (uiLanguage p)]
              /\ hasApiKey (apply_events st evs) = false)).
Proof.
  intros p st w.
  apply (BatchFacts.run_ends_idle generateFinalSlideImage
           ImageFacts.generateFinalSlideImage_runs).
Qed.

Lemma batch_run_ends_idle_witness :
  exists w' evs,
    runs (startGeneration generateFinalSlideImage props_ABC
            (initial_state props_ABC true))
         (world_B_fails "quota exceeded") (Return tt) w' evs
    /\ isGenerating (apply_events (initial_state props_ABC true) evs) = false
    /\ ((alerts evs = []
         /\ hasApiKey (apply_events (initial_state props_ABC true) evs) = true)
        \/ (alerts evs = [alert_text (uiLanguage props_ABC)]
            /\ hasApiKey (apply_events (initial_state props_ABC true) evs)
               = false)).
Proof.
  apply (batch_run_ends_idle props_ABC (initial_state props_ABC true)
           (world_B_fails "quota exceeded")).
  reflexivity.
Defined.

(** X10 — The array of images keeps one slot per slide: a run that starts
    with as many slots as the plan has slides, as the component creates
    them, ends with as many. *)
Theorem image_array_keeps_one_slot_per_slide :
  forall p st w,
    length (generatedImages st) = length (slides (plan p)) ->
    exists w' evs,
      runs (startGeneration generateFinalSlideImage p st) w (Return tt) w' evs
      /\ length (generatedImages (apply_events st evs))
         = length (slides (plan p)).
Proof.
  intros p st w.
  apply (BatchFacts.run_keeps_length generateFinalSlideImage
           ImageFacts.generateFinalSlideImage_runs).
Qed.

Lemma image_array_keeps_one_slot_per_slide_witness :
  exists w' evs,
    runs (startGeneration generateFinalSlideImage props_ABC
            (initial_state props_ABC true))
         world_renders_all (Return tt) w' evs
    /\ length (generatedImages
                 (apply_events (initial_state props_ABC true) evs))
       = length (slides (plan props_ABC)).
Proof.
  apply (image_array_keeps_one_slot_per_slide props_ABC
           (initial_state props_ABC true) world_renders_all).
  reflexivity.
Defined.

(** X11 — On the gateway, a batch run sends exactly one request per call
    of the generator and nothing else: its requests are the requests of
    the calls, in order, each with the key of the component and the parts
    built from the slide, the style of the plan and the images selected
    for the slide. *)
Theorem gateway_batch_sends_one_request_per_slide :
  forall p st w,
    provider p = Zenmux ->
    exists w' evs,
      runs (startGeneration generateFinalSlideImage p st) w (Return tt) w' evs
      /\ provider_calls evs = map gateway_request (rendered evs).
Proof.
  intros p st w Hp. now apply BatchFacts.gateway_run.
Qed.

Lemma gateway_batch_sends_one_request_per_slide_witness :
  exists w' evs,
    runs (startGeneration generateFinalSlideImage props_ABC
            (initial_state props_ABC true))
         (world_B_fails "network error") (Return tt) w' evs
    /\ provider_calls evs = map gateway_request (rendered evs).
Proof.
  apply (gateway_batch_sends_one_request_per_slide props_ABC
           (initial_state props_ABC true) (world_B_fails "network error")).
  reflexivity.
Defined.

(** X12 — When the gateway answers every request with an image, the first
    run of the component renders the whole plan: it attempts every slide
    once, in order, alerts nobody, and ends with the image in every
    slot. *)
Theorem gateway_that_answers_fills_every_slot :
  forall p w d,
    provider p = Zenmux ->
    gateway_answers w d ->
    truthy_string (zenmux_image_data d) = true ->
    exists w' evs,
      runs (startGeneration generateFinalSlideImage p (initial_state p true)) w
           (Return tt) w' evs
      /\ attempted evs = seq 0 (length (slides (plan p)))
      /\ alerts evs = []
      /\ generatedImages (apply_events (initial_state p true) evs)
         = map (fun _ => Some (data_uri_prefix ++ zenmux_image_data d))
               (slides (plan p))
      /\ isGenerating (apply_events (initial_state p true) evs) = false.
Proof.
  intros p w d Hp Hw Hd.
  set (st := initial_state p true).
  destruct (BatchFacts.startGeneration_events generateFinalSlideImage
              ImageFacts.generateFinalSlideImage_runs p st w eq_refl)
    as (r & w1 & evs & w' & Hl & Hr).
  assert (Hstarted : gateway_answers (started w) d).
  { eapply BatchFacts.gateway_answers_later;
      [apply ControllerFacts.started_runs | exact Hw]. }
  destruct (BatchFacts.gateway_fills p Hp d Hd (slides (plan p)) [] (started w)
              Hstarted) as (w2 & evs2 & Hl2 & Hatt & Hal).
  cbn [app length] in Hl2, Hatt.
  destruct (RuntimeFacts.runs_fun _ _ _ _ _ _ _ _ Hl Hl2) as (E & -> & ->).
  inversion E; subst r; clear E.
  destruct (ControllerFacts.loop_spec generateFinalSlideImage
              ImageFacts.generateFinalSlideImage_runs p (slides (plan p)) 0
              (generatedImages st) (started w) eq_refl)
    as (r3 & w3 & evs3 & Hl3 & _ & _ & _ & Hst & _).
  destruct (RuntimeFacts.runs_fun _ _ _ _ _ _ _ _ Hl Hl3) as (E & -> & ->).
  inversion E; subst r3; clear E.
  do 2 eexists. split; [exact Hr|].
  rewrite !ControllerFacts.attempted_app, !ControllerFacts.alerts_app,
    Hatt, Hal.
  split; [simpl; now rewrite app_nil_r|]. split; [reflexivity|].
  rewrite app_assoc, ControllerFacts.apply_events_app.
  set (X := apply_events st ([SetIsGenerating true; SetProgressIndex 0] ++ evs)).
  split; [|reflexivity].
  change (generatedImages X
          = map (fun _ => Some (data_uri_prefix ++ zenmux_image_data d))
                (slides (plan p))).
  unfold X. rewrite ControllerFacts.apply_events_app.
  rewrite (Hst (apply_events st [SetIsGenerating true; SetProgressIndex 0])
             eq_refl).
  cbn [round_results]. clear.
  induction (slides (plan p)) as [|x l IH]; simpl; [reflexivity|].
  now rewrite IH.
Qed.

Lemma gateway_that_answers_fills_every_slot_witness :
  exists w' evs,
    runs (startGeneration generateFinalSlideImage props_ABC
            (initial_state props_ABC true))
         world_renders_all (Return tt) w' evs
    /\ attempted evs = [0; 1; 2]%nat
    /\ alerts evs = []
    /\ generatedImages (apply_events (initial_state props_ABC true) evs)
       = [Some (data_uri_prefix ++ utf16 "iVBORw0KGgo=");
          Some (data_uri_prefix ++ utf16 "iVBORw0KGgo=");
          Some (data_uri_prefix ++ utf16 "iVBORw0KGgo=")]
    /\ isGenerating (apply_events (initial_state props_ABC true) evs) = false.
Proof.
  apply (gateway_that_answers_fills_every_slot props_ABC world_renders_all
           {| error_message := None; content := None;
              imageBase64 := Some (utf16 "iVBORw0KGgo=");
              candidate_parts := None |}).
  - reflexivity.
  - intros history c. reflexivity.
  - reflexivity.
Defined.
(* ===================================================================== *)
(** ** More about the preview: the key, the archive and the screen *)
(* ===================================================================== *)

Module PreviewFacts.

Import RuntimeFacts ControllerFacts.

Lemma digits_of_uint_inj a b : digits_of_uint a = digits_of_uint b -> a = b.
Proof.
  revert b. induction a; destruct b; simpl; intros H;
    try discriminate; try reflexivity; inversion H; f_equal; auto.
Qed.

Lemma decimal_inj a b : decimal a = decimal b -> a = b.
Proof.
  intros H. apply DecimalN.Unsigned.to_uint_inj.
  now apply digits_of_uint_inj.
Qed.

Lemma zip_entry_name_inj i j : zip_entry_name i = zip_entry_name j -> i = j.
Proof.
  unfold zip_entry_name. intros H.
  apply app_inv_head in H. apply app_inv_tail in H.
  apply decimal_inj in H. lia.
Qed.

(** The files of the archive are those of the filled slots. *)
Lemma zip_entries_spec imgs :
  forall idx name content,
    In (name, content) (zip_entries imgs idx) <->
    exists k img,
      nth_error imgs k = Some (Some img) /\ img <> []
      /\ name = zip_entry_name (idx + k) /\ content = strip_data_uri img.
Proof.
  induction imgs as [|img0 rest IH]; intros idx name content; simpl.
  - split; [contradiction|]. intros (k & img & H & _). now destruct k.
  - assert (Hrest :
      In (name, content) (zip_entries rest (S idx)) <->
      exists k img,
        nth_error (img0 :: rest) (S k) = Some (Some img) /\ img <> []
        /\ name = zip_entry_name (idx + S k) /\ content = strip_data_uri img).
    { rewrite IH. split; intros (k & img & H1 & H2 & H3 & H4);
        exists k, img; simpl in *; repeat split; auto;
        rewrite H3; f_equal; lia. }
    destruct img0 as [[|c img0]|]; simpl.
    + rewrite Hrest. split.
      * intros (k & img & H). exists (S k), img. exact H.
      * intros ([|k] & img & H1 & H2 & H3); simpl in H1.
        -- inversion H1. congruence.
        -- exists k, img. auto.
    + rewrite Hrest. split.
      * intros [H|(k & img & H)].
        -- inversion H. exists 0%nat, (c :: img0). simpl.
           rewrite Nat.add_0_r. repeat split. discriminate.
        -- exists (S k), img. exact H.
      * intros ([|k] & img & H1 & H2 & H3 & H4); simpl in H1.
        -- left. inversion H1. subst. now rewrite Nat.add_0_r.
        -- right. exists k, img. auto.
    + rewrite Hrest. split.
      * intros (k & img & H). exists (S k), img. exact H.
      * intros ([|k] & img & H1 & H2 & H3); simpl in H1.
        -- discriminate.
        -- exists k, img. auto.
Qed.

Lemma zip_entries_names imgs :
  forall idx name,
    In name (map fst (zip_entries imgs idx)) ->
    exists k, name = zip_entry_name (idx + k).
Proof.
  intros idx name H. apply in_map_iff in H.
  destruct H as ([n c] & <- & Hin). apply zip_entries_spec in Hin.
  destruct Hin as (k & _ & _ & _ & -> & _). now exists k.
Qed.

Lemma zip_entries_NoDup imgs :
  forall idx, NoDup (map fst (zip_entries imgs idx)).
Proof.
  induction imgs as [|img rest IH]; intros idx; simpl; [constructor|].
  destruct (option_truthy img); [|apply IH].
  simpl. constructor; [|apply IH].
  intros Hin. apply zip_entries_names in Hin. destruct Hin as [k Hk].
  apply zip_entry_name_inj in Hk. lia.
Qed.

Lemma strip_data_uri_payload payload :
  strip_data_uri (data_uri_prefix ++ payload) = payload.
Proof.
  unfold strip_data_uri.
  assert (H : prefixb data_uri_prefix (data_uri_prefix ++ payload) = true)
    by (apply CutFacts.prefixb_spec; now exists payload).
  rewrite H. now rewrite skipn_app, skipn_all, Nat.sub_diag.
Qed.

Lemma replace_spaces_clean in_run s :
  Forall (fun c => is_trim_space c = false) (replace_spaces in_run s).
Proof.
  revert in_run. induction s as [|c s IH]; intros in_run; simpl.
  - constructor.
  - destruct (is_trim_space c) eqn:E.
    + destruct in_run; [apply IH|]. constructor; [reflexivity | apply IH].
    + constructor; [exact E | apply IH].
Qed.

Lemma slot_truthy imgs k :
  option_truthy (slot imgs k) = true <->
  exists img, nth_error imgs k = Some (Some img) /\ img <> [].
Proof.
  unfold slot. destruct (nth_error imgs k) as [[[|c img]|]|]; simpl; split;
    try discriminate; try (intros (img' & H & Hn); inversion H; congruence).
  intros _. exists (c :: img). split; [reflexivity | discriminate].
Qed.

End PreviewFacts.

(** X13 — On the gateway the component has a key exactly when the caller
    passed a non-empty one: after the effect that runs when it mounts,
    [hasApiKey] is true if and only if [apiKey] is not empty, AI Studio or
    not.  Without a key a batch run does nothing at all: no state change
    and no request. *)
Theorem gateway_needs_a_key_to_start :
  forall p aistudio w,
    provider p = Zenmux ->
    exists w1 evs1,
      runs (checkKey (apiKey p) (provider p) aistudio) w (Return tt) w1 evs1
      /\ hasApiKey (apply_events (initial_state p false) evs1)
         = truthy_string (apiKey p)
      /\ (apiKey p = [] ->
          forall w2,
            runs (startGeneration generateFinalSlideImage p
                    (apply_events (initial_state p false) evs1))
                 w2 (Return tt) w2 []).
Proof.
  intros p aistudio w Hp. unfold checkKey. rewrite Hp.
  destruct (apiKey p) as [|c key] eqn:Hkey; simpl.
  - exists w, []. split; [apply RuntimeFacts.runs_ret|].
    split; [reflexivity|]. intros _ w2.
    now apply BatchFacts.startGeneration_without_key.
  - destruct (RuntimeFacts.runs_emit (SetHasApiKey true) w) as [w1 H1].
    exists w1, [SetHasApiKey true]. split; [exact H1|].
    split; [reflexivity | discriminate].
Qed.

Lemma gateway_needs_a_key_to_start_witness :
  exists w1 evs1,
    runs (checkKey (apiKey props_ABC) (provider props_ABC) None)
         world_renders_all (Return tt) w1 evs1
    /\ hasApiKey (apply_events (initial_state props_ABC false) evs1)
       = truthy_string (apiKey props_ABC)
    /\ (apiKey props_ABC = [] ->
        forall w2,
          runs (startGeneration generateFinalSlideImage props_ABC
                  (apply_events (initial_state props_ABC false) evs1))
               w2 (Return tt) w2 []).
Proof.
  apply (gateway_needs_a_key_to_start props_ABC None world_renders_all).
  reflexivity.
Defined.

(** X14 — The archive of [downloadZip].  When no slot holds an image it
    does nothing, and only then; the library is not asked.  Otherwise the
    library builds the archive from one file for each slot that holds an
    image and no other: the file of slot [k] is named "slide_<k+1>.png",
    no two files have the same name, and an image that is a PNG data URL,
    as the generator returns them, is stored as its payload alone.  When
    the library rejects these files [downloadZip] fails with the error of
    the library and offers nothing; when it accepts them, the archive is
    offered under the topic of the plan with every run of white space
    replaced by an underscore, followed by "_presentation.zip". *)
Theorem archive_has_one_file_per_image :
  forall generateAsync p st,
    let files := zip_entries (generatedImages st) 0 in
    (downloadZip generateAsync p st = Return None <->
     forall k, option_truthy (slot (generatedImages st) k) = false)
    /\ ((exists k, option_truthy (slot (generatedImages st) k) = true) ->
        downloadZip generateAsync p st
        = match generateAsync files with
          | Return _ =>
              Return
                (Some {| archive_name :=
                           replace_spaces false (topic (plan p))
                           ++ utf16 "_presentation.zip";
                         archive_files := files |})
          | Throw e => Throw e
          end)
    /\ (forall name content,
           In (name, content) files <->
           exists k img,
             nth_error (generatedImages st) k = Some (Some img)
             /\ img <> [] /\ name = zip_entry_name k
             /\ content = strip_data_uri img)
    /\ NoDup (map fst files)
    /\ (forall k payload,
           slot (generatedImages st) k = Some (data_uri_prefix ++ payload) ->
           In (zip_entry_name k, payload) files)
    /\ Forall (fun c => is_trim_space c = false)
              (replace_spaces false (topic (plan p))
               ++ utf16 "_presentation.zip").
Proof.
  intros generateAsync p st files.
  assert (Hspec : forall name content,
             In (name, content) files <->
             exists k img,
               nth_error (generatedImages st) k = Some (Some img)
               /\ img <> [] /\ name = zip_entry_name k
               /\ content = strip_data_uri img)
    by (intros name content; apply PreviewFacts.zip_entries_spec).
  assert (Hempty : files = [] <->
                   forall k, option_truthy (slot (generatedImages st) k)
                             = false).
  { split.
    - intros Hz k.
      destruct (option_truthy (slot (generatedImages st) k)) eqn:Hk;
        [|reflexivity].
      apply PreviewFacts.slot_truthy in Hk. destruct Hk as (img & Hn & Hne).
      exfalso.
      assert (In (zip_entry_name k, strip_data_uri img) files) as Hin
        by (apply Hspec; exists k, img; auto).
      rewrite Hz in Hin. exact Hin.
    - intros Hall. destruct files as [|[n c] rest] eqn:Hz; [reflexivity|].
      exfalso.
      destruct (proj1 (Hspec n c) (or_introl eq_refl))
        as (k & img & Hn & Hne & _).
      specialize (Hall k).
      assert (option_truthy (slot (generatedImages st) k) = true)
        by (apply PreviewFacts.slot_truthy; eauto).
      congruence. }
  split; [|split; [|split; [exact Hspec|split; [|split]]]].
  - rewrite <- Hempty. unfold downloadZip. fold files.
    destruct files as [|f rest]; [split; reflexivity|].
    split; [|discriminate].
    destruct (generateAsync (f :: rest)); discriminate.
  - intros (k & Hk). unfold downloadZip. fold files.
    destruct files as [|f rest]; [|reflexivity].
    rewrite (proj1 Hempty eq_refl k) in Hk. discriminate.
  - apply PreviewFacts.zip_entries_NoDup.
  - intros k payload Hk. apply Hspec.
    exists k, (data_uri_prefix ++ payload). unfold slot in Hk.
    destruct (nth_error (generatedImages st) k) as [x|]; [|discriminate].
    subst x. split; [reflexivity|]. split; [discriminate|].
    split; [reflexivity|].
    now rewrite PreviewFacts.strip_data_uri_payload.
  - apply Forall_app. split; [apply PreviewFacts.replace_spaces_clean|].
    repeat constructor.
Qed.

Lemma archive_has_one_file_per_image_witness :
  downloadZip (fun _ => Throw (Error (utf16 "Invalid base64 input")))
    props_ABC state_A_rendered
  = Throw (Error (utf16 "Invalid base64 input"))
  /\ downloadZip (fun _ => Return tt) props_ABC state_A_rendered
     = Return
         (Some {| archive_name := utf16 "Acme_Q3_presentation.zip";
                  archive_files := [(utf16 "slide_1.png", utf16 "AAAA")] |}).
Proof.
  split.
  - rewrite (proj1 (proj2 (archive_has_one_file_per_image
                             (fun _ => Throw (Error (utf16 "Invalid base64 input")))
                             props_ABC state_A_rendered))).
    + reflexivity.
    + exists 0%nat. reflexivity.
  - rewrite (proj1 (proj2 (archive_has_one_file_per_image
                             (fun _ => Return tt)
                             props_ABC state_A_rendered))).
    + reflexivity.
    + exists 0%nat. reflexivity.
Defined.

(** X15 — What the component shows after a batch run that started with a
    key, provided every request of the run settles, with a response or
    with an Error object (a request that never settles keeps the run
    waiting, and the handler of the component reads the message of
    whatever is thrown, so a rejection with [null] or [undefined] fails
    the run before it resets [isGenerating]).  The run alerts at most
    once.  If it alerted, the screen asks for a key.  If it did not, the
    screen is the start screen when every slot is still [null], and
    otherwise the grid with one card per slide, in order, each card the
    image of its slot or, for a slot without an image, "Generation
    Failed": no card is left rendering or waiting. *)
Theorem screen_after_a_run :
  forall p st w,
    hasApiKey st = true ->
    exists w' evs,
      runs (startGeneration generateFinalSlideImage p st) w (Return tt) w' evs
      /\ (alerts evs = [] \/ alerts evs = [alert_text (uiLanguage p)])
      /\ screen p (apply_events st evs)
         = match alerts evs with
           | _ :: _ => KeyRequired
           | [] =>
               if forallb is_null (generatedImages (apply_events st evs))
               then ReadyToGenerate
               else Grid (map (settled_card
                                 (generatedImages (apply_events st evs)))
                              (seq 0 (length (slides (plan p)))))
           end.
Proof.
  intros p st w Hkey.
  destruct (BatchFacts.run_ends_idle generateFinalSlideImage
              ImageFacts.generateFinalSlideImage_runs p st w Hkey)
    as (w' & evs & Hr & Hidle & Hcases).
  exists w', evs. split; [exact Hr|].
  unfold screen. set (st' := apply_events st evs) in *.
  destruct Hcases as [[Hal Hk]|[Hal Hk]]; rewrite Hk, Hidle, Hal; simpl;
    [|split; [right|]; reflexivity].
  split; [now left|].
  destruct (forallb is_null (generatedImages st')); [reflexivity|].
  f_equal. apply map_ext. intros i. unfold card, settled_card.
  rewrite Hidle. simpl.
  destruct (option_truthy (slot (generatedImages st') i)); reflexivity.
Qed.

Lemma screen_after_a_run_witness :
  exists w' evs,
    runs (startGeneration generateFinalSlideImage props_ABC
            (initial_state props_ABC true))
         (world_B_fails "network error") (Return tt) w' evs
    /\ (alerts evs = [] \/ alerts evs = [alert_text (uiLanguage props_ABC)])
    /\ screen props_ABC (apply_events (initial_state props_ABC true) evs)
       = match alerts evs with
         | _ :: _ => KeyRequired
         | [] =>
             if forallb is_null
                  (generatedImages
                     (apply_events (initial_state props_ABC true) evs))
             then ReadyToGenerate
             else Grid (map (settled_card
                               (generatedImages
                                  (apply_events (initial_state props_ABC true)
                                     evs)))
                            (seq 0 (length (slides (plan props_ABC)))))
         end.
Proof.
  apply (screen_after_a_run props_ABC (initial_state props_ABC true)
           (world_B_fails "network error")).
  reflexivity.
Defined.
(* ===================================================================== *)
(** ** The slide editor *)
(* ===================================================================== *)

Module EditorFacts.

Lemma assign_at_in_range slides index s :
  (index < length slides)%nat ->
  exists slides',
    assign_at slides index s = Some slides'
    /\ length slides' = length slides
    /\ nth_error slides' index = Some s
    /\ forall k, k <> index -> nth_error slides' k = nth_error slides k.
Proof.
  revert index. induction slides as [|x rest IH]; intros [|i] H; simpl in *;
    try lia.
  - exists (s :: rest). repeat split. intros [|k] Hk; [congruence | reflexivity].
  - destruct (IH i) as (rest' & -> & Hl & Hn & Ho); [lia|].
    exists (x :: rest'). simpl. repeat split; auto.
    intros [|k] Hk; [reflexivity|]. apply Ho. congruence.
Qed.

Lemma update_slide_in_range plan index slide s :
  nth_error (slides plan) index = Some slide ->
  exists plan',
    update_slide plan index s = UpdatePlan plan'
    /\ topic plan' = topic plan /\ style plan' = style plan
    /\ requirements plan' = requirements plan
    /\ length (slides plan') = length (slides plan)
    /\ nth_error (slides plan') index = Some s
    /\ forall k, k <> index ->
                 nth_error (slides plan') k = nth_error (slides plan) k.
Proof.
  intros Hn.
  assert (Hi : (index < length (slides plan))%nat)
    by (apply nth_error_Some; congruence).
  destruct (assign_at_in_range (slides plan) index s Hi)
    as (slides' & Ha & Hl & Hs & Ho).
  unfold update_slide, handleUpdateSlide. rewrite Ha.
  eexists. split; [reflexivity|]. simpl. auto 10.
Qed.

Lemma existsb_eqb_In x l : existsb (JsString.eqb x) l = true <-> In x l.
Proof.
  rewrite existsb_exists. split.
  - intros (y & Hy & E). apply JsFacts.eqb_eq in E. now subst.
  - intros H. exists x. split; [exact H | apply JsFacts.eqb_refl].
Qed.

Lemma filter_out_absent x l :
  ~ In x l -> filter (fun i => negb (JsString.eqb i x)) l = l.
Proof.
  induction l as [|y l IH]; simpl; intros H; [reflexivity|].
  destruct (JsString.eqb y x) eqn:E; simpl.
  - apply JsFacts.eqb_eq in E. subst. exfalso. apply H. now left.
  - rewrite IH; [reflexivity|]. intros Hin. apply H. now right.
Qed.

(** *** Cutting a text into lines and joining them again *)

Lemma split_rounds_nonempty n sep s : split_rounds n sep s <> [].
Proof. destruct n; simpl; [|destruct (includes sep s)]; discriminate. Qed.

Lemma join_cons sep x l :
  l <> [] -> join sep (x :: l) = x ++ sep ++ join sep l.
Proof. destruct l; [congruence | reflexivity]. Qed.

Lemma join_split_rounds n sep s : join sep (split_rounds n sep s) = s.
Proof.
  revert s. induction n as [|n IH]; intros s; simpl; [reflexivity|].
  destruct (includes sep s) eqn:E; [|reflexivity].
  rewrite join_cons by apply split_rounds_nonempty.
  rewrite IH. symmetry. now apply CutFacts.includes_split.
Qed.

Lemma length_after_unit c s :
  In c s -> (length (after [c] s) < length s)%nat.
Proof.
  intros H. apply ServiceFacts.includes_unit in H.
  apply CutFacts.includes_split in H.
  rewrite H at 2. rewrite !length_app. simpl. lia.
Qed.

Lemma split_rounds_enough c n m s :
  (length s < n)%nat -> (length s < m)%nat ->
  split_rounds n [c] s = split_rounds m [c] s.
Proof.
  revert m s. induction n as [|n IH]; intros [|m] s Hn Hm; try lia.
  simpl. destruct (includes [c] s) eqn:E; [|reflexivity].
  f_equal. apply ServiceFacts.includes_unit in E.
  pose proof (length_after_unit c s E). apply IH; lia.
Qed.

Lemma split_join_lines bs :
  bs <> [] -> Forall (fun b => ~ In 10 b) bs ->
  split newline (join newline bs) = bs.
Proof.
  unfold newline. induction bs as [|x rest IH]; [congruence|].
  intros _ Hall. inversion Hall as [|? ? Hx Hrest]; subst.
  destruct rest as [|y rest].
  - simpl join. unfold split. cbn [split_rounds].
    now rewrite ServiceFacts.includes_unit_free.
  - rewrite join_cons by discriminate.
    change ([10] ++ join [10] (y :: rest)) with (10 :: join [10] (y :: rest)).
    unfold split. cbn [split_rounds].
    assert (Hin : includes [10] (x ++ 10 :: join [10] (y :: rest)) = true).
    { apply ServiceFacts.includes_unit. apply in_or_app. right. now left. }
    rewrite Hin, ServiceFacts.before_unit, ServiceFacts.after_unit by exact Hx.
    f_equal.
    transitivity (split [10] (join [10] (y :: rest)));
      [|apply IH; [discriminate | exact Hrest]].
    unfold split. apply split_rounds_enough; [|lia].
    rewrite length_app. simpl. lia.
Qed.

Lemma collect_images_app imgs a b :
  collect_images imgs (a ++ b) = collect_images imgs a ++ collect_images imgs b.
Proof.
  induction a as [|x a IH]; simpl; [reflexivity|].
  destruct (find_image imgs x) as [img|]; [|exact IH].
  destruct (option_truthy (file_dataUrl img)); simpl; now rewrite IH.
Qed.

(** An internal drop of an image that the slide does not have yet. *)
Lemma drop_appends plan slideIndex imageId slide onAddImages :
  nth_error (slides plan) slideIndex = Some slide ->
  imageId <> [] ->
  existsb (JsString.eqb imageId) (currentIds slide) = false ->
  exists plan',
    handleDrop plan slideIndex (internal_drag imageId) onAddImages
    = Return (UpdatePlan plan')
    /\ topic plan' = topic plan /\ style plan' = style plan
    /\ requirements plan' = requirements plan
    /\ length (slides plan') = length (slides plan)
    /\ nth_error (slides plan') slideIndex
       = Some (with_selectedImageIds slide (currentIds slide ++ [imageId]))
    /\ forall k, k <> slideIndex ->
                 nth_error (slides plan') k = nth_error (slides plan) k.
Proof.
  intros Hn Hid Hex.
  destruct (update_slide_in_range plan slideIndex slide
              (with_selectedImageIds slide (currentIds slide ++ [imageId]))
              Hn) as (plan' & Hu & H).
  exists plan'. split; [|exact H].
  assert (Ht : truthy_string imageId = true)
    by (destruct imageId; [congruence | reflexivity]).
  unfold handleDrop, internal_drag. cbn [dt_imageId dt_files].
  rewrite Ht, Hn. cbv beta iota. rewrite Hex. exact (f_equal Return Hu).
Qed.

(** An internal drop of an image that the slide has already. *)
Lemma drop_again plan slideIndex imageId slide onAddImages :
  nth_error (slides plan) slideIndex = Some slide ->
  imageId <> [] ->
  existsb (JsString.eqb imageId) (currentIds slide) = true ->
  handleDrop plan slideIndex (internal_drag imageId) onAddImages
  = Return NoUpdate.
Proof.
  intros Hn Hid Hex.
  assert (Ht : truthy_string imageId = true)
    by (destruct imageId; [congruence | reflexivity]).
  unfold handleDrop, internal_drag. cbn [dt_imageId dt_files].
  rewrite Ht, Hn. cbv beta iota. now rewrite Hex.
Qed.

End EditorFacts.

(** X16 — Dropping an image of the side bar on a slide selects it for
    that slide once.  The id goes to the end of the selection unless it
    is in it already, in which case nothing changes; so a selection
    without duplicates stays without duplicates and a second drop of the
    same image does nothing.  The other slides, their number and the
    topic, style and requirements of the plan stay as they are. *)
Theorem dropped_image_is_selected_once :
  forall plan slideIndex imageId slide onAddImages,
    nth_error (slides plan) slideIndex = Some slide ->
    imageId <> [] ->
    let drop p := plan_after p (handleDrop p slideIndex (internal_drag imageId)
                                           onAddImages) in
    selection (drop plan) slideIndex
    = (if existsb (JsString.eqb imageId) (currentIds slide)
       then currentIds slide else currentIds slide ++ [imageId])
    /\ (NoDup (currentIds slide) -> NoDup (selection (drop plan) slideIndex))
    /\ drop (drop plan) = drop plan
    /\ (forall k, k <> slideIndex ->
                  nth_error (slides (drop plan)) k = nth_error (slides plan) k)
    /\ length (slides (drop plan)) = length (slides plan)
    /\ topic (drop plan) = topic plan
    /\ style (drop plan) = style plan
    /\ requirements (drop plan) = requirements plan.
Proof.
  intros plan slideIndex imageId slide onAddImages Hn Hid drop.
  destruct (existsb (JsString.eqb imageId) (currentIds slide)) eqn:Hex.
  - assert (Hd : drop plan = plan).
    { unfold drop.
      now rewrite (EditorFacts.drop_again _ _ _ _ onAddImages Hn Hid Hex). }
    rewrite Hd. unfold selection. rewrite Hn. auto 10.
  - destruct (EditorFacts.drop_appends plan slideIndex imageId slide
                onAddImages Hn Hid Hex)
      as (plan' & Hu & Ht & Hs & Hr & Hl & Hat & Ho).
    assert (Hd : drop plan = plan') by (unfold drop; now rewrite Hu).
    rewrite Hd. unfold selection. rewrite Hat. simpl.
    split; [reflexivity|]. split; [|split; [|auto 10]].
    + intros Hnd. apply NoDup_app; [exact Hnd | repeat constructor; auto |].
      intros x Hx [<-|[]].
      apply EditorFacts.existsb_eqb_In in Hx. congruence.
    + unfold drop.
      rewrite (EditorFacts.drop_again plan' slideIndex imageId _ onAddImages
                 Hat Hid); [reflexivity|].
      simpl. apply EditorFacts.existsb_eqb_In. apply in_or_app.
      right. now left.
Qed.

Lemma dropped_image_is_selected_once_witness :
  selection
    (plan_after (plan props_ABC)
       (handleDrop (plan props_ABC) 1 (internal_drag (utf16 "img-7"))
                   (fun _ => Return [])))
    1
  = [utf16 "img-7"].
Proof.
  apply (proj1 (dropped_image_is_selected_once (plan props_ABC) 1
                  (utf16 "img-7") slide_B (fun _ => Return [])
                  eq_refl ltac:(discriminate))).
Defined.

(** X17 — Removing an image from a slide takes every occurrence of its id
    out of the selection of that slide and leaves the other ids in their
    order.  In particular it undoes a drop: dropping an image that was
    not selected and removing it again gives the selection back. *)
Theorem removing_undoes_dropping :
  forall plan slideIndex imageId slide onAddImages,
    nth_error (slides plan) slideIndex = Some slide ->
    imageId <> [] ->
    let remove p := plan_after p (removeImageFromSlide p slideIndex imageId) in
    let drop p := plan_after p (handleDrop p slideIndex (internal_drag imageId)
                                           onAddImages) in
    selection (remove plan) slideIndex
    = filter (fun i => negb (JsString.eqb i imageId)) (currentIds slide)
    /\ ~ In imageId (selection (remove plan) slideIndex)
    /\ (~ In imageId (currentIds slide) ->
        selection (remove (drop plan)) slideIndex = currentIds slide).
Proof.
  intros plan slideIndex imageId slide onAddImages Hn Hid remove drop.
  assert (Hremove : forall p s,
             nth_error (slides p) slideIndex = Some s ->
             selection (remove p) slideIndex
             = filter (fun i => negb (JsString.eqb i imageId)) (currentIds s)).
  { intros p s Hs.
    destruct (EditorFacts.update_slide_in_range p slideIndex s
                (with_selectedImageIds s
                   (filter (fun i => negb (JsString.eqb i imageId))
                           (currentIds s))) Hs) as (p' & Hu & _ & _ & _ & _ & Hat & _).
    unfold remove, removeImageFromSlide. rewrite Hs, Hu. simpl.
    unfold selection. now rewrite Hat. }
  split; [now apply Hremove|]. split.
  - rewrite (Hremove plan slide Hn). intros Hin.
    apply filter_In in Hin. destruct Hin as [_ Hin].
    now rewrite JsFacts.eqb_refl in Hin.
  - intros Hnot.
    assert (Hex : existsb (JsString.eqb imageId) (currentIds slide) = false).
    { destruct (existsb _ _) eqn:E; [|reflexivity].
      apply EditorFacts.existsb_eqb_In in E. contradiction. }
    destruct (EditorFacts.drop_appends plan slideIndex imageId slide
                onAddImages Hn Hid Hex)
      as (plan' & Hu & _ & _ & _ & _ & Hat & _).
    assert (Hd : drop plan = plan') by (unfold drop; now rewrite Hu).
    rewrite Hd, (Hremove plan' _ Hat).
    cbn [currentIds with_selectedImageIds selectedImageIds].
    rewrite filter_app. cbn [filter]. rewrite JsFacts.eqb_refl. cbn [negb].
    rewrite app_nil_r. now apply EditorFacts.filter_out_absent.
Qed.

Lemma removing_undoes_dropping_witness :
  selection
    (plan_after
       (plan_after (plan props_ABC)
          (handleDrop (plan props_ABC) 1 (internal_drag (utf16 "img-7"))
                      (fun _ => Return [])))
       (removeImageFromSlide
          (plan_after (plan props_ABC)
             (handleDrop (plan props_ABC) 1 (internal_drag (utf16 "img-7"))
                         (fun _ => Return [])))
          1 (utf16 "img-7")))
    1
  = [].
Proof.
  apply (proj2 (proj2 (removing_undoes_dropping (plan props_ABC) 1
                         (utf16 "img-7") slide_B (fun _ => Return [])
                         eq_refl ltac:(discriminate)))).
  intros [].
Defined.

(** X18 — The text area of the bullets loses nothing.  After an edit the
    slide holds the lines of the text typed, and the text area, which
    shows them joined, shows the text typed again; title, note and
    selection of the slide and the other slides stay as they are.  And
    the lines made of the text the area shows are the bullets it was made
    from, provided there is at least one bullet and no bullet holds a
    line break. *)
Theorem bullets_survive_the_text_area :
  (forall plan index slide value,
      nth_error (slides plan) index = Some slide ->
      exists plan' slide',
        edit_bullets plan index slide value = UpdatePlan plan'
        /\ nth_error (slides plan') index = Some slide'
        /\ bullets_text slide' = value
        /\ title slide' = title slide
        /\ visualNote slide' = visualNote slide
        /\ selectedImageIds slide' = selectedImageIds slide
        /\ forall k, k <> index ->
                     nth_error (slides plan') k = nth_error (slides plan) k)
  /\ (forall slide,
         bullets slide <> [] ->
         Forall (fun b => ~ In 10 b) (bullets slide) ->
         split newline (bullets_text slide) = bullets slide).
Proof.
  split.
  - intros plan index slide value Hn.
    destruct (EditorFacts.update_slide_in_range plan index slide
                (with_bullets slide (split newline value)) Hn)
      as (plan' & Hu & _ & _ & _ & _ & Hat & Ho).
    exists plan', (with_bullets slide (split newline value)).
    split; [exact Hu|]. split; [exact Hat|].
    split; [apply EditorFacts.join_split_rounds|]. auto.
  - intros slide Hne Hall. now apply EditorFacts.split_join_lines.
Qed.

Lemma bullets_survive_the_text_area_witness :
  split newline (bullets_text slide_A) = bullets slide_A.
Proof.
  apply (proj2 bullets_survive_the_text_area slide_A).
  - discriminate.
  - repeat constructor. simpl. intuition discriminate.
Defined.

(** X19 — An image dropped on a slide in the editor is sent with that
    slide by the preview.  When the image is among the uploaded ones and
    has a data URL, the batch run calls the generator for the edited
    slide with the images it had before followed by the data URL of the
    new one, and with the same style. *)
Theorem dropped_image_reaches_the_generator :
  forall p slideIndex imageId slide onAddImages img dataUrl,
    nth_error (slides (plan p)) slideIndex = Some slide ->
    imageId <> [] ->
    ~ In imageId (currentIds slide) ->
    find_image (images p) imageId = Some img ->
    file_dataUrl img = Some dataUrl ->
    dataUrl <> [] ->
    let plan' := plan_after (plan p)
                   (handleDrop (plan p) slideIndex (internal_drag imageId)
                               onAddImages) in
    exists slide',
      nth_error (slides plan') slideIndex = Some slide'
      /\ ra_images (render_args (with_plan p plan') slide')
         = ra_images (render_args p slide) ++ [dataUrl]
      /\ ra_style (render_args (with_plan p plan') slide')
         = ra_style (render_args p slide)
      /\ title (ra_slide (render_args (with_plan p plan') slide'))
         = title slide
      /\ bullets (ra_slide (render_args (with_plan p plan') slide'))
         = bullets slide.
Proof.
  intros p slideIndex imageId slide onAddImages img dataUrl
         Hn Hid Hnot Hfind Hurl Hne plan'.
  assert (Hex : existsb (JsString.eqb imageId) (currentIds slide) = false).
  { destruct (existsb _ _) eqn:E; [|reflexivity].
    apply EditorFacts.existsb_eqb_In in E. contradiction. }
  destruct (EditorFacts.drop_appends (plan p) slideIndex imageId slide
              onAddImages Hn Hid Hex)
    as (plan'' & Hu & _ & Hs & _ & _ & Hat & _).
  assert (Hd : plan' = plan'') by (unfold plan'; now rewrite Hu).
  rewrite Hd. eexists. split; [exact Hat|].
  unfold render_args, slideImagesBase64, with_plan. simpl.
  rewrite Hs. split; [|auto].
  rewrite EditorFacts.collect_images_app. simpl.
  rewrite Hfind, Hurl. simpl.
  destruct dataUrl; [congruence|]. simpl.
  unfold currentIds. now destruct (selectedImageIds slide).
Qed.

Lemma dropped_image_reaches_the_generator_witness :
  exists slide',
    nth_error
      (slides (plan_after (plan props_ABC)
                 (handleDrop (plan props_ABC) 1
                             (internal_drag (utf16 "img-7"))
                             (fun _ => Return []))))
      1 = Some slide'
    /\ selectedImageIds slide' = Some [utf16 "img-7"].
Proof.
  destruct (dropped_image_reaches_the_generator
              {| plan := plan props_ABC;
                 images := [ {| file_id := utf16 "img-7";
                                file_dataUrl :=
                                  Some (utf16 "data:image/png;base64,AAAA") |} ];
                 uiLanguage := En; provider := Zenmux;
                 apiKey := utf16 "sk-test" |}
              1 (utf16 "img-7") slide_B (fun _ => Return [])
              {| file_id := utf16 "img-7";
                 file_dataUrl := Some (utf16 "data:image/png;base64,AAAA") |}
              (utf16 "data:image/png;base64,AAAA")
              eq_refl ltac:(discriminate) ltac:(intros [])
              eq_refl eq_refl ltac:(discriminate))
    as (slide' & Hat & _).
  exists slide'. split; [exact Hat|].
  simpl in Hat. inversion Hat. reflexivity.
Defined.
(* ===================================================================== *)
(** ** The upload form *)
(* ===================================================================== *)

Module UploadFacts.

Lemma splice_one_incl {A} (l : list A) idx x :
  In x (splice_one l idx) -> In x l.
Proof.
  revert idx. induction l as [|y l IH]; intros [|i]; simpl; auto.
  intros [H|H]; [now left | right; eauto].
Qed.

Lemma splice_one_NoDup {A} (l : list A) idx :
  NoDup l -> NoDup (splice_one l idx).
Proof.
  revert idx. induction l as [|y l IH]; intros [|i] H; simpl;
    try constructor; inversion H; subst; auto.
  intros Hin. apply splice_one_incl in Hin. contradiction.
Qed.

Definition url_invariant (st : UrlState) : Prop :=
  NoDup (urls st) /\ ~ In [] (urls st).

Lemma url_step_invariant st a :
  url_invariant st -> url_invariant (url_step st a).
Proof.
  intros [Hnd Hne]. destruct a as [value| |idx]; simpl.
  - split; assumption.
  - unfold addUrl.
    destruct (truthy_string (urlInput st)) eqn:Ht; simpl; [|now split].
    destruct (existsb (JsString.eqb (urlInput st)) (urls st)) eqn:Hex; simpl;
      [now split|].
    split.
    + apply NoDup_app; [exact Hnd | repeat constructor; auto |].
      intros x Hx [<-|[]]. apply EditorFacts.existsb_eqb_In in Hx. congruence.
    + intros Hin. apply in_app_or in Hin. destruct Hin as [Hin|[Hin|[]]].
      * contradiction.
      * rewrite Hin in Ht. discriminate.
  - split.
    + now apply splice_one_NoDup.
    + intros Hin. apply splice_one_incl in Hin. contradiction.
Qed.

Lemma url_steps_invariant actions :
  forall st, url_invariant st -> url_invariant (fold_left url_step actions st).
Proof.
  induction actions as [|a actions IH]; intros st H; simpl; [exact H|].
  apply IH. now apply url_step_invariant.
Qed.

(** *** Reading a decimal numeral *)

Lemma parse_digits_decimal d :
  forall acc,
    parse_digits 10 (digits_of_uint d) (Some acc) = Some (uint_value d acc).
Proof.
  induction d; intros acc; simpl; try reflexivity; rewrite IHd; f_equal.
  rewrite N.add_0_r. reflexivity.
Qed.

Lemma parse_digits_numeral d :
  d <> Decimal.Nil ->
  parse_digits 10 (digits_of_uint d) None = Some (uint_value d 0).
Proof.
  destruct d; intros H; try congruence; simpl;
    rewrite parse_digits_decimal; reflexivity.
Qed.

Lemma uint_value_acc d :
  forall acc, N.pos (Pos.of_uint_acc d acc) = uint_value d (N.pos acc).
Proof.
  induction d; intros acc; cbn [Pos.of_uint_acc uint_value];
    try reflexivity; rewrite IHd; f_equal; lia.
Qed.

Lemma uint_value_of_uint d : N.of_uint d = uint_value d 0.
Proof.
  unfold N.of_uint. induction d; simpl; try reflexivity;
    try (rewrite uint_value_acc; reflexivity).
  exact IHd.
Qed.

Lemma to_uint_not_nil n : N.to_uint n <> Decimal.Nil.
Proof.
  intros H. pose proof (DecimalN.Unsigned.of_to n) as E.
  rewrite H in E. simpl in E. subst n. discriminate.
Qed.

Lemma parse_digits_of_decimal n : parse_digits 10 (decimal n) None = Some n.
Proof.
  unfold decimal. rewrite parse_digits_numeral by apply to_uint_not_nil.
  now rewrite <- uint_value_of_uint, DecimalN.Unsigned.of_to.
Qed.

Lemma digits_of_uint_digits d : Forall (fun c => is_digit c = true)
                                         (digits_of_uint d).
Proof. induction d; simpl; constructor; auto. Qed.

Lemma digit_cases c :
  is_digit c = true ->
  c = 48 \/ c = 49 \/ c = 50 \/ c = 51 \/ c = 52 \/ c = 53 \/ c = 54
  \/ c = 55 \/ c = 56 \/ c = 57.
Proof.
  unfold is_digit. intros H. apply andb_true_iff in H.
  destruct H as [Hlo Hhi]. apply N.leb_le in Hlo, Hhi. lia.
Qed.

Ltac each_digit H :=
  apply digit_cases in H;
  repeat (destruct H as [H|H]); subst.

Lemma parseInt_digits s :
  s <> [] -> Forall (fun c => is_digit c = true) s ->
  parseInt s
  = match parse_digits 10 s None with
    | Some n => Some (Z.of_N n)
    | None => None
    end.
Proof.
  intros Hne Hall. destruct s as [|c rest]; [congruence|].
  inversion Hall as [|? ? Hc Hrest]; subst. clear Hall Hne.
  unfold parseInt.
  destruct rest as [|c2 rest2].
  - each_digit Hc; reflexivity.
  - inversion Hrest as [|? ? Hc2 _]; subst. clear Hrest.
    each_digit Hc; try reflexivity.
    each_digit Hc2; reflexivity.
Qed.

Lemma parseInt_decimal n : parseInt (decimal n) = Some (Z.of_N n).
Proof.
  rewrite parseInt_digits.
  - now rewrite parse_digits_of_decimal.
  - unfold decimal. pose proof (to_uint_not_nil n).
    destruct (N.to_uint n); simpl; congruence.
  - apply digits_of_uint_digits.
Qed.

(** [endsWith], by what it means. *)
Lemma endsWith_spec suffix s :
  endsWith suffix s = true <-> exists stem, s = stem ++ suffix.
Proof.
  unfold endsWith. rewrite CutFacts.prefixb_spec. split.
  - intros [r Hr]. exists (rev r).
    rewrite <- (rev_involutive s), Hr, rev_app_distr.
    now rewrite rev_involutive.
  - intros [stem ->]. exists (rev stem). apply rev_app_distr.
Qed.

End UploadFacts.

(** X20 — The list of URLs of the form never holds the same URL twice and
    never holds the empty text, whatever the user types, adds and
    removes, in whatever order, starting from the empty form. *)
Theorem url_list_stays_duplicate_free :
  forall actions,
    NoDup (urls (fold_left url_step actions no_urls))
    /\ ~ In [] (urls (fold_left url_step actions no_urls)).
Proof.
  intros actions. apply (UploadFacts.url_steps_invariant actions no_urls).
  split; [constructor | intros []].
Qed.

(** X21 — A drop on the form is taken as a whole or not at all.  A
    dropped file passes the filter when its type is one of the eight
    accepted types or its name ends in ".md".  When the files already
    there and the dropped files that pass the filter are at most five
    together, the drop is taken: the files that pass are appended, in the
    order of the drop, to the ones already there.  When they are more
    than five the drop is refused: the user is alerted and the list stays
    as it is.  A drop that carries no file list does nothing.  So a list
    of at most five files has at most five after a drop. *)
Theorem drop_keeps_at_most_five_files :
  forall files all,
    let passing := filter accepted all in
    handleFileDrop files None = FilesUntouched
    /\ (forall f,
           In f passing <->
           In f all
           /\ (In (f_type f) accepted_types
               \/ exists stem, f_name f = stem ++ utf16 ".md"))
    /\ ((length files + length passing <= 5)%nat ->
        handleFileDrop files (Some all) = FilesChange (files ++ passing))
    /\ ((5 < length files + length passing)%nat ->
        handleFileDrop files (Some all) = AlertMaxFiles
        /\ files_after files (handleFileDrop files (Some all)) = files)
    /\ ((length files <= 5)%nat ->
        (length (files_after files (handleFileDrop files (Some all)))
         <= 5)%nat).
Proof.
  intros files all passing. split; [reflexivity|].
  split; [|split; [|split]].
  - intros f. unfold passing. rewrite filter_In. unfold accepted.
    rewrite orb_true_iff, EditorFacts.existsb_eqb_In.
    apply and_iff_compat_l. apply or_iff_compat_l.
    apply UploadFacts.endsWith_spec.
  - intros Hle. unfold handleFileDrop. fold passing.
    apply Nat.ltb_ge in Hle. now rewrite Hle.
  - intros Hgt. unfold handleFileDrop. fold passing.
    apply Nat.ltb_lt in Hgt. rewrite Hgt. split; reflexivity.
  - intros Hfiles. unfold handleFileDrop. fold passing.
    destruct (5 <? length files + length passing)%nat eqn:E; simpl.
    + exact Hfiles.
    + apply Nat.ltb_ge in E. now rewrite length_app.
Qed.

Lemma drop_keeps_at_most_five_files_witness :
  handleFileDrop [ plain_file "notes.md" "" ]
    (Some [ plain_file "a.png" "image/png";
            plain_file "b.exe" "application/octet-stream" ])
  = FilesChange [ plain_file "notes.md" ""; plain_file "a.png" "image/png" ].
Proof.
  pose proof (drop_keeps_at_most_five_files
                [ plain_file "notes.md" "" ]
                [ plain_file "a.png" "image/png";
                  plain_file "b.exe" "application/octet-stream" ]) as H.
  cbv zeta in H. apply (proj1 (proj2 (proj2 H))). simpl. lia.
Defined.

(** X22 — The slide count of the form.  Whatever text the field holds,
    the count handed to the parent is between 1 and 99; it is 5 when the
    text does not start with a number or the number is zero, and it is
    the number itself when the text is the decimal numeral of a number
    from 1 to 99.  With such a count the plan generator always returns a
    plan, whatever the provider does. *)
Theorem slide_count_field_gives_a_usable_count :
  forall value,
    (1 <= slide_count_of value <= 99)%Z
    /\ (parseInt value = None \/ parseInt value = Some 0%Z ->
        slide_count_of value = 5%Z)
    /\ (forall n, 1 <= n <= 99 -> slide_count_of (decimal n) = Z.of_N n)
    /\ forall contextText urlInputs outputLanguage styleInput
              requirementsInput provider apiKey addLog w,
         exists plan,
           outcome (generateSlidePlan contextText
                      (Z.to_N (slide_count_of value)) urlInputs outputLanguage
                      styleInput requirementsInput provider apiKey addLog) w
           = Return plan.
Proof.
  intros value.
  assert (Hrange : (1 <= slide_count_of value <= 99)%Z)
    by (unfold slide_count_of; lia).
  split; [exact Hrange|]. split; [|split].
  - unfold slide_count_of. intros [->| ->]; reflexivity.
  - intros n Hn. unfold slide_count_of.
    rewrite UploadFacts.parseInt_decimal.
    destruct n as [|p]; [lia|]. simpl Z.of_N. lia.
  - intros contextText urlInputs outputLanguage styleInput
           requirementsInput provider apiKey addLog w.
    destruct (PlanFacts.generateSlidePlan_cases contextText
                (Z.to_N (slide_count_of value)) urlInputs outputLanguage
                styleInput requirementsInput provider apiKey addLog w)
      as [w' Hcases].
    cbv zeta in Hcases. unfold outcome.
    destruct (plan_attempt_outcome _ provider apiKey addLog w) as [plan|e].
    + destruct Hcases as [-> _]. now exists plan.
    + rewrite Hcases.
      rewrite (PlanFacts.createFallbackPlan_returns
                 (Z.to_N (slide_count_of value)) outputLanguage styleInput)
        by lia.
      eexists. reflexivity.
Qed.

Lemma slide_count_field_gives_a_usable_count_witness :
  slide_count_of (decimal 12) = 12%Z.
Proof.
  apply (proj1 (proj2 (proj2 (slide_count_field_gives_a_usable_count
                                (decimal 12)))) 12).
  lia.
Defined.
(* ===================================================================== *)
(** ** Reading the files and starting the processing *)
(* ===================================================================== *)

Module FileFacts.

Lemma pdf_pages_text_all pages :
  forall i fullText,
    pdf_pages_text (map Return pages) i fullText
    = Return (fullText ++ page_lines i pages).
Proof.
  induction pages as [|items rest IH]; intros i fullText;
    cbn [pdf_pages_text map page_lines].
  - now rewrite app_nil_r.
  - rewrite IH. unfold page_line. f_equal.
    repeat rewrite <- app_assoc. reflexivity.
Qed.

Lemma pdf_pages_text_fails pages e :
  In (Throw e) pages ->
  forall i fullText, exists e', pdf_pages_text pages i fullText = Throw e'.
Proof.
  induction pages as [|[items|e0] rest IH]; simpl; intros Hin i fullText.
  - contradiction.
  - destruct Hin as [Hin|Hin]; [discriminate|]. now apply IH.
  - now exists e0.
Qed.

Section Processing.

Variable toLowerCase : jsstring -> jsstring.
Variable random_id : nat -> jsstring.

(** One file that is read without an error. *)
Lemma process_step file rest k combinedText imageFiles :
  read_error toLowerCase file = None ->
  process toLowerCase random_id (file :: rest) k combinedText imageFiles
  = process toLowerCase random_id rest (S k)
      (combinedText ++ section_of toLowerCase file)
      (imageFiles ++ image_of toLowerCase random_id k file).
Proof.
  unfold read_error, section_of, image_of, kind. cbn [process].
  destruct (existsb _ image_extensions).
  - destruct (f_dataURL file); [|discriminate].
    intros _. now rewrite app_nil_r.
  - destruct (JsString.eqb _ (utf16 "pdf")).
    + destruct (f_dataURL file); [|discriminate].
      intros _. now rewrite app_nil_r.
    + destruct (JsString.eqb _ (utf16 "docx")).
      * destruct (f_arrayBuffer file); [|discriminate].
        intros _. now rewrite app_nil_r.
      * destruct (existsb _ text_extensions).
        -- destruct (f_text file); [|discriminate].
           intros _. now rewrite app_nil_r.
        -- intros _. now rewrite !app_nil_r.
Qed.

(** One file whose read fails. *)
Lemma process_fails file rest k combinedText imageFiles e :
  read_error toLowerCase file = Some e ->
  process toLowerCase random_id (file :: rest) k combinedText imageFiles
  = Throw e.
Proof.
  unfold read_error, kind. cbn [process].
  destruct (existsb _ image_extensions).
  - destruct (f_dataURL file); [discriminate|]. now intros [= ->].
  - destruct (JsString.eqb _ (utf16 "pdf")).
    + destruct (f_dataURL file); [discriminate|]. now intros [= ->].
    + destruct (JsString.eqb _ (utf16 "docx")).
      * destruct (f_arrayBuffer file); [discriminate|]. now intros [= ->].
      * destruct (existsb _ text_extensions).
        -- destruct (f_text file); [discriminate|]. now intros [= ->].
        -- discriminate.
Qed.

Lemma process_all files :
  Forall (fun f => read_error toLowerCase f = None) files ->
  forall k combinedText imageFiles,
    process toLowerCase random_id files k combinedText imageFiles
    = Return (combinedText ++ concat (map (section_of toLowerCase) files),
              imageFiles ++ images_from toLowerCase random_id k files).
Proof.
  induction 1 as [|file rest Hfile _ IH]; intros k combinedText imageFiles.
  - simpl. now rewrite !app_nil_r.
  - rewrite (process_step _ _ _ _ _ Hfile), IH. simpl.
    now rewrite <- !app_assoc.
Qed.

Lemma process_first_failure read file rest e :
  Forall (fun f => read_error toLowerCase f = None) read ->
  read_error toLowerCase file = Some e ->
  forall k combinedText imageFiles,
    process toLowerCase random_id (read ++ file :: rest) k combinedText
            imageFiles
    = Throw e.
Proof.
  induction 1 as [|f read' Hf _ IH]; intros He k combinedText imageFiles.
  - now apply process_fails.
  - simpl app. rewrite (process_step _ _ _ _ _ Hf). now apply IH.
Qed.

(** Files none of which has an image extension add no image. *)
Lemma process_without_images files :
  Forall (fun f => kind toLowerCase f <> KImage) files ->
  forall k combinedText imageFiles,
    match process toLowerCase random_id files k combinedText imageFiles with
    | Return (_, images) => images = imageFiles
    | Throw _ => True
    end.
Proof.
  induction 1 as [|file rest Hfile _ IH]; intros k combinedText imageFiles.
  - reflexivity.
  - destruct (read_error toLowerCase file) as [e|] eqn:He.
    + now rewrite (process_fails _ _ _ _ _ _ He).
    + rewrite (process_step _ _ _ _ _ He).
      replace (image_of toLowerCase random_id k file) with (@nil UploadedFile).
      * rewrite app_nil_r. apply IH.
      * unfold image_of. destruct (kind toLowerCase file); try reflexivity.
        congruence.
Qed.

End Processing.

End FileFacts.

(** X23 — The text of a PDF.  When the document loads and every page can
    be read, it is one line per page, "[Page i] " followed by the text
    items of the page joined by blanks, the pages numbered from 1.  When
    the document does not load, or any page fails, it is the text "Error
    parsing PDF content." and nothing of the pages read before. *)
Theorem pdf_text_is_every_page_or_the_error_text :
  (forall pages,
      extractPdfText (Return (map Return pages)) = page_lines 1 pages)
  /\ (forall e, extractPdfText (Throw e) = pdf_error_text)
  /\ (forall pages e,
         In (Throw e) pages ->
         extractPdfText (Return pages) = pdf_error_text).
Proof.
  split; [|split].
  - intros pages. unfold extractPdfText.
    now rewrite FileFacts.pdf_pages_text_all.
  - reflexivity.
  - intros pages e Hin. unfold extractPdfText.
    destruct (FileFacts.pdf_pages_text_fails pages e Hin 1 []) as [e' ->].
    reflexivity.
Qed.

Lemma pdf_text_is_every_page_or_the_error_text_witness :
  extractPdfText
    (Return [Return [utf16 "Acme"; utf16 "Q3"]; Throw (Error (utf16 "bad page"))])
  = pdf_error_text.
Proof.
  apply (proj2 (proj2 pdf_text_is_every_page_or_the_error_text)
           _ (Error (utf16 "bad page"))).
  simpl. auto.
Defined.

(** X24 — What [processFiles] makes of the files.  When no read fails,
    the context is the sections of the documents in the order of the
    files, and the images are the files with an image extension, in the
    order of the files, each with its data URL and the id drawn at its
    position; an image adds nothing to the context, a document nothing to
    the images, and a file of another extension nothing at all.  When a
    read fails, the processing fails with the error of the first read
    that fails, without a result for the files read before.  A PDF or
    DOCX that cannot be parsed is not such a failure: its section holds
    the error text. *)
Theorem processing_reads_every_file_or_fails :
  forall toLowerCase random_id,
    (forall files,
        Forall (fun f => read_error toLowerCase f = None) files ->
        processFiles toLowerCase random_id files
        = Return (concat (map (section_of toLowerCase) files),
                  images_from toLowerCase random_id 0 files))
    /\ (forall read file rest e,
           Forall (fun f => read_error toLowerCase f = None) read ->
           read_error toLowerCase file = Some e ->
           processFiles toLowerCase random_id (read ++ file :: rest)
           = Throw e)
    /\ (forall file k,
           (kind toLowerCase file = KImage ->
            section_of toLowerCase file = [])
           /\ (kind toLowerCase file <> KImage ->
               image_of toLowerCase random_id k file = [])
           /\ (kind toLowerCase file = KOther ->
               read_error toLowerCase file = None
               /\ section_of toLowerCase file = [])
           /\ (kind toLowerCase file = KPdf ->
               forall e, f_pdf file = Throw e ->
               section_of toLowerCase file
               = document_section (f_name file) pdf_error_text)
           /\ (kind toLowerCase file = KDocx ->
               forall e, f_docx file = Throw e ->
               section_of toLowerCase file
               = document_section (f_name file) docx_error_text)).
Proof.
  intros toLowerCase random_id. split; [|split].
  - intros files Hall. unfold processFiles.
    now rewrite (FileFacts.process_all toLowerCase random_id files Hall).
  - intros read file rest e Hread He. unfold processFiles.
    now apply FileFacts.process_first_failure.
  - intros file k.
    unfold section_of, image_of, read_error.
    destruct (kind toLowerCase file); repeat split;
      try congruence; try reflexivity;
      intros _ e ->; reflexivity.
Qed.

Lemma processing_reads_every_file_or_fails_witness :
  processFiles ascii_lower (fun k => decimal (N.of_nat k))
    [ plain_file "Notes.TXT" "text/plain"; plain_file "logo.PNG" "image/png" ]
  = Return ([10] ++ utf16 "--- DOCUMENT: Notes.TXT ---" ++ [10],
            [ {| file_id := utf16 "1"; file_dataUrl := Some [] |} ]).
Proof.
  rewrite (proj1 (processing_reads_every_file_or_fails ascii_lower
                    (fun k => decimal (N.of_nat k)))).
  - reflexivity.
  - repeat constructor.
Defined.

Module AppFacts.

Import RuntimeFacts.


End AppFacts.


(** X26 — A key that lets the form start the processing also lets the
    preview generate.  The start button is enabled only with a non-empty
    key, and with a non-empty key the effect that runs when the preview
    mounts marks the key as present, on either provider and with or
    without AI Studio. *)
Theorem a_key_for_the_form_is_a_key_for_the_preview :
  forall files urls p aistudio w,
    start_disabled files urls (apiKey p) = false ->
    apiKey p <> []
    /\ exists w1,
         runs (checkKey (apiKey p) (provider p) aistudio) w (Return tt) w1
              [SetHasApiKey true]
         /\ hasApiKey (apply_events (initial_state p false) [SetHasApiKey true])
            = true.
Proof.
  intros files urls p aistudio w H. unfold start_disabled in H.
  apply orb_false_iff in H. destruct H as [_ H].
  apply negb_false_iff in H. split.
  - intros E. rewrite E in H. discriminate.
  - unfold checkKey. rewrite H.
    destruct (RuntimeFacts.runs_emit (SetHasApiKey true) w) as [w1 H1].
    exists w1. split; [exact H1 | reflexivity].
Qed.

Lemma a_key_for_the_form_is_a_key_for_the_preview_witness :
  apiKey props_ABC <> []
  /\ exists w1,
       runs (checkKey (apiKey props_ABC) (provider props_ABC) None)
            world_renders_all (Return tt) w1 [SetHasApiKey true]
       /\ hasApiKey (apply_events (initial_state props_ABC false)
                                  [SetHasApiKey true]) = true.
Proof.
  apply (a_key_for_the_form_is_a_key_for_the_preview
           [plain_file "notes.md" ""] [] props_ABC None world_renders_all).
  reflexivity.
Defined.

(** X27 — Files dropped from the desktop on a slide.  Those with an image
    MIME type are handed to the parent, which reads them and never fails:
    the images it returns are appended to the available images, their ids
    are appended to the selection of the slide, in order, and the other
    slides stay as they are.  When reading fails, or when none of the
    files has the extension jpg, jpeg, png or webp, no image is returned,
    the available images stay as they are and the selection gets no new
    id. *)
Theorem external_drop_selects_the_uploaded_images :
  forall toLowerCase random_id st plan slideIndex slide dropped,
    nth_error (slides plan) slideIndex = Some slide ->
    let files := filter (fun f => prefixb (utf16 "image/") (f_type f))
                        dropped in
    let added := handleAddImages toLowerCase random_id st files in
    files <> [] ->
    (exists plan',
        handleDrop plan slideIndex
          {| dt_imageId := []; dt_files := Some dropped |}
          (fun fs => Return (fst (handleAddImages toLowerCase random_id st fs)))
        = Return (UpdatePlan plan')
        /\ selection plan' slideIndex
           = currentIds slide ++ map file_id (fst added)
        /\ forall k, k <> slideIndex ->
                     nth_error (slides plan') k = nth_error (slides plan) k)
    /\ app_availableImages (snd added)
       = app_availableImages st ++ fst added
    /\ ((exists e, processFiles toLowerCase random_id files = Throw e)
        \/ Forall (fun f => kind toLowerCase f <> KImage) files ->
        fst added = []).
Proof.
  intros toLowerCase random_id st plan slideIndex slide dropped Hn files added
         Hne.
  split; [|split].
  - destruct (EditorFacts.update_slide_in_range plan slideIndex slide
                (with_selectedImageIds slide
                   (currentIds slide ++ map file_id (fst added))) Hn)
      as (plan' & Hu & _ & _ & _ & _ & Hat & Ho).
    exists plan'. split; [|split; [|exact Ho]].
    + unfold handleDrop. cbn [dt_imageId dt_files truthy_string].
      fold files. destruct dropped as [|f0 dropped0]; [now elim Hne|].
      destruct files as [|f files0] eqn:Hf; [now elim Hne|].
      rewrite Hn. exact (f_equal Return Hu).
    + unfold selection. now rewrite Hat.
  - unfold added, handleAddImages.
    destruct (processFiles toLowerCase random_id files) as [[c images]|e];
      simpl; [reflexivity | now rewrite app_nil_r].
  - unfold added, handleAddImages, processFiles.
    intros [[e He]|Hno].
    + unfold processFiles in He. now rewrite He.
    + pose proof (FileFacts.process_without_images toLowerCase random_id
                    files Hno 0%nat [] []) as H.
      destruct (process toLowerCase random_id files 0 [] [])
        as [[c images]|e]; [exact H | reflexivity].
Qed.

Lemma external_drop_selects_the_uploaded_images_witness :
  exists plan',
    handleDrop (plan props_ABC) 1
      {| dt_imageId := [];
         dt_files := Some [plain_file "logo.PNG" "image/png"] |}
      (fun fs =>
         Return (fst (handleAddImages ascii_lower
                        (fun k => decimal (N.of_nat k)) initial_app fs)))
    = Return (UpdatePlan plan')
    /\ selection plan' 1 = [utf16 "0"].
Proof.
  destruct (external_drop_selects_the_uploaded_images ascii_lower
              (fun k => decimal (N.of_nat k)) initial_app (plan props_ABC) 1
              slide_B [plain_file "logo.PNG" "image/png"] eq_refl
              ltac:(discriminate))
    as ((plan' & Hd & Hs & _) & _).
  exists plan'. split; [exact Hd | exact Hs].
Defined.
